(* ===== verification/_CoqProject ===== *)
-Q . S2P
Prelude.v
GoVal.v
Model.v
Validate.v
Circuit.v
Payload.v
EventTriggers.v
Heap.v
Queues.v
Dispatcher.v
Watchers.v
Listeners.v
World.v
Copy.v
Manager.v
Repository.v
Watch.v
Parallel.v
Executor.v
Orchestration.v
Effects.v
Slots.v
Sequential.v
Wire.v
Requests.v
Etcd.v
Fanout.v
PersistPool.v
Runtime.v
Exclusion.v
Worker.v
Heartbeat.v
Redelivery.v
Host.v
Workers.v
Health.v
Database.v
Mysql.v
Bus.v
Api.v
Config.v
Shutdown.v
Tracing.v
Startup.v
Restart.v
Server.v
Builtin.v
