(* ===== verification/Prelude.v ===== *)
(** * vibeflow: a verification development

    vibeflow runs workflows: a master keeps the definitions, the runs and their
    history, puts tasks under keys of etcd, and watches those keys; workers
    take tasks from etcd, execute them and write their outcomes back.  MySQL
    keeps the history; browsers follow the runs over WebSockets.  This library
    models that Go code and proves what it does.  Paths below are under src/.

    ** How the program is modelled

    Go's [int], [int64] and [time.Duration] are [Z] with their wrap-around
    written out ([wrap64]); maps are [gmap], sets [gset], slices lists; a value
    of type [any] is a [GoVal.val], in which a nil slice or map is other than an
    empty one; the output of a task is an option, [None] for a nil map; floats are
    the standard library's [spec_float].  Stateful code is in the monad [M] of this file: a call on a
    state returns a value and the next state, panics, or blocks for ever; a
    [(value, error)] pair is a [res].  [wp m Q s] says that [m] returns from [s]
    and that [Q] holds then; [wlp] allows panics and blocking.  A function that
    runs under a lock is one step.  Where goroutines interleave, the model says
    so: jobs that take steps in an order that the environment chooses
    (Parallel.v), programs as trees of calls of which a pool makes one call at a
    time (Effects.v, and on it Exclusion.v, Slots.v, Requests.v, Fanout.v,
    PersistPool.v),
    arbitrary sequences of operations (Listeners.v, Circuit.v, Queues.v, Bus.v),
    and calls whose steps are taken apart (the races of Listeners.v and Bus.v).
    An operation that is modelled in both ways does the same in both when it
    runs alone (Sequential.v, the [_alone] lemmas of Requests.v, and
    [pool_alone_is_sequential] of PersistPool.v).

    What the repository does not contain is a parameter, as a class: the etcd
    client ([Etcd.EtcdClient], its documented behaviour [EtcdLaws]), GORM and
    MySQL ([Database.Table], [Database], [DatabaseLaws]; [Memory] is an instance
    that satisfies them), identifiers ([World.Naming]), the cron parser
    ([Manager.CronLib]), what happens while a call waits
    ([Parallel.Environment], [Runtime.WorkerEnv]), the network and the disk
    ([Builtin.Outside]), OpenTelemetry and Gin ([Tracing.OTel] and [OTelLaws],
    [Server.Gin] and [GinLaws]), what happens around a process that starts or stops
    ([Shutdown.Outside], the variables of Startup), and what Go leaves to the
    platform ([GoVal.GoPlatform]).

    ** The files

    - This file: integers, results, the monad and its rules, record updates,
      generic lemmas on lists and maps.
    - GoVal: dynamic values and task contexts (domain/model/context.go).
      Model, Copy: definitions, indexes, input mappings, run-time state, deltas,
      deep copies (domain/model/workflow.go, task.go).  Validate: names, tasks,
      error policies (infra/engine/scheduler/types.go, workflow.go).
    - Circuit: the circuit breaker (infra/circuit/circuit.go).  Payload: task
      payloads, keys, the JSON field scan (infra/store/model.go), and what JSON
      makes of a value: nil is null, a float32 is read again from its shortest
      decimal, bytes that are not UTF-8 are replaced.  Wire: what a task reads of
      the values that crossed etcd so.
      EventTriggers (event_trigger.go).  Heap, Queues: container/heap and the
      worker's queue (infra/engine/runtime/priority_queue.go).
    - infra/engine/scheduler: Dispatcher (task_dispatcher.go: slots, the waiting
      heap, dispatch rounds, batches); Watchers (watch.go: the channels of the
      watched workflows, the backlog, the rollback semaphore); Listeners
      (scheduler.go: one-slot channels of waiting tasks); World (the state these
      parts share, with the store, the clock and the effects as its fields);
      Manager (workflow_manager.go); Repository (repository.go); Watch
      (watch.go, error_policy.go: what the events of a workflow do); Parallel
      and Executor (execution_manager.go, advanced_executor.go), Orchestration
      (their properties); Workers (worker_manager.go, backlog_metrics.go);
      Health (transport/http/handlers/health.go).
    - The same scheduler among other goroutines: Slots (the dispatcher and the
      slots, one atomic access at a time) and Sequential (one goroutine alone
      does what Dispatcher says); Requests (running, approving,
      rejecting and cancelling, lock section by lock section); Fanout (the goroutine
      that watches etcd, and the channels it fills); PersistPool (repository.go:
      the goroutines that write to MySQL).
    - infra/engine/runtime and infra/store/etcd, on programs as trees: Effects,
      Etcd (store.go), Runtime (registry.go, reporter.go, cas_lock.go,
      executor.go), Worker (worker.go), Heartbeat (heartbeat.go); Exclusion and
      Redelivery (their properties); Host (a worker together with what the code
      of its tasks changes).
    - infra/store/mysql: Database (the parameter), Mysql (history.go).
    - infra/ws: Bus.  transport/http/handlers, the facade of scheduler.go and
      JSON workflows: Api.  transport/http/server: Server.  infra/config,
      infra/plugin, infra/app: Config.  infra/tracing: Tracing.  plugin/builtin:
      Builtin.
    - The life of a process: Startup (cmd, infra/app, infra/logger, the opening
      of the database), Shutdown (scheduler.go: Shutdown; infra/app/master.go: Run),
      Restart (what a master knows that starts again).

    The fields of a component's Record are those of the Go struct, mutexes and
    loggers aside; definitions keep the names of the functions, with the file's
    or the type's name added where two would clash.

    ** What is proved

    - Definitions: validation accepts every definition that is well formed, and
      no other if what it does not look at is in order; examples of what it
      lets through (Validate); indexes find every task; copies keep
      what validation and execution read (Copy).
    - Scheduling: slots stay within the limits; a dispatch round accounts for
      every task and every slot, a failing batch included, keeps the order,
      and leaves no slot idle but those it gives back itself (Dispatcher); both heaps deliver
      by priority and age (Heap, Queues); no channel is closed twice or sent to
      when closed, and backlogs are delivered once and in order (Listeners,
      Watchers).
    - Running: a group has one result per task whatever the interleaving
      (Parallel); a run of groups terminates with the fuel it is given, and a
      workflow of plain tasks runs its groups in order, each on the outputs of
      those before (Orchestration); fan-outs, loops, approvals, retries,
      registration and history do what their theorems say (Orchestration,
      Manager).
    - Recovery and storage: snapshots restore what they recorded (Repository),
      loads in batch and alone agree, upserts are atomic (Mysql); what is
      written to MySQL as snapshots is nevertheless lost, since it is read in
      another form.
    - Concurrency: however goroutines that push, end and retry tasks interleave,
      the tasks in flight pass the global limit by one at most, and by the
      retries; a slot that is not given back is lost for good, a wake-up can be
      lost, and the limit of a workflow can be passed (Slots); a fan-out drops
      an event only when its channel is full, and a watcher ends with its
      context unless it waits for its backoff (Fanout); what two overlapping
      requests do (Requests).
    - End to end: what a worker does with the payloads that the dispatcher writes
      for the built-in tasks, from the PENDING key to the file on disk, and why
      the built-in workflow never gets that far (Host, Builtin).
    - The life of a process: how it starts, dies of a nil logger when it
      cannot, and closes all it has opened but MySQL (Startup); that a shutdown fails the
      runs it is said to wait for, and that their last states are not written
      (Shutdown, PersistPool); that a master which starts again has exactly the
      runs that MySQL says are running, forgets cron schedules and slots, and goes
      over the first open group of a run as a whole, whatever is completed or
      pending in etcd (Repository, Restart); the jobs of the persistence pool are conserved in
      any interleaving (PersistPool).  Every documented route is served (Server);
      a task carries its trace unless it had to queue (Tracing).
    - Values: what crossed etcd has the types of JSON, its strings are UTF-8 and
      what was nil is not found; integers below 2^53 in absolute value read the same
      afterwards, larger ones need not (Wire).
    - Workers: with compare-and-set a task runs at most once among any workers,
      failures and interleavings (Exclusion); under the lock instead it is
      executed again and again by its own reports (Redelivery); the circuit
      breaker refines its reference automaton (Circuit).
    - Outside: the bus's index stays exact, a message reaches exactly its
      subscribers (Bus); what requests do, and where that is not what the
      documentation says (Api).
    - Theorems that state what the code does where that is not what it means
      to do: [saga_never_compensates], [sub_workflow_never_starts],
      [snapshots_are_lost], [worker_feeds_itself], [scan_outcome],
      [alive_counter_drifts], [send_races_unregister], [jammed_dispatcher],
      [workflow_limit_races], [run_requests_race], [large_integers_change],
      [builtin_workflow_fails],
      [event_request_runs_at_once] and others.

    ** Fuel and bounds

    Loops whose recursion is not structural take fuel, always with a proof that
    it is enough.  [Heap.up_fuel] and [Heap.down_fuel]: the length of the heap.  Eviction
    and selection of waiting tasks, eviction of the history: the length of the
    queue, which each turn shortens.  [Executor.executeGroups]: one more than
    the number of groups, those of branches included; what happens without fuel
    is an argument, and [executeGroups_terminates] shows that no run depends on
    it.  [Parallel.run_tasks]: the number of steps the jobs have left.  Retry
    loops (store, reports, heartbeats, compare-and-set) have the code's own
    bounds.  The loops of a poll, of a heartbeat and of a watch end with their
    context, and take the number of turns the environment allows; the theorems of
    Fanout hold for every such number, as do those of PersistPool for the turns of
    its workers.  A round of Slots takes the length of the
    waiting queue, which nobody else changes while it is locked.  Theorems
    about counters assume the ranges of 64-bit integers where the code would
    wrap, and say so.

    ** Not modelled

    The log lines of all parts but the start of a process, and the spans of all
    but a task's (output only; the trace carrier of a payload is a parameter
    outside Tracing); pages and the handlers that pass one call on; TLS set-up;
    YAML, JSON text and GORM's SQL (libraries: the model takes decoded values, and rows);
    the adapters of interfaces.go that pass a call on (taken as the call).
    The names, identifiers and messages of a payload are taken to be valid
    UTF-8 (the values and keys of its parameters and outputs are not).  The time of a
    timer is when the environment lets it pass; the contexts that are derived after a
    shutdown are not listed as cancelled.  Slots takes a write of etcd that
    fails to have written nothing, and the goroutine that ends a task to be the
    only one that ends it.  Memory exhaustion and data
    races on a field read without its lock are not part of the model. *)
From stdpp Require Import base gmap sets list strings.
From Stdlib Require Import ZArith Lia.

Set Warnings "-register-all,-postfix-notation-not-level-1,-clear-no-such-hyp,-level-tolerance".

(** ** Machine integers

    Go's [int], [int64] and [time.Duration] are 64 bits wide and wrap around;
    [uint64] is taken modulo [2^64]. *)

Open Scope Z_scope.

Definition two63 : Z := 9223372036854775808.
Definition two64 : Z := 18446744073709551616.
Definition maxInt64 : Z := 9223372036854775807.
Definition minInt64 : Z := -9223372036854775808.

(** Two's-complement wrap-around of a mathematical integer. *)
Definition wrap64 (z : Z) : Z := (z + two63) mod two64 - two63.
Definition wrapU64 (z : Z) : Z := z mod two64.

Definition in64 (z : Z) : Prop := minInt64 <= z <= maxInt64.

(** [x << n] on [int64] for a non-negative count: a count of 64 or more
    shifts every bit out. *)
Definition shl64 (x n : Z) : Z := if 64 <=? n then 0 else wrap64 (Z.shiftl x n).

(** ** Results: Go's [(value, error)] pairs, with a type of errors per part *)

Inductive res (E A : Type) : Type :=
| Ok (a : A)
| Err (e : E).
Arguments Ok {E A} a.
Arguments Err {E A} e.

#[global] Instance res_ret (E : Type) : MRet (res E) := fun _ a => Ok a.
#[global] Instance res_bind (E : Type) : MBind (res E) := fun _ _ f m =>
  match m with Ok a => f a | Err e => Err e end.

Definition is_ok {E A : Type} (r : res E A) : bool :=
  match r with Ok _ => true | Err _ => false end.

(** Iterating a fallible step over a list, the first error wins: a Go [for]
    loop whose body returns on error. *)
Fixpoint for_res {E A S : Type} (f : S -> A -> res E S) (s : S) (l : list A) : res E S :=
  match l with
  | [] => Ok s
  | a :: l' => match f s a with Ok s' => for_res f s' l' | Err e => Err e end
  end.

(** ** Stateful code

    A call on a state [S] returns a value and the next state, or panics
    (run-time error of the program), or blocks for ever on a lock that the
    same goroutine already holds. *)

Inductive out (A : Type) : Type :=
| Ret (a : A)
| Panic
| Blocked.
Arguments Ret {A} a.
Arguments Panic {A}.
Arguments Blocked {A}.

Definition M (S A : Type) : Type := S -> out (A * S).

#[global] Instance M_ret (S : Type) : MRet (M S) := fun _ a s => Ret (a, s).
#[global] Instance M_bind (S : Type) : MBind (M S) := fun _ _ f m s =>
  match m s with
  | Ret (a, s') => f a s'
  | Panic => Panic
  | Blocked => Blocked
  end.

Definition get_st {S : Type} : M S S := fun s => Ret (s, s).
Definition put_st {S : Type} (s : S) : M S unit := fun _ => Ret (tt, s).
Definition modify {S : Type} (f : S -> S) : M S unit := fun s => Ret (tt, f s).
Definition gets {S A : Type} (f : S -> A) : M S A := fun s => Ret (f s, s).
Definition panic {S A : Type} : M S A := fun _ => Panic.
Definition blocked {S A : Type} : M S A := fun _ => Blocked.

(** A Go [for] loop over a slice, its body run for its effect. *)
Fixpoint for_each {S A : Type} (f : A -> M S unit) (l : list A) : M S unit :=
  match l with
  | [] => mret tt
  | a :: l' => f a ≫= fun _ => for_each f l'
  end.

(** What a call returns, if it does. *)
Definition returned {S A : Type} (m : M S A) (s : S) : option A :=
  match m s with Ret (a, _) => Some a | _ => None end.

(** Total correctness: the call returns, and its result satisfies [Q]. *)
Definition wp {S A : Type} (m : M S A) (Q : A -> S -> Prop) (s : S) : Prop :=
  match m s with Ret (a, s') => Q a s' | Panic | Blocked => False end.

(** Partial correctness: whatever the call returns satisfies [Q]. *)
Definition wlp {S A : Type} (m : M S A) (Q : A -> S -> Prop) (s : S) : Prop :=
  match m s with Ret (a, s') => Q a s' | Panic | Blocked => True end.

(** ** Record update: [r <| field := v |>] and [r <| field ::= f |>]

    [Eta R] rebuilds a record from its projections; the setter of a
    projection is found by abstracting that projection in it. *)

Class Eta (R : Type) := eta : R -> R.
Class Setter {R T : Type} (p : R -> T) := upd : (T -> T) -> R -> R.
Arguments upd {R T} p {_} f r /.

Ltac derive_setter :=
  match goal with
  | |- @Setter ?R ?T ?p =>
      let inst := constr:(_ : Eta R) in
      let body := eval hnf in inst in
      match eval pattern p in body with
      | ?g p => exact (fun (h : T -> T) (r : R) => g (fun r' => h (p r')) r)
      end
  end.

#[global] Hint Extern 1 (@Setter _ _ _) => derive_setter : typeclass_instances.

Declare Scope vibe_scope.
Delimit Scope vibe_scope with vibe.
Notation "r <| p := v |>" := (upd p (fun _ => v) r)
  (at level 12, left associativity, p constr at level 8, format "r <| p  :=  v |>") : vibe_scope.
Notation "r <| p ::= f |>" := (upd p f r)
  (at level 12, left associativity, p constr at level 8, format "r <| p  ::=  f |>") : vibe_scope.
Open Scope vibe_scope.

(** ** Automation *)

(** Reduce record updates and their projections. *)
Ltac upd_simpl := unfold upd in *; cbn in *.

(** Split every [match] and [if] of the goal on its scrutinee, then finish
    the easy branches. *)
Ltac split_cases := repeat case_match; simplify_eq/=; try done.

(** Take apart a monadic call known to return: one hypothesis per step. *)
Ltac wp_step :=
  match goal with
  | |- wp (mbind _ _) _ _ => unfold wp at 1; unfold mbind, M_bind; cbn
  | |- wlp (mbind _ _) _ _ => unfold wlp at 1; unfold mbind, M_bind; cbn
  end.

(** ** Lemmas: machine integers *)

Lemma wrap64_in (z : Z) : in64 z -> wrap64 z = z.
Proof.
  unfold in64, wrap64, minInt64, maxInt64, two63, two64. intros H.
  rewrite Z.mod_small; lia.
Qed.

Lemma wrap64_range (z : Z) : in64 (wrap64 z).
Proof.
  unfold in64, wrap64, minInt64, maxInt64, two63, two64.
  pose proof (Z.mod_pos_bound (z + 9223372036854775808) 18446744073709551616).
  lia.
Qed.

Lemma wrap64_idem (z : Z) : wrap64 (wrap64 z) = wrap64 z.
Proof. apply wrap64_in, wrap64_range. Qed.

Lemma wrap64_add_l (x y : Z) : wrap64 (wrap64 x + y) = wrap64 (x + y).
Proof.
  unfold wrap64. replace (_ + y + two63) with ((x + two63) mod two64 + y) by lia.
  rewrite Z.add_mod_idemp_l by done. f_equal. f_equal. lia.
Qed.

Lemma shl64_small (x n : Z) :
  0 <= n < 64 -> in64 (x * 2 ^ n) -> shl64 x n = x * 2 ^ n.
Proof.
  intros Hn Hin. unfold shl64. case_match; [lia|].
  rewrite Z.shiftl_mul_pow2 by lia. by apply wrap64_in.
Qed.

Lemma shl64_range (x n : Z) : in64 (shl64 x n).
Proof.
  unfold shl64. case_match; [unfold in64, minInt64, maxInt64; lia|].
  apply wrap64_range.
Qed.

(** ** Lemmas: results *)

Lemma for_res_app {E A S : Type} (f : S -> A -> res E S) (l k : list A) (s : S) :
  for_res f s (l ++ k) = for_res f s l ≫= fun s' => for_res f s' k.
Proof.
  revert s. induction l as [|a l IH]; intros s; [done|]. cbn.
  destruct (f s a); [apply IH|done].
Qed.

(** A loop that does not fail preserves what each of its steps preserves. *)
Lemma for_res_inv {E A S : Type} (I : S -> Prop) (f : S -> A -> res E S) l :
  (forall a s s', a ∈ l -> I s -> f s a = Ok s' -> I s') ->
  forall s s', I s -> for_res f s l = Ok s' -> I s'.
Proof.
  induction l as [|a l IH]; intros Hf s s' Hs H; simplify_eq/=; [done|].
  destruct (f s a) eqn:Ha; [|done].
  eapply IH, H; [intros ????; eapply Hf; by right|].
  eapply Hf, Ha; [by left|done].
Qed.

(** ** Lemmas: maps built by a loop of insertions *)

Section fold_insert.
Context {A V : Type} (key : A -> string) (value : A -> V).

(** The loop [for _, x := range l { m[key(x)] = value(x) }]. *)
Definition insert_all (m : gmap string V) (l : list A) : gmap string V :=
  foldl (fun m x => <[key x := value x]> m) m l.

Lemma insert_all_app m l k :
  insert_all m (l ++ k) = insert_all (insert_all m l) k.
Proof. unfold insert_all. by rewrite foldl_app. Qed.

Lemma insert_all_ne m l k : k ∉ key <$> l -> insert_all m l !! k = m !! k.
Proof.
  revert m. induction l as [|x l IH]; intros m Hk; [done|]. cbn.
  fold (insert_all (<[key x := value x]> m) l).
  rewrite IH; [|set_solver]. apply lookup_insert_ne. set_solver.
Qed.

(** What is found was inserted by some element, or was there before. *)
Lemma insert_all_Some m l k v :
  insert_all m l !! k = Some v ->
  (exists x, x ∈ l /\ key x = k /\ value x = v) \/ (k ∉ key <$> l /\ m !! k = Some v).
Proof.
  revert m. induction l as [|x l IH]; intros m H; [right; split; [set_solver|done]|].
  destruct (IH (<[key x := value x]> m) H) as [(y & Hy & <- & <-)|[Hk Hm]].
  - left. exists y. set_solver.
  - apply lookup_insert_Some in Hm as [[<- <-]|[Hne Hm]].
    + left. exists x. set_solver.
    + right. split; [set_solver|done].
Qed.

Lemma insert_all_dom m l k :
  is_Some (insert_all m l !! k) <-> k ∈ key <$> l \/ is_Some (m !! k).
Proof.
  revert m. induction l as [|x l IH]; intros m.
  - cbn. set_solver.
  - cbn [insert_all foldl]. fold (insert_all (<[key x := value x]> m) l).
    rewrite IH, lookup_insert_is_Some. cbn.
    destruct (decide (key x = k)); set_solver.
Qed.

(** When the keys are distinct, every element is found. *)
Lemma insert_all_elem m l x :
  NoDup (key <$> l) -> x ∈ l -> insert_all m l !! key x = Some (value x).
Proof.
  intros Hnd Hx. revert m. induction l as [|y l IH]; [set_solver|].
  cbn in Hnd. apply NoDup_cons in Hnd as [Hy Hnd]. intros m. cbn [insert_all foldl].
  fold (insert_all (<[key y := value y]> m) l).
  apply elem_of_cons in Hx as [->|Hx]; [|by apply IH].
  rewrite insert_all_ne by done. apply lookup_insert_eq.
Qed.

End fold_insert.
#[global] Arguments insert_all : simpl never.

Lemma NoDup_fmap_inj_elem {A B : Type} (f : A -> B) (l : list A) x y :
  NoDup (f <$> l) -> x ∈ l -> y ∈ l -> f x = f y -> x = y.
Proof.
  induction l as [|z l IH]; [set_solver|]. cbn.
  intros [Hz Hnd]%NoDup_cons Hx Hy Hf.
  apply elem_of_cons in Hx as [->|Hx]; apply elem_of_cons in Hy as [->|Hy]; [done| | |by apply IH].
  - contradict Hz. rewrite Hf. by apply list_elem_of_fmap_2.
  - contradict Hz. rewrite <- Hf. by apply list_elem_of_fmap_2.
Qed.

(** ** Lemmas: total and partial correctness of stateful calls *)

Section wp_rules.
Context {S : Type}.

Lemma wp_ret {A : Type} (a : A) (Q : A -> S -> Prop) s :
  Q a s -> wp (mret a) Q s.
Proof. done. Qed.

Lemma wp_bind {A B : Type} (m : M S A) (f : A -> M S B) Q s :
  wp m (fun a => wp (f a) Q) s -> wp (m ≫= f) Q s.
Proof.
  unfold wp, mbind, M_bind. destruct (m s) as [[a s']| |]; done.
Qed.

Lemma wp_mono {A : Type} (m : M S A) (Q R : A -> S -> Prop) s :
  wp m Q s -> (forall a s', Q a s' -> R a s') -> wp m R s.
Proof. unfold wp. destruct (m s) as [[a s']| |]; naive_solver. Qed.

Lemma wp_modify (f : S -> S) (Q : unit -> S -> Prop) s :
  Q tt (f s) -> wp (modify f) Q s.
Proof. done. Qed.

Lemma wp_gets {A : Type} (f : S -> A) (Q : A -> S -> Prop) s :
  Q (f s) s -> wp (gets f) Q s.
Proof. done. Qed.

Lemma wlp_ret {A : Type} (a : A) (Q : A -> S -> Prop) s :
  Q a s -> wlp (mret a) Q s.
Proof. done. Qed.

Lemma wlp_bind {A B : Type} (m : M S A) (f : A -> M S B) Q s :
  wlp m (fun a => wlp (f a) Q) s -> wlp (m ≫= f) Q s.
Proof.
  unfold wlp, mbind, M_bind. destruct (m s) as [[a s']| |]; done.
Qed.

Lemma wlp_mono {A : Type} (m : M S A) (Q R : A -> S -> Prop) s :
  wlp m Q s -> (forall a s', Q a s' -> R a s') -> wlp m R s.
Proof. unfold wlp. destruct (m s) as [[a s']| |]; naive_solver. Qed.

Lemma wlp_modify (f : S -> S) (Q : unit -> S -> Prop) s :
  Q tt (f s) -> wlp (modify f) Q s.
Proof. done. Qed.

Lemma wlp_gets {A : Type} (f : S -> A) (Q : A -> S -> Prop) s :
  Q (f s) s -> wlp (gets f) Q s.
Proof. done. Qed.

(** A loop preserves what each run of its body preserves. *)
Lemma wlp_for_each {A : Type} (I : S -> Prop) (f : A -> M S unit) l :
  (forall a s, a ∈ l -> I s -> wlp (f a) (fun _ => I) s) ->
  forall s, I s -> wlp (for_each f l) (fun _ => I) s.
Proof.
  induction l as [|a l IH]; intros Hf s Hs; [done|]. cbn.
  apply wlp_bind. eapply wlp_mono; [apply Hf; [by left|done]|].
  intros [] s' Hs'. apply IH; [|done]. intros. apply Hf; [by right|done].
Qed.

Lemma wp_for_each {A : Type} (I : S -> Prop) (f : A -> M S unit) l :
  (forall a s, a ∈ l -> I s -> wp (f a) (fun _ => I) s) ->
  forall s, I s -> wp (for_each f l) (fun _ => I) s.
Proof.
  induction l as [|a l IH]; intros Hf s Hs; [done|]. cbn.
  apply wp_bind. eapply wp_mono; [apply Hf; [by left|done]|].
  intros [] s' Hs'. apply IH; [|done]. intros. apply Hf; [by right|done].
Qed.

Lemma wp_wlp {A : Type} (m : M S A) Q s : wp m Q s -> wlp m Q s.
Proof. unfold wp, wlp. by destruct (m s) as [[a s']| |]. Qed.

Lemma wp_and {A : Type} (m : M S A) (Q R : A -> S -> Prop) s :
  wp m Q s -> wp m R s -> wp m (fun a s' => Q a s' /\ R a s') s.
Proof. unfold wp. destruct (m s) as [[a s']| |]; naive_solver. Qed.

Lemma wlp_and {A : Type} (m : M S A) (Q R : A -> S -> Prop) s :
  wlp m Q s -> wlp m R s -> wlp m (fun a s' => Q a s' /\ R a s') s.
Proof. unfold wlp. destruct (m s) as [[a s']| |]; naive_solver. Qed.

(** What a total call guarantees of the run it is. *)
Lemma wp_run {A : Type} (m : M S A) Q s :
  wp m Q s -> exists a s', m s = Ret (a, s') /\ Q a s'.
Proof. unfold wp. destruct (m s) as [[a s']| |]; naive_solver. Qed.

End wp_rules.

Create HintDb vibe.
Create Rewrite HintDb vibe_rw.
#[export] Hint Resolve wrap64_range shl64_range : vibe.
#[export] Hint Resolve wp_ret wp_bind wp_modify wp_gets : vibe.
#[export] Hint Resolve wlp_ret wlp_bind wlp_modify wlp_gets : vibe.
#[export] Hint Rewrite wrap64_idem : vibe_rw.
