(* ===== verification/GoVal.v ===== *)
(** * Go values and the task context (domain/model/context.go)

    [val] is the part of Go's [any] the program stores in outputs and
    parameters; [Context] is the variable map a task reads and writes. *)
From Stdlib Require Import ZArith Lia SpecFloat Ascii String.
From stdpp Require Import base gmap strings list.
From S2P Require Import Prelude.
Set Warnings "-register-all,-clear-no-such-hyp,-level-tolerance".

(** The types of slices and maps: [[]any], [[]string], [map[string]any] and
    [[]map[string]any]. *)
Inductive ref_type : Type := TList | TStrs | TMap | TMaps.

(** Dynamic values, by dynamic type.  [VNil] is the nil interface, [VNilRef] a
    slice or map that is nil: its interface is not.  [VNumber] is [json.Number],
    [VStrs] is [[]string], [VList] is [[]any] and [VMaps] is
    [[]map[string]any], each of them made; strings are sequences of bytes. *)
Inductive val : Type :=
| VNil
| VNilRef (t : ref_type)
| VBool (b : bool)
| VInt (n : Z)
| VInt64 (n : Z)
| VFloat32 (f : spec_float)
| VFloat64 (f : spec_float)
| VNumber (s : string)
| VString (s : string)
| VList (l : list val)
| VStrs (l : list string)
| VMap (m : gmap string val)
| VMaps (l : list (gmap string val)).

(** [map[string]any].  A nil map and an empty one have the same lookups and
    iterations; where the code tells them apart the type is [option vmap]. *)
Abbreviation vmap := (gmap string val).

(** What Go leaves to the implementation: the [int] of a float whose
    truncation is not representable. *)
Class GoPlatform := { float_to_int_out_of_range : spec_float -> Z }.

(** amd64's CVTTSD2SQ. *)
Definition amd64 : GoPlatform := {| float_to_int_out_of_range := fun _ => minInt64 |}.

(** Truncation toward zero of a finite float; [None] for NaN and infinities. *)
Definition float_trunc (f : spec_float) : option Z :=
  match f with
  | S754_zero _ => Some 0
  | S754_infinity _ | S754_nan => None
  | S754_finite s m e =>
      let a := if 0 <=? e then Zpos m * 2 ^ e else Zpos m / 2 ^ (- e) in
      Some (if s then - a else a)
  end.

Definition float_to_int `{GoPlatform} (f : spec_float) : Z :=
  match float_trunc f with
  | Some z => if (minInt64 <=? z) && (z <=? maxInt64) then z
              else float_to_int_out_of_range f
  | None => float_to_int_out_of_range f
  end.

(** [float64(n)], rounded to nearest even. *)
Definition float_of_int (n : Z) : spec_float := binary_normalize 53 1024 n 0 false.

(** [strconv.ParseInt(s, 10, 64)]: an optional sign, then decimal digits. *)
Definition digit_of (c : ascii) : option Z :=
  let n := Z.of_nat (nat_of_ascii c) in
  if (48 <=? n) && (n <=? 57) then Some (n - 48) else None.

Fixpoint parse_digits (acc : Z) (s : string) : option Z :=
  match s with
  | EmptyString => Some acc
  | String c s' => d ← digit_of c; parse_digits (10 * acc + d) s'
  end.

Definition parse_nat (s : string) : option Z :=
  match s with EmptyString => None | _ => parse_digits 0 s end.

Definition parse_int64 (s : string) : option Z :=
  n ← match s with
      | String c s' =>
          if (c =? "-")%char then Z.opp <$> parse_nat s'
          else if (c =? "+")%char then parse_nat s' else parse_nat s
      | EmptyString => None
      end;
  if (minInt64 <=? n) && (n <=? maxInt64) then Some n else None.

(** [strconv.ParseFloat(s, 64)] on a JSON number, rounded to nearest even. *)
Fixpoint split_digits (acc : Z) (n : Z) (s : string) : Z * Z * string :=
  match s with
  | String c s' =>
      match digit_of c with
      | Some d => split_digits (10 * acc + d) (n + 1) s'
      | None => (acc, n, s)
      end
  | EmptyString => (acc, n, s)
  end.

(** [m * 10 ^ e], in a format; exponents beyond its range are cut off. *)
Definition decimal_to (prec emax : Z) (neg : bool) (m e : Z) : spec_float :=
  match m with
  | Zpos p =>
      if 400 <? e then S754_infinity neg
      else if 0 <=? e then binary_normalize prec emax ((if neg then -1 else 1) * (m * 10 ^ e)) 0 false
      else match 10 ^ (- Z.max e (-2000)) with
           | Zpos q => SFdiv prec emax (S754_finite neg p 0) (S754_finite false q 0)
           | _ => S754_zero neg
           end
  | _ => S754_zero neg
  end.

Definition float_of_decimal (neg : bool) (m e : Z) : spec_float := decimal_to 53 1024 neg m e.

Definition parse_exponent (s : string) : option Z :=
  match s with
  | EmptyString => Some 0
  | String c s' =>
      if (c =? "e")%char || (c =? "E")%char then parse_int64 s' else None
  end.

Definition parse_float64 (s : string) : option spec_float :=
  let '(neg, s) := match s with
                   | String c s' => if (c =? "-")%char then (true, s') else (false, s)
                   | EmptyString => (false, s)
                   end in
  let '(m, n, s) := split_digits 0 0 s in
  let '(m, k, s) := match s with
                    | String c s' =>
                        if (c =? ".")%char then
                          let '(m', k, s'') := split_digits m 0 s' in (m', k, s'')
                        else (m, 0, s)
                    | EmptyString => (m, 0, s)
                    end in
  if n + k =? 0 then None
  else match parse_exponent s with
       | Some e =>
           match float_of_decimal neg m (e - k) with
           | S754_infinity _ => None
           | f => Some f
           end
       | None => None
       end.

(** [float64(f)] of a [float32]: the same number. *)
Definition float_of_32 (f : spec_float) : spec_float :=
  match f with
  | S754_finite s m e => binary_normalize 53 1024 (if s then Zneg m else Zpos m) e s
  | _ => f
  end.

(** [strconv.AppendFloat(_, f, _, -1, 32)]: of the decimals with the fewest
    digits that read back as the [float32], the nearest.  [num / den] is its
    absolute value and [10 ^ k] the first power of ten above it. *)
Definition same_float (f g : spec_float) : bool :=
  match f, g with
  | S754_finite s m e, S754_finite s' m' e' => Bool.eqb s s' && Pos.eqb m m' && Z.eqb e e'
  | S754_zero s, S754_zero s' => Bool.eqb s s'
  | _, _ => false
  end.

Definition over_power (num den k : Z) : Z * Z :=
  if 0 <=? k then (num, den * 10 ^ k) else (num * 10 ^ (- k), den).

Fixpoint power_above (fuel : nat) (num den k : Z) : Z :=
  match fuel with
  | O => k
  | S fuel' =>
      let '(a, b) := over_power num den k in
      if a <? b then k else power_above fuel' num den (k + 1)
  end.

Fixpoint shortest (fuel : nat) (f : spec_float) (neg : bool) (num den k digits : Z) : Z * Z :=
  let e := k - digits in
  let '(a, b) := over_power num den e in
  let q := a / b in
  let r := a mod b in
  let near := if (2 * r <? b) || (2 * r =? b) && Z.even q then q else q + 1 in
  let far := if near =? q then q + 1 else q in
  match fuel with
  | O => (near, e)
  | S fuel' =>
      if same_float (decimal_to 24 128 neg near e) f then (near, e)
      else if same_float (decimal_to 24 128 neg far e) f then (far, e)
      else shortest fuel' f neg num den k (digits + 1)
  end.

(** What a [float32] reads as when its shortest decimal is read as a
    [float64]. *)
Definition reread_32 (f : spec_float) : spec_float :=
  match f with
  | S754_finite s m e =>
      let '(num, den) := if 0 <=? e then (Zpos m * 2 ^ e, 1) else (Zpos m, 2 ^ (- e)) in
      let '(d, e10) := shortest 9 f s num den (power_above 100 num den (-50)) 1 in
      float_of_decimal s d e10
  | _ => f
  end.

(** ** Context *)
Module Context.

Record Context := MkContext { vars : vmap }.

Definition SkipGroupsKey : string := "__vibeflow_skip_groups".
Definition BranchKey : string := "__vibeflow_branch".
Definition ApprovalKey : string := "__vibeflow_approval".

Definition NewContext : Context := MkContext ∅.

(** Copies key by key; [NewContextFromMap] takes the map itself. *)
Definition NewContextWith (params : vmap) : Context :=
  MkContext (map_fold (fun k v m => <[k := v]> m) ∅ params).

Definition NewContextFromMap (m : vmap) : Context := MkContext m.

Definition Set_ (c : Context) (key : string) (value : val) : Context :=
  MkContext (<[key := value]> (vars c)).

Definition Get (c : Context) (key : string) : option val := vars c !! key.

Definition GetString (c : Context) (key : string) : option string :=
  match Get c key with Some (VString s) => Some s | _ => None end.

Definition GetInt `{GoPlatform} (c : Context) (key : string) : option Z :=
  match Get c key with
  | Some (VInt n) => Some n
  | Some (VInt64 n) => Some n
  | Some (VFloat64 f) => Some (float_to_int f)
  | Some (VNumber s) => parse_int64 s
  | _ => None
  end.

Definition GetInt64 `{GoPlatform} (c : Context) (key : string) : option Z :=
  match Get c key with
  | Some (VInt64 n) => Some n
  | Some (VInt n) => Some n
  | Some (VFloat64 f) => Some (float_to_int f)
  | Some (VNumber s) => parse_int64 s
  | _ => None
  end.

Definition GetFloat64 (c : Context) (key : string) : option spec_float :=
  match Get c key with
  | Some (VFloat64 f) => Some f
  | Some (VFloat32 f) => Some (float_of_32 f)
  | Some (VInt n) => Some (float_of_int n)
  | Some (VInt64 n) => Some (float_of_int n)
  | Some (VNumber s) => parse_float64 s
  | _ => None
  end.

Definition GetBool (c : Context) (key : string) : option bool :=
  match Get c key with Some (VBool b) => Some b | _ => None end.

(** All items of a [[]any] must be strings. *)
Fixpoint strings_of (l : list val) : option (list string) :=
  match l with
  | [] => Some []
  | VString s :: l' => ss ← strings_of l'; Some (s :: ss)
  | _ :: _ => None
  end.

Definition GetStringSlice (c : Context) (key : string) : option (list string) :=
  match Get c key with
  | Some (VList arr) => strings_of arr
  | Some (VStrs ss) => Some ss
  | Some (VNilRef TList) | Some (VNilRef TStrs) => Some []
  | _ => None
  end.

Definition GetMap (c : Context) (key : string) : option vmap :=
  match Get c key with
  | Some (VMap m) => Some m
  | Some (VNilRef TMap) => Some ∅
  | _ => None
  end.

Definition GetAll (c : Context) : vmap :=
  map_fold (fun k v m => <[k := v]> m) ∅ (vars c).

Definition SkipGroups (c : Context) (n : Z) : Context := Set_ c SkipGroupsKey (VInt n).

Definition GetSkipGroups `{GoPlatform} (c : Context) : Z :=
  match Get c SkipGroupsKey with
  | Some (VFloat64 f) => float_to_int f
  | Some (VInt n) => n
  | Some (VInt64 n) => n
  | _ => 0
  end.

Definition SetBranch (c : Context) (name : string) : Context :=
  Set_ c BranchKey (VString name).

Definition GetBranch (c : Context) : string :=
  match Get c BranchKey with Some (VString s) => s | _ => "" end.

Definition SetApproval (c : Context) (msg : string) : Context :=
  Set_ c ApprovalKey (VString msg).

Definition GetApproval (c : Context) : string :=
  default "" (GetString c ApprovalKey).

(** ** Lemmas *)

(** Copying a map entry by entry gives the map. *)
Lemma copy_map_eq (m : vmap) : map_fold (fun k v m' => <[k := v]> m') ∅ m = m.
Proof.
  apply (map_fold_weak_ind (fun (r : vmap) (m : vmap) => r = m)); [done|].
  intros k v m' r _ ->. done.
Qed.

Lemma GetAll_eq (c : Context) : GetAll c = vars c.
Proof. apply copy_map_eq. Qed.

Lemma NewContextWith_eq (m : vmap) : NewContextWith m = MkContext m.
Proof. unfold NewContextWith. by rewrite copy_map_eq. Qed.

Lemma Get_Set (c : Context) k v : Get (Set_ c k v) k = Some v.
Proof. unfold Get, Set_. cbn. apply lookup_insert_eq. Qed.

Lemma Get_Set_ne (c : Context) k k' v : k <> k' -> Get (Set_ c k v) k' = Get c k'.
Proof. intros. unfold Get, Set_. cbn. by apply lookup_insert_ne. Qed.

#[export] Hint Rewrite GetAll_eq NewContextWith_eq Get_Set : vibe_rw.

End Context.
