(* ===== verification/Model.v ===== *)
(** * The workflow data model (domain/model/workflow.go, task.go)

    Workflow definitions, their index builders, input mappings, the builder
    methods, the run-time state and its delta snapshots. *)
From Stdlib Require Import ZArith Lia Ascii String.
From stdpp Require Import base gmap strings list.
From S2P Require Import Prelude GoVal.
Set Warnings "-register-all,-clear-no-such-hyp,-level-tolerance".

(** ** Enumerations

    The enumerations a user writes in a definition are strings in the source,
    and unknown strings reach the code; the statuses are only ever written by
    the program. *)

Definition TriggerManual : string := "manual".
Definition TriggerCron : string := "cron".
Definition TriggerEvent : string := "event".

Definition EventTriggerWebhook : string := "webhook".
Definition EventTriggerWorkflowCompleted : string := "workflow_completed".
Definition EventTriggerTaskFailed : string := "task_failed".

Record EventTrigger := MkEventTrigger {
  et_EventType : string; et_Filter : string; et_WebhookSecret : string }.

Inductive WorkflowStatus : Type :=
| WorkflowStatusPending | WorkflowStatusRunning | WorkflowStatusPaused
| WorkflowStatusRollingBack | WorkflowStatusRolledBack
| WorkflowStatusCompleted | WorkflowStatusFailed.

#[export] Instance WorkflowStatus_eq_dec : EqDecision WorkflowStatus.
Proof. solve_decision. Defined.

Definition status_string (st : WorkflowStatus) : string :=
  match st with
  | WorkflowStatusPending => "PENDING"
  | WorkflowStatusRunning => "RUNNING"
  | WorkflowStatusPaused => "PAUSED"
  | WorkflowStatusRollingBack => "ROLLING_BACK"
  | WorkflowStatusRolledBack => "ROLLED_BACK"
  | WorkflowStatusCompleted => "COMPLETED"
  | WorkflowStatusFailed => "FAILED"
  end.

Record BranchLocation := MkBranchLocation {
  ParentGroupIdx : Z; ParentNodeName : string; BranchName : string }.

Definition LoopConditionAlways : string := "always".
Definition LoopConditionKey : string := "key".

Record LoopDef := MkLoopDef {
  MaxIterations : Z; ConditionType : string; ConditionKey : string }.

(** [FanOutDef] holds a task node, and a task node a [*FanOutDef]. *)
Record FanOutDefF (T : Type) := MkFanOut {
  IteratorKey : string; fo_Task : T; MaxParallel : Z; OutputKey : string }.
Arguments MkFanOut {T}.
Arguments IteratorKey {T}.
Arguments fo_Task {T}.
Arguments MaxParallel {T}.
Arguments OutputKey {T}.

Definition TaskNodeTypeTask : string := "task".
Definition TaskNodeTypeSubWorkflow : string := "sub_workflow".
Definition TaskNodeTypeFanOut : string := "fan_out".

(** A nil [Branches] map is [None]; a map is the list of its entries in the
    order the iteration visits them (distinct keys, see [branches_wf]). *)
Inductive TaskNode : Type := MkTaskNode {
  Type_ : string;
  Name : string;
  Params : option vmap;
  DelaySec : Z;
  Branches : option (list (string * list (list TaskNode)));
  DefaultBranch : string;
  ParallelBranch : bool;
  SubWorkflow : string;
  SubWorkflowParams : option vmap;
  FanOut : option (FanOutDefF TaskNode);
  Loop : option LoopDef;
  InputMapping : option (gmap string string) }.

Abbreviation FanOutDef := (FanOutDefF TaskNode).
Abbreviation BranchDef := (list (string * list (list TaskNode))).

#[export] Instance eta_TaskNode : Eta TaskNode := fun n =>
  MkTaskNode (Type_ n) (Name n) (Params n) (DelaySec n) (Branches n) (DefaultBranch n)
    (ParallelBranch n) (SubWorkflow n) (SubWorkflowParams n) (FanOut n) (Loop n)
    (InputMapping n).

(** The zero [TaskNode] with a name: [TaskNode{Name: name}]. *)
Definition named_node (name : string) : TaskNode :=
  MkTaskNode "" name None 0 None "" false "" None None None None.

Definition GetTaskNodeType (node : TaskNode) : string :=
  if decide (Type_ node = "") then TaskNodeTypeTask else Type_ node.

Definition DefaultFanOutOutputKey : string := "fan_out_results".
Definition LoopContinueKey : string := "__vibeflow_loop_continue".
Definition LoopIterationKey : string := "__vibeflow_loop_iteration".

Definition ErrorPolicyRetry : string := "retry".
Definition ErrorPolicyRollback : string := "rollback".
Definition ErrorPolicySkip : string := "skip".
Definition ErrorPolicyFailFast : string := "fail_fast".

Record ErrorPolicy := MkErrorPolicy {
  OnTaskFailure : string;
  OnTimeout : string;
  SkippableTasks : list string;
  TaskPolicies : gmap string string }.

Record Workflow := MkWorkflow {
  UUID : string;
  wf_Name : string;
  TaskGroups : list (list TaskNode);
  Trigger : string;
  CronExpr : string;
  wf_EventTrigger : option EventTrigger;
  TimeoutSec : Z;
  TaskTimeoutSec : Z;
  MaxRetries : Z;
  BaseBackoff : Z;
  Priority : Z;
  wf_ErrorPolicy : option ErrorPolicy }.

#[export] Instance eta_Workflow : Eta Workflow := fun w =>
  MkWorkflow (UUID w) (wf_Name w) (TaskGroups w) (Trigger w) (CronExpr w)
    (wf_EventTrigger w) (TimeoutSec w) (TaskTimeoutSec w) (MaxRetries w)
    (BaseBackoff w) (Priority w) (wf_ErrorPolicy w).

(** ** Names and indexes *)

(** The nodes of all the groups of a list of groups, in order, each with the
    index of its group: the nested [for gi, g := range ... { for _, n ...}]. *)
Definition indexed_nodes (groups : list (list TaskNode)) : list (Z * TaskNode) :=
  concat (imap (fun gi g => (fun n => (Z.of_nat gi, n)) <$> g) groups).

(** The nodes of a node's branches, each with the name of its branch. *)
Definition branch_nodes (n : TaskNode) : list (string * TaskNode) :=
  concat ((fun '(b, groups) => (fun bn => (b, bn)) <$> concat groups) <$>
            default [] (Branches n)).

Definition node_names (n : TaskNode) : list string :=
  let typ := GetTaskNodeType n in
  let own := if decide (Name n = "") then [] else [Name n] in
  (if decide (typ = TaskNodeTypeSubWorkflow) then own
   else if decide (typ = TaskNodeTypeFanOut) then
     own ++ match FanOut n with
            | Some fo => if decide (Name (fo_Task fo) = "") then [] else [Name (fo_Task fo)]
            | None => []
            end
   else [Name n])
  ++ (Name ∘ snd <$> branch_nodes n).

Definition AllTaskNames (wf : Workflow) : list string :=
  concat (node_names <$> concat (TaskGroups wf)).

Definition AllTaskNodes (wf : Workflow) : list TaskNode := concat (TaskGroups wf).

Definition BuildTaskGroupIndex (wf : Workflow) : gmap string Z :=
  foldl (fun idx '(gi, node) => <[Name node := gi]> idx) ∅ (indexed_nodes (TaskGroups wf)).

Definition BuildBranchTaskIndex (wf : Workflow) : gmap string BranchLocation :=
  foldl (fun idx '(gi, node) =>
           foldl (fun idx '(b, bn) => <[Name bn := MkBranchLocation gi (Name node) b]> idx)
             idx (branch_nodes node))
    ∅ (indexed_nodes (TaskGroups wf)).

Definition AllTaskNamesCached (groupIndex : gmap string Z)
    (branchIndex : gmap string BranchLocation) : list string :=
  (map_to_list groupIndex).*1 ++ (map_to_list branchIndex).*1.

(** ** Run-time state *)

Record WorkflowState := MkWorkflowState {
  ws_Workflow : option Workflow;
  Status : WorkflowStatus;
  StartedAt : Z;
  CompletedTasks : gmap string vmap;
  FailedTasks : gmap string string;
  RolledBack : gmap string bool;
  ws_Error : string;
  PausedTaskName : string;
  PausedTaskOutput : vmap;
  PausedGroupIdx : Z;
  TaskGroupIndex : gmap string Z;
  BranchTaskIndex : gmap string BranchLocation;
  WorkflowUUID : string;
  WorkflowID : Z;
  ExecutionID : Z;
  SnapshotSeq : Z;
  Snapshotted : gmap string Z }.

#[export] Instance eta_WorkflowState : Eta WorkflowState := fun s =>
  MkWorkflowState (ws_Workflow s) (Status s) (StartedAt s) (CompletedTasks s)
    (FailedTasks s) (RolledBack s) (ws_Error s) (PausedTaskName s) (PausedTaskOutput s)
    (PausedGroupIdx s) (TaskGroupIndex s) (BranchTaskIndex s) (WorkflowUUID s)
    (WorkflowID s) (ExecutionID s) (SnapshotSeq s) (Snapshotted s).

Record TaskDelta := MkTaskDelta {
  d_TaskName : string; d_Action : string; d_Output : vmap; d_Result : string }.

Record WorkflowSnapshot := MkWorkflowSnapshot {
  sn_WorkflowUUID : string; sn_ExecutionID : Z; sn_Status : string;
  sn_ChangedTasks : list TaskDelta; sn_Error : string; sn_UpdatedAt : Z }.

Definition ApplyDelta (s : WorkflowState) (d : TaskDelta) : WorkflowState :=
  if decide (d_Action d = "completed") then
    s <| CompletedTasks ::= <[d_TaskName d := d_Output d]> |>
  else if decide (d_Action d = "failed") then
    s <| FailedTasks ::= <[d_TaskName d := d_Result d]> |>
  else if decide (d_Action d = "rolled_back") then
    s <| RolledBack ::= <[d_TaskName d := true]> |>
  else s.

Definition ApplyDeltas (s : WorkflowState) (deltas : list TaskDelta) : WorkflowState :=
  foldl ApplyDelta s deltas.

(** ** Builders *)

Definition NewWorkflow (name : string) : Workflow :=
  MkWorkflow name name [] TriggerManual "" None 0 0 0 0 0 None.

Definition AddTaskNodeGroup (wf : Workflow) (nodes : list TaskNode) : Workflow :=
  wf <| TaskGroups ::= fun gs => gs ++ [nodes] |>.

Definition AddTaskGroup (wf : Workflow) (tasks : list string) : Workflow :=
  wf <| TaskGroups ::= fun gs => gs ++ [named_node <$> tasks] |>.

Definition AddSubWorkflowGroup (wf : Workflow) (name subWorkflowUUID : string) : Workflow :=
  AddTaskNodeGroup wf
    [named_node name <| Type_ := TaskNodeTypeSubWorkflow |>
                     <| SubWorkflow := subWorkflowUUID |>].

Definition AddSubWorkflowGroupWithParams (wf : Workflow) (name subWorkflowUUID : string)
    (params : option vmap) : Workflow :=
  AddTaskNodeGroup wf
    [named_node name <| Type_ := TaskNodeTypeSubWorkflow |>
                     <| SubWorkflow := subWorkflowUUID |>
                     <| SubWorkflowParams := params |>].

Definition AddFanOutGroup (wf : Workflow) (name iteratorKey taskName : string) : Workflow :=
  AddTaskNodeGroup wf
    [named_node name <| Type_ := TaskNodeTypeFanOut |>
                     <| FanOut := Some (MkFanOut iteratorKey (named_node taskName) 0 "") |>].

Definition AddFanOutGroupWithOptions (wf : Workflow) (name iteratorKey : string)
    (task : TaskNode) (maxParallel : Z) (outputKey : string) : Workflow :=
  AddTaskNodeGroup wf
    [named_node name <| Type_ := TaskNodeTypeFanOut |>
                     <| FanOut := Some (MkFanOut iteratorKey task maxParallel outputKey) |>].

Definition AddLoopGroup (wf : Workflow) (taskName : string) (maxIterations : Z)
    (conditionType conditionKey : string) : Workflow :=
  AddTaskNodeGroup wf
    [named_node taskName <| Loop := Some (MkLoopDef maxIterations conditionType conditionKey) |>].

Definition AddLoopGroupWithParams (wf : Workflow) (taskName : string) (params : option vmap)
    (maxIterations : Z) (conditionType conditionKey : string) : Workflow :=
  AddTaskNodeGroup wf
    [named_node taskName <| Params := params |>
       <| Loop := Some (MkLoopDef maxIterations conditionType conditionKey) |>].

Definition AddTaskGroupWithInputMapping (wf : Workflow) (tasks : list string)
    (mappings : list (option (gmap string string))) : Workflow :=
  AddTaskNodeGroup wf
    (imap (fun i name =>
             match mappings !! i with
             | Some (Some m) => named_node name <| InputMapping := Some m |>
             | _ => named_node name
             end) tasks).

Definition AddBranchNodeGroup (wf : Workflow) (taskName : string) (branches : option BranchDef)
    (defaultBranch : string) (parallelBranch : bool) : Workflow :=
  AddTaskNodeGroup wf
    [named_node taskName <| Branches := branches |> <| DefaultBranch := defaultBranch |>
                         <| ParallelBranch := parallelBranch |>].

Definition SetEventTrigger (wf : Workflow) (eventType filter : string) : Workflow :=
  wf <| Trigger := TriggerEvent |>
     <| wf_EventTrigger := Some (MkEventTrigger eventType filter "") |>.

Definition SetErrorPolicy (wf : Workflow) (onTaskFailure onTimeout : string) : Workflow :=
  wf <| wf_ErrorPolicy := Some (MkErrorPolicy onTaskFailure onTimeout [] ∅) |>.

Definition SetErrorPolicyWithDetails (wf : Workflow) (policy : option ErrorPolicy) : Workflow :=
  wf <| wf_ErrorPolicy := policy |>.

(** ** Input mapping *)

(** Copy every entry of [output] into [m]: [for k, v := range output]. *)
Definition merge_into (m output : vmap) : vmap :=
  map_fold (fun k v m' => <[k := v]> m') m output.

Definition merge_outputs (outs : list vmap) : vmap := foldl merge_into ∅ outs.

(** [None] is the nil map the callers test for. *)
Definition ApplyInputMapping (node : TaskNode) (upstreamOutputs : list vmap) : option vmap :=
  match InputMapping node with
  | None => None
  | Some im =>
      if decide (im = ∅) then None
      else
        let merged := merge_outputs upstreamOutputs in
        Some (map_fold (fun localKey sourceKey result =>
                          match merged !! sourceKey with
                          | Some v => <[localKey := v]> result
                          | None => result
                          end) ∅ im)
  end.

(** ** Task parameters (domain/model/task.go) *)

Record ParamOption := MkParamOption { po_Label : string; po_Value : string }.

Record Param := MkParam {
  p_Key : string; p_Label : string; p_Type : string; p_Required : bool;
  p_Default : val; p_Options : list ParamOption; p_Placeholder : string;
  p_Description : string }.

Record TaskType := MkTaskType {
  tt_Name : string; tt_Description : string; tt_Params : list Param }.

Definition is_nil (v : val) : bool := match v with VNil => true | _ => false end.

(** The first required parameter without a default is the error. *)
Fixpoint ValidateTaskParams (ps : list Param) : res Param unit :=
  match ps with
  | [] => Ok tt
  | p :: ps' => if p_Required p && is_nil (p_Default p) then Err p else ValidateTaskParams ps'
  end.

(** ** Lemmas: input mappings *)

Lemma merge_into_eq (m o : vmap) : merge_into m o = o ∪ m.
Proof.
  unfold merge_into.
  apply (map_fold_weak_ind (fun (r : vmap) (o : vmap) => r = o ∪ m)); [by rewrite (left_id_L ∅ (∪))|].
  intros k v o' r Hk ->. by rewrite insert_union_l.
Qed.

Lemma merge_outputs_snoc (outs : list vmap) (o : vmap) :
  merge_outputs (outs ++ [o]) = o ∪ merge_outputs outs.
Proof. unfold merge_outputs. rewrite foldl_app. apply merge_into_eq. Qed.

(** The value of a key is that of the last output that has it. *)
Lemma merge_outputs_last (pre post : list vmap) (o : vmap) k v :
  o !! k = Some v -> Forall (fun p => p !! k = None) post ->
  merge_outputs (pre ++ o :: post) !! k = Some v.
Proof.
  intros Ho. induction post as [|p post IH] using rev_ind; intros Hpost.
  - rewrite merge_outputs_snoc. by apply lookup_union_Some_l.
  - apply Forall_app in Hpost as [Hpost Hp%Forall_inv].
    rewrite app_comm_cons, app_assoc, merge_outputs_snoc, lookup_union_r by done.
    by apply IH.
Qed.

Lemma merge_outputs_None (outs : list vmap) k :
  merge_outputs outs !! k = None <-> Forall (fun o => o !! k = None) outs.
Proof.
  induction outs as [|o outs IH] using rev_ind; [done|].
  rewrite merge_outputs_snoc, lookup_union_None, IH, Forall_app, Forall_singleton. tauto.
Qed.

Lemma mapping_fold_lookup (merged : vmap) (im : gmap string string) k :
  map_fold (fun localKey sourceKey result =>
              match merged !! sourceKey with
              | Some v => <[localKey := v]> result
              | None => result
              end) (∅ : vmap) im !! k
  = im !! k ≫= fun src => merged !! src.
Proof.
  revert k. apply (map_fold_weak_ind (fun (r : vmap) (im : gmap string string) =>
    forall k, r !! k = im !! k ≫= fun src => merged !! src)); [done|].
  intros j src im' r Hj IH k. destruct (decide (j = k)) as [<-|Hne].
  - rewrite lookup_insert_eq. cbn. destruct (merged !! src) as [v|] eqn:Hs.
    + by rewrite lookup_insert_eq.
    + by rewrite IH, Hj.
  - rewrite (lookup_insert_ne im') by done.
    destruct (merged !! src); [rewrite lookup_insert_ne by done|]; apply IH.
Qed.

(** ** Lemmas: indexes *)

Lemma elem_of_indexed_nodes (groups : list (list TaskNode)) gi n :
  (gi, n) ∈ indexed_nodes groups <->
  exists i g, groups !! i = Some g /\ gi = Z.of_nat i /\ n ∈ g.
Proof.
  unfold indexed_nodes. rewrite list_elem_of_In, in_concat.
  setoid_rewrite <- list_elem_of_In. split.
  - intros (l & Hl & Hn). apply elem_of_lookup_imap in Hl as (i & g & -> & Hi).
    apply list_elem_of_fmap in Hn as (n' & [= -> ->] & Hn'). eauto.
  - intros (i & g & Hi & -> & Hn). eexists. split.
    + apply elem_of_lookup_imap. exists i, g. split; [reflexivity|done].
    + apply list_elem_of_fmap. eauto.
Qed.

Lemma indexed_snd_gen (h : nat -> Z) (groups : list (list TaskNode)) :
  (concat (imap (fun gi g => (fun n => (h gi, n)) <$> g) groups)).*2 = concat groups.
Proof.
  revert h. induction groups as [|g groups IH]; intros h; [done|].
  cbn. rewrite fmap_app, <- list_fmap_compose. f_equal.
  - apply list_fmap_id.
  - apply (IH (fun i => h (S i))).
Qed.

Lemma indexed_nodes_snd (groups : list (list TaskNode)) :
  (indexed_nodes groups).*2 = concat groups.
Proof. apply (indexed_snd_gen Z.of_nat). Qed.

Lemma BuildTaskGroupIndex_eq (wf : Workflow) :
  BuildTaskGroupIndex wf =
  insert_all (fun p => Name p.2) (fun p => p.1) ∅ (indexed_nodes (TaskGroups wf)).
Proof.
  unfold BuildTaskGroupIndex, insert_all. generalize (∅ : gmap string Z).
  induction (indexed_nodes (TaskGroups wf)) as [|[gi n] l IH]; intros m; [done|]. apply IH.
Qed.

(** ** Lemmas: delta snapshots *)

Lemma ApplyDeltas_app s l k : ApplyDeltas s (l ++ k) = ApplyDeltas (ApplyDeltas s l) k.
Proof. apply foldl_app. Qed.
