(* ===== verification/Validate.v ===== *)
(** * Validation of workflow definitions
    (infra/engine/scheduler/types.go, the [ErrorPolicy] methods of
    domain/model/workflow.go)

    A definition is checked once, when it is registered or run; the theorems
    say what the rest of the scheduler may assume of an accepted one. *)
From Stdlib Require Import ZArith Lia Ascii String.
From stdpp Require Import base gmap strings list.
From S2P Require Import Prelude GoVal Model.
Set Warnings "-register-all,-clear-no-such-hyp,-level-tolerance".

Inductive validation_error : Type :=
| NameEmpty | NameTooLong | NameBadChar
| BadOnTaskFailure (p : string) | BadOnTimeout (p : string) | BadTaskPolicy (task p : string)
| EventTriggerMissing | EventFilterMissing (typ : string) | EventTypeUnknown (typ : string)
| MappingEmptyTarget (group : Z) (task : string) | MappingEmptySource (group : Z) (task : string)
| DefaultBranchMissing (group : Z) (task branch : string)
| SubWorkflowMissing (group : Z) | FanOutMissing (group : Z) | FanOutNoIterator (group : Z)
| FanOutNegativeParallel (group : Z) | FanOutTaskNoName (group : Z) | TaskNoName (group : Z)
| LoopNoIterations (group : Z) (task : string) | LoopBadCondition (group : Z) (task : string)
| LoopNoKey (group : Z) (task : string)
| DuplicateInGroup (group : Z) (task : string) | DuplicateInWorkflow (task : string) (g1 g2 : Z)
| BranchTaskNoName (group : Z) (task branch : string)
| BranchDuplicate (group : Z) (task branch name : string)
| BranchConflict (group : Z) (task branch name : string) (prev : Z).

Abbreviation V := (res validation_error).

(** Run a check that may fail over a list: the first error is returned. *)
Definition check_all {A : Type} (f : A -> V unit) (l : list A) : V unit :=
  for_res (fun _ x => f x) tt l.

(** ** ErrorPolicy *)

Definition GetTaskErrorPolicy (ep : option ErrorPolicy) (taskName : string) : string :=
  match ep with
  | None => ErrorPolicyRetry
  | Some ep =>
      match TaskPolicies ep !! taskName with
      | Some policy => policy
      | None =>
          if decide (OnTaskFailure ep = "") then ErrorPolicyRetry else OnTaskFailure ep
      end
  end.

Definition IsSkippable (ep : option ErrorPolicy) (taskName : string) : bool :=
  match ep with
  | None => false
  | Some ep =>
      if negb (bool_decide (OnTaskFailure ep = ErrorPolicySkip)) then false
      else if decide (SkippableTasks ep = []) then true
      else bool_decide (taskName ∈ SkippableTasks ep)
  end.

Definition GetTimeoutPolicy (ep : option ErrorPolicy) : string :=
  match ep with
  | None => "rollback"
  | Some ep => if decide (OnTimeout ep = "") then "rollback" else OnTimeout ep
  end.

Definition task_policies : list string :=
  [ErrorPolicyRetry; ErrorPolicyRollback; ErrorPolicySkip; ErrorPolicyFailFast].

Definition ErrorPolicy_Validate (ep : option ErrorPolicy) : V unit :=
  match ep with
  | None => Ok tt
  | Some ep =>
      if negb (bool_decide (OnTaskFailure ep ∈ "" :: task_policies)) then
        Err (BadOnTaskFailure (OnTaskFailure ep))
      else if negb (bool_decide (OnTimeout ep ∈ [""; "rollback"; "fail"])) then
        Err (BadOnTimeout (OnTimeout ep))
      else
        check_all (fun '(taskName, policy) =>
                     if bool_decide (policy ∈ task_policies) then Ok tt
                     else Err (BadTaskPolicy taskName policy))
          (map_to_list (TaskPolicies ep))
  end.

(** ** Workflow names *)

Definition name_char (c : ascii) : bool :=
  let n := nat_of_ascii c in
  ((97 <=? n) && (n <=? 122) || (65 <=? n) && (n <=? 90) || (48 <=? n) && (n <=? 57)
   || (n =? 95) || (n =? 45))%nat.

(** Over bytes: every byte of a non-ASCII rune is refused, as the rune is. *)
Fixpoint name_chars (s : string) : bool :=
  match s with
  | EmptyString => true
  | String c s' => name_char c && name_chars s'
  end.

Definition validateWorkflowName (name : string) : V unit :=
  if decide (name = "") then Err NameEmpty
  else if (128 <? String.length name)%nat then Err NameTooLong
  else if name_chars name then Ok tt else Err NameBadChar.

(** ** Task nodes *)

Definition validateLoopDef (loop : LoopDef) (groupIdx : Z) (taskName : string) : V unit :=
  if MaxIterations loop <=? 0 then Err (LoopNoIterations groupIdx taskName)
  else if negb (bool_decide (ConditionType loop = LoopConditionAlways)) &&
          negb (bool_decide (ConditionType loop = LoopConditionKey))
  then Err (LoopBadCondition groupIdx taskName)
  else if bool_decide (ConditionType loop = LoopConditionKey) &&
          bool_decide (ConditionKey loop = "")
  then Err (LoopNoKey groupIdx taskName)
  else Ok tt.

Definition validateTaskNode (node : TaskNode) (groupIdx : Z) : V string :=
  let nodeType := GetTaskNodeType node in
  if decide (nodeType = TaskNodeTypeSubWorkflow) then
    if decide (SubWorkflow node = "") then Err (SubWorkflowMissing groupIdx)
    else
      let name := if decide (Name node = "") then ("__sub_wf_" +:+ SubWorkflow node)%string
                  else Name node in
      match Loop node with
      | Some l => validateLoopDef l groupIdx name;; mret name
      | None => Ok name
      end
  else if decide (nodeType = TaskNodeTypeFanOut) then
    match FanOut node with
    | None => Err (FanOutMissing groupIdx)
    | Some fo =>
        if decide (IteratorKey fo = "") then Err (FanOutNoIterator groupIdx)
        else if MaxParallel fo <? 0 then Err (FanOutNegativeParallel groupIdx)
        else if decide (Name (fo_Task fo) = "") then Err (FanOutTaskNoName groupIdx)
        else Ok (Name node)
    end
  else if decide (nodeType = TaskNodeTypeTask) then
    if decide (Name node = "") then Err (TaskNoName groupIdx)
    else match Loop node with
         | Some l => validateLoopDef l groupIdx (Name node);; mret (Name node)
         | None => Ok (Name node)
         end
  else Ok (Name node).

(** ** Workflows *)

Definition validate_event_trigger (wf : Workflow) : V unit :=
  if decide (Trigger wf = TriggerEvent) then
    match wf_EventTrigger wf with
    | None => Err EventTriggerMissing
    | Some et =>
        if decide (et_EventType et = EventTriggerWebhook) then Ok tt
        else if decide (et_EventType et = EventTriggerWorkflowCompleted) then
          if decide (et_Filter et = "") then Err (EventFilterMissing (et_EventType et)) else Ok tt
        else if decide (et_EventType et = EventTriggerTaskFailed) then
          if decide (et_Filter et = "") then Err (EventFilterMissing (et_EventType et)) else Ok tt
        else Err (EventTypeUnknown (et_EventType et))
    end
  else Ok tt.

Definition validate_mapping (gn : Z * TaskNode) : V unit :=
  let '(gi, node) := gn in
  check_all (fun '(localKey, sourceKey) =>
               if decide (localKey = "") then Err (MappingEmptyTarget (gi + 1) (Name node))
               else if decide (sourceKey = "") then Err (MappingEmptySource (gi + 1) (Name node))
               else Ok tt)
    (map_to_list (default ∅ (InputMapping node) : gmap string string)).

Definition validate_default_branch (gn : Z * TaskNode) : V unit :=
  let '(gi, node) := gn in
  match Branches node with
  | Some bs =>
      if decide (DefaultBranch node = "") then Ok tt
      else if decide (DefaultBranch node ∈ bs.*1) then Ok tt
      else Err (DefaultBranchMissing (gi + 1) (Name node) (DefaultBranch node))
  | None => Ok tt
  end.

(** [allNames]: the 1-based group of every task name seen so far. *)
Definition add_main_task (gi : Z) (st : gmap string Z * gset string) (node : TaskNode)
  : V (gmap string Z * gset string) :=
  let '(allNames, groupNames) := st in
  name ← validateTaskNode node (gi + 1);
  if decide (name ∈ groupNames) then Err (DuplicateInGroup (gi + 1) name)
  else match allNames !! name with
       | Some prevGroup => Err (DuplicateInWorkflow name prevGroup (gi + 1))
       | None => Ok (<[name := gi + 1]> allNames, {[name]} ∪ groupNames)
       end.

Definition add_main_group (st : Z * gmap string Z) (group : list TaskNode)
  : V (Z * gmap string Z) :=
  let '(gi, allNames) := st in
  r ← for_res (add_main_task gi) (allNames, ∅) group;
  mret (gi + 1, r.1).

Definition add_branch_task (gi : Z) (parent branch : string)
    (st : gmap string Z * gset string) (bn : TaskNode) : V (gmap string Z * gset string) :=
  let '(allNames, branchGroupNames) := st in
  if decide (Name bn = "") then Err (BranchTaskNoName (gi + 1) parent branch)
  else if decide (Name bn ∈ branchGroupNames) then
    Err (BranchDuplicate (gi + 1) parent branch (Name bn))
  else match allNames !! Name bn with
       | Some prevGroup => Err (BranchConflict (gi + 1) parent branch (Name bn) prevGroup)
       | None => Ok (<[Name bn := gi + 1]> allNames, {[Name bn]} ∪ branchGroupNames)
       end.

Definition add_branch_group (gi : Z) (parent branch : string) (allNames : gmap string Z)
    (bg : list TaskNode) : V (gmap string Z) :=
  r ← for_res (add_branch_task gi parent branch) (allNames, ∅) bg;
  mret r.1.

Definition add_branches (allNames : gmap string Z) (gn : Z * TaskNode) : V (gmap string Z) :=
  let '(gi, node) := gn in
  for_res (fun names '(branch, branchGroups) =>
             for_res (add_branch_group gi (Name node) branch) names branchGroups)
    allNames (default [] (Branches node)).

Definition validateWorkflowTasks (wf : Workflow) : V unit :=
  ErrorPolicy_Validate (wf_ErrorPolicy wf);;
  validate_event_trigger wf;;
  check_all validate_mapping (indexed_nodes (TaskGroups wf));;
  check_all validate_default_branch (indexed_nodes (TaskGroups wf));;
  r ← for_res add_main_group (0, ∅) (TaskGroups wf);
  for_res add_branches r.2 (indexed_nodes (TaskGroups wf));;
  mret tt.

(** The name validation gives a node: its own, or one made from the
    sub-workflow it calls. *)
Definition resolved_name (node : TaskNode) : string :=
  if decide (GetTaskNodeType node = TaskNodeTypeSubWorkflow /\ Name node = "") then
    ("__sub_wf_" +:+ SubWorkflow node)%string
  else Name node.

(** The names an accepted workflow uses: its nodes', then its branch tasks'. *)
Definition all_resolved (groups : list (list TaskNode)) : list string :=
  (resolved_name <$> concat groups) ++
  (Name ∘ snd <$> concat (branch_nodes <$> concat groups)).

(** ** What validation checks: the declarative reading *)

Definition loop_ok (l : LoopDef) : Prop :=
  0 < MaxIterations l /\
  (ConditionType l = LoopConditionAlways \/
   ConditionType l = LoopConditionKey /\ ConditionKey l <> "").

Definition opt_loop_ok (n : TaskNode) : Prop :=
  match Loop n with Some l => loop_ok l | None => True end.

Definition fan_out_ok (n : TaskNode) : Prop :=
  match FanOut n with
  | Some fo => IteratorKey fo <> "" /\ 0 <= MaxParallel fo /\ Name (fo_Task fo) <> ""
  | None => False
  end.

Definition node_ok (n : TaskNode) : Prop :=
  (GetTaskNodeType n = TaskNodeTypeSubWorkflow -> SubWorkflow n <> "" /\ opt_loop_ok n) /\
  (GetTaskNodeType n = TaskNodeTypeFanOut -> fan_out_ok n) /\
  (GetTaskNodeType n = TaskNodeTypeTask -> Name n <> "" /\ opt_loop_ok n).

Definition mapping_ok (n : TaskNode) : Prop :=
  match InputMapping n with
  | Some im => forall k src, im !! k = Some src -> k <> "" /\ src <> ""
  | None => True
  end.

Definition default_branch_ok (n : TaskNode) : Prop :=
  match Branches n with
  | Some bs => DefaultBranch n = "" \/ DefaultBranch n ∈ bs.*1
  | None => True
  end.

Definition trigger_ok (wf : Workflow) : Prop :=
  Trigger wf = TriggerEvent ->
  match wf_EventTrigger wf with
  | Some et =>
      et_EventType et = EventTriggerWebhook \/
      (et_EventType et = EventTriggerWorkflowCompleted \/
       et_EventType et = EventTriggerTaskFailed) /\ et_Filter et <> ""
  | None => False
  end.

Definition policy_ok (ep : option ErrorPolicy) : Prop :=
  match ep with
  | Some ep =>
      OnTaskFailure ep ∈ "" :: task_policies /\
      OnTimeout ep ∈ [""; "rollback"; "fail"] /\
      forall t p, TaskPolicies ep !! t = Some p -> p ∈ task_policies
  | None => True
  end.

(** The outcome of the checks, no more: what a well-formed definition is comes
    below. *)
Record wf_valid (wf : Workflow) : Prop := {
  valid_policy : policy_ok (wf_ErrorPolicy wf);
  valid_trigger : trigger_ok wf;
  valid_mappings : Forall mapping_ok (concat (TaskGroups wf));
  valid_defaults : Forall default_branch_ok (concat (TaskGroups wf));
  valid_nodes : Forall node_ok (concat (TaskGroups wf));
  valid_branch_names :
    Forall (fun n => Forall (fun p => Name p.2 <> "") (branch_nodes n)) (concat (TaskGroups wf));
  valid_unique : NoDup (all_resolved (TaskGroups wf)) }.

(** ** Lemmas *)

Lemma check_all_ok {A : Type} (f : A -> V unit) l :
  check_all f l = Ok tt <-> Forall (fun x => f x = Ok tt) l.
Proof.
  unfold check_all. induction l as [|x l IH]; [split; [constructor|done]|].
  cbn. rewrite Forall_cons, <- IH.
  destruct (f x) as [[]|]; naive_solver.
Qed.

Lemma check_all_indexed (f : Z * TaskNode -> V unit) (P : TaskNode -> Prop) groups :
  (forall gi n, f (gi, n) = Ok tt <-> P n) ->
  check_all f (indexed_nodes groups) = Ok tt <-> Forall P (concat groups).
Proof.
  intros Hf. rewrite check_all_ok, <- indexed_nodes_snd, Forall_fmap.
  apply Forall_iff. intros [gi n]. apply Hf.
Qed.

(** [fresh X names]: the names are distinct and none is in [X]. *)
Definition fresh (X : gset string) (names : list string) : Prop :=
  NoDup names /\ Forall (fun n => n ∉ X) names.

Lemma fresh_app X l k : fresh X (l ++ k) <-> fresh X l /\ fresh (list_to_set l ∪ X) k.
Proof.
  unfold fresh. rewrite NoDup_app, Forall_app, !Forall_forall.
  assert (Hin : forall x, x ∉ (list_to_set l ∪ X : gset string) <-> x ∉ l /\ x ∉ X)
    by set_solver.
  split.
  - intros [(? & ? & ?) [? ?]]. repeat split; [done..|].
    intros x Hx. apply Hin. naive_solver.
  - intros [[? ?] [? Hk]]. repeat split; [done| |done|done|].
    + intros x Hx Hx'. apply Hk, Hin in Hx'. tauto.
    + intros x Hx. apply Hk, Hin in Hx. tauto.
Qed.

(** A step from [s] that succeeds exactly when [ok] holds and [names] are
    fresh, and then records them. *)
Definition adds {S : Type} (I : S -> Prop) (dm : S -> gset string) (s : S)
    (ok : Prop) (names : list string) (r : V S) : Prop :=
  match r with
  | Ok s' => I s' /\ ok /\ fresh (dm s) names /\ dm s' = list_to_set names ∪ dm s
  | Err _ => ~ (ok /\ fresh (dm s) names)
  end.

Lemma adds_loop {S A : Type} (I : S -> Prop) (dm : S -> gset string) (f : S -> A -> V S)
    (ok : A -> Prop) (names : A -> list string) (l : list A) :
  (forall s a, I s -> adds I dm s (ok a) (names a) (f s a)) ->
  forall s, I s -> adds I dm s (Forall ok l) (concat (names <$> l)) (for_res f s l).
Proof.
  intros Hf. induction l as [|a l IH]; intros s Hs; cbn.
  - repeat split; [done|constructor|constructor|constructor|set_solver].
  - specialize (Hf s a Hs). unfold adds in Hf. destruct (f s a) as [s'|e]; cbn.
    + destruct Hf as (Hs' & Hok & Hfr & Hdm). specialize (IH s' Hs').
      unfold adds in *. rewrite Hdm in IH.
      destruct (for_res f s' l) as [s''|e]; rewrite Forall_cons, fresh_app; [|tauto].
      rewrite list_to_set_app_L. destruct IH as (? & ? & ? & ->).
      split_and!; try tauto. set_solver.
    + rewrite Forall_cons, fresh_app. tauto.
Qed.

(** Forgetting part of a step's state. *)
Lemma adds_map {S T : Type} (I : S -> Prop) (J : T -> Prop) dm dm' s t ok ok' names (r : V S) (g : S -> T) :
  (forall s', I s' -> J (g s') /\ dm' (g s') = dm s') -> dm' t = dm s -> (ok <-> ok') ->
  adds I dm s ok names r ->
  adds J dm' t ok' names (r ≫= fun s' => mret (g s')).
Proof.
  intros Hg Ht Hok. unfold adds. destruct r as [s'|e]; cbn; rewrite Ht; [|tauto].
  intros (HI & ? & ? & ?). destruct (Hg s' HI) as [? ->]. tauto.
Qed.

Lemma validateLoopDef_spec l gi name :
  match validateLoopDef l gi name with Ok _ => loop_ok l | Err _ => ~ loop_ok l end.
Proof.
  unfold validateLoopDef, loop_ok.
  destruct (Z.leb_spec (MaxIterations l) 0); [lia|].
  assert (LoopConditionAlways <> LoopConditionKey) by done.
  repeat case_bool_decide; cbn; intuition congruence.
Qed.

(** The optional loop of a node, checked under any name. *)
Lemma opt_loop_spec n gi (name : string) :
  match (match Loop n with
         | Some l => validateLoopDef l gi name ≫= fun _ => mret name
         | None => Ok name
         end : V string) with
  | Ok name' => name' = name /\ opt_loop_ok n
  | Err _ => ~ opt_loop_ok n
  end.
Proof.
  unfold opt_loop_ok. destruct (Loop n) as [l|]; [|done].
  pose proof (validateLoopDef_spec l gi name). by destruct (validateLoopDef l gi name).
Qed.

Lemma validateTaskNode_spec n gi :
  match validateTaskNode n gi with
  | Ok name => name = resolved_name n /\ node_ok n
  | Err _ => ~ node_ok n
  end.
Proof.
  assert (Hty : TaskNodeTypeSubWorkflow <> TaskNodeTypeFanOut /\
                TaskNodeTypeSubWorkflow <> TaskNodeTypeTask /\
                TaskNodeTypeFanOut <> TaskNodeTypeTask) by done.
  destruct Hty as (H1 & H2 & H3).
  unfold validateTaskNode, resolved_name, node_ok.
  destruct (decide (GetTaskNodeType n = TaskNodeTypeSubWorkflow)) as [Ht|Ht].
  { rewrite Ht. destruct (decide (SubWorkflow n = "")); [tauto|].
    set (name := if decide (Name n = "") then _ else _).
    replace (if decide (_ /\ Name n = "") then _ else _) with name
      by (unfold name; repeat case_decide; tauto).
    pose proof (opt_loop_spec n gi name) as Hl. case_match; [|tauto].
    destruct Hl. split; [done|]. split_and!; intros; [tauto|congruence..]. }
  rewrite (decide_False (P := GetTaskNodeType n = TaskNodeTypeSubWorkflow /\ Name n = "")) by tauto.
  destruct (decide (GetTaskNodeType n = TaskNodeTypeFanOut)) as [Hf|Hf].
  { rewrite Hf. unfold fan_out_ok. destruct (FanOut n) as [fo|]; [|tauto].
    destruct (decide (IteratorKey fo = "")); [tauto|].
    destruct (Z.ltb_spec (MaxParallel fo) 0); [intros (_ & Hx & _); specialize (Hx eq_refl); lia|].
    destruct (decide (Name (fo_Task fo) = "")); [tauto|].
    split; [done|]. split_and!; intros; [congruence|tauto|congruence]. }
  destruct (decide (GetTaskNodeType n = TaskNodeTypeTask)) as [Hk|Hk]; [|tauto].
  destruct (decide (Name n = "")); [tauto|].
  pose proof (opt_loop_spec n gi (Name n)) as Hl. case_match; [|tauto].
  destruct Hl. split; [done|]. tauto.
Qed.

Lemma fresh_singleton X n : fresh X [n] <-> n ∉ X.
Proof. unfold fresh. rewrite list.Forall_singleton. split; [tauto|split; [apply NoDup_singleton|done]]. Qed.

Definition names_dom (st : gmap string Z * gset string) : gset string := dom st.1.
Definition names_inv (st : gmap string Z * gset string) : Prop := st.2 ⊆ dom st.1.

(** The check shared by main and branch tasks: refused when seen in the group
    or in the workflow, recorded otherwise. *)
Lemma add_name_adds (allNames : gmap string Z) (gn : gset string) name v e1 e2 ok :
  gn ⊆ dom allNames -> ok ->
  adds names_inv names_dom (allNames, gn) ok [name]
    (if decide (name ∈ gn) then Err e1
     else match allNames !! name with
          | Some prev => Err (e2 prev)
          | None => Ok (<[name := v]> allNames, {[name]} ∪ gn)
          end).
Proof.
  intros Hgn Hok. unfold adds, names_inv, names_dom.
  case_decide; cbn; [rewrite fresh_singleton; set_solver|].
  destruct (allNames !! name) eqn:Hl; cbn; rewrite fresh_singleton.
  - apply elem_of_dom_2 in Hl. set_solver.
  - apply not_elem_of_dom in Hl. rewrite dom_insert_L. split_and!; [set_solver|done..|set_solver].
Qed.

Lemma add_main_task_adds gi st n :
  names_inv st -> adds names_inv names_dom st (node_ok n) [resolved_name n] (add_main_task gi st n).
Proof.
  destruct st as [allNames gn]. intros Hgn. unfold add_main_task.
  pose proof (validateTaskNode_spec n (gi + 1)) as Hn.
  destruct (validateTaskNode n (gi + 1)) as [name|e]; cbn; [|unfold adds; tauto].
  destruct Hn as [-> Hok]. by apply (add_name_adds _ _ _ _ _ (fun p => DuplicateInWorkflow _ p _)).
Qed.

Lemma add_branch_task_adds gi p b st bn :
  names_inv st ->
  adds names_inv names_dom st (Name bn <> "") [Name bn] (add_branch_task gi p b st bn).
Proof.
  destruct st as [allNames gn]. intros Hgn. unfold add_branch_task.
  destruct (decide (Name bn = "")); [unfold adds; tauto|].
  by apply (add_name_adds _ _ _ _ _ (fun q => BranchConflict _ _ _ _ q)).
Qed.

Definition main_dom (st : Z * gmap string Z) : gset string := dom st.2.

Lemma concat_singletons {A B : Type} (f : A -> B) (l : list A) :
  concat ((fun x => [f x]) <$> l) = f <$> l.
Proof. induction l as [|x l IH]; [done|]. cbn. by rewrite IH. Qed.

Lemma add_main_group_adds st g :
  adds (fun _ => True) main_dom st (Forall node_ok g) (resolved_name <$> g) (add_main_group st g).
Proof.
  destruct st as [gi allNames]. cbn.
  rewrite <- (concat_singletons resolved_name).
  eapply (adds_map names_inv (fun _ => True) names_dom main_dom (allNames, ∅) (gi, allNames)
            (Forall node_ok g) (Forall node_ok g) _ _ (fun r => (gi + 1, r.1))); [done..|].
  apply adds_loop; [intros; by apply add_main_task_adds|done].
Qed.

Lemma add_branch_group_adds gi p b (allNames : gmap string Z) bg :
  adds (fun _ => True) dom allNames (Forall (fun bn => Name bn <> "") bg) (Name <$> bg)
    (add_branch_group gi p b allNames bg).
Proof.
  rewrite <- (concat_singletons Name).
  eapply (adds_map names_inv (fun _ => True) names_dom dom (allNames, ∅) allNames
            (Forall _ bg) (Forall _ bg) _ _ (fun r => r.1)); [done..|].
  apply adds_loop; [intros; by apply add_branch_task_adds|done].
Qed.

Lemma concat_fmap {A B : Type} (f : A -> B) (ls : list (list A)) :
  f <$> concat ls = concat ((fun l : list A => f <$> l) <$> ls).
Proof. induction ls as [|l ls IH]; [done|]. cbn. by rewrite fmap_app, IH. Qed.

Lemma Forall_concat_fmap {A B : Type} (P : B -> Prop) (f : A -> list B) (l : list A) :
  Forall P (concat (f <$> l)) <-> Forall (fun a => Forall P (f a)) l.
Proof.
  induction l as [|a l IH]; cbn; [by rewrite !list.Forall_nil|].
  by rewrite Forall_app, list.Forall_cons, IH.
Qed.

Definition branch_group_names (b : string * list (list TaskNode)) : list string :=
  concat ((fun g : list TaskNode => Name <$> g) <$> b.2).

Lemma branch_node_names (n : TaskNode) :
  Name ∘ snd <$> branch_nodes n = concat (branch_group_names <$> default [] (Branches n)).
Proof.
  unfold branch_nodes. rewrite concat_fmap, <- list_fmap_compose. f_equal.
  apply list_fmap_ext. intros _ [b groups] _. unfold branch_group_names. cbn.
  rewrite <- list_fmap_compose. apply concat_fmap.
Qed.

Lemma branch_nodes_Forall (P : string -> Prop) (n : TaskNode) :
  Forall (fun p => P (Name p.2)) (branch_nodes n) <->
  Forall (fun b => Forall (Forall (fun bn => P (Name bn))) b.2) (default [] (Branches n)).
Proof.
  transitivity (Forall P (Name ∘ snd <$> branch_nodes n)); [by rewrite Forall_fmap|].
  rewrite branch_node_names, Forall_concat_fmap. apply Forall_iff. intros [b groups].
  unfold branch_group_names. cbn. rewrite Forall_concat_fmap. apply Forall_iff.
  intros g. by rewrite Forall_fmap.
Qed.

Lemma adds_names {S : Type} I (dm : S -> gset string) s ok ok' names names' r :
  (ok <-> ok') -> names = names' -> adds I dm s ok names r -> adds I dm s ok' names' r.
Proof. intros Hok ->. unfold adds. destruct r; tauto. Qed.

Lemma add_branches_adds (allNames : gmap string Z) gn :
  adds (fun _ => True) dom allNames
    (Forall (fun p => Name p.2 <> "") (branch_nodes gn.2)) (Name ∘ snd <$> branch_nodes gn.2)
    (add_branches allNames gn).
Proof.
  destruct gn as [gi n]. unfold add_branches. cbn.
  eapply adds_names; [symmetry; apply (branch_nodes_Forall (fun x => x <> ""))|
                      symmetry; apply branch_node_names|].
  apply adds_loop; [|done]. intros names [b groups] _. cbn.
  unfold branch_group_names. cbn.
  apply adds_loop; [intros; apply add_branch_group_adds|done].
Qed.

(** The two naming passes succeed exactly on well-formed, distinct names. *)
Lemma names_pass_spec (groups : list (list TaskNode)) :
  (exists r names, for_res add_main_group (0, ∅) groups = Ok r /\
     for_res add_branches r.2 (indexed_nodes groups) = Ok names) <->
  Forall node_ok (concat groups) /\
  Forall (fun n => Forall (fun p => Name p.2 <> "") (branch_nodes n)) (concat groups) /\
  NoDup (all_resolved groups).
Proof.
  assert (Hfr : forall l, fresh ∅ l <-> NoDup l).
  { intros l. unfold fresh. rewrite Forall_forall. set_solver. }
  pose proof (adds_loop (fun _ => True) main_dom add_main_group (Forall node_ok)
    (fun g : list TaskNode => resolved_name <$> g) groups (fun s a _ => add_main_group_adds s a) (0, ∅) I) as Hm.
  rewrite <- concat_fmap in Hm. unfold adds in Hm.
  assert (Hnd : NoDup (all_resolved groups) <-> fresh ∅ (all_resolved groups)) by (by rewrite Hfr).
  unfold all_resolved in Hnd |- *. rewrite fresh_app in Hnd.
  replace (main_dom (0, ∅)) with (∅ : gset string) in Hm by (unfold main_dom; cbn; set_solver).
  destruct (for_res add_main_group (0, ∅) groups) as [r|e];
    rewrite <- Forall_concat in Hm; [|split; [naive_solver|tauto]].
  destruct Hm as (_ & Hok & Hfm & Hdom).
  pose proof (adds_loop (fun _ => True) dom add_branches
    (fun gn => Forall (fun p => Name p.2 <> "") (branch_nodes gn.2))
    (fun gn => Name ∘ snd <$> branch_nodes gn.2) (indexed_nodes groups)
    (fun s a _ => add_branches_adds s a) r.2 I) as Hb.
  unfold adds in Hb. unfold main_dom in Hdom. rewrite Hdom in Hb.
  assert (Hn : concat ((fun gn : Z * TaskNode => Name ∘ snd <$> branch_nodes gn.2)
                         <$> indexed_nodes groups)
               = Name ∘ snd <$> concat (branch_nodes <$> concat groups)).
  { rewrite <- indexed_nodes_snd, concat_fmap, <- !list_fmap_compose. done. }
  assert (Hf : Forall (fun gn : Z * TaskNode => Forall (fun p => Name p.2 <> "") (branch_nodes gn.2))
                 (indexed_nodes groups) <->
               Forall (fun n => Forall (fun p => Name p.2 <> "") (branch_nodes n)) (concat groups)).
  { rewrite <- (indexed_nodes_snd groups), Forall_fmap. done. }
  rewrite Hn in Hb. clear Hn.
  destruct (for_res add_branches r.2 (indexed_nodes groups)) as [names|e] eqn:Hrun;
    rewrite Hf in Hb; clear Hf.
  - split; [tauto|]. intros _. by exists r, names.
  - split; [intros (r' & names & [= <-] & ?); congruence|tauto].
Qed.

Lemma policy_spec ep : ErrorPolicy_Validate ep = Ok tt <-> policy_ok ep.
Proof.
  destruct ep as [ep|]; [|done]. unfold ErrorPolicy_Validate, policy_ok.
  repeat case_bool_decide; cbn [negb]; try (split; [done|tauto]).
  transitivity (map_Forall (fun _ p => p ∈ task_policies) (TaskPolicies ep)).
  - rewrite check_all_ok, map_Forall_to_list. apply Forall_iff. intros [t p]. cbn.
    case_bool_decide; naive_solver.
  - unfold map_Forall. naive_solver.
Qed.

Lemma trigger_spec wf : validate_event_trigger wf = Ok tt <-> trigger_ok wf.
Proof.
  unfold validate_event_trigger, trigger_ok.
  case_decide; [|done]. destruct (wf_EventTrigger wf) as [et|]; [|naive_solver].
  repeat case_decide; naive_solver.
Qed.

Lemma mapping_spec gi n : validate_mapping (gi, n) = Ok tt <-> mapping_ok n.
Proof.
  unfold validate_mapping, mapping_ok.
  transitivity (map_Forall (fun k src => k <> "" /\ src <> "") (default ∅ (InputMapping n))).
  - rewrite check_all_ok, map_Forall_to_list. apply Forall_iff. intros [k src]. cbn.
    repeat case_decide; naive_solver.
  - destruct (InputMapping n) as [im|]; [done|]. split; [done|intros _; apply map_Forall_empty].
Qed.

Lemma default_branch_spec gi n : validate_default_branch (gi, n) = Ok tt <-> default_branch_ok n.
Proof.
  unfold validate_default_branch, default_branch_ok.
  destruct (Branches n); [|done]. repeat case_decide; naive_solver.
Qed.

(** The branch tasks of a workflow, as [BuildBranchTaskIndex] visits them. *)
Definition branch_entries (wf : Workflow) : list ((Z * TaskNode) * (string * TaskNode)) :=
  concat ((fun gn : Z * TaskNode => (fun b => (gn, b)) <$> branch_nodes gn.2)
            <$> indexed_nodes (TaskGroups wf)).

Definition entry_name (e : (Z * TaskNode) * (string * TaskNode)) : string := Name e.2.2.
Definition entry_location (e : (Z * TaskNode) * (string * TaskNode)) : BranchLocation :=
  MkBranchLocation e.1.1 (Name e.1.2) e.2.1.

Lemma BuildBranchTaskIndex_eq (wf : Workflow) :
  BuildBranchTaskIndex wf = insert_all entry_name entry_location ∅ (branch_entries wf).
Proof.
  unfold BuildBranchTaskIndex, branch_entries. generalize (∅ : gmap string BranchLocation).
  induction (indexed_nodes (TaskGroups wf)) as [|[gi n] l IH]; intros m; [done|].
  cbn. rewrite insert_all_app, <- IH. f_equal. clear IH. revert m.
  induction (branch_nodes n) as [|[b bn] bs IH]; intros m; [done|]. apply IH.
Qed.

Lemma branch_entries_names (wf : Workflow) :
  entry_name <$> branch_entries wf
  = Name ∘ snd <$> concat (branch_nodes <$> concat (TaskGroups wf)).
Proof.
  unfold branch_entries. rewrite <- indexed_nodes_snd, !concat_fmap, <- !list_fmap_compose.
  f_equal. apply list_fmap_ext. intros _ gn _. cbn. rewrite <- list_fmap_compose. done.
Qed.

(** ** Properties *)

(** Validation accepts a definition exactly when its checks hold. *)
Lemma validateWorkflowTasks_checks (wf : Workflow) :
  validateWorkflowTasks wf = Ok tt <-> wf_valid wf.
Proof.
  pose proof (policy_spec (wf_ErrorPolicy wf)) as Hp.
  pose proof (trigger_spec wf) as Ht.
  pose proof (check_all_indexed validate_mapping mapping_ok (TaskGroups wf) mapping_spec) as Hm.
  pose proof (check_all_indexed validate_default_branch default_branch_ok (TaskGroups wf)
    default_branch_spec) as Hd.
  pose proof (names_pass_spec (TaskGroups wf)) as Hn.
  unfold validateWorkflowTasks.
  destruct (ErrorPolicy_Validate (wf_ErrorPolicy wf)) as [[]|]; cbn; [|split; [done|intros []; tauto]].
  destruct (validate_event_trigger wf) as [[]|]; cbn; [|split; [done|intros []; tauto]].
  destruct (check_all validate_mapping _) as [[]|]; cbn; [|split; [done|intros []; tauto]].
  destruct (check_all validate_default_branch _) as [[]|]; cbn; [|split; [done|intros []; tauto]].
  assert (Hiff : wf_valid wf <-> Forall node_ok (concat (TaskGroups wf)) /\
     Forall (fun n => Forall (fun p => Name p.2 <> "") (branch_nodes n)) (concat (TaskGroups wf)) /\
     NoDup (all_resolved (TaskGroups wf))).
  { split; [intros []; tauto|]. intros (? & ? & ?). split; tauto. }
  rewrite Hiff, <- Hn. clear Hiff Hn.
  destruct (for_res add_main_group (0, ∅) (TaskGroups wf)) as [r|] eqn:Hr; cbn; [|naive_solver].
  destruct (for_res add_branches r.2 (indexed_nodes (TaskGroups wf))) as [ns|] eqn:Hns; cbn.
  - split; [by exists r, ns|done].
  - split; [done|intros (? & ? & [= <-] & ?); congruence].
Qed.

(** ** Well-formed definitions

    The tasks in the branches of a node, at any depth. *)
Fixpoint inner_tasks (n : TaskNode) : list TaskNode :=
  match n with
  | MkTaskNode _ _ _ _ (Some bs) _ _ _ _ _ _ _ =>
      flat_map (fun b => flat_map (flat_map (fun c => c :: inner_tasks c)) b.2) bs
  | _ => []
  end.

(** A task, wherever it stands, that is complete: of a type there is, with what
    the type needs; no empty key in its mappings; a default branch that
    exists; and a loop that is bounded and has a condition the scheduler knows. *)
Record task_ok (n : TaskNode) : Prop := {
  ok_type : GetTaskNodeType n ∈ [TaskNodeTypeTask; TaskNodeTypeSubWorkflow; TaskNodeTypeFanOut];
  ok_sub : GetTaskNodeType n = TaskNodeTypeSubWorkflow -> SubWorkflow n <> "";
  ok_fan : GetTaskNodeType n = TaskNodeTypeFanOut -> fan_out_ok n;
  ok_template fo : GetTaskNodeType n = TaskNodeTypeFanOut -> FanOut n = Some fo -> mapping_ok (fo_Task fo);
  ok_mapping : mapping_ok n;
  ok_default : DefaultBranch n <> "" -> exists bs, Branches n = Some bs /\ DefaultBranch n ∈ bs.*1;
  ok_loop : opt_loop_ok n }.

(** A definition as the comments describe it: every task complete and named (a
    sub-workflow of a group gets a name), and no two with the same name. *)
Record well_formed (wf : Workflow) : Prop := {
  wf_policy : policy_ok (wf_ErrorPolicy wf);
  wf_trigger : trigger_ok wf;
  wf_tasks : Forall (fun n => task_ok n /\ resolved_name n <> "") (concat (TaskGroups wf));
  wf_inner : Forall (fun n => task_ok n /\ Name n <> "") (concat (inner_tasks <$> concat (TaskGroups wf)));
  wf_unique : NoDup ((resolved_name <$> concat (TaskGroups wf)) ++
                     (Name <$> concat (inner_tasks <$> concat (TaskGroups wf)))) }.

(** What validation does not look at is in order: default branches of nodes
    that have no branches; types it does not know; the names and the loops of
    fan-outs and the mappings of their templates; all of a branch task but its
    name; and the branches of branch tasks. *)
Record unchecked_ok (wf : Workflow) : Prop := {
  un_default : Forall (fun n => Branches n = None -> DefaultBranch n = "") (concat (TaskGroups wf));
  un_type : Forall (fun n => GetTaskNodeType n ∈
      [TaskNodeTypeTask; TaskNodeTypeSubWorkflow; TaskNodeTypeFanOut]) (concat (TaskGroups wf));
  un_fan : Forall (fun n => GetTaskNodeType n = TaskNodeTypeFanOut -> Name n <> "" /\ opt_loop_ok n /\
      forall fo, FanOut n = Some fo -> mapping_ok (fo_Task fo)) (concat (TaskGroups wf));
  un_branches : Forall (fun n => Forall (fun c => task_ok c.2 /\ branch_nodes c.2 = []) (branch_nodes n))
      (concat (TaskGroups wf)) }.

Lemma inner_tasks_eq n : inner_tasks n = flat_map (fun c => c :: inner_tasks c) (branch_nodes n).*2.
Proof.
  destruct n as [t nm ps d bs db pb sw sp fo lp im]. unfold branch_nodes. cbn. destruct bs as [bs|]; [|done]. cbn.
  induction bs as [|[b gs] bs IH]; [done|]. cbn. rewrite IH, fmap_app, flat_map_app. f_equal. clear IH.
  induction gs as [|g gs IH]; [done|]. cbn. rewrite IH, !fmap_app, flat_map_app. f_equal. clear IH.
  induction g as [|c g IH]; [done|]. cbn. by rewrite IH.
Qed.

Lemma inner_tasks_sublist n : (branch_nodes n).*2 `sublist_of` inner_tasks n.
Proof.
  rewrite inner_tasks_eq. induction (branch_nodes n).*2 as [|c l IH]; [done|]. cbn.
  apply sublist_skip. by apply sublist_inserts_l.
Qed.

Lemma inner_tasks_flat n : Forall (fun c => branch_nodes c.2 = []) (branch_nodes n) -> inner_tasks n = (branch_nodes n).*2.
Proof.
  intros Hn. rewrite inner_tasks_eq. induction Hn as [|[b c] l Hc _ IH]; [done|]. cbn in *.
  by rewrite IH, (inner_tasks_eq c), Hc.
Qed.

Lemma concat_sublist {A B : Type} (f g : A -> list B) l :
  (forall x, f x `sublist_of` g x) -> concat (f <$> l) `sublist_of` concat (g <$> l).
Proof. intros Hfg. induction l as [|x l IH]; [done|]. cbn. by apply sublist_app. Qed.

Lemma branch_names_inner (l : list TaskNode) :
  Name ∘ snd <$> concat (branch_nodes <$> l) = Name <$> concat ((fun n => (branch_nodes n).*2) <$> l).
Proof. rewrite list_fmap_compose. f_equal. induction l as [|n l IH]; [done|]. cbn. by rewrite fmap_app, IH. Qed.

Lemma task_ok_default n : task_ok n -> default_branch_ok n.
Proof.
  intros Hok. unfold default_branch_ok. destruct (Branches n) as [bs|] eqn:Hb; [|done].
  destruct (decide (DefaultBranch n = "")) as [|Hne]; [by left|right].
  destruct (ok_default _ Hok Hne) as (bs' & Hbs & Hin). congruence.
Qed.

Lemma task_ok_node n : task_ok n -> resolved_name n <> "" -> node_ok n.
Proof.
  intros [Ht Hs Hf Hfo Hm Hd Hl] Hname. split_and!; [by split; auto|done|]. intros Htask.
  split; [|done]. unfold resolved_name in Hname. rewrite decide_False in Hname; [done|].
  rewrite Htask. by intros [[=] _].
Qed.

(** The checks, and what they leave out. *)
Lemma checked_ok n :
  mapping_ok n -> default_branch_ok n -> node_ok n -> (Branches n = None -> DefaultBranch n = "") ->
  GetTaskNodeType n ∈ [TaskNodeTypeTask; TaskNodeTypeSubWorkflow; TaskNodeTypeFanOut] ->
  (GetTaskNodeType n = TaskNodeTypeFanOut -> Name n <> "" /\ opt_loop_ok n /\
     forall fo, FanOut n = Some fo -> mapping_ok (fo_Task fo)) ->
  task_ok n /\ resolved_name n <> "".
Proof.
  intros Hm Hd (Hsub & Hfan & Htask) Hud Hut Huf.
  assert (Hcase : GetTaskNodeType n = TaskNodeTypeTask \/ GetTaskNodeType n = TaskNodeTypeSubWorkflow \/
    GetTaskNodeType n = TaskNodeTypeFanOut) by (rewrite !elem_of_cons in Hut; set_solver).
  split.
  - split; [done|by intros Hx; apply Hsub in Hx as [? _]|done| |done| |].
    + intros fo Ht Hfo. by apply (proj2 (proj2 (Huf Ht))).
    + intros Hne. unfold default_branch_ok in Hd. destruct (Branches n) as [bs|]; [|by destruct Hne; apply Hud].
      exists bs. split; [done|]. by destruct Hd.
    + destruct Hcase as [Ht|[Ht|Ht]]; [by apply Htask|by apply Hsub|by apply Huf].
  - unfold resolved_name. case_decide as Hc; [done|].
    destruct Hcase as [Ht|[Ht|Ht]]; [by apply Htask| |by apply Huf]. intros Hname. by apply Hc.
Qed.

(** C1: validation accepts every well-formed definition: error policy and
    event trigger known, every task complete for its type at any depth of the
    branches, with default branches that exist, loops that are bounded and
    mappings without empty keys, all of them named and no two alike.  A
    definition it accepts is well formed if what it does not look at is in
    order: a default branch without branches, an unknown type, the name and
    loop of a fan-out and its template's mapping, everything
    but the names of the tasks in branches, and branches within branches. *)
Theorem validateWorkflowTasks_correct (wf : Workflow) :
  (well_formed wf -> validateWorkflowTasks wf = Ok tt) /\
  (validateWorkflowTasks wf = Ok tt -> unchecked_ok wf -> well_formed wf).
Proof.
  rewrite validateWorkflowTasks_checks. split.
  - intros [Hp Ht Hn Hi Hu]. split; [done|done|..].
    + eapply list.Forall_impl; [exact Hn|]. by intros n [[] _].
    + eapply list.Forall_impl; [exact Hn|]. intros n [Hok _]. by apply task_ok_default.
    + eapply list.Forall_impl; [exact Hn|]. intros n [Hok Hname]. by apply task_ok_node.
    + apply list.Forall_forall. intros n Hin. apply list.Forall_forall. intros [b c] Hc.
      apply (proj1 (list.Forall_forall _ _) Hi c). apply list_elem_of_In, in_concat. exists (inner_tasks n).
      rewrite <- !list_elem_of_In. split; [by apply list_elem_of_fmap_2|].
      eapply elem_of_sublist; [|apply inner_tasks_sublist]. by apply (list_elem_of_fmap_2 snd _ (b, c)).
    + eapply sublist_NoDup; [exact Hu|]. unfold all_resolved. apply sublist_app; [done|].
      rewrite branch_names_inner. apply fmap_sublist, concat_sublist, inner_tasks_sublist.
  - intros [Hp Ht Hm Hd Hn Hb Hu] [Hud Hut Huf Hub].
    assert (Hinner : inner_tasks <$> concat (TaskGroups wf) = (fun n => (branch_nodes n).*2) <$> concat (TaskGroups wf)).
    { apply list_fmap_ext. intros i n Hin%list_elem_of_lookup_2. apply inner_tasks_flat.
      eapply list.Forall_impl; [exact (proj1 (list.Forall_forall _ _) Hub n Hin)|]. by intros c [_ ?]. }
    rewrite list.Forall_forall in Hm, Hd, Hn, Hud, Hut, Huf, Hub, Hb.
    split; [done|done|..]; rewrite ?Hinner.
    + apply list.Forall_forall. intros n Hin. by apply checked_ok; auto.
    + apply list.Forall_forall. intros c Hc. apply list_elem_of_In, in_concat in Hc as (l & Hl & Hc).
      apply list_elem_of_In in Hl, Hc. apply list_elem_of_fmap in Hl as (n & -> & Hin).
      apply list_elem_of_fmap in Hc as (x & -> & Hx). specialize (Hub n Hin). specialize (Hb n Hin).
      rewrite list.Forall_forall in Hub, Hb. split; [apply Hub|apply Hb]; done.
    + unfold all_resolved in Hu. by rewrite branch_names_inner in Hu.
Qed.

(** A workflow of one task. *)
Definition one_task (n : TaskNode) : Workflow :=
  NewWorkflow "demo" <| TaskGroups := [[n]] |>.

Definition gap_default : TaskNode := named_node "a" <| DefaultBranch := "b" |>.
Definition gap_type : TaskNode := named_node "a" <| Type_ := "taks" |>.
Definition gap_fan : TaskNode :=
  named_node "" <| Type_ := TaskNodeTypeFanOut |> <| FanOut := Some (MkFanOut "k" (named_node "t") 0 "") |>.
Definition gap_loop : TaskNode :=
  gap_fan <| Name := "f" |> <| Loop := Some (MkLoopDef 0 "" "") |>.
Definition gap_branch (c : TaskNode) : TaskNode := named_node "a" <| Branches := Some [("b", [[c]])] |>.

(** The gaps are there: each of these is accepted and not well formed.  The
    last has a task in a branch of a branch that is named as the first one. *)
Theorem validation_gaps :
  Forall (fun n => validateWorkflowTasks (one_task n) = Ok tt /\ ~ well_formed (one_task n))
    [gap_default; gap_type; gap_fan; gap_loop; gap_branch (gap_default <| Name := "c" |>);
     gap_branch (named_node "c" <| Branches := Some [("b", [[named_node "a"]])] |>)].
Proof.
  repeat (apply Forall_cons_2; [split; [vm_compute; reflexivity|]; intros [_ _ Ht Hi Hu]|]); [..|apply Forall_nil_2];
    cbn in Ht, Hi, Hu; try (apply Forall_cons in Ht as [[Ht Hn] _]).
  - destruct (ok_default _ Ht) as (bs & Hbs & _); [discriminate|discriminate].
  - pose proof (ok_type _ Ht) as Hx. by apply (bool_decide_pack _) in Hx.
  - by apply Hn.
  - destruct (ok_loop _ Ht) as [Hx _]. by cbn in Hx.
  - apply Forall_cons in Hi as [[Hi _] _].
    destruct (ok_default _ Hi) as (bs & Hbs & _); [discriminate|discriminate].
  - apply NoDup_cons in Hu as [Hu _]. apply Hu. cbn. right. left.
Qed.

Lemma named_task_ok name : name <> "" -> task_ok (named_node name).
Proof. intros Hn. split; try done. by left. Qed.

Lemma validateWorkflowTasks_correct_witness :
  validateWorkflowTasks (one_task (gap_branch (named_node "c"))) = Ok tt.
Proof.
  apply (proj1 (validateWorkflowTasks_correct (one_task (gap_branch (named_node "c"))))). split.
  - exact I.
  - intros Hx. vm_compute in Hx. discriminate Hx.
  - apply Forall_cons_2; [|by apply Forall_nil_2]. split; [|discriminate].
    split; try done; by left.
  - apply Forall_cons_2; [|by apply Forall_nil_2]. split; [by apply named_task_ok|discriminate].
  - apply (bool_decide_unpack _). vm_compute. exact I.
Defined.

(** On an accepted workflow whose sub-workflow nodes are named, the two
    lookup tables the scheduler builds are exact: the group index maps a name
    to [gi] just when a node of that name stands in group [gi], the branch
    index maps a name to a location just when that branch holds a task of that
    name, and no name is in both. *)
Theorem task_indexes_exact (wf : Workflow) :
  validateWorkflowTasks wf = Ok tt ->
  Forall (fun n => Name n <> "" \/ GetTaskNodeType n <> TaskNodeTypeSubWorkflow)
    (concat (TaskGroups wf)) ->
  (forall name gi, BuildTaskGroupIndex wf !! name = Some gi <->
     exists i g n, gi = Z.of_nat i /\ TaskGroups wf !! i = Some g /\ n ∈ g /\ Name n = name) /\
  (forall name loc, BuildBranchTaskIndex wf !! name = Some loc <->
     exists i g n b bn, TaskGroups wf !! i = Some g /\ n ∈ g /\ (b, bn) ∈ branch_nodes n /\
       Name bn = name /\ loc = MkBranchLocation (Z.of_nat i) (Name n) b) /\
  (forall name, BuildTaskGroupIndex wf !! name = None \/ BuildBranchTaskIndex wf !! name = None).
Proof.
  rewrite validateWorkflowTasks_checks. intros [_ _ _ _ _ _ Hu] Hnamed.
  unfold all_resolved in Hu.
  replace (resolved_name <$> concat (TaskGroups wf)) with (Name <$> concat (TaskGroups wf)) in Hu.
  2: { apply list_fmap_ext. intros i n Hn. unfold resolved_name.
       rewrite Forall_forall in Hnamed. apply list_elem_of_lookup_2, Hnamed in Hn.
       rewrite decide_False; [done|tauto]. }
  rewrite <- branch_entries_names, <- indexed_nodes_snd, <- list_fmap_compose in Hu.
  apply NoDup_app in Hu as (Hmain & Hdisj & Hbr).
  rewrite BuildTaskGroupIndex_eq, BuildBranchTaskIndex_eq.
  split_and!.
  - intros name gi. split.
    + intros [([j n] & Hjn & <- & <-)|[_ ?]]%insert_all_Some; [|done]. cbn.
      apply elem_of_indexed_nodes in Hjn as (i & g & ? & -> & ?). eauto 10.
    + intros (i & g & n & -> & Hg & Hn & <-).
      apply (insert_all_elem (fun p => Name p.2) (fun p => p.1) ∅ _ (Z.of_nat i, n) Hmain).
      apply elem_of_indexed_nodes. eauto.
  - intros name loc. split.
    + intros [(e & He & <- & <-)|[_ ?]]%insert_all_Some; [|done].
      unfold branch_entries in He. apply list_elem_of_In, in_concat in He as (l & Hl & He).
      apply list_elem_of_In, list_elem_of_fmap in Hl as ([gi n] & -> & Hn).
      apply list_elem_of_In, list_elem_of_fmap in He as ([b bn] & -> & Hb).
      apply elem_of_indexed_nodes in Hn as (i & g & ? & -> & ?).
      exists i, g, n, b, bn. done.
    + intros (i & g & n & b & bn & Hg & Hn & Hb & <- & ->).
      apply (insert_all_elem entry_name entry_location ∅ _ ((Z.of_nat i, n), (b, bn)) Hbr).
      unfold branch_entries. apply list_elem_of_In, in_concat.
      exists ((fun b' => ((Z.of_nat i, n), b')) <$> branch_nodes n).
      rewrite <- !list_elem_of_In. split.
      * apply list_elem_of_fmap. exists (Z.of_nat i, n). split; [done|].
        apply elem_of_indexed_nodes. eauto.
      * apply list_elem_of_fmap. by exists (b, bn).
  - intros name. destruct (insert_all _ _ _ _ !! name) as [gi|] eqn:H1; [|by left].
    right. apply eq_None_not_Some. intros [loc H2].
    apply insert_all_Some in H1 as [(x & Hx & <- & _)|[_ ?]]; [|done].
    apply insert_all_Some in H2 as [(e & He & Hne & _)|[_ ?]]; [|done].
    apply (Hdisj (Name x.2)); [by apply (list_elem_of_fmap_2 (Name ∘ snd))|].
    rewrite <- Hne. by apply list_elem_of_fmap_2.
Qed.

(** A workflow with a branching task, accepted by validation. *)
Definition branching_example : Workflow :=
  AddTaskGroup
    (AddBranchNodeGroup (NewWorkflow "deploy") "check"
       (Some [("yes", [[named_node "ship"]; [named_node "notify"]]); ("no", [[named_node "stop"]])])
       "no" false)
    ["report"; "clean"].

Lemma task_indexes_exact_witness :
  BuildTaskGroupIndex branching_example !! "clean" = Some 1 /\
  BuildBranchTaskIndex branching_example !! "notify" = Some (MkBranchLocation 0 "check" "yes").
Proof.
  destruct (task_indexes_exact branching_example) as (Hg & Hb & _).
  - vm_compute. reflexivity.
  - repeat (apply Forall_cons_2; [by left|]). by apply Forall_nil_2.
  - split; [apply Hg | apply Hb].
    + exists 1%nat, [named_node "report"; named_node "clean"], (named_node "clean").
      split_and!; [done..|right; left|done].
    + exists 0%nat. eexists _, _, "yes", (named_node "notify").
      split; [reflexivity|]. split; [left|]. split; [right; left|]. split; reflexivity.
Defined.
