(* ===== verification/Circuit.v ===== *)
(** * The circuit breaker (infra/circuit/circuit.go)

    A breaker guards the calls to etcd and MySQL.  Each method runs under its
    mutex, so an execution is a sequence of whole method calls; [time.Now()]
    is an argument of the methods that read the clock. *)
From Stdlib Require Import ZArith Lia String.
From stdpp Require Import base list strings.
From S2P Require Import Prelude.
Set Warnings "-register-all,-clear-no-such-hyp,-level-tolerance".

Inductive State : Type := StateClosed | StateOpen | StateHalfOpen.

#[export] Instance State_eq_dec : EqDecision State.
Proof. solve_decision. Defined.

Definition State_String (s : State) : string :=
  match s with
  | StateClosed => "CLOSED"
  | StateOpen => "OPEN"
  | StateHalfOpen => "HALF_OPEN"
  end.

Record Breaker := MkBreaker {
  br_name : string;
  maxFailures : Z;
  cooldownInterval : Z;
  state : State;
  consecutiveFails : Z;
  lastFailureTime : Z;
  lastStateChange : Z }.

#[export] Instance eta_Breaker : Eta Breaker := fun b =>
  MkBreaker (br_name b) (maxFailures b) (cooldownInterval b) (state b)
    (consecutiveFails b) (lastFailureTime b) (lastStateChange b).

(** The zero [time.Time] of [lastFailureTime] is 0. *)
Definition NewBreaker (name : string) (maxFailures cooldown now : Z) : Breaker :=
  MkBreaker name maxFailures cooldown StateClosed 0 0 now.

Definition Allow (now : Z) (b : Breaker) : bool * Breaker :=
  match state b with
  | StateClosed => (true, b)
  | StateOpen =>
      if cooldownInterval b <=? now - lastStateChange b then
        (true, b <| state := StateHalfOpen |> <| lastStateChange := now |>)
      else (false, b)
  | StateHalfOpen => (false, b)
  end.

Definition Success (now : Z) (b : Breaker) : Breaker :=
  let b := b <| consecutiveFails := 0 |> in
  if decide (state b = StateClosed) then b
  else b <| state := StateClosed |> <| lastStateChange := now |>.

Definition Failure (now : Z) (b : Breaker) : Breaker :=
  let b := b <| consecutiveFails := wrap64 (consecutiveFails b + 1) |>
             <| lastFailureTime := now |> in
  if decide (state b = StateHalfOpen) then
    b <| state := StateOpen |> <| lastStateChange := now |>
  else if decide (state b = StateClosed) then
    if maxFailures b <=? consecutiveFails b then
      b <| state := StateOpen |> <| lastStateChange := now |>
    else b
  else b.

Definition Stats (b : Breaker) : State * Z * Z :=
  (state b, consecutiveFails b, lastFailureTime b).

(** ** Executions *)

Inductive op : Type := OpAllow | OpSuccess | OpFailure.

Definition step (b : Breaker) (o : Z * op) : Breaker :=
  match o with
  | (now, OpAllow) => (Allow now b).2
  | (now, OpSuccess) => Success now b
  | (now, OpFailure) => Failure now b
  end.

Definition run (b : Breaker) (ops : list (Z * op)) : Breaker := foldl step b ops.

(** The reference automaton: consecutive failures while closed, the opening
    time while open. *)
Inductive spec_state : Type :=
| SClosed (fails : Z) | SOpen (since : Z) | SProbing.

Definition spec_step (max cooldown : Z) (s : spec_state) (o : Z * op) : spec_state :=
  match s, o with
  | SClosed n, (now, OpFailure) => if max <=? n + 1 then SOpen now else SClosed (n + 1)
  | SClosed n, (_, OpAllow) => SClosed n
  | SOpen since, (now, OpAllow) => if cooldown <=? now - since then SProbing else SOpen since
  | SOpen since, (_, OpFailure) => SOpen since
  | SProbing, (_, OpAllow) => SProbing
  | SProbing, (now, OpFailure) => SOpen now
  | _, (_, OpSuccess) => SClosed 0
  end.

Definition spec_allows (cooldown : Z) (s : spec_state) (now : Z) : bool :=
  match s with
  | SClosed _ => true
  | SOpen since => cooldown <=? now - since
  | SProbing => false
  end.

Definition abs (b : Breaker) : spec_state :=
  match state b with
  | StateClosed => SClosed (consecutiveFails b)
  | StateOpen => SOpen (lastStateChange b)
  | StateHalfOpen => SProbing
  end.

(** ** Lemmas *)

Lemma run_app b l k : run b (l ++ k) = run (run b l) k.
Proof. apply foldl_app. Qed.

Lemma step_config b o :
  maxFailures (step b o) = maxFailures b /\ cooldownInterval (step b o) = cooldownInterval b.
Proof.
  destruct o as [now []]; cbn; unfold Allow, Success, Failure; repeat case_match; done.
Qed.

Lemma run_config b ops :
  maxFailures (run b ops) = maxFailures b /\ cooldownInterval (run b ops) = cooldownInterval b.
Proof.
  induction ops as [|o ops IH] using rev_ind; [done|].
  rewrite run_app. destruct (step_config (run b ops) o) as [Hm Hc].
  cbn. rewrite Hm, Hc. done.
Qed.

(** While closed, fewer failures than the threshold have been counted. *)
Definition closed_below (b : Breaker) : Prop :=
  state b = StateClosed -> 0 <= consecutiveFails b < maxFailures b.

Lemma step_abs b o :
  maxFailures b <= maxInt64 -> closed_below b ->
  abs (step b o) = spec_step (maxFailures b) (cooldownInterval b) (abs b) o.
Proof.
  intros Hmax Hb. destruct b as [nm max cd st fails lf lc]. unfold closed_below in Hb. cbn in *.
  destruct o as [now []]; destruct st; try done; cbn.
  - unfold abs, Allow. cbn. by destruct (_ <=? _).
  - specialize (Hb eq_refl). unfold abs, Failure. cbn.
    rewrite wrap64_in by (unfold in64, minInt64; lia). by destruct (_ <=? _).
Qed.

Lemma step_closed_below b o :
  0 < maxFailures b <= maxInt64 -> closed_below b -> closed_below (step b o).
Proof.
  intros Hmax Hb. destruct b as [nm max cd st fails lf lc]. unfold closed_below in *. cbn in *.
  assert (Hw : st = StateClosed -> wrap64 (fails + 1) = fails + 1).
  { intros ->. specialize (Hb eq_refl). apply wrap64_in. unfold in64, minInt64. lia. }
  destruct o as [now []]; unfold step, Allow, Success, Failure; cbn.
  - destruct st; cbn; [done| |done]. by destruct (_ <=? _).
  - case_decide; cbn; lia.
  - destruct st; cbn; repeat case_decide; try done; cbn. rewrite Hw by done.
    specialize (Hb eq_refl). destruct (Z.leb_spec max (fails + 1)); cbn; [done|lia].
Qed.

Lemma run_closed_below b ops :
  0 < maxFailures b <= maxInt64 -> closed_below b -> closed_below (run b ops).
Proof.
  intros Hmax Hb. induction ops as [|o ops IH] using rev_ind; [done|].
  rewrite run_app. apply step_closed_below; [|done]. by destruct (run_config b ops) as [-> _].
Qed.

Lemma run_abs b ops :
  0 < maxFailures b <= maxInt64 -> closed_below b ->
  abs (run b ops) = foldl (spec_step (maxFailures b) (cooldownInterval b)) (abs b) ops.
Proof.
  intros Hmax Hb. induction ops as [|o ops IH] using rev_ind; [done|].
  rewrite run_app, foldl_app. cbn. rewrite <- IH.
  destruct (run_config b ops) as [Hm Hc]. rewrite step_abs, Hm, Hc; [done|lia|].
  by apply run_closed_below.
Qed.

Lemma Allow_abs b now : (Allow now b).1 = spec_allows (cooldownInterval b) (abs b) now.
Proof. unfold Allow, abs, spec_allows. destruct (state b); [done| |done]. by destruct (_ <=? _). Qed.

(** Without a report, a breaker that is not closed admits no call before its
    cooldown has passed, and a probing breaker none at all. *)
Lemma probing_rejects b ops now :
  state b = StateHalfOpen -> Forall (fun o => o.2 = OpAllow) ops ->
  run b ops = b /\ (Allow now (run b ops)).1 = false.
Proof.
  intros Hb Hops. assert (run b ops = b) as ->.
  { induction Hops as [|[t o] ops Ho _ IH]; [done|]. cbn in *. subst o.
    unfold Allow. rewrite Hb. apply IH. }
  split; [done|]. unfold Allow. by rewrite Hb.
Qed.

(** ** Properties *)

(** C7: a breaker refines the reference automaton along every sequence of
    calls: it opens exactly when the number of consecutive failures since the
    last success reaches the threshold, stays open for the cooldown, then lets
    one probe through, whose report closes it (success) or reopens it
    (failure); and [Allow] answers as the automaton does. *)
Theorem breaker_refines (name : string) (max cooldown t0 : Z) (ops : list (Z * op)) :
  0 < max <= maxInt64 ->
  let b := run (NewBreaker name max cooldown t0) ops in
  let s := foldl (spec_step max cooldown) (SClosed 0) ops in
  abs b = s /\ forall now, (Allow now b).1 = spec_allows cooldown s now.
Proof.
  intros Hmax b s. set (b0 := NewBreaker name max cooldown t0).
  assert (Hs : abs b = s).
  { apply (run_abs b0); [done|]. unfold closed_below. cbn. lia. }
  split; [done|]. intros now. rewrite Allow_abs, Hs.
  destruct (run_config b0 ops) as [_ Hc]. unfold b. fold b0. by rewrite Hc.
Qed.

Lemma breaker_refines_witness :
  let ops := [(1, OpFailure); (2, OpFailure); (3, OpFailure); (9, OpAllow); (13, OpAllow)] in
  state (run (NewBreaker "mysql" 3 10 0) ops) = StateHalfOpen /\
  abs (run (NewBreaker "mysql" 3 10 0) ops) = SProbing.
Proof.
  split; [reflexivity|].
  apply (breaker_refines "mysql" 3 10 0
    [(1, OpFailure); (2, OpFailure); (3, OpFailure); (9, OpAllow); (13, OpAllow)]).
  unfold maxInt64. lia.
Defined.

(** Once a probe has been let through, a breaker whose caller never reports
    an outcome refuses every later call, however long it waits. *)
Theorem unreported_probe_blocks (b : Breaker) (t : Z) (ops : list (Z * op)) (now : Z) :
  state b = StateOpen -> (Allow t b).1 = true -> Forall (fun o => o.2 = OpAllow) ops ->
  (Allow now (run (Allow t b).2 ops)).1 = false.
Proof.
  intros Hb Ht Hops. apply probing_rejects; [|done].
  unfold Allow in *. rewrite Hb in *. by destruct (_ <=? _).
Qed.

Lemma unreported_probe_blocks_witness :
  let b := run (NewBreaker "etcd" 1 10 0) [(1, OpFailure)] in
  (Allow 1000000 (run (Allow 11 b).2 [(50, OpAllow)])).1 = false.
Proof.
  apply (unreported_probe_blocks _ 11 [(50, OpAllow)] 1000000); [reflexivity..|].
  by apply Forall_singleton.
Defined.
