(* ===== verification/Payload.v ===== *)
(** * Task payloads and keys (infra/store/model.go, the key builders of
    infra/engine/scheduler/types.go)

    The payload a task travels in, the keys it is stored under, and the
    string scan that reads one field of a serialized payload without parsing
    it. *)
From Stdlib Require Import ZArith Lia Ascii String SpecFloat.
From stdpp Require Import base gmap strings list sorting pretty.
From S2P Require Import Prelude GoVal Model.
Set Warnings "-register-all,-clear-no-such-hyp,-level-tolerance".
Open Scope string_scope.

Definition StatusPending : string := "PENDING".
Definition StatusRunning : string := "RUNNING".
Definition StatusCompleted : string := "COMPLETED".
Definition StatusFailed : string := "FAILED".

(** (A nil [Params] or [Input] and an empty one are read alike; a nil [Output]
    is an output the executors leave out.) *)
Record TaskPayload := MkTaskPayload {
  WorkflowID : string;
  TaskName : string;
  TraceID : string;
  TraceContext : gmap string string;
  pl_Status : string;
  pl_Priority : Z;
  pl_Params : vmap;
  Input : vmap;
  Output : option vmap;
  Result : string;
  RetryCount : Z;
  pl_MaxRetries : Z;
  pl_TimeoutSec : Z;
  pl_BaseBackoff : Z;
  Rollback : bool;
  NoRetry : bool;
  EtcdModRevision : Z;
  EtcdKey : string }.

#[export] Instance eta_TaskPayload : Eta TaskPayload := fun p =>
  MkTaskPayload (WorkflowID p) (TaskName p) (TraceID p) (TraceContext p) (pl_Status p)
    (pl_Priority p) (pl_Params p) (Input p) (Output p) (Result p) (RetryCount p)
    (pl_MaxRetries p) (pl_TimeoutSec p) (pl_BaseBackoff p) (Rollback p) (NoRetry p)
    (EtcdModRevision p) (EtcdKey p).

(** The zero [TaskPayload]. *)
Definition zero_payload : TaskPayload :=
  MkTaskPayload "" "" "" ∅ "" 0 ∅ ∅ None "" 0 0 0 0 false false 0 "".

Record HeartbeatPayload := MkHeartbeatPayload {
  WorkerID : string;
  hb_Tasks : list string;
  TaskTypes : list TaskType;
  TaskTypesHash : string;
  hb_StartedAt : Z;
  hb_AliveAt : Z }.

(** ** Keys: [now] is [time.Now().UnixNano()], [rnd] is [randHex(4)] *)

Definition taskKey (prefix workflowName taskName : string) (now : Z) (rnd : string) : string :=
  prefix +:+ StatusPending +:+ "/" +:+ workflowName +:+ "/" +:+ taskName +:+ "/"
    +:+ pretty now +:+ "-" +:+ rnd.

Definition retryTaskKey (prefix workflowName taskName : string) (retryCount now : Z)
    (rnd : string) : string :=
  prefix +:+ StatusPending +:+ "/" +:+ workflowName +:+ "/" +:+ taskName +:+ "/retry-"
    +:+ pretty retryCount +:+ "-" +:+ pretty now +:+ "-" +:+ rnd.

(** ** The field scan *)

Definition quote : ascii := "034"%char.
Definition backslash : ascii := "\"%char.
Definition quoted (s : string) : string := String quote (s +:+ String quote "").

Fixpoint str_drop (n : nat) (s : string) : string :=
  match n, s with
  | S n', String _ s' => str_drop n' s'
  | _, _ => s
  end.

(** What follows the first occurrence of [search]: [strings.Index], then
    [idx += len(search)]. *)
Fixpoint after_first (search data : string) : option string :=
  if String.prefix search data then Some (str_drop (String.length search) data)
  else match data with
       | EmptyString => None
       | String _ data' => after_first search data'
       end.

Fixpoint skip_blanks (s : string) : string :=
  match s with
  | String c s' =>
      if (c =? " ")%char || (c =? "009")%char then skip_blanks s' else s
  | EmptyString => s
  end.

(** The characters up to the closing quote, a backslash giving the next one as
    it stands; [None] when the data ends first. *)
Fixpoint scan_string (s : string) : option string :=
  match s with
  | EmptyString => None
  | String c s' =>
      if (c =? backslash)%char then
        match s' with
        | String d s'' => String d <$> scan_string s''
        | EmptyString => None
        end
      else if (c =? quote)%char then Some ""
      else String c <$> scan_string s'
  end.

Definition extractJSONField (data key : string) : string :=
  match after_first (quoted key +:+ ":") data with
  | None => ""
  | Some rest =>
      match skip_blanks rest with
      | String c rest' =>
          if (c =? quote)%char then default "" (scan_string rest') else ""
      | EmptyString => ""
      end
  end.

Definition ExtractTaskName (data : string) : string := extractJSONField data "task_name".
Definition ExtractWorkflowUUID (data : string) : string := extractJSONField data "workflow_id".

(** ** Serialization

    [json.Marshal] writes the fields in order, a string field between quotes
    with the escapes of encoding/json: short ones for quote, backslash and the
    common controls, [\u00XX] for the other controls and for [<], [>], [&]. *)

Definition hex_digit (n : nat) : ascii :=
  ascii_of_nat (if (n <? 10)%nat then 48 + n else 87 + n).

Definition json_escape_char (c : ascii) : string :=
  let n := nat_of_ascii c in
  let short (d : ascii) := String backslash (String d "") in
  if (c =? quote)%char then short quote
  else if (c =? backslash)%char then short backslash
  else if (n =? 8)%nat then short "b"%char
  else if (n =? 12)%nat then short "f"%char
  else if (n =? 10)%nat then short "n"%char
  else if (n =? 13)%nat then short "r"%char
  else if (n =? 9)%nat then short "t"%char
  else if (n <? 32)%nat || (c =? "<")%char || (c =? ">")%char || (c =? "&")%char then
    String backslash (String "u"%char (String "0"%char (String "0"%char
      (String (hex_digit (n / 16)) (String (hex_digit (n mod 16)) "")))))
  else String c "".

Fixpoint json_escape (s : string) : string :=
  match s with
  | EmptyString => ""
  | String c s' => json_escape_char c +:+ json_escape s'
  end.

(** A serialized payload: its first two fields, then the others. *)
Definition serialized (workflowID taskName rest : string) : string :=
  "{" +:+ quoted "workflow_id" +:+ ":" +:+ quoted (json_escape workflowID) +:+ ","
    +:+ quoted "task_name" +:+ ":" +:+ quoted (json_escape taskName) +:+ rest.

(** [json.Marshal] refuses NaN, the infinities and a [json.Number] that is not
    a JSON number. *)
Definition is_digit (c : ascii) : bool :=
  (48 <=? nat_of_ascii c)%nat && (nat_of_ascii c <=? 57)%nat.

Fixpoint drop_digits (s : string) : string :=
  match s with
  | String c s' => if is_digit c then drop_digits s' else s
  | EmptyString => s
  end.

(** One digit or more; what follows them. *)
Definition some_digits (s : string) : option string :=
  match s with
  | String c s' => if is_digit c then Some (drop_digits s') else None
  | EmptyString => None
  end.

Definition json_exponent (s : string) : bool :=
  match s with
  | EmptyString => true
  | String c s' =>
      if (c =? "e")%char || (c =? "E")%char then
        let s'' := match s' with
                   | String d t => if (d =? "+")%char || (d =? "-")%char then t else s'
                   | EmptyString => s'
                   end in
        match some_digits s'' with Some EmptyString => true | _ => false end
      else false
  end.

Definition json_fraction (s : string) : bool :=
  match s with
  | String c s' =>
      if (c =? ".")%char then
        match some_digits s' with Some t => json_exponent t | None => false end
      else json_exponent s
  | EmptyString => true
  end.

Definition valid_json_number (s : string) : bool :=
  let s := match s with String c s' => if (c =? "-")%char then s' else s | _ => s end in
  match s with
  | String c s' =>
      if (c =? "0")%char then json_fraction s'
      else if is_digit c then json_fraction (drop_digits s') else false
  | EmptyString => false
  end.

Fixpoint encodable (v : val) : bool :=
  match v with
  | VFloat64 (S754_infinity _) | VFloat64 S754_nan => false
  | VFloat32 (S754_infinity _) | VFloat32 S754_nan => false
  | VNumber s => (s =? "")%string || valid_json_number s
  | VList l => forallb encodable l
  | VMap m => map_fold (fun _ v b => encodable v && b) true m
  | VMaps l => forallb (fun m => map_fold (fun _ v b => encodable v && b) true m) l
  | _ => true
  end.

Definition encodable_map (m : vmap) : bool := encodable (VMap m).

(** A payload that [Serialize] writes; the stored text is kept as the payload
    it encodes. *)
Definition Serialize (p : TaskPayload) : option TaskPayload :=
  if encodable_map (pl_Params p) && encodable_map (Input p) && encodable_map (default ∅ (Output p))
  then Some p else None.

(** ** UTF-8

    [utf8.DecodeRuneInString]: the bytes of a rune of two, three or four. *)
Definition byte_in (lo hi : nat) (c : ascii) : bool :=
  (lo <=? nat_of_ascii c)%nat && (nat_of_ascii c <=? hi)%nat.
Definition tail_byte (c : ascii) : bool := byte_in 128 191 c.

Definition rune2 (a b : ascii) : bool := byte_in 194 223 a && tail_byte b.

Definition rune3 (a b c : ascii) : bool :=
  (byte_in 224 224 a && byte_in 160 191 b || byte_in 225 236 a && tail_byte b ||
   byte_in 237 237 a && byte_in 128 159 b || byte_in 238 239 a && tail_byte b) && tail_byte c.

Definition rune4 (a b c d : ascii) : bool :=
  (byte_in 240 240 a && byte_in 144 191 b || byte_in 241 243 a && tail_byte b ||
   byte_in 244 244 a && byte_in 128 143 b) && tail_byte c && tail_byte d.

(** U+FFFD in front of a string. *)
Definition replacement (s : string) : string :=
  String (ascii_of_nat 239) (String (ascii_of_nat 191) (String (ascii_of_nat 189) s)).

(** What [json.Marshal] makes of a string: every byte that is not part of a
    rune becomes U+FFFD. *)
Fixpoint json_string (s : string) : string :=
  match s with
  | EmptyString => EmptyString
  | String a s1 =>
      if byte_in 0 127 a then String a (json_string s1)
      else
        match s1 with
        | EmptyString => replacement EmptyString
        | String b s2 =>
            if rune2 a b then String a (String b (json_string s2))
            else
              match s2 with
              | EmptyString => replacement (json_string s1)
              | String c s3 =>
                  if rune3 a b c then String a (String b (String c (json_string s3)))
                  else
                    match s3 with
                    | EmptyString => replacement (json_string s1)
                    | String d s4 =>
                        if rune4 a b c d
                        then String a (String b (String c (String d (json_string s4))))
                        else replacement (json_string s1)
                    end
              end
        end
  end.

(** The keys of a map are written in the order of their bytes; of two that are
    written the same, the later wins when they are read. *)
Definition key_le {A : Type} (x y : string * A) : Prop := String.leb x.1 y.1 = true.

#[export] Instance key_le_dec {A : Type} : RelDecision (@key_le A).
Proof. intros x y. unfold key_le. apply _. Defined.

Definition json_keys {A : Type} (m : gmap string A) : gmap string A :=
  foldl (fun r kv => <[json_string kv.1 := kv.2]> r) ∅ (merge_sort key_le (map_to_list m)).

(** Reading a JSON value back as [any]: numbers become float64, every array a
    [[]any], and what is nil is nothing but nil.  (A number beyond the range of
    float64, which [Unmarshal] refuses, only arises from a [json.Number] a task
    made itself.) *)
Fixpoint json_value (v : val) : val :=
  match v with
  | VNilRef _ => VNil
  | VInt n | VInt64 n => VFloat64 (float_of_int n)
  | VFloat32 f => VFloat64 (reread_32 f)
  | VNumber s => match parse_float64 s with Some f => VFloat64 f | None => VFloat64 (S754_zero false) end
  | VString s => VString (json_string s)
  | VStrs l => VList ((fun s => VString (json_string s)) <$> l)
  | VList l => VList (json_value <$> l)
  | VMap m => VMap (json_keys (json_value <$> m))
  | VMaps l => VList ((fun m => VMap (json_keys (json_value <$> m))) <$> l)
  | VNil | VBool _ | VFloat64 _ => v
  end.

Definition json_map (m : vmap) : vmap := json_keys (json_value <$> m).

(** What [Deserialize] makes of a stored payload.  (The names, which come from
    definitions and make the keys of etcd, and the texts the program writes
    itself are valid UTF-8.) *)
Definition Deserialize (p : TaskPayload) : TaskPayload :=
  p <| pl_Params ::= json_map |> <| Input ::= json_map |> <| Output ::= fmap json_map |>
    <| EtcdModRevision := 0 |> <| EtcdKey := "" |>.

(** Printable ASCII other than [<], [>] and [&]. *)
Definition plain_char (c : ascii) : bool :=
  let n := nat_of_ascii c in
  (32 <=? n)%nat && (n <? 127)%nat &&
  negb (c =? "<")%char && negb (c =? ">")%char && negb (c =? "&")%char.

Fixpoint plain (s : string) : bool :=
  match s with
  | EmptyString => true
  | String c s' => plain_char c && plain s'
  end.

(** ** Lemmas: UTF-8 *)

(** Valid UTF-8, the keys of a map too. *)
Definition utf8 (s : string) : Prop := json_string s = s.
Definition utf8_keys {A : Type} (m : gmap string A) : Prop := map_Forall (fun k _ => utf8 k) m.

#[export] Instance utf8_dec s : Decision (utf8 s).
Proof. unfold utf8. apply _. Defined.

#[export] Instance utf8_keys_dec {A : Type} (m : gmap string A) : Decision (utf8_keys m).
Proof. unfold utf8_keys. apply _. Defined.

Lemma json_string_cons s :
  json_string s =
  match s with
  | EmptyString => EmptyString
  | String a s1 =>
      if byte_in 0 127 a then String a (json_string s1)
      else match s1 with
           | String b s2 =>
               if rune2 a b then String a (String b (json_string s2))
               else match s2 with
                    | String c s3 =>
                        if rune3 a b c then String a (String b (String c (json_string s3)))
                        else match s3 with
                             | String d s4 =>
                                 if rune4 a b c d
                                 then String a (String b (String c (String d (json_string s4))))
                                 else replacement (json_string s1)
                             | EmptyString => replacement (json_string s1)
                             end
                    | EmptyString => replacement (json_string s1)
                    end
           | EmptyString => replacement (json_string s1)
           end
  end.
Proof. by destruct s as [|a [|b [|c [|d s]]]]. Qed.

Lemma json_string_replacement s : json_string (replacement s) = replacement (json_string s).
Proof. by rewrite json_string_cons. Qed.

(** What has been written once is valid. *)
Lemma json_string_utf8 s : utf8 (json_string s).
Proof.
  unfold utf8. remember (String.length s) as n eqn:Hn. revert s Hn.
  induction (lt_wf n) as [n _ IH]. intros s ->.
  assert (Hlt : forall t, (String.length t < String.length s)%nat -> json_string (json_string t) = json_string t)
    by (intros t Ht; by eapply IH).
  clear IH. rewrite (json_string_cons s). destruct s as [|a s1]; [done|].
  assert (Hbad : json_string (replacement (json_string s1)) = replacement (json_string s1)).
  { rewrite json_string_replacement, Hlt; [done|cbn; lia]. }
  destruct (byte_in 0 127 a) eqn:Ha.
  { rewrite json_string_cons, Ha, Hlt; [done|cbn; lia]. }
  destruct s1 as [|b s2]; [done|]. destruct (rune2 a b) eqn:H2.
  { rewrite json_string_cons, Ha, H2, Hlt; [done|cbn; lia]. }
  destruct s2 as [|c s3]; [done|]. destruct (rune3 a b c) eqn:H3.
  { rewrite json_string_cons, Ha, H2, H3, Hlt; [done|cbn; lia]. }
  destruct s3 as [|d s4]; [done|]. destruct (rune4 a b c d) eqn:H4; [|done].
  rewrite json_string_cons, Ha, H2, H3, H4, Hlt; [done|cbn; lia].
Qed.

Lemma utf8_keys_fmap {A B : Type} (f : A -> B) (m : gmap string A) : utf8_keys (f <$> m) <-> utf8_keys m.
Proof. unfold utf8_keys. by rewrite map_Forall_fmap. Qed.

Lemma fold_keys {A : Type} (l : list (string * A)) (acc : gmap string A) :
  NoDup l.*1 -> Forall (fun kv => utf8 kv.1) l ->
  foldl (fun r kv => <[json_string kv.1 := kv.2]> r) acc l = list_to_map l ∪ acc.
Proof.
  revert acc. induction l as [|[k v] l IH]; intros acc Hnd Hl; [symmetry; apply (left_id_L ∅ (∪))|].
  apply NoDup_cons in Hnd as [Hk Hnd]. apply Forall_cons in Hl as [Hu Hl]. cbn in *.
  rewrite IH, Hu by done. rewrite <- insert_union_r, insert_union_l; [done|].
  by apply not_elem_of_list_to_map_1.
Qed.

(** Valid keys are kept. *)
Lemma json_keys_id {A : Type} (m : gmap string A) : utf8_keys m -> json_keys m = m.
Proof.
  intros Hm. unfold json_keys. set (l := merge_sort key_le (map_to_list m)).
  assert (Hl : l ≡ₚ map_to_list m) by apply merge_sort_Permutation.
  assert (Hnd : NoDup l.*1) by (rewrite Hl; apply NoDup_fst_map_to_list).
  rewrite fold_keys, (right_id_L ∅ (∪)); [|done|].
  - rewrite (list_to_map_proper l (map_to_list m)) by done. apply list_to_map_to_list.
  - rewrite Hl. apply list.Forall_forall. intros [k v] Hkv%elem_of_map_to_list. by eapply Hm.
Qed.

(** What is read has valid keys, and the values that were written. *)
Lemma json_keys_spec {A : Type} (P : A -> Prop) (m : gmap string A) :
  map_Forall (fun _ => P) m -> utf8_keys (json_keys m) /\ map_Forall (fun _ => P) (json_keys m).
Proof.
  intros Hm. unfold json_keys. set (l := merge_sort key_le (map_to_list m)).
  assert (Hl : Forall (fun kv => P kv.2) l).
  { unfold l. rewrite merge_sort_Permutation. apply list.Forall_forall.
    intros [k v] Hkv%elem_of_map_to_list. by eapply Hm. }
  assert (Hacc : utf8_keys (∅ : gmap string A) /\ map_Forall (fun _ => P) (∅ : gmap string A))
    by (split; apply map_Forall_empty).
  revert Hacc. generalize (∅ : gmap string A). induction Hl as [|[k v] l Hv _ IH]; intros acc [Hu Hp]; [done|].
  cbn. apply IH. split; apply map_Forall_insert_2; try done. apply json_string_utf8.
Qed.

Lemma json_map_id (m : vmap) : utf8_keys m -> json_map m = json_value <$> m.
Proof. intros Hm. apply json_keys_id. by apply utf8_keys_fmap. Qed.

(** ** Lemmas: the field scan *)

Lemma str_app_cons c s t : String c s +:+ t = String c (s +:+ t).
Proof. done. Qed.

Lemma str_app_nil_l t : "" +:+ t = t.
Proof. done. Qed.

Lemma str_app_assoc (a b c : string) : (a +:+ b) +:+ c = a +:+ (b +:+ c).
Proof. induction a as [|x a IH]; [done|]. cbn. unfold String.app in *. by rewrite IH. Qed.

(** A plain character is written as itself, or as a backslash and itself. *)
Lemma escape_plain c :
  plain_char c = true ->
  (c <> quote /\ c <> backslash /\ json_escape_char c = String c "") \/
  ((c = quote \/ c = backslash) /\ json_escape_char c = String backslash (String c "")).
Proof.
  intros Hc. destruct c as [[] [] [] [] [] [] [] []]; vm_compute in Hc; try discriminate Hc;
    (right; split; [by (left + right)|reflexivity]) || (left; split_and!; [done..|reflexivity]).
Qed.

Lemma plain_cons c s : plain (String c s) = true -> plain_char c = true /\ plain s = true.
Proof. cbn. by intros [? ?]%andb_true_iff. Qed.

Lemma scan_escape s rest :
  plain s = true -> scan_string (json_escape s +:+ String quote rest) = Some s.
Proof.
  induction s as [|c s IH]; intros Hp; [done|].
  apply plain_cons in Hp as [Hc Hs]. cbn [json_escape]. rewrite str_app_assoc.
  destruct (escape_plain c Hc) as [(Hq & Hb & ->)|[[->| ->] ->]];
    rewrite ?str_app_cons, ?str_app_nil_l; cbn; rewrite IH by done; [|done..].
  rewrite (proj2 (Ascii.eqb_neq c backslash) Hb), (proj2 (Ascii.eqb_neq c quote) Hq). done.
Qed.

(** A name without quote or backslash. *)
Fixpoint simple (s : string) : bool :=
  match s with
  | EmptyString => true
  | String c s' => negb (c =? quote)%char && negb (c =? backslash)%char && simple s'
  end.

#[local] Arguments ascii_dec : simpl never.

(** Compare the first characters of two strings. *)
Ltac char_case :=
  rewrite ?str_app_nil_l, ?str_app_cons; cbn;
  match goal with |- context [ascii_dec ?x ?y] => destruct (ascii_dec x y) as [He|] end;
  [exfalso; unfold quote, backslash in *; congruence|done].

(** The escaped text never continues with a name, a quote and a colon. *)
Lemma no_key_inside name s rest :
  simple name = true -> plain s = true ->
  String.prefix (name +:+ String quote ":") (json_escape s +:+ String quote (String "," rest))
  = false.
Proof.
  revert s. induction name as [|a name IH]; intros s Hn Hs.
  - destruct s as [|c s]; [done|]. apply plain_cons in Hs as [Hc _]. cbn [json_escape].
    rewrite str_app_assoc.
    destruct (escape_plain c Hc) as [(Hq & _ & ->)|[_ ->]]; [|done].
    rewrite str_app_cons. char_case.
  - cbn in Hn. rewrite !andb_true_iff, !negb_true_iff in Hn. destruct Hn as [[Haq Hab] Hn].
    apply Ascii.eqb_neq in Haq. apply Ascii.eqb_neq in Hab.
    destruct s as [|c s]; [char_case|].
    apply plain_cons in Hs as [Hc Hs]. cbn [json_escape]. rewrite str_app_assoc.
    destruct (escape_plain c Hc) as [(_ & _ & ->)|[_ ->]]; rewrite !str_app_cons.
    + cbn. destruct (ascii_dec a c); [|done]. by apply IH.
    + char_case.
Qed.

Lemma after_first_skip search c data :
  String.prefix search (String c data) = false ->
  after_first search (String c data) = after_first search data.
Proof. intros H. cbn [after_first]. by rewrite H. Qed.

(** The scan for a key passes over an escaped value. *)
Lemma after_first_escaped name s rest :
  simple name = true -> plain s = true ->
  after_first (quoted name +:+ ":") (json_escape s +:+ String quote (String "," rest))
  = after_first (quoted name +:+ ":") (String quote (String "," rest)).
Proof.
  intros Hn. assert (Hq : quoted name +:+ ":" = String quote (name +:+ String quote ":")).
  { unfold quoted. rewrite str_app_cons, str_app_assoc. done. }
  rewrite Hq. induction s as [|c s IH]; intros Hs; [done|].
  apply plain_cons in Hs as [Hc Hs]. cbn [json_escape]. rewrite str_app_assoc.
  destruct (escape_plain c Hc) as [(Hcq & _ & ->)|[Hcq ->]]; rewrite !str_app_cons, str_app_nil_l.
  - rewrite after_first_skip; [by apply IH|]. char_case.
  - rewrite after_first_skip by done. rewrite after_first_skip; [by apply IH|].
    cbn. destruct (ascii_dec quote c); [|done]. by apply no_key_inside.
Qed.

Lemma prefix_app s t : String.prefix s (s +:+ t) = true.
Proof.
  induction s as [|c s IH]; [by destruct t|]. rewrite str_app_cons. cbn.
  by destruct (ascii_dec c c).
Qed.

Lemma str_drop_app s t : str_drop (String.length s) (s +:+ t) = t.
Proof. induction s as [|c s IH]; [by destruct t|]. exact IH. Qed.

Lemma after_first_here s t : after_first s (s +:+ t) = Some t.
Proof.
  destruct (s +:+ t) as [|c u] eqn:E; cbn [after_first]; rewrite <- E, prefix_app;
    by rewrite str_drop_app.
Qed.

Lemma after_key k t : after_first (quoted k +:+ ":") (quoted k +:+ String ":" t) = Some t.
Proof.
  change (String ":" t) with (":" +:+ t). rewrite <- str_app_assoc. apply after_first_here.
Qed.

Lemma serialized_skip search w t rest :
  String.prefix search (serialized w t rest) = false ->
  after_first search (serialized w t rest)
  = after_first search (quoted "workflow_id" +:+ ":" +:+ quoted (json_escape w) +:+ "," +:+
      quoted "task_name" +:+ ":" +:+ quoted (json_escape t) +:+ rest).
Proof. intros H. unfold serialized in *. by rewrite str_app_cons, after_first_skip. Qed.

(** ** Properties *)

(** The field scan reads back the workflow and the task of a serialized
    payload when both are printable ASCII without [<], [>] and [&], whatever
    they contain otherwise: a quote, a backslash, or the text of another key
    inside the workflow's name does not mislead it. *)
Theorem extract_serialized (workflowID taskName rest : string) :
  plain workflowID = true -> plain taskName = true ->
  ExtractWorkflowUUID (serialized workflowID taskName rest) = workflowID /\
  ExtractTaskName (serialized workflowID taskName rest) = taskName.
Proof.
  intros Hw Ht. unfold ExtractWorkflowUUID, ExtractTaskName, extractJSONField.
  split.
  - rewrite serialized_skip by reflexivity.
    rewrite str_app_cons, str_app_nil_l, after_key.
    unfold quoted. rewrite !str_app_cons, !str_app_assoc. cbn -[json_escape].
    rewrite str_app_cons. by rewrite scan_escape.
  - rewrite serialized_skip by reflexivity. unfold quoted at 2 3.
    rewrite !str_app_cons, !str_app_assoc, !str_app_cons, !str_app_nil_l.
    do 14 (rewrite after_first_skip by reflexivity).
    rewrite after_first_skip; [|by apply (no_key_inside "task_name")].
    rewrite after_first_escaped, !after_first_skip, after_key by done.
    unfold quoted. rewrite !str_app_cons, !str_app_assoc. cbn -[json_escape].
    rewrite str_app_cons. by rewrite scan_escape.
Qed.

Lemma extract_serialized_witness :
  ExtractTaskName
    (serialized ("a" +:+ quoted "task_name" +:+ ":" +:+ quoted "x") "build\all" ",0}")
  = "build\all".
Proof. apply extract_serialized; reflexivity. Defined.
