(* ===== verification/EventTriggers.v ===== *)
(** * Event triggers (infra/engine/scheduler/event_trigger.go)

    The listeners of event-driven workflows.  Each method runs under the
    manager's lock; the [Fire] methods call their callback on the targets they
    return, in order. *)
From Stdlib Require Import ZArith Lia String.
From stdpp Require Import base gmap strings list.
From S2P Require Import Prelude GoVal Model.
Set Warnings "-register-all,-clear-no-such-hyp,-level-tolerance".

Record EventListener := MkEventListener {
  el_WorkflowUUID : string;
  el_WorkflowName : string;
  el_EventType : string;
  el_Filter : string;
  el_WebhookSecret : string }.

#[export] Instance EventListener_eq_dec : EqDecision EventListener.
Proof. solve_decision. Defined.

Record eventTriggerManager := MkETM {
  listeners : gmap string (list EventListener);
  webhookWfs : gmap string EventListener }.

#[export] Instance eta_ETM : Eta eventTriggerManager := fun m => MkETM (listeners m) (webhookWfs m).

Definition newEventTriggerManager : eventTriggerManager := MkETM ∅ ∅.

(** A missing key reads as the nil slice. *)
Definition listeners_of (etm : eventTriggerManager) (eventKey : string) : list EventListener :=
  default [] (listeners etm !! eventKey).

Definition listener_of (wf : Workflow) (et : EventTrigger) : EventListener :=
  MkEventListener (UUID wf) (wf_Name wf) (et_EventType et) (et_Filter et) (et_WebhookSecret et).

Definition RegisterEventTrigger (wf : Workflow) (etm : eventTriggerManager)
  : eventTriggerManager :=
  match wf_EventTrigger wf with
  | Some et =>
      if decide (Trigger wf = TriggerEvent) then
        let listener := listener_of wf et in
        let etm := etm <| listeners ::=
          <[et_EventType et := listeners_of etm (et_EventType et) ++ [listener]]> |> in
        if decide (et_EventType et = EventTriggerWebhook) then
          etm <| webhookWfs ::= <[UUID wf := listener]> |>
        else etm
      else etm
  | None => etm
  end.

(** Drops the first listener of the workflow, the rest keeping their order:
    [append(listeners[:i], listeners[i+1:]...)], then [break]. *)
Fixpoint remove_first (workflowUUID : string) (ls : list EventListener) : list EventListener :=
  match ls with
  | [] => []
  | l :: ls' =>
      if decide (el_WorkflowUUID l = workflowUUID) then ls'
      else l :: remove_first workflowUUID ls'
  end.

Definition UnregisterEventTrigger (workflowUUID : string) (etm : eventTriggerManager)
  : eventTriggerManager :=
  etm <| webhookWfs ::= delete workflowUUID |>
      <| listeners ::= fmap (remove_first workflowUUID) |>.

Definition completed_matches (sourceUUID : string) (l : EventListener) : bool :=
  negb (negb (bool_decide (el_Filter l = "")) && negb (bool_decide (el_Filter l = sourceUUID))).

Definition FireWorkflowCompleted (etm : eventTriggerManager) (sourceUUID : string)
  : list string :=
  el_WorkflowUUID <$>
    filter (fun l => completed_matches sourceUUID l)
      (listeners_of etm EventTriggerWorkflowCompleted).

Definition failed_matches (sourceUUID taskName : string) (l : EventListener) : bool :=
  if decide (el_Filter l = "") then true
  else
    let expectedFilter := sourceUUID +:+ ":" +:+ taskName in
    negb (negb (bool_decide (el_Filter l = sourceUUID)) &&
          negb (bool_decide (el_Filter l = expectedFilter))).

Definition FireTaskFailed (etm : eventTriggerManager) (sourceUUID taskName : string)
  : list string :=
  el_WorkflowUUID <$>
    filter (fun l => failed_matches sourceUUID taskName l)
      (listeners_of etm EventTriggerTaskFailed).

Definition FireWebhook (etm : eventTriggerManager) (workflowUUID : string)
  : option EventListener :=
  webhookWfs etm !! workflowUUID.

Definition ListWebhookWorkflows (etm : eventTriggerManager) : list EventListener :=
  (map_to_list (webhookWfs etm)).*2.

(** ** Executions *)

Inductive etm_op : Type :=
| Register (wf : Workflow)
| Unregister (workflowUUID : string).

Definition etm_step (etm : eventTriggerManager) (o : etm_op) : eventTriggerManager :=
  match o with
  | Register wf => RegisterEventTrigger wf etm
  | Unregister uuid => UnregisterEventTrigger uuid etm
  end.

(** Registrations that reach the manager, and how many of a workflow's stand
    under an event type. *)
Definition event_workflow (wf : Workflow) (typ : string) : bool :=
  match wf_EventTrigger wf with
  | Some et => bool_decide (Trigger wf = TriggerEvent) && bool_decide (et_EventType et = typ)
  | None => false
  end.

(** The reference: per event type and workflow, a counter that registration
    raises and unregistration lowers by one (never below zero). *)
Definition spec_count (uuid typ : string) (n : nat) (o : etm_op) : nat :=
  match o with
  | Register wf => if event_workflow wf typ && bool_decide (UUID wf = uuid) then S n else n
  | Unregister uuid' => if decide (uuid' = uuid) then pred n else n
  end.

Definition count (uuid : string) (ls : list EventListener) : nat :=
  length (filter (fun l => el_WorkflowUUID l = uuid) ls).

Definition run (ops : list etm_op) : eventTriggerManager :=
  foldl etm_step newEventTriggerManager ops.

(** ** Lemmas *)

Lemma listeners_register wf etm typ :
  listeners_of (RegisterEventTrigger wf etm) typ
  = listeners_of etm typ ++
    match wf_EventTrigger wf with
    | Some et => if event_workflow wf typ then [listener_of wf et] else []
    | None => []
    end.
Proof.
  unfold RegisterEventTrigger, event_workflow, listeners_of.
  destruct (wf_EventTrigger wf) as [et|]; [|by rewrite app_nil_r].
  destruct (decide (Trigger wf = TriggerEvent)) as [Ht|Ht];
    [|by rewrite bool_decide_eq_false_2, app_nil_r].
  rewrite bool_decide_eq_true_2 by done. cbn.
  destruct (decide (et_EventType et = typ)) as [<-|Hne].
  - rewrite bool_decide_eq_true_2 by done. case_decide; cbn; by rewrite lookup_insert_eq.
  - rewrite bool_decide_eq_false_2, app_nil_r by done.
    case_decide; cbn; by rewrite lookup_insert_ne.
Qed.

Lemma listeners_unregister uuid etm typ :
  listeners_of (UnregisterEventTrigger uuid etm) typ = remove_first uuid (listeners_of etm typ).
Proof.
  unfold listeners_of, UnregisterEventTrigger. cbn. rewrite lookup_fmap.
  by destruct (listeners etm !! typ).
Qed.

Lemma count_app uuid l k : count uuid (l ++ k) = (count uuid l + count uuid k)%nat.
Proof. unfold count. by rewrite filter_app, length_app. Qed.

Lemma count_singleton uuid l :
  count uuid [l] = if decide (el_WorkflowUUID l = uuid) then 1%nat else 0%nat.
Proof. unfold count. rewrite filter_cons. by case_decide. Qed.

Lemma count_remove_first uuid uuid' ls :
  count uuid (remove_first uuid' ls)
  = if decide (uuid' = uuid) then pred (count uuid ls) else count uuid ls.
Proof.
  unfold count. induction ls as [|l ls IH]; [by case_decide|]. cbn [remove_first].
  rewrite filter_cons. destruct (decide (el_WorkflowUUID l = uuid')) as [Hl|Hl].
  - repeat case_decide; simplify_eq/=; done.
  - rewrite filter_cons. repeat case_decide; simplify_eq/=; try done; by rewrite IH.
Qed.

Lemma elem_of_remove_first uuid l ls :
  el_WorkflowUUID l <> uuid -> l ∈ remove_first uuid ls <-> l ∈ ls.
Proof.
  intros Hl. induction ls as [|x ls IH]; [done|]. cbn. case_decide; [|set_solver].
  rewrite elem_of_cons. naive_solver.
Qed.

(** ** Properties *)

(** After any sequence of registrations and removals, a workflow stands
    under an event type as often as it was registered for it and not removed
    since, each removal taking away one registration; it fires once for each. *)
Theorem listener_multiplicity (ops : list etm_op) (uuid typ : string) :
  count uuid (listeners_of (run ops) typ) = foldl (spec_count uuid typ) 0%nat ops.
Proof.
  unfold run. induction ops as [|o ops IH] using rev_ind; [done|].
  rewrite !foldl_app. cbn. rewrite <- IH. clear IH. set (etm := foldl _ _ _).
  destruct o as [wf|uuid']; cbn.
  - rewrite listeners_register, count_app. unfold event_workflow.
    destruct (wf_EventTrigger wf) as [et|]; [|by rewrite Nat.add_0_r].
    destruct (bool_decide _ && bool_decide (et_EventType et = typ)); [|apply Nat.add_0_r].
    rewrite count_singleton. cbn. case_decide; case_bool_decide; lia || done.
  - rewrite listeners_unregister. apply count_remove_first.
Qed.

(** A completed workflow starts exactly the registered [workflow_completed]
    listeners without a filter or whose filter is its UUID, and a failed task
    exactly the [task_failed] listeners without a filter or whose filter names
    the workflow or the task in it. *)
Theorem fire_exact (etm : eventTriggerManager) (source task target : string) :
  (target ∈ FireWorkflowCompleted etm source <->
     exists l, l ∈ listeners_of etm EventTriggerWorkflowCompleted /\
       el_WorkflowUUID l = target /\ (el_Filter l = "" \/ el_Filter l = source)) /\
  (target ∈ FireTaskFailed etm source task <->
     exists l, l ∈ listeners_of etm EventTriggerTaskFailed /\ el_WorkflowUUID l = target /\
       (el_Filter l = "" \/ el_Filter l = source \/ el_Filter l = source +:+ ":" +:+ task)).
Proof.
  unfold FireWorkflowCompleted, FireTaskFailed, completed_matches, failed_matches.
  split; rewrite list_elem_of_fmap; split.
  - intros (l & -> & [Hm Hl]%list_elem_of_filter). exists l. split_and!; [done..|].
    repeat case_bool_decide; cbn in Hm; tauto.
  - intros (l & Hl & <- & Hf). exists l. split; [done|]. apply list_elem_of_filter.
    split; [|done]. repeat case_bool_decide; cbn; tauto.
  - intros (l & -> & [Hm Hl]%list_elem_of_filter). exists l. split_and!; [done..|].
    case_decide; [tauto|]. repeat case_bool_decide; cbn in Hm; tauto.
  - intros (l & Hl & <- & Hf). exists l. split; [done|]. apply list_elem_of_filter.
    split; [|done]. case_decide; [done|]. repeat case_bool_decide; cbn; tauto.
Qed.
