(* ===== verification/Heap.v ===== *)
(** * Binary heaps (Go's container/heap, as the two priority queues use it)

    [up], [down], [Push] and [Pop] of container/heap over a slice, for any
    [Less] that is a strict weak order.  The queues of the dispatcher and of
    the worker are instances. *)
From Stdlib Require Import ZArith Lia.
From stdpp Require Import base list option.
From S2P Require Import Prelude.
Set Warnings "-register-all,-clear-no-such-hyp,-level-tolerance".

Local Open Scope nat_scope.

(** What a [Less] method promises the heap: irreflexive, transitive, and
    incomparability is transitive. *)
Class StrictWeak {A : Type} (less : A -> A -> bool) : Prop := {
  less_irrefl x : less x x = false;
  less_trans x y z : less x y = true -> less y z = true -> less x z = true;
  less_split x y z : less x z = true -> less x y = true \/ less y z = true }.

Section heap.
Context {A : Type} (less : A -> A -> bool).

(** Indices are in range wherever the heap swaps or compares. *)
Definition swap (i j : nat) (l : list A) : list A :=
  match l !! i, l !! j with
  | Some a, Some b => <[i := b]> (<[j := a]> l)
  | _, _ => l
  end.

Definition less_at (l : list A) (i j : nat) : bool :=
  match l !! i, l !! j with
  | Some a, Some b => less a b
  | _, _ => false
  end.

Definition parent (j : nat) : nat := (j - 1) / 2.
Arguments parent : simpl never.

(** [up]: [j] decreases at each turn, so [j + 1] turns are enough. *)
Fixpoint up_fuel (fuel j : nat) (l : list A) : list A :=
  match fuel with
  | O => l
  | S fuel' =>
      let i := parent j in
      if (i =? j) || negb (less_at l j i) then l
      else up_fuel fuel' i (swap i j l)
  end.

Definition up (j : nat) (l : list A) : list A := up_fuel (S j) j l.

(** The child [down] compares with: the smaller of the two below [n]. *)
Definition down_child (i n : nat) (l : list A) : nat :=
  let j1 := 2 * i + 1 in
  let j2 := j1 + 1 in
  if (j2 <? n) && less_at l j2 j1 then j2 else j1.

(** [down]: [i] increases at each turn and stays below [n], so [n + 1] turns
    are enough. *)
Fixpoint down_fuel (fuel i n : nat) (l : list A) : list A :=
  match fuel with
  | O => l
  | S fuel' =>
      if n <=? 2 * i + 1 then l
      else
        let j := down_child i n l in
        if negb (less_at l j i) then l
        else down_fuel fuel' j n (swap i j l)
  end.

Definition down (i n : nat) (l : list A) : list A := down_fuel (S n) i n l.

Definition Push (x : A) (l : list A) : list A := up (length l) (l ++ [x]).

(** [Pop] of an empty heap indexes out of range: [None]. *)
Definition Pop (l : list A) : option (A * list A) :=
  match l with
  | [] => None
  | _ =>
      let n := length l - 1 in
      let l' := down 0 n (swap 0 n l) in
      match list.last l' with Some x => Some (x, removelast l') | None => None end
  end.

(** ** The heap property *)

Definition le (a b : A) : Prop := less b a = false.
Definition ord (l : list A) (i j : nat) : Prop :=
  forall a b, l !! i = Some a -> l !! j = Some b -> le a b.

(** The first [n] elements are in heap order. *)
Definition heap_upto (n : nat) (l : list A) : Prop :=
  forall k, 0 < k < n -> ord l (parent k) k.
Definition heap (l : list A) : Prop := heap_upto (length l) l.

(** In heap order but for the edge above [j]. *)
Definition heap_but_above (j : nat) (l : list A) : Prop :=
  (forall k, 0 < k < length l -> k <> j -> ord l (parent k) k) /\
  (forall k, 0 < k < length l -> parent k = j -> 0 < j -> ord l (parent j) k).

(** In heap order below [n] but for the edges below [i]. *)
Definition heap_but_below (i n : nat) (l : list A) : Prop :=
  (forall k, 0 < k < n -> parent k <> i -> ord l (parent k) k) /\
  (forall k, 0 < k < n -> parent k = i -> 0 < i -> ord l (parent i) k).

(** ** Lemmas *)

Context `{!StrictWeak less}.

Lemma le_refl a : le a a.
Proof. apply less_irrefl. Qed.

Lemma le_trans a b c : le a b -> le b c -> le a c.
Proof.
  unfold le. intros Hab Hbc. destruct (less c a) eqn:Hca; [|done].
  destruct (less_split c b a Hca) as [H|H]; congruence.
Qed.

Lemma less_le a b : less a b = true -> le a b.
Proof.
  unfold le. intros Hab. destruct (less b a) eqn:Hba; [|done].
  pose proof (less_trans a b a Hab Hba) as H. by rewrite less_irrefl in H.
Qed.

Lemma parent_lt j : 0 < j -> parent j < j.
Proof.
  intros. unfold parent. pose proof (Nat.Div0.div_le_upper_bound (j - 1) 2 (j - 1)). lia.
Qed.

Lemma parent_children k i : 0 < k -> parent k = i <-> k = 2 * i + 1 \/ k = 2 * i + 2.
Proof.
  unfold parent. intros Hk.
  pose proof (Nat.div_mod_eq (k - 1) 2). pose proof (Nat.mod_upper_bound (k - 1) 2). lia.
Qed.

Lemma lookup_swap i j l k :
  i < length l -> j < length l ->
  swap i j l !! k = if decide (k = i) then l !! j else if decide (k = j) then l !! i else l !! k.
Proof.
  intros Hi Hj. unfold swap.
  destruct (lookup_lt_is_Some_2 l i Hi) as [a Ha]. destruct (lookup_lt_is_Some_2 l j Hj) as [b Hb].
  rewrite Ha, Hb. case_decide as Hki; [subst k|].
  { rewrite list_lookup_insert_eq; [done|]. by rewrite length_insert. }
  rewrite list_lookup_insert_ne by done. case_decide as Hkj; [subst k|].
  - by rewrite list_lookup_insert_eq.
  - by rewrite list_lookup_insert_ne.
Qed.

Lemma length_swap i j l : length (swap i j l) = length l.
Proof. unfold swap. repeat case_match; by rewrite ?length_insert. Qed.

Lemma swap_perm i j l : swap i j l ≡ₚ l.
Proof.
  destruct (decide (i < length l /\ j < length l)) as [[Hi Hj]|Hout].
  - apply Permutation_inj. split; [apply length_swap|].
    exists (fun k => if decide (k = i) then j else if decide (k = j) then i else k).
    split.
    + intros k k'. repeat case_decide; lia.
    + intros k. rewrite lookup_swap by done. by repeat case_decide.
  - unfold swap. destruct (l !! i) eqn:Hi; [|done]. destruct (l !! j) eqn:Hj; [|done].
    apply lookup_lt_Some in Hi. apply lookup_lt_Some in Hj. tauto.
Qed.

Lemma less_at_true l i j :
  less_at l i j = true -> exists a b, l !! i = Some a /\ l !! j = Some b /\ less a b = true.
Proof. unfold less_at. repeat case_match; naive_solver. Qed.

Lemma less_at_false l i j : less_at l i j = false -> ord l j i.
Proof. unfold less_at, ord, le. intros H a b Ha Hb. by rewrite Ha, Hb in H. Qed.

Lemma ord_trans l i j k : is_Some (l !! j) -> ord l i j -> ord l j k -> ord l i k.
Proof. intros [b Hb] H1 H2 a c Ha Hc. eapply le_trans; [by apply H1|by apply H2]. Qed.

Lemma ord_swap i j l k m :
  i < length l -> j < length l ->
  let f x := if decide (x = i) then j else if decide (x = j) then i else x in
  ord l (f k) (f m) -> ord (swap i j l) k m.
Proof.
  intros Hi Hj f H a b. rewrite !lookup_swap by done. unfold f in H.
  repeat case_decide; subst; eauto.
Qed.

(** ** [up] *)

Lemma length_up fuel j l : length (up_fuel fuel j l) = length l.
Proof.
  revert j l. induction fuel as [|fuel IH]; intros j l; [done|]. cbn. case_match; [done|].
  by rewrite IH, length_swap.
Qed.

Lemma up_perm fuel j l : up_fuel fuel j l ≡ₚ l.
Proof.
  revert j l. induction fuel as [|fuel IH]; intros j l; [done|]. cbn. case_match; [done|].
  by rewrite IH, swap_perm.
Qed.

Lemma up_step j l :
  0 < j < length l -> less_at l j (parent j) = true ->
  heap_but_above j l -> heap_but_above (parent j) (swap (parent j) j l).
Proof.
  intros Hj Hless [H1 H2]. pose proof (parent_lt j ltac:(lia)) as Hp.
  apply less_at_true in Hless as (x & y & Hx & Hy & Hxy).
  assert (Hle : ord l j (parent j)).
  { intros a b Ha Hb. simplify_eq. by apply less_le. }
  split; rewrite length_swap; intros k Hk.
  - intros Hkp. apply ord_swap; [lia..|]. pose proof (parent_lt k ltac:(lia)).
    destruct (decide (parent k = parent j)) as [Hpk|Hpk].
    + destruct (decide (k = j)) as [->|Hkj]; repeat case_decide; try lia; try done.
      apply (ord_trans l j (parent j) k); [by exists y|done|].
      rewrite <- Hpk. apply H1; lia.
    + destruct (decide (parent k = j)) as [Hkj|Hkj]; repeat case_decide; try lia; try (subst; lia).
      * apply H2; lia.
      * apply H1; lia.
  - intros Hkp Hpos. apply ord_swap; [lia..|].
    pose proof (parent_lt (parent j) Hpos). pose proof (parent_lt k ltac:(lia)).
    repeat case_decide; try lia.
    + apply H1; lia.
    + apply (ord_trans l _ (parent j)); [by exists y|apply H1; lia|].
      rewrite <- Hkp. apply H1; lia.
Qed.

Lemma up_heap fuel j l :
  j < fuel -> j < length l -> heap_but_above j l -> heap (up_fuel fuel j l).
Proof.
  revert j l. induction fuel as [|fuel IH]; intros j l Hf Hj H; [lia|]. cbn.
  destruct (Nat.eqb_spec (parent j) j) as [Hpj|Hpj]; cbn.
  - intros k Hk. apply H; [done|]. pose proof (parent_lt j). lia.
  - assert (0 < j) by (destruct j; [done|lia]). pose proof (parent_lt j ltac:(lia)).
    destruct (less_at l j (parent j)) eqn:Hless; cbn.
    + apply IH; [lia|rewrite length_swap; lia|]. by apply up_step.
    + intros k Hk. destruct (decide (k = j)) as [->|Hkj]; [by apply less_at_false|by apply H].
Qed.

(** ** [down] *)

Lemma length_down fuel i n l : length (down_fuel fuel i n l) = length l.
Proof.
  revert i l. induction fuel as [|fuel IH]; intros i l; [done|]. cbn. repeat case_match; try done.
  by rewrite IH, length_swap.
Qed.

Lemma down_perm fuel i n l : down_fuel fuel i n l ≡ₚ l.
Proof.
  revert i l. induction fuel as [|fuel IH]; intros i l; [done|]. cbn. repeat case_match; try done.
  by rewrite IH, swap_perm.
Qed.

(** [down] does not touch what lies from [n] on. *)
Lemma down_above fuel i n l k :
  n <= length l -> n <= k -> down_fuel fuel i n l !! k = l !! k.
Proof.
  revert i l. induction fuel as [|fuel IH]; intros i l Hn Hk; [done|]. cbn -[Nat.mul].
  destruct (Nat.leb_spec n (2 * i + 1)); [done|].
  destruct (less_at l (down_child i n l) i) eqn:Hless; cbn -[Nat.mul]; [|done].
  assert (Hc : i < down_child i n l < n).
  { unfold down_child. destruct (Nat.ltb_spec (2 * i + 1 + 1) n); cbn; [case_match|]; lia. }
  rewrite IH by (rewrite ?length_swap; lia). rewrite lookup_swap by lia.
  repeat case_decide; lia || done.
Qed.

Lemma down_child_spec i n l :
  2 * i + 1 < n <= length l ->
  let j := down_child i n l in
  parent j = i /\ i < j < n /\ (forall k, 0 < k < n -> parent k = i -> ord l j k).
Proof.
  intros Hn j. unfold j, down_child.
  assert (Hsome : forall k, k < n -> is_Some (l !! k)) by (intros; apply lookup_lt_is_Some; lia).
  assert (Hrefl : forall k, ord l k k) by (intros k a b Ha Hb; simplify_eq; apply le_refl).
  destruct (Nat.ltb_spec (2 * i + 1 + 1) n) as [Hj2|Hj2]; cbn -[Nat.mul].
  - destruct (less_at l (2 * i + 1 + 1) (2 * i + 1)) eqn:Hless.
    + split_and!; [apply parent_children; lia|lia..|].
      intros k Hk [->| ->]%parent_children; [|by replace (2 * i + 1 + 1) with (2 * i + 2) by lia|lia].
      apply less_at_true in Hless as (a & b & Ha & Hb & Hab).
      intros a' b' Ha' Hb'. simplify_eq. by apply less_le.
    + split_and!; [apply parent_children; lia|lia..|].
      intros k Hk [->| ->]%parent_children; [done| |lia].
      replace (2 * i + 2) with (2 * i + 1 + 1) by lia. by apply less_at_false.
  - split_and!; [apply parent_children; lia|lia..|].
    intros k Hk [->| ->]%parent_children; [done|lia|lia].
Qed.

Lemma down_step i n l :
  2 * i + 1 < n <= length l -> less_at l (down_child i n l) i = true ->
  heap_but_below i n l -> heap_but_below (down_child i n l) n (swap i (down_child i n l) l).
Proof.
  intros Hn Hless [H1 H2]. destruct (down_child_spec i n l Hn) as (Hp & Hc & Hmin).
  set (j := down_child i n l) in *.
  apply less_at_true in Hless as (x & y & Hx & Hy & Hxy).
  assert (Hle : ord l j i) by (intros a b Ha Hb; simplify_eq; by apply less_le).
  split; intros k Hk.
  - intros Hkj. apply ord_swap; [lia..|]. pose proof (parent_lt k ltac:(lia)).
    destruct (decide (parent k = i)) as [Hki|Hki].
    + destruct (decide (k = j)) as [->|?]; repeat case_decide; try lia; try done.
      by apply Hmin.
    + destruct (decide (k = i)) as [->|?]; repeat case_decide; try lia; try congruence.
      * apply H2; lia.
      * by apply H1.
  - intros Hkj Hpos. apply ord_swap; [lia..|]. pose proof (parent_lt k ltac:(lia)).
    repeat case_decide; try lia.
    rewrite <- Hkj. apply H1; lia.
Qed.

Lemma down_heap fuel i n l :
  n < fuel + i -> n <= length l -> heap_but_below i n l -> heap_upto n (down_fuel fuel i n l).
Proof.
  revert i l. induction fuel as [|fuel IH]; intros i l Hf Hn H.
  { intros k Hk. apply H; [done|]. pose proof (parent_lt k). lia. }
  cbn -[Nat.mul]. destruct (Nat.leb_spec n (2 * i + 1)) as [Hi|Hi].
  { intros k Hk. apply H; [done|]. intros [->| ->]%parent_children; lia. }
  destruct (down_child_spec i n l ltac:(lia)) as (Hp & Hc & Hmin).
  destruct (less_at l (down_child i n l) i) eqn:Hless; cbn -[Nat.mul].
  - apply IH; [lia|rewrite length_swap; lia|]. apply down_step; [lia|done..].
  - intros k Hk. destruct (decide (parent k = i)) as [Hk'|Hk']; [|by apply H].
    apply less_at_false in Hless. rewrite Hk'.
    apply (ord_trans l _ (down_child i n l)); [apply lookup_lt_is_Some; lia|done|by apply Hmin].
Qed.

(** ** The operations *)

(** The root of a heap is below every element. *)
Lemma heap_root l k : heap l -> k < length l -> ord l 0 k.
Proof.
  intros Hh. induction k as [k IH] using lt_wf_ind. intros Hk.
  destruct (decide (k = 0)) as [->|Hk0]; [intros a b Ha Hb; simplify_eq; apply le_refl|].
  pose proof (parent_lt k ltac:(lia)).
  apply (ord_trans l _ (parent k)); [apply lookup_lt_is_Some; lia|apply IH; lia|apply Hh; lia].
Qed.

Lemma Push_heap x l : heap l -> heap (Push x l).
Proof.
  intros Hh. apply up_heap; [lia|rewrite length_app; cbn; lia|].
  split; rewrite length_app; cbn; intros k Hk.
  - intros Hne a b. pose proof (parent_lt k ltac:(lia)).
    rewrite !lookup_app_l by lia. apply Hh. lia.
  - intros Hp. pose proof (parent_lt k ltac:(lia)). lia.
Qed.

Lemma Push_perm x l : Push x l ≡ₚ x :: l.
Proof. unfold Push, up. rewrite up_perm. symmetry. apply Permutation_cons_append. Qed.

Definition sifted (l : list A) : list A :=
  down 0 (length l - 1) (swap 0 (length l - 1) l).

Lemma Pop_eq l :
  l <> [] ->
  Pop l = match list.last (sifted l) with
          | Some x => Some (x, removelast (sifted l))
          | None => None
          end.
Proof. by destruct l. Qed.

Lemma snoc_of_lookup (d : list A) n a :
  length d = S n -> d !! n = Some a -> d = removelast d ++ [a].
Proof.
  destruct d as [|b d' _] using rev_ind; [done|]. intros Hl Ha.
  rewrite length_app in Hl. cbn in Hl. rewrite removelast_last.
  rewrite lookup_app_r in Ha by lia. replace (n - length d') with 0 in Ha by lia.
  cbn in Ha. by simplify_eq.
Qed.

(** The last slot of the sifted slice holds the old root. *)
Lemma sifted_root l a n :
  l !! 0 = Some a -> length l = S n -> sifted l = removelast (sifted l) ++ [a].
Proof.
  intros Ha Hn. unfold sifted, down. apply (snoc_of_lookup _ n).
  - by rewrite length_down, length_swap.
  - rewrite down_above by (rewrite ?length_swap; lia). rewrite lookup_swap by lia.
    repeat case_decide; try lia; [|done]. by replace (length l - 1) with 0 by lia.
Qed.

Lemma sifted_perm l : sifted l ≡ₚ l.
Proof. unfold sifted, down. by rewrite down_perm, swap_perm. Qed.

Lemma sifted_heap l : heap l -> heap_upto (length l - 1) (sifted l).
Proof.
  intros Hh. apply down_heap; [lia|rewrite length_swap; lia|].
  split; intros k Hk; [|lia]. intros Hpk. pose proof (parent_lt k ltac:(lia)).
  apply ord_swap; [lia..|]. repeat case_decide; try lia. apply Hh. lia.
Qed.

(** [Pop] removes the root; what is left is a heap of the other elements. *)
Lemma Pop_spec l x rest :
  heap l -> Pop l = Some (x, rest) ->
  l ≡ₚ x :: rest /\ heap rest /\ Forall (le x) rest.
Proof.
  intros Hh Hpop. destruct l as [|a l'] eqn:El; [done|]. rewrite <- El in Hh, Hpop |- *.
  assert (Hl0 : l !! 0 = Some a) by (by rewrite El).
  assert (Hlen : length l = S (length l')) by (by rewrite El).
  pose proof (sifted_root l a (length l') Hl0 Hlen) as Hd.
  rewrite Pop_eq, Hd, last_snoc, removelast_last in Hpop by (by rewrite El).
  injection Hpop as <- <-.
  assert (Hperm : l ≡ₚ a :: removelast (sifted l)).
  { by rewrite Permutation_cons_append, <- Hd, sifted_perm. }
  assert (Hrl : length (removelast (sifted l)) = length l').
  { apply Permutation_length in Hperm. rewrite Hlen in Hperm. by injection Hperm. }
  split; [done|]. split.
  - intros k Hk b c. rewrite Hrl in Hk. pose proof (sifted_heap l Hh k ltac:(lia) b c) as Ho.
    pose proof (parent_lt k ltac:(lia)). rewrite Hd, !lookup_app_l in Ho by lia. done.
  - apply list.Forall_forall. intros y Hy.
    assert (Hyl : y ∈ l) by (rewrite Hperm; by right).
    apply list_elem_of_lookup in Hyl as [k Hk].
    apply (heap_root l k Hh (lookup_lt_Some _ _ _ Hk) a y); done.
Qed.

Lemma Pop_Some l : l <> [] -> exists x rest, Pop l = Some (x, rest).
Proof.
  intros Hl. rewrite Pop_eq by done. destruct l as [|a l']; [done|].
  rewrite (sifted_root (a :: l') a (length l')) by done. rewrite last_snoc. eauto.
Qed.

Lemma Pop_cons a l : Pop (a :: l) = Some (a, removelast (sifted (a :: l))).
Proof.
  rewrite Pop_eq by done. by rewrite (sifted_root (a :: l) a (length l)), last_snoc, removelast_last.
Qed.

Lemma heap_nil : heap [].
Proof. intros k Hk. cbn in Hk. lia. Qed.

End heap.
#[global] Arguments Push : simpl never.
#[global] Arguments Pop : simpl never.

#[export] Hint Resolve Push_heap heap_nil : vibe.

(** ** Orders by a priority, highest first, then a rank, lowest first *)

Section by_priority.
Context {A : Type} (priority rank : A -> Z).
Local Open Scope Z_scope.

Definition priority_less (x y : A) : bool :=
  if negb (priority x =? priority y) then priority y <? priority x else rank x <? rank y.

#[export] Instance priority_less_strict : StrictWeak priority_less.
Proof.
  unfold priority_less. split.
  - intros x. rewrite Z.eqb_refl. cbn. apply Z.ltb_irrefl.
  - intros x y z. repeat case_match; rewrite ?negb_true_iff, ?negb_false_iff in *; lia.
  - intros x y z. repeat case_match; rewrite ?negb_true_iff, ?negb_false_iff in *; lia.
Qed.

Lemma priority_le x y :
  le priority_less x y <-> priority y < priority x \/ priority x = priority y /\ rank x <= rank y.
Proof.
  unfold le, priority_less. destruct (Z.eqb_spec (priority y) (priority x)); cbn.
  - rewrite Z.ltb_ge. lia.
  - rewrite Z.ltb_ge. lia.
Qed.

End by_priority.
