(* ===== verification/Queues.v ===== *)
(** * The worker's priority queue (infra/engine/runtime/priority_queue.go)

    A binary heap of task events behind a mutex: highest priority first, first
    come first served within a priority.  [Dequeue] loops over a pass that
    closes, returns an event or waits on a channel; the passes are modelled
    one by one, each running under the mutex. *)
From Stdlib Require Import ZArith Lia Sorted.
From stdpp Require Import base option list.
From S2P Require Import Prelude Heap.
Set Warnings "-register-all,-clear-no-such-hyp,-level-tolerance".

Section queue.
Context {E : Type}.

Record prioritizedTask := MkPrioritized { event : E; priority : Z; index : Z }.

Record priorityTaskQueue := MkQueue {
  items : list prioritizedTask;
  notEmpty : bool;
  closed : bool;
  nextIndex : Z }.

Definition newPriorityTaskQueue : priorityTaskQueue := MkQueue [] false false 0.

(** [Less]: descending priority, then ascending index. *)
Definition Less : prioritizedTask -> prioritizedTask -> bool := priority_less priority index.

#[export] Instance Less_strict : StrictWeak Less := priority_less_strict priority index.

Definition Enqueue (ev : E) (prio : Z) (q : priorityTaskQueue) : priorityTaskQueue :=
  if closed q then q
  else
    let idx := wrap64 (nextIndex q + 1) in
    MkQueue (Push Less (MkPrioritized ev prio idx) (items q)) true (closed q) idx.

Inductive dequeue_result : Type :=
| DeqClosed
| DeqEvent (ev : E)
| DeqWait.

(** One turn of [Dequeue]'s loop up to the [select]. *)
Definition Dequeue_pass (q : priorityTaskQueue) : dequeue_result * priorityTaskQueue :=
  if closed q && bool_decide (items q = []) then (DeqClosed, q)
  else match Pop Less (items q) with
       | Some (item, rest) =>
           (DeqEvent (event item), MkQueue rest (notEmpty q) (closed q) (nextIndex q))
       | None => (DeqWait, q)
       end.

(** The [<-pq.notEmpty] case: the signal is consumed and the loop restarts. *)
Definition Dequeue_signal (q : priorityTaskQueue) : option priorityTaskQueue :=
  if notEmpty q then Some (MkQueue (items q) false (closed q) (nextIndex q)) else None.

(** The [<-closeCh] case: the last look at the queue. *)
Definition Dequeue_closing (q : priorityTaskQueue) : dequeue_result * priorityTaskQueue :=
  match Pop Less (items q) with
  | Some (item, rest) =>
      (DeqEvent (event item), MkQueue rest (notEmpty q) (closed q) (nextIndex q))
  | None => (DeqClosed, MkQueue (items q) (notEmpty q) true (nextIndex q))
  end.

Definition Close (q : priorityTaskQueue) : priorityTaskQueue :=
  MkQueue (items q) (notEmpty q) true (nextIndex q).

Definition LenSafe (q : priorityTaskQueue) : nat := length (items q).

(** ** The abstract queue: waiting events in order of arrival *)

(** The first element of highest priority, and the others in order. *)
Fixpoint take_best {T : Type} (prio : T -> Z) (s : list T) : option (T * list T) :=
  match s with
  | [] => None
  | x :: s' =>
      match take_best prio s' with
      | None => Some (x, [])
      | Some (y, r) => if prio x <? prio y then Some (y, x :: r) else Some (x, s')
      end
  end.

Inductive qop : Type := OpEnqueue (ev : E) (prio : Z) | OpDequeue.

Definition spec_step (s : list (E * Z)) (o : qop) : list E * list (E * Z) :=
  match o with
  | OpEnqueue ev p => ([], s ++ [(ev, p)])
  | OpDequeue =>
      match take_best snd s with
      | Some (x, r) => ([x.1], r)
      | None => ([], s)
      end
  end.

Definition impl_step (q : priorityTaskQueue) (o : qop) : list E * priorityTaskQueue :=
  match o with
  | OpEnqueue ev p => ([], Enqueue ev p q)
  | OpDequeue =>
      match Dequeue_pass q with
      | (DeqEvent ev, q') => ([ev], q')
      | (_, q') => ([], q')
      end
  end.

(** The events a sequence of operations delivers. *)
Fixpoint outputs {S : Type} (step : S -> qop -> list E * S) (s : S) (ops : list qop) : list E :=
  match ops with
  | [] => []
  | o :: ops' => let '(out, s') := step s o in out ++ outputs step s' ops'
  end.

(** ** Lemmas *)

Lemma take_best_spec {T : Type} (prio : T -> Z) (s : list T) x r :
  take_best prio s = Some (x, r) ->
  exists pre post, s = pre ++ x :: post /\ r = pre ++ post /\
    Forall (fun y => prio y < prio x) pre /\ Forall (fun y => prio y <= prio x) post.
Proof.
  revert x r. induction s as [|a s IH]; intros x r H; [done|]. cbn in H.
  destruct (take_best prio s) as [[y r']|] eqn:Hs.
  - destruct (IH y r' eq_refl) as (pre & post & -> & -> & Hpre & Hpost).
    destruct (Z.ltb_spec (prio a) (prio y)); simplify_eq.
    + exists (a :: pre), post. split_and!; [done..|by constructor|done].
    + exists [], (pre ++ y :: post). split_and!; [done..|].
      apply Forall_app. split; [|constructor; [lia|]]; eapply Forall_impl; eauto; cbn; lia.
  - simplify_eq. exists [], []. destruct s; [done|].
    cbn in Hs. repeat case_match; done.
Qed.

Lemma take_best_fmap {T U : Type} (f : T -> U) (prio : U -> Z) (s : list T) :
  take_best prio (f <$> s)
  = (fun p : T * list T => (f p.1, f <$> p.2)) <$> take_best (prio ∘ f) s.
Proof.
  induction s as [|a s IH]; [done|]. cbn. rewrite IH.
  destruct (take_best (prio ∘ f) s) as [[y r]|]; cbn; [|done].
  by destruct (prio (f a) <? prio (f y)).
Qed.

Lemma take_best_None {T : Type} (prio : T -> Z) (s : list T) : take_best prio s = None -> s = [].
Proof. destruct s; [done|]. cbn. repeat case_match; done. Qed.

(** No index is above the counter. *)
Definition all_below (ts : list prioritizedTask) (bound : Z) : Prop :=
  Forall (fun a => index a <= bound) ts.

(** The heap holds the waiting events, numbered in order of arrival. *)
Record represents (q : priorityTaskQueue) (s : list (E * Z)) (ts : list prioritizedTask) : Prop := {
  rep_open : closed q = false;
  rep_heap : heap Less (items q);
  rep_perm : items q ≡ₚ ts;
  rep_order : StronglySorted (fun a b => index a < index b) ts;
  rep_below : all_below ts (nextIndex q);
  rep_spec : s = (fun t => (event t, priority t)) <$> ts }.

Lemma represents_enqueue q s ts ev p :
  represents q s ts -> 0 <= nextIndex q < maxInt64 ->
  exists ts', represents (Enqueue ev p q) (s ++ [(ev, p)]) ts'.
Proof.
  intros [Ho Hh Hp Hs Hb Hsp] Hn. unfold Enqueue. rewrite Ho.
  rewrite wrap64_in by (unfold in64, minInt64; lia).
  exists (ts ++ [MkPrioritized ev p (nextIndex q + 1)]). split; cbn.
  - done.
  - apply Push_heap; [apply _|done].
  - rewrite Push_perm, Hp. apply Permutation_cons_append.
  - clear -Hs Hb. induction Hs as [|a ts Hs IH Ha]; cbn.
    + repeat constructor.
    + apply list.Forall_cons in Hb as [Hb1 Hb2]. constructor; [by apply IH|].
      apply Forall_app. split; [done|]. constructor; [cbn; lia|done].
  - apply Forall_app. split; [eapply Forall_impl; [exact Hb|cbn; lia]|].
    constructor; [cbn; lia|done].
  - by rewrite Hsp, fmap_app.
Qed.

Lemma sorted_split (pre post : list prioritizedTask) x :
  StronglySorted (fun a b => index a < index b) (pre ++ x :: post) ->
  Forall (fun y => index y < index x) pre /\ Forall (fun y => index x < index y) post /\
  StronglySorted (fun a b => index a < index b) (pre ++ post).
Proof.
  induction pre as [|a pre IH]; cbn; intros Hs; inversion Hs as [|? ? Hs' Ha]; subst.
  - split_and!; done.
  - destruct (IH Hs') as (H1 & H2 & H3). apply Forall_app in Ha as [Ha1 Ha2].
    apply list.Forall_cons in Ha2 as [Hax Ha2]. split_and!; [by constructor|done|].
    constructor; [done|]. by apply Forall_app.
Qed.

(** Popping the heap takes the first waiting event of highest priority. *)
Lemma represents_dequeue q s ts x r :
  represents q s ts -> take_best priority ts = Some (x, r) ->
  exists rest, Pop Less (items q) = Some (x, rest) /\
    represents (MkQueue rest (notEmpty q) (closed q) (nextIndex q))
      ((fun t => (event t, priority t)) <$> r) r.
Proof.
  intros [Ho Hh Hp Hs Hb Hsp] Htb.
  apply take_best_spec in Htb as (pre & post & -> & -> & Hpre & Hpost).
  destruct (Pop_Some Less (items q)) as (m & rest & Hpop).
  { intros Hnil. rewrite Hnil in Hp. apply Permutation_nil in Hp. by destruct pre. }
  destruct (Pop_spec Less (items q) m rest Hh Hpop) as (Hperm & Hheap & Hmin).
  destruct (sorted_split pre post x Hs) as (Hipre & Hipost & Hs').
  assert (Hm : m = x).
  { assert (Hmx : le Less m x).
    { assert (Hx : x ∈ m :: rest).
      { rewrite <- Hperm, Hp. apply elem_of_app. right. by left. }
      apply elem_of_cons in Hx as [->|Hx]; [apply le_refl, _|].
      rewrite list.Forall_forall in Hmin. by apply Hmin. }
    assert (Hin : m ∈ pre ++ x :: post) by (rewrite <- Hp, Hperm; by left).
    apply priority_le in Hmx.
    apply elem_of_app in Hin as [Hin|[->|Hin]%elem_of_cons]; [|done|].
    - rewrite list.Forall_forall in Hpre. specialize (Hpre m Hin). lia.
    - rewrite list.Forall_forall in Hpost, Hipost.
      specialize (Hpost m Hin). specialize (Hipost m Hin). cbn in *. lia. }
  subst m. exists rest. split; [done|]. split; cbn; [done..| |done| |done].
  - apply (Permutation_cons_inv (a := x)). rewrite <- Hperm, Hp. symmetry. apply Permutation_middle.
  - apply Forall_app in Hb as [Hb1 Hb2]. apply Forall_app. split; [done|].
    by apply list.Forall_cons in Hb2 as [_ Hb2].
Qed.

Lemma outputs_agree ops q s ts :
  represents q s ts -> 0 <= nextIndex q -> nextIndex q + Z.of_nat (length ops) <= maxInt64 ->
  outputs impl_step q ops = outputs spec_step s ops.
Proof.
  revert q s ts. induction ops as [|o ops IH]; intros q s ts Hr H0 Hlen; [done|].
  cbn [length] in Hlen. destruct o as [ev p|]; cbn.
  - destruct (represents_enqueue q s ts ev p Hr ltac:(lia)) as [ts' Hr'].
    apply (IH _ _ ts' Hr'); unfold Enqueue; rewrite (rep_open _ _ _ Hr); cbn;
      rewrite wrap64_in by (unfold in64, minInt64; lia); lia.
  - unfold Dequeue_pass. rewrite (rep_open _ _ _ Hr). cbn [andb].
    rewrite (rep_spec _ _ _ Hr), take_best_fmap.
    change (snd ∘ (fun t => (event t, priority t))) with priority.
    destruct (take_best priority ts) as [[x r]|] eqn:Htb; cbn.
    + destruct (represents_dequeue q s ts x r Hr Htb) as (rest & -> & Hr'). cbn.
      rewrite (rep_open _ _ _ Hr) in Hr'. f_equal. eapply IH; [exact Hr'|cbn; lia..].
    + apply take_best_None in Htb as ->.
      pose proof (rep_perm _ _ _ Hr) as Hp. symmetry in Hp. apply Permutation_nil in Hp.
      pose proof (rep_spec _ _ _ Hr) as Hsp. cbn in Hsp. subst s.
      replace (Pop Less (items q)) with (@None (prioritizedTask * list prioritizedTask))
        by (by rewrite Hp).
      eapply IH; [exact Hr|lia..].
Qed.

End queue.
Arguments prioritizedTask : clear implicits.
Arguments priorityTaskQueue : clear implicits.
Arguments qop : clear implicits.

(** ** Properties *)

(** C8: over any sequence of operations on a new queue (shorter than the
    counter's range), the heap delivers what a queue of waiting events in
    order of arrival delivers: at each [Dequeue] the event that arrived first
    among those of highest priority, and nothing when none waits. *)
Theorem queue_refines_fifo {E : Type} (ops : list (qop E)) :
  Z.of_nat (length ops) <= maxInt64 ->
  outputs impl_step newPriorityTaskQueue ops = outputs spec_step [] ops.
Proof.
  intros Hlen. apply (outputs_agree ops _ _ []); [|done..].
  split; cbn; [done|apply heap_nil|done|constructor|constructor|done].
Qed.

Lemma queue_refines_fifo_witness :
  outputs impl_step newPriorityTaskQueue
    [OpEnqueue 1%nat 0; OpEnqueue 2%nat 5; OpEnqueue 3%nat 5; OpDequeue; OpEnqueue 4%nat 5;
     OpDequeue; OpDequeue; OpDequeue; OpDequeue]
  = [2; 3; 4; 1]%nat.
Proof. etransitivity; [apply queue_refines_fifo; vm_compute; congruence|reflexivity]. Defined.
