(* ===== verification/Dispatcher.v ===== *)
(** * The task dispatcher (infra/engine/scheduler/task_dispatcher.go, the
    pending queue of infra/engine/scheduler/types.go)

    Slot accounting (a global counter and one per workflow), the priority
    queue of tasks that wait for a slot, and the writes to etcd.  What the
    dispatcher asks of the rest of the scheduler is the class
    [DispatcherHost], its theorems hold for every host.  This file runs each
    call to its end; the interleavings of the counters' atomic operations are
    in Slots. *)
From Stdlib Require Import ZArith Lia.
From stdpp Require Import base gmap strings list pretty.
From S2P Require Import Prelude GoVal Model Payload Heap.
Set Warnings "-register-all,-clear-no-such-hyp,-level-tolerance".
Local Open Scope Z_scope.
Local Open Scope list_scope.

Definition defaultPendingTaskTimeoutSec : Z := 300.
Definition defaultTaskTimeoutSec : Z := 30.
Definition defaultBaseBackoffSec : Z := 1.
Definition taskTTLSeconds : Z := 86400.
Definition Second : Z := 1000000000.

(** ** State *)

Record pendingTask := MkPending {
  workflowName : string;
  node : TaskNode;
  upstreamOutputs : list vmap;
  pt_priority : Z;
  enqueued : Z }.

(** [pendingQueue.Less]: descending priority, then time of arrival. *)
Definition pq_less : pendingTask -> pendingTask -> bool := priority_less pt_priority enqueued.

#[export] Instance pq_less_strict : StrictWeak pq_less := priority_less_strict pt_priority enqueued.

Record TaskDispatcher := MkDispatcher {
  globalActive : Z;
  perWfActive : gmap string Z;
  pendingPQ : list pendingTask }.

#[export] Instance eta_TaskDispatcher : Eta TaskDispatcher := fun d =>
  MkDispatcher (globalActive d) (perWfActive d) (pendingPQ d).

Definition NewTaskDispatcher : TaskDispatcher := MkDispatcher 0 ∅ [].

(** The part of [ConfigProvider] the dispatcher reads. *)
Record DispConfig := MkDispConfig {
  MaxConcurrentTasks : Z;
  PerWorkflowMaxConcurrency : Z;
  PendingTaskTimeoutSec : Z;
  DefaultTaskTimeoutSec : Z;
  DefaultBaseBackoffSec : Z }.

(** ** Counters *)

Definition loadPerWfActive (workflowUUID : string) (td : TaskDispatcher) : Z :=
  default 0 (perWfActive td !! workflowUUID).

(** Creates the counter when there is none, and returns the new value. *)
Definition incPerWfActive (workflowUUID : string) (td : TaskDispatcher) : Z * TaskDispatcher :=
  let v := wrap64 (loadPerWfActive workflowUUID td + 1) in
  (v, td <| perWfActive ::= <[workflowUUID := v]> |>).

(** Deletes the counter when it comes to zero. *)
Definition decPerWfActive (workflowUUID : string) (td : TaskDispatcher) : TaskDispatcher :=
  let newVal := wrap64 (loadPerWfActive workflowUUID td - 1) in
  if newVal =? 0 then td <| perWfActive ::= delete workflowUUID |>
  else td <| perWfActive ::= <[workflowUUID := newVal]> |>.

Definition CleanupPerWfCounter (workflowUUID : string) (td : TaskDispatcher) : TaskDispatcher :=
  td <| perWfActive ::= delete workflowUUID |>.

Definition addGlobal (n : Z) (td : TaskDispatcher) : TaskDispatcher :=
  td <| globalActive ::= fun g => wrap64 (g + n) |>.

(** ** The host *)

Inductive push_error : Type := WorkflowMissing | SerializeFailed | PutFailed.

(** The narrow interfaces the dispatcher is built with: configuration, clock,
    trace identifiers, workflow states, the store and the two callbacks. *)
Class DispatcherHost (W : Type) := {
  host_td : W -> TaskDispatcher;
  host_set_td : TaskDispatcher -> W -> W;
  host_config : W -> DispConfig;
  host_now : W -> Z;
  host_tasks_prefix : W -> string;
  host_store : W -> gmap string TaskPayload;
  GetWorkflowState : string -> W -> option WorkflowState;
  NewTraceID : M W string;
  randHex4 : M W string;
  InjectTraceContext : M W (gmap string string);
  putWithTTL : string -> TaskPayload -> Z -> M W bool;
  BatchPutWithTTL : list (string * TaskPayload) -> Z -> M W bool;
  markWorkflowFailed : TaskPayload -> string -> M W unit;
  clearFailedTask : string -> string -> M W unit }.

Definition put_all (kvs : list (string * TaskPayload)) (m : gmap string TaskPayload)
  : gmap string TaskPayload := foldl (fun m kv => <[kv.1 := kv.2]> m) m kvs.

(** What the dispatcher sees beside its own state: the same, but for what was
    written to the store. *)
Record wrote {W : Type} `{DispatcherHost W} (kvs : list (string * TaskPayload)) (w w' : W) : Prop := {
  same_config : host_config w' = host_config w;
  same_now : host_now w' = host_now w;
  same_prefix : host_tasks_prefix w' = host_tasks_prefix w;
  same_state u : GetWorkflowState u w' = GetWorkflowState u w;
  same_store : host_store w' = put_all kvs (host_store w) }.

(** Two worlds the dispatcher cannot tell apart. *)
Definition host_same {W : Type} `{DispatcherHost W} (w w' : W) : Prop :=
  host_td w' = host_td w /\ wrote [] w w'.

(** A write in one transaction: all of it when it is reported done, all of it
    or nothing when it is not. *)
Definition host_put {W : Type} `{DispatcherHost W} (kvs : list (string * TaskPayload)) (ok : bool)
    (w w' : W) : Prop :=
  host_td w' = host_td w /\
  exists took : bool, (ok = true -> took = true) /\ wrote (if took then kvs else []) w w'.

(** What a host promises: its setter is a setter, clock and identifiers return
    without touching what the dispatcher reads, and writes go to the store. *)
Class DispatcherLaws (W : Type) `{DispatcherHost W} : Prop := {
  td_set td w : host_td (host_set_td td w) = td;
  wrote_set td w : wrote [] w (host_set_td td w);
  trace_quiet w : wp NewTraceID (fun _ w' => host_same w w') w;
  rand_quiet w : wp randHex4 (fun _ w' => host_same w w') w;
  inject_quiet w : wp InjectTraceContext (fun _ w' => host_same w w') w;
  put_stores k p ttl w : wp (putWithTTL k p ttl) (fun ok w' => host_put [(k, p)] ok w w') w;
  batch_stores l ttl w : wp (BatchPutWithTTL l ttl) (fun ok w' => host_put l ok w w') w }.

Lemma config_set `{DispatcherLaws W} td w : host_config (host_set_td td w) = host_config w.
Proof. apply (same_config _ _ _ (wrote_set td w)). Qed.
Lemma now_set `{DispatcherLaws W} td w : host_now (host_set_td td w) = host_now w.
Proof. apply (same_now _ _ _ (wrote_set td w)). Qed.
Section dispatcher.
Context {W : Type} `{DispatcherHost W}.

Definition on_td (f : TaskDispatcher -> TaskDispatcher) : M W unit :=
  modify (fun w => host_set_td (f (host_td w)) w).

Definition incPerWf (uuid : string) : M W Z := fun w =>
  let '(v, td) := incPerWfActive uuid (host_td w) in Ret (v, host_set_td td w).

Definition addGlobalActive (n : Z) : M W Z := fun w =>
  let td := addGlobal n (host_td w) in Ret (globalActive td, host_set_td td w).

(** ** Payloads *)

Definition positive_or (x y : Z) : Z := if x <=? 0 then y else x.

Definition getWorkflowPriority (workflowUUID : string) (w : W) : Z :=
  match GetWorkflowState workflowUUID w with
  | Some st => match ws_Workflow st with Some wf => Priority wf | None => 0 end
  | None => 0
  end.

(** The payload of a task: time limits from the workflow, then the
    configuration, then the built-in defaults; the input from the node's
    mapping when it has one, from all upstream outputs otherwise. *)
Definition task_payload (cfg : DispConfig) (wf : Workflow) (workflowUUID : string)
    (n : TaskNode) (ups : list vmap) (traceID : string) (tctx : gmap string string)
  : TaskPayload :=
  let timeoutSec :=
    positive_or (positive_or (TaskTimeoutSec wf) (DefaultTaskTimeoutSec cfg))
      defaultTaskTimeoutSec in
  let baseBackoff :=
    positive_or (positive_or (BaseBackoff wf) (DefaultBaseBackoffSec cfg))
      defaultBaseBackoffSec in
  zero_payload <| WorkflowID := workflowUUID |> <| TaskName := Name n |>
    <| TraceID := traceID |> <| TraceContext := tctx |> <| pl_Status := StatusPending |>
    <| pl_Priority := Priority wf |>
    <| pl_Params := match Params n with Some ps => merge_into ∅ ps | None => ∅ end |>
    <| Input := match ApplyInputMapping n ups with
                | Some mapped => merge_into ∅ mapped
                | None => merge_outputs ups
                end |>
    <| Output := Some ∅ |> <| pl_TimeoutSec := timeoutSec |> <| pl_MaxRetries := MaxRetries wf |>
    <| pl_BaseBackoff := baseBackoff |>.

Definition doPush (workflowUUID : string) (n : TaskNode) (ups : list vmap)
  : M W (res push_error unit) :=
  st ← gets (GetWorkflowState workflowUUID);
  match st with
  | None => mret (Err WorkflowMissing)
  | Some st =>
      match ws_Workflow st with
      | None => panic
      | Some wf =>
          cfg ← gets host_config;
          traceID ← NewTraceID;
          tctx ← InjectTraceContext;
          match Serialize (task_payload cfg wf workflowUUID n ups traceID tctx) with
          | None => mret (Err SerializeFailed)
          | Some p =>
              prefix ← gets host_tasks_prefix;
              now ← gets host_now;
              rnd ← randHex4;
              ok ← putWithTTL (taskKey prefix workflowUUID (Name n) now rnd) p taskTTLSeconds;
              mret (if ok : bool then Ok tt else Err PutFailed)
          end
      end
  end.

Definition enqueuePending (workflowUUID : string) (n : TaskNode) (ups : list vmap) (prio : Z)
  : M W unit :=
  now ← gets host_now;
  on_td (fun td => td <| pendingPQ ::= Push pq_less (MkPending workflowUUID n ups prio now) |>).

(** ** PushTask *)

(** Reserves a slot, or queues the task: [true] when the slot is held. *)
Definition reserve (workflowUUID : string) (n : TaskNode) (ups : list vmap) (prio : Z)
  : M W bool :=
  cfg ← gets host_config;
  let globalMax := MaxConcurrentTasks cfg in
  let perWfMax := PerWorkflowMaxConcurrency cfg in
  curWf ← gets (fun w => loadPerWfActive workflowUUID (host_td w));
  if (0 <? perWfMax) && (perWfMax <=? curWf) then
    enqueuePending workflowUUID n ups prio;; mret false
  else
  curGlobal ← gets (fun w => globalActive (host_td w));
  if (0 <? globalMax) && (globalMax <=? curGlobal) then
    enqueuePending workflowUUID n ups prio;; mret false
  else
  newWf ← incPerWf workflowUUID;
  if (0 <? perWfMax) && (perWfMax <? newWf) then
    on_td (decPerWfActive workflowUUID);;
    enqueuePending workflowUUID n ups prio;; mret false
  else
  newGlobal ← addGlobalActive 1;
  if (0 <? globalMax) && (globalMax <? newGlobal) then
    addGlobalActive (-1);;
    on_td (decPerWfActive workflowUUID);;
    enqueuePending workflowUUID n ups prio;; mret false
  else mret true.

Definition PushTask (workflowUUID : string) (n : TaskNode) (ups : list vmap)
  : M W (res push_error unit) :=
  prio ← gets (getWorkflowPriority workflowUUID);
  cfg ← gets host_config;
  let globalMax := MaxConcurrentTasks cfg in
  let perWfMax := PerWorkflowMaxConcurrency cfg in
  go ← (if (0 <? globalMax) || (0 <? perWfMax) then reserve workflowUUID n ups prio
        else mret true);
  if go : bool then
    err ← doPush workflowUUID n ups;
    match err with
    | Ok _ => mret err
    | Err _ =>
        (if 0 <? globalMax then on_td (addGlobal (-1)) else mret tt);;
        on_td (decPerWfActive workflowUUID);;
        mret err
    end
  else mret (Ok tt).

(** ** Dispatching the queue *)

(** Seconds of a duration, rounded to the nearest for [%.0f]. *)
Definition round_seconds (d : Z) : Z :=
  let q := d / Second in
  let r := d mod Second in
  if 2 * r <? Second then q
  else if Second <? 2 * r then q + 1
  else if Z.even q then q else q + 1.

Definition queue_timeout_message (timeout : Z) : string :=
  "排队超时（等待 " +:+ pretty (round_seconds timeout) +:+ " 秒）".

(** Pops the head of the heap while it has waited longer than [timeout]. *)
Fixpoint evict_loop (fuel : nat) (now timeout : Z) (pq : list pendingTask)
  : list pendingTask * list pendingTask :=
  match fuel with
  | O => ([], pq)
  | S fuel' =>
      match Pop pq_less pq, pq with
      | Some (pt, rest), head :: _ =>
          if now - enqueued head <=? timeout then ([], pq)
          else let '(ev, pq') := evict_loop fuel' now timeout rest in (head :: ev, pq')
      | _, _ => ([], pq)
      end
  end.

Definition fail_evicted (timeout : Z) (pt : pendingTask) : M W unit :=
  traceID ← NewTraceID;
  let result := queue_timeout_message timeout in
  let fakePayload := zero_payload <| WorkflowID := workflowName pt |>
    <| TaskName := Name (node pt) |> <| TraceID := traceID |>
    <| Result := result |> <| pl_Status := StatusFailed |> in
  markWorkflowFailed fakePayload result.

Definition evictTimedOutLocked (timeoutSec : Z) : M W unit :=
  pq ← gets (fun w => pendingPQ (host_td w));
  if (timeoutSec <=? 0) || bool_decide (pq = []) then mret tt
  else
    now ← gets host_now;
    let timeout := wrap64 (timeoutSec * Second) in
    let '(evicted, rest) := evict_loop (length pq) now timeout pq in
    on_td (fun td => td <| pendingPQ := rest |>);;
    for_each (fail_evicted timeout) evicted.

Definition getPendingTimeoutSec (cfg : DispConfig) : Z :=
  if PendingTaskTimeoutSec cfg <=? 0 then defaultPendingTaskTimeoutSec
  else PendingTaskTimeoutSec cfg.

(** The selection loop of [tryDispatchPending]; each turn pops one task, so
    the length of the queue is enough fuel. *)
Record selection := MkSelection {
  sel_td : TaskDispatcher;
  deferred : list pendingTask;
  blockedWf : gset string;
  toPush : list pendingTask }.

Definition select_head (perWfMax : Z) (pt : pendingTask) (rest : list pendingTask)
    (s : selection) : selection :=
  let td := sel_td s <| pendingPQ := rest |> in
  if (0 <? perWfMax) && (perWfMax <=? loadPerWfActive (workflowName pt) td) then
    MkSelection td (deferred s ++ [pt]) ({[workflowName pt]} ∪ blockedWf s) (toPush s)
  else if bool_decide (workflowName pt ∈ blockedWf s) then
    MkSelection td (deferred s ++ [pt]) (blockedWf s) (toPush s)
  else
    MkSelection (incPerWfActive (workflowName pt) (addGlobal 1 td)).2
      (deferred s) (blockedWf s) (toPush s ++ [pt]).

Fixpoint select_loop (fuel : nat) (globalMax perWfMax : Z) (s : selection) : selection :=
  match fuel with
  | O => s
  | S fuel' =>
      match Pop pq_less (pendingPQ (sel_td s)) with
      | None => s
      | Some (pt, rest) =>
          if (0 <? globalMax) && (globalMax <=? globalActive (sel_td s)) then s
          else select_loop fuel' globalMax perWfMax (select_head perWfMax pt rest s)
      end
  end.

(** The selection of a dispatch round: the tasks taken, the blocked ones put
    back. *)
Definition select_pending (globalMax perWfMax : Z) (td : TaskDispatcher)
  : list pendingTask * TaskDispatcher :=
  let s := select_loop (length (pendingPQ td)) globalMax perWfMax (MkSelection td [] ∅ []) in
  (toPush s,
   sel_td s <| pendingPQ ::= fun pq => foldl (fun pq pt => Push pq_less pt pq) pq (deferred s) |>).

(** ** batchPush *)

Record batch := MkBatch {
  kvs : list (string * TaskPayload);
  occupied : list pendingTask;
  wfStateCache : gmap string Workflow }.

Definition release (hasGlobalLimit : bool) (pt : pendingTask) : M W unit :=
  (if hasGlobalLimit then on_td (addGlobal (-1)) else mret tt);;
  on_td (decPerWfActive (workflowName pt)).

(** The workflow of a task, read once per batch; [None] when it has ended. *)
Definition cached_workflow (pt : pendingTask) (b : batch) : M W (option (Workflow * batch)) :=
  match wfStateCache b !! workflowName pt with
  | Some wf => mret (Some (wf, b))
  | None =>
      st ← gets (GetWorkflowState (workflowName pt));
      match st with
      | None => mret None
      | Some st =>
          match ws_Workflow st with
          | None => panic
          | Some wf =>
              mret (Some (wf, MkBatch (kvs b) (occupied b)
                                (<[workflowName pt := wf]> (wfStateCache b))))
          end
      end
  end.

Definition batch_add (hasGlobalLimit : bool) (b : batch) (pt : pendingTask) : M W batch :=
  wfb ← cached_workflow pt b;
  match wfb with
  | None => mret b
  | Some (wf, b) =>
      cfg ← gets host_config;
      traceID ← NewTraceID;
      match Serialize (task_payload cfg wf (workflowName pt) (node pt) (upstreamOutputs pt)
                         traceID ∅) with
      | None => release hasGlobalLimit pt;; mret b
      | Some p =>
          prefix ← gets host_tasks_prefix;
          now ← gets host_now;
          rnd ← randHex4;
          let key := taskKey prefix (workflowName pt) (Name (node pt)) now rnd in
          mret (MkBatch (kvs b ++ [(key, p)]) (occupied b ++ [pt]) (wfStateCache b))
      end
  end.

Fixpoint batch_loop (hasGlobalLimit : bool) (b : batch) (tasks : list pendingTask) : M W batch :=
  match tasks with
  | [] => mret b
  | pt :: tasks' => b' ← batch_add hasGlobalLimit b pt; batch_loop hasGlobalLimit b' tasks'
  end.

Definition batchPush (tasks : list pendingTask) (hasGlobalLimit : bool) : M W unit :=
  b ← batch_loop hasGlobalLimit (MkBatch [] [] ∅) tasks;
  if bool_decide (occupied b = []) then mret tt
  else
    ok ← BatchPutWithTTL (kvs b) taskTTLSeconds;
    if ok : bool then mret tt else for_each (release hasGlobalLimit) (occupied b).

Definition tryDispatchPending : M W unit :=
  cfg ← gets host_config;
  evictTimedOutLocked (getPendingTimeoutSec cfg);;
  td ← gets host_td;
  let '(tasks, td') :=
    select_pending (MaxConcurrentTasks cfg) (PerWorkflowMaxConcurrency cfg) td in
  on_td (fun _ => td');;
  batchPush tasks (0 <? MaxConcurrentTasks cfg).

Definition ReleaseSlot : M W unit :=
  cfg ← gets host_config;
  (if 0 <? MaxConcurrentTasks cfg then on_td (addGlobal (-1)) else mret tt);;
  tryDispatchPending.

Definition ReleaseSlotForWorkflow (workflowUUID : string) : M W unit :=
  cfg ← gets host_config;
  (if 0 <? MaxConcurrentTasks cfg then on_td (addGlobal (-1)) else mret tt);;
  on_td (decPerWfActive workflowUUID);;
  tryDispatchPending.

(** ** Retries and rollbacks *)

(** (The messages leave out the text of the store's error.) *)
Definition retry_failed (payload : TaskPayload) (msg : string) : M W unit :=
  cfg ← gets host_config;
  markWorkflowFailed payload msg;;
  (if 0 <? MaxConcurrentTasks cfg then on_td (addGlobal (-1)) else mret tt);;
  on_td (decPerWfActive (WorkflowID payload));;
  tryDispatchPending.

(** [expired] tells which case of the [select] fired: the backoff's timer, or
    the end of the workflow's context. *)
Definition RetryTask (expired : bool) (payload : TaskPayload) : M W unit :=
  if negb expired then mret tt
  else
  cfg ← gets host_config;
  let globalMax := MaxConcurrentTasks cfg in
  (if (0 <? globalMax) || (0 <? PerWorkflowMaxConcurrency cfg) then
     (if 0 <? globalMax then on_td (addGlobal 1) else mret tt);;
     (incPerWf (WorkflowID payload);; mret tt)
   else mret tt);;
  let payload := payload <| RetryCount ::= fun n => wrap64 (n + 1) |>
                   <| pl_Status := StatusPending |> <| Result := "" |> in
  match Serialize payload with
  | None =>
      retry_failed payload ("任务 " +:+ TaskName payload +:+ " 重试序列化失败")
  | Some p =>
      prefix ← gets host_tasks_prefix;
      now ← gets host_now;
      rnd ← randHex4;
      ok ← putWithTTL (retryTaskKey prefix (WorkflowID payload) (TaskName payload)
                         (RetryCount payload) now rnd) p taskTTLSeconds;
      if ok : bool then clearFailedTask (WorkflowID payload) (TaskName payload)
      else retry_failed payload ("任务 " +:+ TaskName payload +:+ " 重试写入失败")
  end.

Definition PushRollbackTask (workflowUUID : string) (n : TaskNode) (originalOutput : vmap)
  : M W unit :=
  cfg ← gets host_config;
  traceID ← NewTraceID;
  let payload := zero_payload <| WorkflowID := workflowUUID |> <| TaskName := Name n |>
    <| TraceID := traceID |> <| pl_Status := StatusPending |>
    <| pl_Params := default ∅ (Params n) |> <| Input := originalOutput |>
    <| Output := Some ∅ |> <| pl_TimeoutSec := DefaultTaskTimeoutSec cfg |> <| Rollback := true |> in
  match Serialize payload with
  | None => mret tt
  | Some p =>
      prefix ← gets host_tasks_prefix;
      now ← gets host_now;
      rnd ← randHex4;
      putWithTTL (taskKey prefix workflowUUID (Name n) now rnd) p taskTTLSeconds;; mret tt
  end.

Definition PendingTaskCount (w : W) : Z := Z.of_nat (length (pendingPQ (host_td w))).
Definition GlobalActiveCount (w : W) : Z := globalActive (host_td w).

End dispatcher.

(** ** Lemmas: counters and selection *)

Definition small (z : Z) : Prop := - 2 ^ 61 <= z <= 2 ^ 61.

(** Counters far from the end of their range. *)
Definition counters_small (td : TaskDispatcher) : Prop :=
  small (globalActive td) /\ (forall u, small (loadPerWfActive u td)) /\
  Z.of_nat (length (pendingPQ td)) <= 2 ^ 61.

Lemma small_add z n : small z -> 0 <= n <= 2 ^ 61 -> in64 (z + n).
Proof. unfold small, in64, minInt64, maxInt64. lia. Qed.

Lemma load_dec u u' td :
  in64 (loadPerWfActive u td - 1) ->
  loadPerWfActive u' (decPerWfActive u td)
  = loadPerWfActive u' td - (if decide (u' = u) then 1 else 0).
Proof.
  intros Hs. unfold decPerWfActive. rewrite wrap64_in by done.
  destruct (Z.eqb_spec (loadPerWfActive u td - 1) 0) as [H0|H0];
    unfold loadPerWfActive at 1; cbn; case_decide as Hu; subst;
    rewrite ?lookup_delete_eq, ?lookup_insert_eq; cbn; try lia;
    rewrite ?lookup_delete_ne, ?lookup_insert_ne, Z.sub_0_r by done; done.
Qed.

Definition tasks_of (u : string) (l : list pendingTask) : Z :=
  Z.of_nat (length (filter (fun pt => workflowName pt = u) l)).

Lemma tasks_of_app u l k : tasks_of u (l ++ k) = tasks_of u l + tasks_of u k.
Proof. unfold tasks_of. rewrite filter_app, length_app. lia. Qed.

Lemma tasks_of_singleton u pt :
  tasks_of u [pt] = if decide (u = workflowName pt) then 1 else 0.
Proof. unfold tasks_of. rewrite filter_cons. repeat case_decide; cbn; congruence || done. Qed.

Lemma tasks_of_le u l : 0 <= tasks_of u l <= Z.of_nat (length l).
Proof. unfold tasks_of. pose proof (length_filter (fun pt => workflowName pt = u) l). lia. Qed.

(** What the selection loop maintains, from the dispatcher [td0] it began in. *)
Record selecting (globalMax perWfMax : Z) (td0 : TaskDispatcher) (s : selection) : Prop := {
  sel_heap : heap pq_less (pendingPQ (sel_td s));
  sel_perm : pendingPQ (sel_td s) ++ deferred s ++ toPush s ≡ₚ pendingPQ td0;
  sel_global : globalActive (sel_td s) = globalActive td0 + Z.of_nat (length (toPush s));
  sel_load u : loadPerWfActive u (sel_td s) = loadPerWfActive u td0 + tasks_of u (toPush s);
  sel_deferred pt : pt ∈ deferred s ->
    0 < perWfMax <= loadPerWfActive (workflowName pt) (sel_td s);
  sel_blocked u : u ∈ blockedWf s -> 0 < perWfMax <= loadPerWfActive u (sel_td s);
  sel_first x y : x ∈ toPush s -> y ∈ pendingPQ (sel_td s) -> le pq_less x y;
  sel_global_limit : 0 < globalMax ->
    globalActive (sel_td s) <= Z.max globalMax (globalActive td0);
  sel_wf_limit u : 0 < perWfMax ->
    loadPerWfActive u (sel_td s) <= Z.max perWfMax (loadPerWfActive u td0) }.

Lemma selecting_start globalMax perWfMax td0 :
  heap pq_less (pendingPQ td0) -> selecting globalMax perWfMax td0 (MkSelection td0 [] ∅ []).
Proof.
  intros Hh. split; cbn; try done; try lia; try set_solver.
  - by rewrite app_nil_r.
  - intros u. unfold tasks_of. cbn. lia.
Qed.

(** A blocked head moves to the deferred tasks. *)
Lemma selecting_defer globalMax perWfMax td0 s pt rest blocked :
  selecting globalMax perWfMax td0 s ->
  Pop pq_less (pendingPQ (sel_td s)) = Some (pt, rest) ->
  0 < perWfMax <= loadPerWfActive (workflowName pt) (sel_td s) ->
  (forall u, u ∈ blocked -> u = workflowName pt \/ u ∈ blockedWf s) ->
  selecting globalMax perWfMax td0
    (MkSelection (sel_td s <| pendingPQ := rest |>) (deferred s ++ [pt]) blocked (toPush s)).
Proof.
  intros [Hh Hp Hg Hl Hd Hb Hf Hgl Hwl] Hpop Hpt Hblk.
  destruct (Pop_spec _ _ _ _ Hh Hpop) as (Hperm & Hheap & _).
  split; cbn; try done.
  - rewrite <- Hp, Hperm. solve_Permutation.
  - intros x [Hx|Hx]%elem_of_app; [by apply Hd|]. by apply list_elem_of_singleton in Hx as ->.
  - intros u [->|Hu]%Hblk; [done|by apply Hb].
  - intros x y Hx Hy. apply Hf; [done|]. rewrite Hperm. by right.
Qed.

(** An unblocked head takes a slot. *)
Lemma selecting_take globalMax perWfMax td0 s pt rest :
  counters_small td0 -> selecting globalMax perWfMax td0 s ->
  Pop pq_less (pendingPQ (sel_td s)) = Some (pt, rest) ->
  (0 < globalMax -> globalActive (sel_td s) < globalMax) ->
  (0 < perWfMax -> loadPerWfActive (workflowName pt) (sel_td s) < perWfMax) ->
  selecting globalMax perWfMax td0
    (MkSelection (incPerWfActive (workflowName pt) (addGlobal 1 (sel_td s <| pendingPQ := rest |>))).2
      (deferred s) (blockedWf s) (toPush s ++ [pt])).
Proof.
  intros (Hsg & Hsl & Hsq) [Hh Hp Hg Hl Hd Hb Hf Hgl Hwl] Hpop Hgm Hwm.
  destruct (Pop_spec _ _ _ _ Hh Hpop) as (Hperm & Hheap & Hmin).
  assert (Hlen : Z.of_nat (length (toPush s)) < 2 ^ 61).
  { apply Permutation_length in Hp. apply Permutation_length in Hperm.
    rewrite !length_app in Hp. cbn in Hperm. lia. }
  set (td1 := addGlobal 1 (sel_td s <| pendingPQ := rest |>)).
  assert (Hglob : globalActive td1 = globalActive (sel_td s) + 1).
  { cbn. rewrite Hg. apply wrap64_in. unfold small, in64, minInt64, maxInt64 in *. lia. }
  assert (Hload : forall u, loadPerWfActive u (incPerWfActive (workflowName pt) td1).2
    = loadPerWfActive u (sel_td s) + (if decide (u = workflowName pt) then 1 else 0)).
  { intros u. unfold incPerWfActive, loadPerWfActive at 1. cbn.
    replace (loadPerWfActive (workflowName pt) td1)
      with (loadPerWfActive (workflowName pt) (sel_td s)) by done.
    rewrite wrap64_in.
    - case_decide; [subst; by rewrite lookup_insert_eq|].
      rewrite lookup_insert_ne, Z.add_0_r by done. done.
    - rewrite Hl. pose proof (tasks_of_le (workflowName pt) (toPush s)).
      specialize (Hsl (workflowName pt)). unfold small, in64, minInt64, maxInt64 in *. lia. }
  split; cbn [sel_td deferred toPush blockedWf].
  - done.
  - cbn. rewrite <- Hp, Hperm. solve_Permutation.
  - change (globalActive (incPerWfActive (workflowName pt) td1).2) with (globalActive td1).
    rewrite Hglob, Hg, length_app. cbn. lia.
  - intros u. rewrite Hload, Hl, tasks_of_app, tasks_of_singleton. lia.
  - intros x Hx. rewrite Hload. specialize (Hd x Hx). case_decide; lia.
  - intros u Hu. rewrite Hload. specialize (Hb u Hu). case_decide; lia.
  - intros x y Hx Hy. cbn in Hy. apply elem_of_app in Hx as [Hx|Hx].
    + apply Hf; [done|]. rewrite Hperm. by right.
    + apply list_elem_of_singleton in Hx as ->. rewrite list.Forall_forall in Hmin. by apply Hmin.
  - change (globalActive (incPerWfActive (workflowName pt) td1).2) with (globalActive td1).
    rewrite Hglob. intros Hm. specialize (Hgm Hm). lia.
  - intros u Hm. rewrite Hload. specialize (Hwl u Hm). case_decide; [|lia].
    subst. specialize (Hwm Hm). lia.
Qed.

Lemma selecting_head globalMax perWfMax td0 s pt rest :
  counters_small td0 -> selecting globalMax perWfMax td0 s ->
  Pop pq_less (pendingPQ (sel_td s)) = Some (pt, rest) ->
  (0 < globalMax -> globalActive (sel_td s) < globalMax) ->
  selecting globalMax perWfMax td0 (select_head perWfMax pt rest s).
Proof.
  intros Hsm Hs Hpop Hg. unfold select_head.
  change (loadPerWfActive (workflowName pt) (sel_td s <| pendingPQ := rest |>))
    with (loadPerWfActive (workflowName pt) (sel_td s)).
  destruct (Z.ltb_spec 0 perWfMax) as [Hw|Hw]; cbn [andb];
    [destruct (Z.leb_spec perWfMax (loadPerWfActive (workflowName pt) (sel_td s))) as [Hl|Hl]|].
  - apply (selecting_defer _ _ _ _ _ _ _ Hs Hpop); [lia|set_solver].
  - case_bool_decide as Hbl; [pose proof (sel_blocked _ _ _ _ Hs _ Hbl); lia|].
    apply selecting_take; [done..|lia].
  - case_bool_decide as Hbl; [pose proof (sel_blocked _ _ _ _ Hs _ Hbl); lia|].
    apply selecting_take; [done..|lia].
Qed.

Lemma select_head_rest perWfMax pt rest s :
  pendingPQ (sel_td (select_head perWfMax pt rest s)) = rest.
Proof. unfold select_head. by repeat case_match. Qed.

Lemma select_loop_spec globalMax perWfMax td0 fuel s :
  counters_small td0 -> selecting globalMax perWfMax td0 s ->
  (length (pendingPQ (sel_td s)) <= fuel)%nat ->
  let s' := select_loop fuel globalMax perWfMax s in
  selecting globalMax perWfMax td0 s' /\
  (pendingPQ (sel_td s') = [] \/ 0 < globalMax <= globalActive (sel_td s')).
Proof.
  intros Hsm. revert s. induction fuel as [|fuel IH]; intros s Hs Hf; cbn [select_loop].
  { split; [done|]. left. destruct (pendingPQ (sel_td s)); [done|]. cbn in Hf. lia. }
  destruct (Pop pq_less (pendingPQ (sel_td s))) as [[pt rest]|] eqn:Hpop.
  - assert (Hlen : (length rest <= fuel)%nat).
    { destruct (Pop_spec _ _ _ _ (sel_heap _ _ _ _ Hs) Hpop) as (Hperm & _ & _).
      apply Permutation_length in Hperm. cbn in Hperm. lia. }
    destruct ((0 <? globalMax) && (globalMax <=? globalActive (sel_td s))) eqn:Hg.
    + apply andb_true_iff in Hg as [Hg1 Hg2]. split; [done|]. right. lia.
    + apply andb_false_iff in Hg. apply IH; [|by rewrite select_head_rest].
      apply selecting_head; [done..|]. intros ?. destruct Hg; lia.
  - split; [done|]. left. destruct (decide (pendingPQ (sel_td s) = [])) as [|Hne]; [done|].
    destruct (Pop_Some pq_less _ Hne) as (? & ? & ?). congruence.
Qed.

Lemma push_all_perm (l pq : list pendingTask) :
  foldl (fun pq pt => Push pq_less pt pq) pq l ≡ₚ l ++ pq.
Proof.
  revert pq. induction l as [|x l IH]; intros pq; [done|]. cbn. rewrite IH, Push_perm.
  solve_Permutation.
Qed.

Lemma push_all_heap (l pq : list pendingTask) :
  heap pq_less pq -> heap pq_less (foldl (fun pq pt => Push pq_less pt pq) pq l).
Proof.
  revert pq. induction l as [|x l IH]; intros pq Hpq; [done|]. cbn. apply IH.
  apply Push_heap; [apply _|done].
Qed.

(** ** Lemmas: calls on a host *)

Section host.
Context {W : Type} `{DispatcherLaws W}.

Lemma wrote_trans kvs kvs' (w1 w2 w3 : W) : wrote kvs w1 w2 -> wrote kvs' w2 w3 -> wrote (kvs ++ kvs') w1 w3.
Proof.
  intros [] []. split; intros; try congruence. unfold put_all in *. rewrite foldl_app. congruence.
Qed.

Lemma host_same_trans (w1 w2 w3 : W) : host_same w1 w2 -> host_same w2 w3 -> host_same w1 w3.
Proof. intros [? Ha] [? Hb]. split; [congruence|]. exact (wrote_trans [] [] _ _ _ Ha Hb). Qed.

(** A quiet call in front of a computation leaves it in the same world. *)
Lemma wp_quiet {A B : Type} (m : M W A) (f : A -> M W B) Q (w : W) :
  wp m (fun _ w' => host_same w w') w ->
  (forall a w', host_same w w' -> wp (f a) Q w') -> wp (m ≫= f) Q w.
Proof. intros Hm Hf. apply wp_bind. eapply wp_mono; [exact Hm|]. intros a w'. apply Hf. Qed.

Lemma wp_on_td (f : TaskDispatcher -> TaskDispatcher) (Q : unit -> W -> Prop) w :
  Q tt (host_set_td (f (host_td w)) w) -> wp (on_td f) Q w.
Proof. done. Qed.

(** A key and what is written under it for a task. *)
Definition is_task (w : W) (uuid : string) (n : TaskNode) (ups : list vmap) (tctx : gmap string string)
    (kv : string * TaskPayload) : Prop :=
  exists st wf tid rnd, GetWorkflowState uuid w = Some st /\ ws_Workflow st = Some wf /\
    kv.1 = taskKey (host_tasks_prefix w) uuid (Name n) (host_now w) rnd /\
    Serialize (task_payload (host_config w) wf uuid n ups tid tctx) = Some kv.2.

Lemma doPush_spec uuid n ups (w : W) :
  (forall st, GetWorkflowState uuid w = Some st -> is_Some (ws_Workflow st)) ->
  wp (doPush uuid n ups) (fun r w' => host_td w' = host_td w /\
    match r with
    | Ok _ => exists tctx kv, is_task w uuid n ups tctx kv /\ wrote [kv] w w'
    | Err PutFailed => wrote [] w w' \/ exists tctx kv, is_task w uuid n ups tctx kv /\ wrote [kv] w w'
    | Err _ => wrote [] w w'
    end) w.
Proof.
  intros Hst. unfold doPush. apply wp_bind, wp_gets.
  destruct (GetWorkflowState uuid w) as [st|] eqn:Hs; [|by apply wp_ret].
  destruct (Hst st eq_refl) as [wf Hwf]. rewrite Hwf. apply wp_bind, wp_gets.
  apply wp_quiet; [apply trace_quiet|]. intros tr w1 H1.
  apply wp_quiet; [apply inject_quiet|]. intros tc w2 H2.
  pose proof (host_same_trans _ _ _ H1 H2) as [Htd2 Hw2]. clear H1 H2.
  destruct (Serialize _) as [p|] eqn:Hp; [|by apply wp_ret].
  apply wp_bind, wp_gets, wp_bind, wp_gets.
  apply wp_quiet; [apply rand_quiet|]. intros r w3 [Htd3 Hw3].
  pose proof (wrote_trans _ _ _ _ _ Hw2 Hw3) as Hw. cbn [app] in Hw.
  apply wp_bind. eapply wp_mono; [apply put_stores|]. intros ok w4 (Htd & took & Htook & Hw4).
  apply wp_ret. rewrite Htd, Htd3, Htd2. split; [done|].
  set (key := taskKey _ _ _ _ _) in *. pose proof (wrote_trans _ _ _ _ _ Hw Hw4) as Hall.
  assert (Hkv : is_task w uuid n ups tc (key, p)).
  { exists st, wf, tr, r. split_and!; [done..| |done]. unfold key. cbn.
    by rewrite (same_prefix _ _ _ Hw2), (same_now _ _ _ Hw2). }
  destruct ok; [rewrite Htook in Hall by done; by eexists _, _|].
  destruct took; [right; by eexists _, _|by left].
Qed.

End host.

(** ** Lemmas: the selection of a dispatch round *)

(** The waiting tasks are split into those taken and those left, the left ones
    again in heap order; every task taken is counted, globally and for its
    workflow; and neither count passes its limit (unless it was already past
    it). *)
Lemma select_pending_sound (globalMax perWfMax : Z) (td : TaskDispatcher) :
  counters_small td -> heap pq_less (pendingPQ td) ->
  let '(taken, td') := select_pending globalMax perWfMax td in
  taken ++ pendingPQ td' ≡ₚ pendingPQ td /\ heap pq_less (pendingPQ td') /\
  globalActive td' = globalActive td + Z.of_nat (length taken) /\
  (forall u, loadPerWfActive u td' = loadPerWfActive u td + tasks_of u taken) /\
  (0 < globalMax -> globalActive td' <= Z.max globalMax (globalActive td)) /\
  (0 < perWfMax -> forall u, loadPerWfActive u td' <= Z.max perWfMax (loadPerWfActive u td)).
Proof.
  intros Hsm Hh. unfold select_pending. set (s := select_loop _ _ _ _).
  destruct (select_loop_spec globalMax perWfMax td (length (pendingPQ td))
    (MkSelection td [] ∅ []) Hsm (selecting_start _ _ _ Hh) ltac:(done)) as [Hs _].
  fold s in Hs. split_and!; cbn.
  - rewrite push_all_perm, <- (sel_perm _ _ _ _ Hs). solve_Permutation.
  - apply push_all_heap, Hs.
  - apply Hs.
  - intros u. apply (sel_load _ _ _ _ Hs).
  - apply Hs.
  - intros Hw u. by apply (sel_wf_limit _ _ _ _ Hs).
Qed.

(** A task left is held back by a full global limit or by its own workflow's
    limit, and a task taken comes before every one left whose workflow is not at
    its limit. *)
Lemma select_pending_work_conserving (globalMax perWfMax : Z) (td : TaskDispatcher) :
  counters_small td -> heap pq_less (pendingPQ td) ->
  let '(taken, td') := select_pending globalMax perWfMax td in
  (forall y, y ∈ pendingPQ td' ->
     0 < globalMax <= globalActive td' \/
     0 < perWfMax <= loadPerWfActive (workflowName y) td') /\
  (forall x y, x ∈ taken -> y ∈ pendingPQ td' ->
     le pq_less x y \/ 0 < perWfMax <= loadPerWfActive (workflowName y) td').
Proof.
  intros Hsm Hh. unfold select_pending. set (s := select_loop _ _ _ _).
  destruct (select_loop_spec globalMax perWfMax td (length (pendingPQ td))
    (MkSelection td [] ∅ []) Hsm (selecting_start _ _ _ Hh) ltac:(done)) as [Hs Hend].
  fold s in Hs, Hend.
  assert (Hin : forall y, y ∈ foldl (fun pq pt => Push pq_less pt pq) (pendingPQ (sel_td s)) (deferred s) ->
    y ∈ deferred s \/ y ∈ pendingPQ (sel_td s)).
  { intros y. rewrite push_all_perm. apply elem_of_app. }
  split.
  - intros y [Hy|Hy]%Hin; [right; by apply (sel_deferred _ _ _ _ Hs)|].
    left. destruct Hend as [He|He]; [rewrite He in Hy; set_solver|done].
  - intros x y Hx [Hy|Hy]%Hin; [right; by apply (sel_deferred _ _ _ _ Hs)|].
    left. by apply (sel_first _ _ _ _ Hs).
Qed.

(** ** Lemmas: what a dispatch round preserves

    A property of the world that the host's operations preserve is preserved
    by everything the release of a slot sets off. *)

Section dispatch_invariant.
Context {W : Type} `{DispatcherHost W} (I : W -> Prop).

Record host_preserves : Prop := {
  pres_set td w : I w -> I (host_set_td td w);
  pres_trace w : I w -> wp NewTraceID (fun _ => I) w;
  pres_rand w : I w -> wp randHex4 (fun _ => I) w;
  pres_batch l ttl w : I w -> wp (BatchPutWithTTL l ttl) (fun _ => I) w;
  pres_mark p msg w : I w -> wp (markWorkflowFailed p msg) (fun _ => I) w;
  pres_workflow u st w : I w -> GetWorkflowState u w = Some st -> is_Some (ws_Workflow st) }.

Context (Hp : host_preserves).

Lemma wp_on_td_inv f w : I w -> wp (on_td f) (fun _ => I) w.
Proof. intros Hw. apply (pres_set Hp), Hw. Qed.

Lemma wp_pure {A : Type} (a : A) w : I w -> wp (mret a) (fun _ => I) w.
Proof. done. Qed.

(** A step that preserves [I], then another. *)
Lemma wp_seq {A B : Type} (m : M W A) (f : A -> M W B) w :
  wp m (fun _ => I) w -> (forall a w', I w' -> wp (f a) (fun _ => I) w') ->
  wp (m ≫= f) (fun _ => I) w.
Proof. intros Hm Hf. apply wp_bind. eapply wp_mono; [exact Hm|]. intros a w'. apply Hf. Qed.

Lemma wp_read {A B : Type} (g : W -> A) (f : A -> M W B) w :
  wp (f (g w)) (fun _ => I) w -> wp (gets g ≫= f) (fun _ => I) w.
Proof. intros Hf. by apply wp_bind, wp_gets. Qed.

Lemma release_inv b pt w : I w -> wp (release b pt) (fun _ => I) w.
Proof.
  intros Hw. unfold release. apply wp_seq; [|intros _ w' Hw'; by apply wp_on_td_inv].
  destruct b; [by apply wp_on_td_inv|by apply wp_pure].
Qed.

Lemma batch_add_inv b bt pt w : I w -> wp (batch_add b bt pt) (fun _ => I) w.
Proof.
  intros Hw. unfold batch_add. apply wp_seq.
  - unfold cached_workflow. destruct (wfStateCache bt !! workflowName pt); [by apply wp_pure|].
    apply wp_read. destruct (GetWorkflowState _ w) as [st|] eqn:Hst; [|by apply wp_pure].
    destruct (pres_workflow Hp _ _ _ Hw Hst) as [wf ->]. by apply wp_pure.
  - intros [[wf b']|] w' Hw'; [|by apply wp_pure]. apply wp_read.
    apply wp_seq; [by apply (pres_trace Hp)|]. intros tr w1 Hw1. destruct (Serialize _).
    + do 2 apply wp_read. apply wp_seq; [by apply (pres_rand Hp)|].
      intros r w2 Hw2. by apply wp_pure.
    + apply wp_seq; [by apply release_inv|]. intros _ w2 Hw2. by apply wp_pure.
Qed.

Lemma batch_loop_inv b bt l : forall w, I w -> wp (batch_loop b bt l) (fun _ => I) w.
Proof.
  revert bt. induction l as [|pt l IH]; intros bt w Hw; cbn; [done|].
  apply wp_seq; [by apply batch_add_inv|]. intros bt' w' Hw'. by apply IH.
Qed.

Lemma tryDispatchPending_inv w : I w -> wp tryDispatchPending (fun _ => I) w.
Proof.
  intros Hw. unfold tryDispatchPending. apply wp_read, wp_seq.
  - unfold evictTimedOutLocked. apply wp_read. case_match; [by apply wp_pure|].
    apply wp_read. destruct (evict_loop _ _ _ _) as [ev rest].
    apply wp_seq; [by apply wp_on_td_inv|]. intros _ w1 Hw1. apply wp_for_each; [|done].
    intros pt w2 _ Hw2. unfold fail_evicted. apply wp_seq; [by apply (pres_trace Hp)|].
    intros tr w3 Hw3. by apply (pres_mark Hp).
  - intros _ w1 Hw1. apply wp_read. destruct (select_pending _ _ _) as [tasks td'].
    apply wp_seq; [by apply wp_on_td_inv|]. intros _ w2 Hw2. unfold batchPush.
    apply wp_seq; [by apply batch_loop_inv|]. intros bt w3 Hw3.
    case_match; [by apply wp_pure|]. apply wp_seq; [by apply (pres_batch Hp)|].
    intros ok w4 Hw4. destruct ok; [by apply wp_pure|]. apply wp_for_each; [|done].
    intros pt w5 _ Hw5. by apply release_inv.
Qed.

Lemma ReleaseSlotForWorkflow_inv uuid w : I w -> wp (ReleaseSlotForWorkflow uuid) (fun _ => I) w.
Proof.
  intros Hw. unfold ReleaseSlotForWorkflow. apply wp_read, wp_seq.
  - case_match; [by apply wp_on_td_inv|by apply wp_pure].
  - intros _ w1 Hw1. apply wp_seq; [by apply wp_on_td_inv|]. intros _ w2 Hw2.
    by apply tryDispatchPending_inv.
Qed.

End dispatch_invariant.

(** ** Properties: pushing a task *)

Section push.
Context {W : Type} `{DispatcherLaws W}.

(** A limit is set and reached, for the workflow or for all. *)
Definition at_limit (cfg : DispConfig) (uuid : string) (td : TaskDispatcher) : Prop :=
  0 < PerWorkflowMaxConcurrency cfg <= loadPerWfActive uuid td \/
  0 < MaxConcurrentTasks cfg <= globalActive td.

Definition limited (cfg : DispConfig) : bool :=
  (0 <? MaxConcurrentTasks cfg) || (0 <? PerWorkflowMaxConcurrency cfg).

Definition b2z (b : bool) : Z := if b then 1 else 0.

(** The counters after a push, by how many each has changed. *)
Definition counted (uuid : string) (td td' : TaskDispatcher) (global own : Z) : Prop :=
  globalActive td' = globalActive td + global /\
  (forall u, loadPerWfActive u td' =
             loadPerWfActive u td + (if decide (u = uuid) then own else 0)) /\
  pendingPQ td' = pendingPQ td.

Definition queued (uuid : string) (n : TaskNode) (ups : list vmap) (prio now : Z)
    (td td' : TaskDispatcher) : Prop :=
  td' = td <| pendingPQ := Push pq_less (MkPending uuid n ups prio now) (pendingPQ td) |>.

(** What a reservation ends with: a slot, or the task in the queue. *)
Definition reserve_post (uuid : string) (n : TaskNode) (ups : list vmap) (prio : Z) (w : W)
    (go : bool) (w' : W) : Prop :=
  wrote [] w w' /\
  if go then ~ at_limit (host_config w) uuid (host_td w) /\
             counted uuid (host_td w) (host_td w') 1 1
  else at_limit (host_config w) uuid (host_td w) /\
       queued uuid n ups prio (host_now w) (host_td w) (host_td w').

Lemma wp_enqueue uuid n ups prio w :
  at_limit (host_config w) uuid (host_td w) ->
  wp (enqueuePending uuid n ups prio ;; mret false) (reserve_post uuid n ups prio w) w.
Proof.
  intros Hat. apply wp_bind. unfold enqueuePending. apply wp_bind, wp_gets, wp_on_td, wp_ret.
  split; [apply wrote_set|]. split; [done|].
  unfold queued. by rewrite td_set.
Qed.

Lemma reserve_spec uuid n ups prio (w : W) :
  counters_small (host_td w) ->
  wp (reserve uuid n ups prio) (reserve_post uuid n ups prio w) w.
Proof.
  intros (Hsg & Hsl & Hsq). unfold reserve.
  apply wp_bind, wp_gets, wp_bind, wp_gets.
  destruct ((0 <? PerWorkflowMaxConcurrency (host_config w)) && _) eqn:E1.
  { apply wp_enqueue. apply andb_true_iff in E1 as [? ?]. left. lia. }
  apply wp_bind, wp_gets.
  destruct ((0 <? MaxConcurrentTasks (host_config w)) && _) eqn:E2.
  { apply wp_enqueue. apply andb_true_iff in E2 as [? ?]. right. lia. }
  apply andb_false_iff in E1. apply andb_false_iff in E2. pose proof (Hsl uuid) as Hsu.
  apply wp_bind. unfold wp at 1, incPerWf, incPerWfActive.
  rewrite (wrap64_in (loadPerWfActive uuid (host_td w) + 1)) by (apply small_add; [done|lia]).
  destruct ((0 <? PerWorkflowMaxConcurrency (host_config w)) && _) eqn:E3.
  { apply andb_true_iff in E3 as [? ?]. destruct E1; lia. }
  apply wp_bind. unfold wp at 1, addGlobalActive. rewrite td_set. cbn.
  rewrite (wrap64_in (globalActive (host_td w) + 1)) by (apply small_add; [done|lia]).
  destruct ((0 <? MaxConcurrentTasks (host_config w)) && _) eqn:E4.
  { apply andb_true_iff in E4 as [? ?]. destruct E2; lia. }
  apply wp_ret. split; [exact (wrote_trans [] [] _ _ _ (wrote_set _ _) (wrote_set _ _))|].
  rewrite !td_set. split.
  - intros [?|?]; [destruct E1; lia|destruct E2; lia].
  - split_and!; [cbn; apply wrap64_in, small_add; [done|lia]| |done]. intros u. unfold loadPerWfActive at 1. cbn.
    case_decide; [subst; by rewrite lookup_insert_eq|].
    rewrite lookup_insert_ne, Z.add_0_r by done. done.
Qed.

Lemma decPerWf_other u td :
  globalActive (decPerWfActive u td) = globalActive td /\
  pendingPQ (decPerWfActive u td) = pendingPQ td.
Proof. unfold decPerWfActive. by case_match. Qed.

(** Giving back a slot of the workflow. *)
Lemma counted_dec uuid td0 td global own :
  small (loadPerWfActive uuid td0) -> 0 <= own <= 1 ->
  counted uuid td0 td global own ->
  counted uuid td0 (decPerWfActive uuid td) global (own - 1).
Proof.
  intros Hsu Hown (Hg & Hl & Hq). destruct (decPerWf_other uuid td) as [Hg' Hq'].
  split_and!; [congruence| |congruence].
  intros u. rewrite <- (Z.add_simpl_r (loadPerWfActive u (decPerWfActive uuid td)) 0).
  assert (Hdec : loadPerWfActive u (decPerWfActive uuid td)
    = loadPerWfActive u td - (if decide (u = uuid) then 1 else 0)).
  { apply load_dec. rewrite Hl, decide_True by done. unfold small, in64, minInt64, maxInt64 in *. lia. }
  rewrite Hdec, Hl. case_decide; lia.
Qed.

Lemma counted_addGlobal uuid td0 td n own k :
  small (globalActive td0) -> -1 <= n + k <= 1 ->
  counted uuid td0 td n own -> counted uuid td0 (addGlobal k td) (n + k) own.
Proof.
  intros Hs Hk (Hg & Hl & Hq). split_and!; [|done..]. cbn. rewrite Hg.
  replace (globalActive td0 + n + k) with (globalActive td0 + (n + k)) by lia.
  apply wrap64_in. unfold small, in64, minInt64, maxInt64 in *. lia.
Qed.

(** What becomes of the task and of its slots when a push holds them. *)
Definition pushed (uuid : string) (n : TaskNode) (ups : list vmap) (w w' : W) (r : res push_error unit) : Prop :=
  match r with
  | Ok _ => exists tctx kv, is_task w uuid n ups tctx kv /\
      host_store w' = <[kv.1 := kv.2]> (host_store w)
  | Err e => host_store w' = host_store w \/
      e = PutFailed /\ exists tctx kv, is_task w uuid n ups tctx kv /\
        host_store w' = <[kv.1 := kv.2]> (host_store w)
  end.

Lemma is_task_same (w w' : W) uuid n ups tctx kv :
  wrote [] w w' -> is_task w' uuid n ups tctx kv -> is_task w uuid n ups tctx kv.
Proof.
  intros [Hc Hn Hp Hs _] (st & wf & tid & rnd & Hst & Hwf & Hk & Hser).
  rewrite Hs in Hst. rewrite Hp, Hn in Hk. rewrite Hc in Hser. by exists st, wf, tid, rnd.
Qed.

(** A push that holds its slots: written, or the slots given back. *)
Lemma push_held uuid n ups (w0 w : W) global own :
  counters_small (host_td w0) -> 0 <= own <= 1 -> 0 <= global <= 1 ->
  (forall st, GetWorkflowState uuid w0 = Some st -> is_Some (ws_Workflow st)) ->
  wrote [] w0 w -> counted uuid (host_td w0) (host_td w) global own ->
  wp (err ← doPush uuid n ups;
      match err with
      | Ok _ => mret err
      | Err _ =>
          (if 0 <? MaxConcurrentTasks (host_config w0) then on_td (addGlobal (-1)) else mret tt);;
          on_td (decPerWfActive uuid);;
          mret err
      end)
    (fun r w' => pushed uuid n ups w0 w' r /\
       match r with
       | Ok _ => counted uuid (host_td w0) (host_td w') global own
       | Err _ => counted uuid (host_td w0) (host_td w')
                    (global - b2z (0 <? MaxConcurrentTasks (host_config w0))) (own - 1)
       end) w.
Proof.
  intros (Hsg & Hsl & Hsq) Hown Hglob Hst Hw Hcnt. apply wp_bind. eapply wp_mono.
  { apply doPush_spec. intros st. rewrite (same_state _ _ _ Hw). apply Hst. }
  intros r w2 [Htd Hr]. rewrite <- Htd in Hcnt.
  assert (Hstore : forall kvs w3, wrote kvs w w2 -> host_store w3 = host_store w2 ->
    host_store w3 = put_all kvs (host_store w0)).
  { intros kvs w3 H2 ->. by rewrite (same_store _ _ _ H2), (same_store _ _ _ Hw). }
  destruct r as [[]|e].
  { apply wp_ret. split; [|done]. destruct Hr as (tctx & kv & Hkv & Hw2). exists tctx, kv.
    split; [by eapply is_task_same|by apply (Hstore [kv])]. }
  set (Q := fun (r : res push_error unit) w' => _). assert (Hend : forall w3, host_store w3 = host_store w2 ->
    counted uuid (host_td w0) (host_td w3)
      (global - b2z (0 <? MaxConcurrentTasks (host_config w0))) (own - 1) -> Q (Err e) w3).
  { intros w3 H3 Hc. split; [|exact Hc].
    destruct e; [left; by apply (Hstore [])..|]. destruct Hr as [Hr|(tctx & kv & Hkv & Hw2)].
    - left. by apply (Hstore []).
    - right. split; [done|]. exists tctx, kv. split; [by eapply is_task_same|by apply (Hstore [kv])]. }
  pose proof (fun td x => same_store _ _ _ (wrote_set td x)) as Hset. cbn in Hset.
  destruct (0 <? MaxConcurrentTasks (host_config w0)); apply wp_bind;
    [apply wp_on_td|apply wp_ret]; apply wp_bind, wp_on_td, wp_ret, Hend; rewrite ?Hset; try done;
    rewrite !td_set; apply counted_dec; [done|lia| |done|lia|].
  - apply counted_addGlobal; [done|cbn; lia|done].
  - by rewrite Z.sub_0_r.
Qed.

(** C11: what pushing a task does to the slots and to the store.  At a limit the
    task joins the queue, the store is unchanged and no slot is taken.
    Otherwise the task is written under a key of its own, and the counters say
    so: one slot more when some limit is set and the write went through.  When
    the push fails the store is unchanged, unless a write that is reported as
    failed took place; the workflow's slot is given back even when none was
    taken, and the global one only when a global limit is set. *)
Theorem PushTask_slots (uuid : string) (n : TaskNode) (ups : list vmap) (w : W) :
  counters_small (host_td w) ->
  (forall st, GetWorkflowState uuid w = Some st -> is_Some (ws_Workflow st)) ->
  let cfg := host_config w in
  wp (PushTask uuid n ups)
    (fun r w' =>
       (limited cfg = true /\ at_limit cfg uuid (host_td w) /\ r = Ok tt /\
        queued uuid n ups (getWorkflowPriority uuid w) (host_now w) (host_td w) (host_td w') /\
        host_store w' = host_store w) \/
       ((limited cfg = true -> ~ at_limit cfg uuid (host_td w)) /\ pushed uuid n ups w w' r /\
        match r with
        | Ok _ => counted uuid (host_td w) (host_td w') (b2z (limited cfg)) (b2z (limited cfg))
        | Err _ => counted uuid (host_td w) (host_td w')
                     (b2z (limited cfg && negb (0 <? MaxConcurrentTasks cfg)))
                     (- b2z (negb (limited cfg)))
        end)) w.
Proof.
  intros Hsm Hst cfg. unfold PushTask. apply wp_bind, wp_gets, wp_bind, wp_gets.
  change ((0 <? _) || (0 <? _)) with (limited cfg).
  assert (Hself : counted uuid (host_td w) (host_td w) 0 0).
  { split_and!; [lia| |done]. intros u. case_decide; lia. }
  apply wp_bind. destruct (limited cfg) eqn:Hlim.
  - eapply wp_mono; [by apply reserve_spec|]. intros go w1 (Hw1 & Hgo).
    destruct go.
    2: { apply wp_ret. left. pose proof (same_store _ _ _ Hw1). tauto. }
    destruct Hgo as [Hnot Hcnt].
    eapply wp_mono; [by apply (push_held uuid n ups w w1 1 1)|].
    intros r w2 [Hp Hr]. right. split_and!; [done..|]. destruct r; [done|].
    fold cfg in Hr. by destruct (0 <? MaxConcurrentTasks cfg).
  - apply wp_ret. eapply wp_mono; [by apply (push_held uuid n ups w w 0 0)|].
    intros r w2 [Hp Hr]. right. split_and!; [done..|]. destruct r; [done|].
    apply orb_false_iff in Hlim as [Hgm _]. fold cfg in Hr. rewrite Hgm in Hr. done.
Qed.

End push.

(** ** Properties: a dispatch round *)

Section round.
Context {W : Type} `{DispatcherLaws W}.

(** What becomes of a task that is taken: its workflow has ended, its payload
    cannot be serialized, or it is in the batch. *)
Inductive fate : Type := Gone | Refused | Sent (kv : string * TaskPayload).

Definition fate_of (w : W) (pt : pendingTask) (f : fate) : Prop :=
  match f with
  | Gone => GetWorkflowState (workflowName pt) w = None
  | Refused => exists st wf tid,
      GetWorkflowState (workflowName pt) w = Some st /\ ws_Workflow st = Some wf /\
      Serialize (task_payload (host_config w) wf (workflowName pt) (node pt) (upstreamOutputs pt) tid ∅) = None
  | Sent kv => is_task w (workflowName pt) (node pt) (upstreamOutputs pt) ∅ kv
  end.

Definition sent (l : list (pendingTask * fate)) : list (string * TaskPayload) :=
  omap (fun x => match x.2 with Sent kv => Some kv | _ => None end) l.
Definition sent_tasks (l : list (pendingTask * fate)) : list pendingTask :=
  omap (fun x => match x.2 with Sent _ => Some x.1 | _ => None end) l.
Definition refused_tasks (l : list (pendingTask * fate)) : list pendingTask :=
  omap (fun x => match x.2 with Refused => Some x.1 | _ => None end) l.

(** The tasks whose slots are given back, [ok] being the answer to the batch. *)
Definition given_back (ok : bool) (l : list (pendingTask * fate)) : list pendingTask :=
  refused_tasks l ++ (if ok then [] else sent_tasks l).

Lemma given_back_le ok l : (length (given_back ok l) <= length l)%nat.
Proof.
  unfold given_back. rewrite length_app. unfold refused_tasks, sent_tasks.
  induction l as [|[pt []] l IH]; destruct ok; cbn in *; lia.
Qed.

(** [kvs] have been written and [back] have given their slots back; nothing
    else has changed. *)
Record released (hasGlobalLimit : bool) (kvs : list (string * TaskPayload)) (back : list pendingTask)
    (w w' : W) : Prop := {
  rel_wrote : wrote kvs w w';
  rel_queue : pendingPQ (host_td w') = pendingPQ (host_td w);
  rel_global : globalActive (host_td w') =
    globalActive (host_td w) - (if hasGlobalLimit then Z.of_nat (length back) else 0);
  rel_load u : loadPerWfActive u (host_td w') = loadPerWfActive u (host_td w) - tasks_of u back }.

(** Room for as many releases as a queue is long. *)
Definition roomy (td : TaskDispatcher) : Prop :=
  - 2 ^ 62 <= globalActive td <= 2 ^ 62 /\ forall u, - 2 ^ 62 <= loadPerWfActive u td <= 2 ^ 62.

Lemma released_refl hg w : released hg [] [] w w.
Proof. split; [done|done|destruct hg; cbn; lia|]. intros u. unfold tasks_of. cbn. lia. Qed.

Lemma released_wrote hg kvs kvs' back (w w1 w2 : W) :
  released hg kvs back w w1 -> host_td w2 = host_td w1 -> wrote kvs' w1 w2 -> released hg (kvs ++ kvs') back w w2.
Proof. intros [Hw Hq Hg Hl] Htd Hw2. split; rewrite ?Htd; try done. by eapply wrote_trans. Qed.

Lemma released_same hg kvs back (w w1 w2 : W) :
  released hg kvs back w w1 -> host_same w1 w2 -> released hg kvs back w w2.
Proof. intros Hr [Htd Hw]. rewrite <- (app_nil_r kvs). by eapply released_wrote. Qed.

Lemma released_step hg kvs back pt (w w1 : W) :
  roomy (host_td w) -> Z.of_nat (length back) < 2 ^ 62 -> released hg kvs back w w1 ->
  wp (release hg pt) (fun _ => released hg kvs (back ++ [pt]) w) w1.
Proof.
  intros [Hrg Hrl] Hlen [Hw Hq Hg Hl]. unfold release. apply wp_bind.
  pose proof (tasks_of_le (workflowName pt) back) as Hle. specialize (Hrl (workflowName pt)).
  assert (Hdec : in64 (loadPerWfActive (workflowName pt) (host_td w1) - 1)).
  { rewrite Hl. unfold in64, minInt64, maxInt64. lia. }
  assert (Hend : forall w2, wrote [] w1 w2 -> host_td w2 = (if hg then addGlobal (-1) else id) (host_td w1) ->
    wp (on_td (decPerWfActive (workflowName pt))) (fun _ => released hg kvs (back ++ [pt]) w) w2).
  { intros w2 Hw2 Htd2. apply wp_on_td. split.
    - rewrite <- (app_nil_r kvs). apply (wrote_trans kvs [] w w1); [done|].
      apply (wrote_trans [] [] w1 w2); [done|apply wrote_set].
    - rewrite td_set, (proj2 (decPerWf_other _ _)), Htd2. by destruct hg.
    - rewrite td_set, (proj1 (decPerWf_other _ _)), Htd2, length_app. destruct hg; cbn; [|lia].
      rewrite Hg, wrap64_in by (unfold in64, minInt64, maxInt64; lia). lia.
    - intros u. rewrite td_set, Htd2.
      assert (Hsame : forall v, loadPerWfActive v ((if hg then addGlobal (-1) else id) (host_td w1)) =
        loadPerWfActive v (host_td w1)) by (by destruct hg).
      rewrite load_dec, Hsame by (by rewrite Hsame). rewrite Hl, tasks_of_app, tasks_of_singleton. lia. }
  destruct hg; [apply wp_on_td|apply wp_ret]; apply Hend; [apply wrote_set|by rewrite td_set|done|done].
Qed.

Lemma released_all hg kvs l (w : W) : roomy (host_td w) -> forall back w1,
  Z.of_nat (length (back ++ l)) < 2 ^ 62 -> released hg kvs back w w1 ->
  wp (for_each (release hg) l) (fun _ => released hg kvs (back ++ l) w) w1.
Proof.
  intros Hr. induction l as [|pt l IH]; intros back w1 Hlen Hb; cbn [for_each]; [by rewrite app_nil_r; apply wp_ret|].
  rewrite length_app, length_cons in Hlen.
  apply wp_bind. eapply wp_mono; [apply (released_step hg kvs back pt w w1 Hr); [lia|done]|]. intros [] w2 Hb2.
  replace (back ++ pt :: l) with ((back ++ [pt]) ++ l) by (by rewrite <- (assoc_L app)).
  apply IH; [rewrite !length_app, length_cons, length_nil; lia|done].
Qed.

Definition cache_ok (w : W) (b : batch) : Prop := forall u wf, wfStateCache b !! u = Some wf ->
  exists st, GetWorkflowState u w = Some st /\ ws_Workflow st = Some wf.

Definition all_defined (w : W) : Prop :=
  forall u st, GetWorkflowState u w = Some st -> is_Some (ws_Workflow st).

(** One task: its fate, the batch after it and its slot. *)
Lemma batch_add_spec hg b pt (w w1 : W) back :
  roomy (host_td w) -> all_defined w -> cache_ok w b -> Z.of_nat (length back) < 2 ^ 62 -> released hg [] back w w1 ->
  wp (batch_add hg b pt) (fun b' w2 => cache_ok w b' /\ exists f, fate_of w pt f /\
    kvs b' = kvs b ++ sent [(pt, f)] /\ occupied b' = occupied b ++ sent_tasks [(pt, f)] /\
    released hg [] (back ++ refused_tasks [(pt, f)]) w w2) w1.
Proof.
  intros Hroom Hdef Hcache Hlen Hrel. pose proof (rel_wrote _ _ _ _ _ Hrel) as [Hc Hn Hp Hs _].
  unfold batch_add, cached_workflow.
  assert (Hrest : forall wf b1, kvs b1 = kvs b -> occupied b1 = occupied b -> cache_ok w b1 ->
    (exists st, GetWorkflowState (workflowName pt) w = Some st /\ ws_Workflow st = Some wf) ->
    wp (cfg ← gets host_config; traceID ← NewTraceID;
        match Serialize (task_payload cfg wf (workflowName pt) (node pt) (upstreamOutputs pt) traceID ∅) with
        | None => release hg pt;; mret b1
        | Some p =>
            prefix ← gets host_tasks_prefix; now ← gets host_now; rnd ← randHex4;
            let key := taskKey prefix (workflowName pt) (Name (node pt)) now rnd in
            mret (MkBatch (kvs b1 ++ [(key, p)]) (occupied b1 ++ [pt]) (wfStateCache b1))
        end) (fun b' w2 => cache_ok w b' /\ exists f, fate_of w pt f /\
    kvs b' = kvs b ++ sent [(pt, f)] /\ occupied b' = occupied b ++ sent_tasks [(pt, f)] /\
    released hg [] (back ++ refused_tasks [(pt, f)]) w w2) w1).
  { intros wf b1 Hk Ho Hc1 (st & Hst & Hwf). apply wp_bind, wp_gets. rewrite Hc.
    apply wp_quiet; [apply trace_quiet|]. intros tid w2 Hw2.
    pose proof (released_same _ _ _ _ _ _ Hrel Hw2) as Hrel2. destruct (Serialize _) as [p|] eqn:Hser.
    - apply wp_bind, wp_gets, wp_bind, wp_gets. apply wp_quiet; [apply rand_quiet|]. intros rnd w3 Hw3.
      pose proof (rel_wrote _ _ _ _ _ Hrel2) as [_ Hn2 Hp2 _ _]. rewrite Hn2, Hp2.
      apply wp_ret. split; [exact Hc1|]. eexists (Sent (_, p)). split_and!; [|by cbn; rewrite ?Hk, ?Ho..|].
      + exists st, wf, tid, rnd. split_and!; [done|done|reflexivity|done].
      + cbn. rewrite app_nil_r. by eapply released_same.
    - apply wp_bind. eapply wp_mono; [by apply released_step|]. intros [] w3 Hw3. apply wp_ret.
      split; [done|]. exists Refused. split_and!; [by exists st, wf, tid|by cbn; rewrite app_nil_r, ?Hk, ?Ho..|done]. }
  apply wp_bind. destruct (wfStateCache b !! workflowName pt) as [wf|] eqn:Hwf.
  - apply wp_ret. apply Hrest; [done..|]. by apply Hcache.
  - apply wp_bind, wp_gets. rewrite Hs. destruct (GetWorkflowState _ w) as [st|] eqn:Hst.
    + destruct (Hdef _ _ Hst) as [wf Hw]. rewrite Hw. apply wp_ret. apply Hrest; [done..| |by eexists].
      intros u wf'. cbn. intros [[<- <-]|[_ Hu]]%lookup_insert_Some; [by eexists|by apply Hcache].
    + apply wp_ret, wp_ret. split; [done|]. exists Gone. cbn. rewrite !app_nil_r. done.
Qed.

Lemma sent_app l k : sent (l ++ k) = sent l ++ sent k.
Proof. apply omap_app. Qed.
Lemma sent_tasks_app l k : sent_tasks (l ++ k) = sent_tasks l ++ sent_tasks k.
Proof. apply omap_app. Qed.
Lemma refused_tasks_app l k : refused_tasks (l ++ k) = refused_tasks l ++ refused_tasks k.
Proof. apply omap_app. Qed.

Lemma batch_loop_spec hg tasks (w : W) :
  roomy (host_td w) -> all_defined w -> forall b l0 w1,
  Z.of_nat (length l0 + length tasks) < 2 ^ 62 -> cache_ok w b ->
  Forall (fun x => fate_of w x.1 x.2) l0 -> kvs b = sent l0 -> occupied b = sent_tasks l0 ->
  released hg [] (refused_tasks l0) w w1 ->
  wp (batch_loop hg b tasks) (fun b' w2 => exists l, l.*1 = l0.*1 ++ tasks /\
    Forall (fun x => fate_of w x.1 x.2) l /\ kvs b' = sent l /\ occupied b' = sent_tasks l /\
    released hg [] (refused_tasks l) w w2) w1.
Proof.
  intros Hroom Hdef. induction tasks as [|pt tasks IH]; intros b l0 w1 Hlen Hc Hf Hk Ho Hrel; cbn [batch_loop].
  { apply wp_ret. exists l0. by rewrite app_nil_r. }
  assert (Hr : (length (refused_tasks l0) <= length l0)%nat)
    by (pose proof (given_back_le true l0) as Hle; unfold given_back in Hle; by rewrite app_nil_r in Hle).
  rewrite length_cons in Hlen. apply wp_bind. eapply wp_mono; [apply (batch_add_spec hg b pt w w1 (refused_tasks l0)); [done..|lia|done]|].
  intros b' w2 (Hc' & f & Hfate & Hk' & Ho' & Hrel'). eapply wp_mono.
  - apply (IH b' (l0 ++ [(pt, f)])); [rewrite length_app, length_cons, length_nil; lia|done| | | |].
    + apply Forall_app. split; [done|]. by constructor.
    + by rewrite sent_app, Hk', Hk.
    + by rewrite sent_tasks_app, Ho', Ho.
    + by rewrite refused_tasks_app.
  - cbn. intros b2 w3 (l & Hl & Hrest). exists l. split; [|done]. by rewrite Hl, fmap_app, <- (assoc_L app).
Qed.

Lemma sent_lengths l : length (sent l) = length (sent_tasks l).
Proof. unfold sent, sent_tasks. induction l as [|[pt []] l IH]; cbn; lia. Qed.

(** The batch: every task has its fate, and the batch is written, or not and
    its slots are given back. *)
Lemma batchPush_spec hg tasks (w : W) :
  roomy (host_td w) -> all_defined w -> Z.of_nat (length tasks) < 2 ^ 62 ->
  wp (batchPush tasks hg) (fun _ w' => exists (l : list (pendingTask * fate)) (ok took : bool),
    l.*1 = tasks /\ Forall (fun x => fate_of w x.1 x.2) l /\ (ok = true -> took = true) /\
    released hg (if took then sent l else []) (given_back ok l) w w') w.
Proof.
  intros Hroom Hdef Hlen. unfold batchPush. apply wp_bind. eapply wp_mono.
  { apply (batch_loop_spec hg tasks w Hroom Hdef (MkBatch [] [] ∅) [] w); [done|done|by constructor|done..|].
    apply released_refl. }
  intros b w1 (l & Hl & Hf & Hk & Ho & Hrel). cbn [fmap list_fmap app] in Hl.
  assert (Hback : forall ok, Z.of_nat (length (given_back ok l)) < 2 ^ 62).
  { intros ok. pose proof (given_back_le ok l). rewrite <- Hl, length_fmap in Hlen. lia. }
  case_bool_decide as He.
  - apply wp_ret. exists l, true, true. split_and!; [done..|]. unfold given_back. rewrite app_nil_r.
    replace (sent l) with (@nil (string * TaskPayload)); [done|]. symmetry. apply nil_length_inv.
    by rewrite sent_lengths, <- Ho, He.
  - rewrite Hk, Ho. apply wp_bind. eapply wp_mono; [apply batch_stores|].
    intros ok w2 (Htd & took & Htook & Hw2).
    pose proof (released_wrote _ _ _ _ _ _ _ Hrel Htd Hw2) as Hrel2. cbn [app] in Hrel2. destruct ok.
    + apply wp_ret. exists l, true, took. split_and!; [done..|by rewrite Htook|]. unfold given_back. by rewrite app_nil_r.
    + eapply wp_mono; [by apply released_all; [done|apply (Hback false)|]|].
      intros [] w3 Hrel3. exists l, false, took. by split_and!.
Qed.

(** The head of the queue has not waited too long: nothing is evicted. *)
Definition head_in_time (w : W) : Prop :=
  match pendingPQ (host_td w) with
  | head :: _ => host_now w - enqueued head <= wrap64 (getPendingTimeoutSec (host_config w) * Second)
  | [] => True
  end.

Lemma evict_nothing (w : W) : head_in_time w ->
  wp (evictTimedOutLocked (getPendingTimeoutSec (host_config w))) (fun _ w' => host_same w w') w.
Proof.
  unfold head_in_time, evictTimedOutLocked. intros Hh. apply wp_bind, wp_gets.
  destruct (pendingPQ (host_td w)) as [|h pq] eqn:Hpq; [rewrite orb_true_r; by apply wp_ret|].
  case_match; [by apply wp_ret|]. apply wp_bind, wp_gets. cbn [length evict_loop].
  destruct (Pop_Some pq_less (h :: pq)) as (x & rest & ->); [done|].
  rewrite (proj2 (Z.leb_le _ _) Hh). apply wp_bind, wp_on_td, wp_ret. split; [|apply wrote_set].
  rewrite td_set, <- Hpq. by destruct (host_td w).
Qed.

(** A round: the selection, then the batch. *)
Lemma round_spec (w : W) :
  counters_small (host_td w) -> heap pq_less (pendingPQ (host_td w)) -> all_defined w -> head_in_time w ->
  let cfg := host_config w in
  wp tryDispatchPending (fun _ w' => exists (l : list (pendingTask * fate)) (ok took : bool) (w1 : W),
    select_pending (MaxConcurrentTasks cfg) (PerWorkflowMaxConcurrency cfg) (host_td w) = (l.*1, host_td w1) /\
    wrote [] w w1 /\ Forall (fun x => fate_of w x.1 x.2) l /\ implb ok took = true /\
    released (0 <? MaxConcurrentTasks cfg) (if took then sent l else []) (given_back ok l) w1 w') w.
Proof.
  intros Hsm Hheap Hdef Hhead cfg. unfold tryDispatchPending. apply wp_bind, wp_gets. fold cfg.
  apply wp_bind. eapply wp_mono; [exact (evict_nothing w Hhead)|]. intros [] w0 [Htd0 Hw0].
  apply wp_bind, wp_gets. rewrite Htd0.
  pose proof (select_pending_sound (MaxConcurrentTasks cfg) (PerWorkflowMaxConcurrency cfg) (host_td w) Hsm Hheap) as Hsel.
  destruct (select_pending _ _ _) as [tasks td'] eqn:Hs. destruct Hsel as (Hperm & _ & Hg & Hl & _).
  apply wp_bind, wp_on_td. set (w1 := host_set_td td' w0).
  assert (Htd1 : host_td w1 = td') by apply td_set.
  pose proof (wrote_trans _ _ _ _ _ Hw0 (wrote_set td' w0)) as Hw1. cbn [app] in Hw1. fold w1 in Hw1.
  destruct Hsm as (Hsg & Hsl & Hsq). unfold small in *.
  assert (Hlen : Z.of_nat (length tasks) <= 2 ^ 61).
  { apply Permutation_length in Hperm. rewrite length_app in Hperm. lia. }
  eapply wp_mono; [apply (batchPush_spec (0 <? MaxConcurrentTasks cfg) tasks w1)|].
  - rewrite Htd1. split; [lia|]. intros u. rewrite Hl. pose proof (tasks_of_le u tasks). specialize (Hsl u). lia.
  - intros u st. rewrite (same_state _ _ _ Hw1). apply Hdef.
  - lia.
  - intros [] w' (l & ok & took & <- & Hf & Hok & Hrel). exists l, ok, took, w1. rewrite Htd1.
    split_and!; [done|done| |destruct ok; [by rewrite Hok|done]|done]. eapply list.Forall_impl; [exact Hf|].
    intros [pt []]; cbn; [by rewrite (same_state _ _ _ Hw1)| |by apply is_task_same].
    intros (st & wf & tid & Hst & Hwf & Hser). rewrite (same_state _ _ _ Hw1) in Hst.
    rewrite (same_config _ _ _ Hw1) in Hser. by exists st, wf, tid.
Qed.



End round.

(** Three waiting tasks of two workflows. *)
Definition waiting_example : TaskDispatcher :=
  NewTaskDispatcher <| pendingPQ :=
    Push pq_less (MkPending "b" (named_node "b1") [] 5 30)
      (Push pq_less (MkPending "a" (named_node "a2") [] 9 20)
         (Push pq_less (MkPending "a" (named_node "a1") [] 9 10) [])) |>.

