(* ===== verification/Watchers.v ===== *)
(** * Distribution of task events (infra/engine/scheduler/watch.go: workflowWatchers,
    rollbackSemaphore)

    Task events reach a workflow's goroutine through a channel of its own;
    what finds the channel full waits in a backlog.  Channels are objects:
    registering a workflow again replaces its channel, and the goroutines of
    the two registrations hold different ones. *)
From Stdlib Require Import ZArith Lia.
From stdpp Require Import base gmap strings list.
From S2P Require Import Prelude GoVal Model Payload.
Set Warnings "-register-all,-clear-no-such-hyp,-level-tolerance".
Local Open Scope Z_scope.
Local Open Scope list_scope.

Definition workflowEventChanBuf : nat := 4096.
Definition maxBacklogSize : nat := 2048.
#[global] Arguments workflowEventChanBuf : simpl never.
#[global] Arguments maxBacklogSize : simpl never.
Definition maxAge : Z := 30 * 1000000000.

Record backlogEntry := MkBacklog {
  bl_workflowUUID : string; bl_payload : TaskPayload; addedAt : Z }.

(** A channel of [TaskPayload]s: what it buffers, and whether it is closed. *)
Record channel := MkChannel { buf : list TaskPayload; closed : bool }.

#[export] Instance eta_channel : Eta channel := fun c => MkChannel (buf c) (closed c).

(** [heap_chans] holds the channels made so far, [chans] names the one a
    workflow is registered with. *)
Record workflowWatchers := MkWatchers {
  chans : gmap string nat;
  heap_chans : list channel;
  backlog : list backlogEntry;
  dropped : Z }.

#[export] Instance eta_watchers : Eta workflowWatchers := fun w =>
  MkWatchers (chans w) (heap_chans w) (backlog w) (dropped w).

Definition newWorkflowWatchers : workflowWatchers := MkWatchers ∅ [] [] 0.

(** ** Operations *)

Definition register (workflowUUID : string) (ww : workflowWatchers) : nat * workflowWatchers :=
  let ch := length (heap_chans ww) in
  (ch, ww <| heap_chans ::= fun l => l ++ [MkChannel [] false] |>
          <| chans ::= <[workflowUUID := ch]> |>).

Definition close_chan (ch : nat) (ww : workflowWatchers) : workflowWatchers :=
  ww <| heap_chans ::= alter (fun c => c <| closed := true |>) ch |>.

(** Closes the channel the workflow is registered with now. *)
Definition unregister (workflowUUID : string) (ww : workflowWatchers) : workflowWatchers :=
  match chans ww !! workflowUUID with
  | Some ch => close_chan ch (ww <| chans ::= delete workflowUUID |>)
  | None => ww
  end.

(** Receiving: [None] when the channel is empty and open (the receiver waits),
    [Some None] when it is empty and closed. *)
Definition receive (ch : nat) (ww : workflowWatchers)
  : option (option TaskPayload) * workflowWatchers :=
  match heap_chans ww !! ch with
  | Some c =>
      match buf c with
      | p :: l => (Some (Some p), ww <| heap_chans ::= <[ch := c <| buf := l |>]> |>)
      | [] => (if closed c then Some None else None, ww)
      end
  | None => (None, ww)
  end.

(** A non-blocking send, which panics on a closed channel. *)
Definition try_send (ch : nat) (p : TaskPayload) : M workflowWatchers bool := fun ww =>
  match heap_chans ww !! ch with
  | Some c =>
      if closed c then Panic
      else if (length (buf c) <? workflowEventChanBuf)%nat then
        Ret (true, ww <| heap_chans ::= <[ch := c <| buf ::= fun l => l ++ [p] |>]> |>)
      else Ret (false, ww)
  | None => Ret (false, ww)
  end.

(** [dispatch] looks the channel up under the read lock and sends after
    releasing it. *)
Definition dispatch_lookup (workflowUUID : string) (ww : workflowWatchers) : option nat :=
  chans ww !! workflowUUID.

Definition dispatch_send (now : Z) (workflowUUID : string) (payload : TaskPayload) (ch : nat)
  : M workflowWatchers unit :=
  sent ← try_send ch payload;
  if sent : bool then mret tt
  else modify (fun ww =>
    if (length (backlog ww) <? maxBacklogSize)%nat then
      ww <| backlog ::= fun l => l ++ [MkBacklog workflowUUID payload now] |>
    else ww <| dropped ::= fun n => wrap64 (n + 1) |>).

Definition dispatch (now : Z) (workflowUUID : string) (payload : TaskPayload)
  : M workflowWatchers unit :=
  ch ← gets (dispatch_lookup workflowUUID);
  match ch with
  | None => mret tt
  | Some ch => dispatch_send now workflowUUID payload ch
  end.

(** One entry of the backlog: too old, of a workflow that has ended, sent, or
    kept. *)
Definition flush_entry (now : Z) (remaining : list backlogEntry) (entry : backlogEntry)
  : M workflowWatchers (list backlogEntry) :=
  if maxAge <? now - addedAt entry then
    modify (fun ww => ww <| dropped ::= fun n => wrap64 (n + 1) |>);; mret remaining
  else
    ch ← gets (dispatch_lookup (bl_workflowUUID entry));
    match ch with
    | None => mret remaining
    | Some ch =>
        sent ← try_send ch (bl_payload entry);
        mret (if sent : bool then remaining else remaining ++ [entry])
    end.

Fixpoint flush_loop (now : Z) (remaining : list backlogEntry) (l : list backlogEntry)
  : M workflowWatchers (list backlogEntry) :=
  match l with
  | [] => mret remaining
  | e :: l' => remaining' ← flush_entry now remaining e; flush_loop now remaining' l'
  end.

Definition flushBacklog (now : Z) : M workflowWatchers unit :=
  l ← gets backlog;
  remaining ← flush_loop now [] l;
  modify (fun ww => ww <| backlog := remaining |>).

Definition backlogLen (ww : workflowWatchers) : Z := Z.of_nat (length (backlog ww)).

(** [dropped.Swap(0)] of the periodic report. *)
Definition reportDropped (ww : workflowWatchers) : Z * workflowWatchers :=
  (dropped ww, ww <| dropped := 0 |>).

(** ** The rollback semaphore *)

Definition maxRollbackConcurrency : Z := 5.

Record rollbackSemaphore := MkSem { sem_count : Z; sem_max : Z }.

Definition newRollbackSemaphore (max : Z) : rollbackSemaphore := MkSem 0 max.

(** [Blocked]: the caller waits on the condition variable. *)
Definition acquire : M rollbackSemaphore unit := fun s =>
  if sem_max s <=? sem_count s then Blocked
  else Ret (tt, MkSem (wrap64 (sem_count s + 1)) (sem_max s)).

Definition release : M rollbackSemaphore unit := fun s =>
  Ret (tt, MkSem (wrap64 (sem_count s - 1)) (sem_max s)).

(** ** Well-formed states *)

(** Registered channels exist, are open, and belong to one workflow; buffers
    and backlog respect their bounds. *)
Record watchers_ok (ww : workflowWatchers) : Prop := {
  wk_open u ch : chans ww !! u = Some ch ->
    exists c, heap_chans ww !! ch = Some c /\ closed c = false;
  wk_inj u v ch : chans ww !! u = Some ch -> chans ww !! v = Some ch -> u = v;
  wk_buf ch c : heap_chans ww !! ch = Some c -> (length (buf c) <= workflowEventChanBuf)%nat;
  wk_backlog : (length (backlog ww) <= maxBacklogSize)%nat }.

(** What a workflow's registered channel holds. *)
Definition inbox (u : string) (ww : workflowWatchers) : list TaskPayload :=
  match chans ww !! u with
  | Some ch => match heap_chans ww !! ch with Some c => buf c | None => [] end
  | None => []
  end.

Lemma new_ok : watchers_ok newWorkflowWatchers.
Proof.
  split; cbn; intros *; rewrite ?lookup_empty, ?lookup_nil; try done.
  unfold maxBacklogSize. lia.
Qed.

Lemma register_ok u ww : watchers_ok ww -> watchers_ok (register u ww).2.
Proof.
  intros [Ho Hi Hb Hl]. split; cbn.
  - intros v ch [[<- <-]|[Hne Hv]]%lookup_insert_Some.
    + exists (MkChannel [] false). split; [|done]. by rewrite lookup_app_r, Nat.sub_diag.
    + destruct (Ho _ _ Hv) as (c & Hc & Hcl). exists c. split; [|done]. by apply lookup_app_l_Some.
  - assert (Hlen : forall v, chans ww !! v <> Some (length (heap_chans ww))).
    { intros v Hv. destruct (Ho _ _ Hv) as (c & Hc & _). apply lookup_lt_Some in Hc. lia. }
    intros v v' ch [[<- <-]|[Hne Hv]]%lookup_insert_Some [[<- E]|[Hne' Hv']]%lookup_insert_Some;
      subst; try done; [by destruct (Hlen v')|by destruct (Hlen v)|by eapply Hi].
  - intros ch c [Hc|[_ Hc]]%lookup_app_Some; [by eapply Hb|].
    apply list_lookup_singleton_Some in Hc as [_ <-]. cbn. lia.
  - done.
Qed.

Lemma unregister_ok u ww : watchers_ok ww -> watchers_ok (unregister u ww).
Proof.
  intros [Ho Hi Hb Hl]. unfold unregister. destruct (chans ww !! u) as [ch|] eqn:Hu; [|done].
  split; cbn.
  - intros v ch' [Hne Hv]%lookup_delete_Some.
    destruct (Ho _ _ Hv) as (c & Hc & Hcl). exists c. split; [|done].
    rewrite list_lookup_alter_ne; [done|]. intros <-. by destruct Hne, (Hi _ _ _ Hu Hv).
  - intros v v' ch' [_ Hv]%lookup_delete_Some [_ Hv']%lookup_delete_Some. by eapply Hi.
  - intros ch' c. destruct (decide (ch = ch')) as [<-|Hne].
    + rewrite list_lookup_alter_eq. intros (c' & Hc & ->)%fmap_Some. exact (Hb ch c' Hc).
    + rewrite list_lookup_alter_ne by done. apply Hb.
  - done.
Qed.

(** ** Lemmas: sending *)

Lemma ok_inbox u ch ww :
  watchers_ok ww -> chans ww !! u = Some ch -> heap_chans ww !! ch = Some (MkChannel (inbox u ww) false).
Proof.
  intros Hok Hu. destruct (wk_open _ Hok _ _ Hu) as ([b cl] & Hc & Hcl). cbn in Hcl. subst cl.
  unfold inbox. by rewrite Hu, Hc.
Qed.

Definition full (u : string) (ww : workflowWatchers) : Prop :=
  length (inbox u ww) = workflowEventChanBuf.

(** A send to a registered channel: the event is the last of the inbox, or
    the inbox is full and nothing changes. *)
Lemma try_send_spec u ch p ww :
  watchers_ok ww -> chans ww !! u = Some ch ->
  wp (try_send ch p) (fun sent ww' =>
    watchers_ok ww' /\ chans ww' = chans ww /\ backlog ww' = backlog ww /\
    dropped ww' = dropped ww /\
    if sent : bool then
      forall v, inbox v ww' = inbox v ww ++ (if decide (v = u) then [p] else [])
    else ww' = ww /\ full u ww) ww.
Proof.
  intros Hok Hu. pose proof (ok_inbox _ _ _ Hok Hu) as Hc.
  unfold wp, try_send. rewrite Hc. cbn [closed buf].
  destruct (length (inbox u ww) <? workflowEventChanBuf)%nat eqn:E.
  - apply Nat.ltb_lt in E. split_and!; try done.
    + destruct Hok as [Ho Hi Hb Hl]. split; cbn; try done.
      * intros v ch' Hv. destruct (decide (ch' = ch)) as [->|Hne].
        { eexists. split; [apply list_lookup_insert_eq; by apply lookup_lt_Some in Hc|done]. }
        rewrite list_lookup_insert_ne by done. by apply Ho with v.
      * intros ch' c [(<- & <- & _)|[Hne Hc']]%list_lookup_insert_Some; [|by eapply Hb].
        cbn. rewrite length_app. cbn. lia.
    + intros v. unfold inbox. cbn. destruct (chans ww !! v) as [ch'|] eqn:Hv.
      * destruct (decide (ch' = ch)) as [->|Hne].
        { rewrite list_lookup_insert_eq by (by apply lookup_lt_Some in Hc).
          rewrite Hc. cbn. rewrite decide_True; [done|]. by eapply wk_inj. }
        rewrite list_lookup_insert_ne by done. rewrite decide_False; [by rewrite app_nil_r|].
        intros ->. congruence.
      * rewrite decide_False; [done|]. congruence.
  - apply Nat.ltb_ge in E. split_and!; try done.
    unfold full. pose proof (wk_buf _ Hok _ _ Hc). cbn in *. lia.
Qed.

Definition expired (now : Z) (e : backlogEntry) : bool := maxAge <? now - addedAt e.

Definition entries_of (u : string) (l : list backlogEntry) : list backlogEntry :=
  filter (fun e => bl_workflowUUID e = u) l.

Definition fresh_of (now : Z) (u : string) (l : list backlogEntry) : list backlogEntry :=
  filter (fun e => bl_workflowUUID e = u /\ expired now e = false) l.

Definition expired_count (now : Z) (l : list backlogEntry) : Z :=
  Z.of_nat (length (filter (fun e => expired now e = true) l)).

(** What flushing the entries [l] has done, from [ww0]: [delivered] are sent,
    [remaining] kept. *)
Record flushed (now : Z) (ww0 : workflowWatchers) (l delivered remaining : list backlogEntry)
    (ww : workflowWatchers) : Prop := {
  fl_ok : watchers_ok ww;
  fl_chans : chans ww = chans ww0;
  fl_inbox u : inbox u ww = inbox u ww0 ++ (bl_payload <$> entries_of u delivered);
  fl_order u : is_Some (chans ww0 !! u) ->
    fresh_of now u l = entries_of u delivered ++ entries_of u remaining;
  fl_full e : e ∈ remaining -> full (bl_workflowUUID e) ww;
  fl_sub : sublist remaining l;
  fl_live e : e ∈ delivered ++ remaining ->
    e ∈ l /\ expired now e = false /\ is_Some (chans ww0 !! bl_workflowUUID e);
  fl_backlog : backlog ww = backlog ww0;
  fl_dropped : dropped ww = wrap64 (dropped ww0 + expired_count now l) }.

Lemma expired_count_snoc now l e :
  expired_count now (l ++ [e]) = expired_count now l + (if expired now e then 1 else 0).
Proof.
  unfold expired_count. rewrite filter_app, length_app, filter_cons, filter_nil.
  destruct (expired now e); cbn; case_decide; cbn; try done; lia.
Qed.

Lemma fresh_of_snoc now u l e :
  fresh_of now u (l ++ [e]) =
  fresh_of now u l ++
  (if decide (bl_workflowUUID e = u /\ expired now e = false) then [e] else []).
Proof. unfold fresh_of. rewrite filter_app, filter_cons, filter_nil. by case_decide. Qed.

Lemma entries_of_snoc u l e :
  entries_of u (l ++ [e]) = entries_of u l ++ (if decide (bl_workflowUUID e = u) then [e] else []).
Proof. unfold entries_of. rewrite filter_app, filter_cons, filter_nil. by case_decide. Qed.

Lemma flush_start now ww : watchers_ok ww -> dropped ww = wrap64 (dropped ww) ->
  flushed now ww [] [] [] ww.
Proof.
  intros Hok Hd. split; try done.
  - intros u. cbn. by rewrite app_nil_r.
  - set_solver.
  - set_solver.
  - unfold expired_count. cbn. by rewrite Z.add_0_r.
Qed.

(** One more entry keeps what the loop maintains. *)
Lemma flush_entry_spec now ww0 l delivered remaining e ww :
  flushed now ww0 l delivered remaining ww ->
  wp (flush_entry now remaining e) (fun remaining' ww' =>
    exists delivered', flushed now ww0 (l ++ [e]) delivered' remaining' ww') ww.
Proof.
  intros [Hok Hch Hin Hor Hfu Hsub Hlive Hbl Hdr]. unfold flush_entry.
  assert (Hsub' : sublist remaining (l ++ [e])) by (by apply sublist_inserts_r).
  fold (expired now e). destruct (expired now e) eqn:Hexp'.
  { apply wp_bind, wp_modify, wp_ret. exists delivered. split; try done.
    - by destruct Hok.
    - intros u Hu. rewrite fresh_of_snoc, decide_False, app_nil_r; [by apply Hor|].
      intros [_ ?]. congruence.
    - intros e' He'. apply Hlive in He' as (? & ? & ?). split_and!; [set_solver|done..].
    - cbn. rewrite expired_count_snoc, Hdr, Hexp', wrap64_add_l. f_equal. lia. }
  assert (Hdr' : forall d, d = dropped ww ->
    d = wrap64 (dropped ww0 + expired_count now (l ++ [e]))).
  { intros d ->. rewrite expired_count_snoc, Hexp', Hdr. f_equal. lia. }
  apply wp_bind, wp_gets. unfold dispatch_lookup.
  destruct (chans ww !! bl_workflowUUID e) as [ch|] eqn:Hc.
  2:{ apply wp_ret. exists delivered. split; try done; [| |by apply Hdr'].
      - intros u [ch Hu]. rewrite fresh_of_snoc, decide_False, app_nil_r; [by apply Hor|].
        intros [<- _]. congruence.
      - intros e' He'. apply Hlive in He' as (? & ? & ?). split_and!; [set_solver|done..]. }
  apply wp_bind. eapply wp_mono; [by apply try_send_spec with (u := bl_workflowUUID e)|].
  intros sent ww' (Hok' & Hch' & Hbl' & Hd' & Hs). apply wp_ret.
  assert (Hreg : is_Some (chans ww0 !! bl_workflowUUID e)) by (rewrite <- Hch, Hc; eauto).
  destruct sent.
  - exists (delivered ++ [e]). split; try done; try congruence.
    + intros u. rewrite Hs, Hin, entries_of_snoc, fmap_app, (assoc_L app). f_equal.
      by repeat case_decide; subst.
    + intros u Hu. rewrite fresh_of_snoc, (Hor u Hu), entries_of_snoc.
      case_decide as Hd; [|rewrite (decide_False (P := _ = u)), !app_nil_r; [done|]; by intros <-; apply Hd].
      destruct Hd as [<- _]. rewrite decide_True by done.
      assert (entries_of (bl_workflowUUID e) remaining = []) as ->; [|by rewrite !app_nil_r].
      destruct (entries_of _ remaining) as [|x k] eqn:E; [done|exfalso].
      assert (Hx : x ∈ entries_of (bl_workflowUUID e) remaining) by (rewrite E; left).
      apply list_elem_of_filter in Hx as [Hxu Hx]. pose proof (Hfu _ Hx) as Hf.
      pose proof (wk_buf _ Hok' ch _ ltac:(apply ok_inbox with (u := bl_workflowUUID e);
        [done|congruence])) as Hle. cbn in Hle.
      rewrite Hs, decide_True, length_app in Hle by done. unfold full in Hf. rewrite Hxu in Hf.
      rewrite Hf in Hle. cbn in Hle. lia.
    + intros e' He'. unfold full. rewrite Hs, length_app. pose proof (Hfu _ He') as Hf.
      unfold full in Hf. rewrite Hf. case_decide as Hd; [|by rewrite Nat.add_0_r].
      pose proof (wk_buf _ Hok' ch _ ltac:(apply ok_inbox with (u := bl_workflowUUID e);
        [done|congruence])) as Hle. cbn in Hle.
      rewrite Hs, decide_True, length_app in Hle by done. rewrite <- Hd, Hf in Hle.
      cbn in Hle. lia.
    + intros e' He'. rewrite <- (assoc_L app) in He'.
      apply elem_of_app in He' as [He'|He']; [|apply elem_of_app in He' as [->%list_elem_of_singleton|He']];
        [|split_and!; [set_solver|done..]|];
        (destruct (Hlive e') as (? & ? & ?); [set_solver|split_and!; [set_solver|done..]]).
    + by apply Hdr'.
  - destruct Hs as [-> Hf]. exists delivered. split; try done.
    + intros u Hu. rewrite fresh_of_snoc, (Hor u Hu), entries_of_snoc, <- (assoc_L app). do 2 f_equal.
      by repeat case_decide; naive_solver.
    + intros e' [He'| ->%list_elem_of_singleton]%elem_of_app; [by apply Hfu|done].
    + by apply sublist_app.
    + intros e' He'. rewrite (assoc_L app) in He'.
      apply elem_of_app in He' as [He'| ->%list_elem_of_singleton];
        [|split_and!; [set_solver|done..]].
      destruct (Hlive e' He') as (? & ? & ?). split_and!; [set_solver|done..].
    + by apply Hdr'.
Qed.

Lemma flush_loop_spec now ww0 l k : forall delivered remaining ww,
  flushed now ww0 k delivered remaining ww ->
  wp (flush_loop now remaining l) (fun remaining' ww' =>
    exists delivered', flushed now ww0 (k ++ l) delivered' remaining' ww') ww.
Proof.
  revert k. induction l as [|e l IH]; intros k delivered remaining ww Hf; cbn.
  - exists delivered. by rewrite app_nil_r.
  - apply wp_bind. eapply wp_mono; [by eapply flush_entry_spec|].
    intros remaining' ww' [delivered' Hf']. eapply wp_mono; [by eapply IH|].
    intros r w. by rewrite <- (assoc_L app).
Qed.

(** ** Properties *)

(** Flushing the backlog never panics on a well-formed state; it sends,
    per workflow and in order, a prefix of the entries that are not too old,
    keeps the rest in order, keeps an entry only while its workflow's channel
    is full, and counts exactly the entries that were too old as dropped. *)
Theorem flushBacklog_exact (now : Z) (ww : workflowWatchers) :
  watchers_ok ww -> in64 (dropped ww) ->
  wp (flushBacklog now) (fun _ ww' =>
    watchers_ok ww' /\ chans ww' = chans ww /\ sublist (backlog ww') (backlog ww) /\
    dropped ww' = wrap64 (dropped ww + expired_count now (backlog ww)) /\
    (forall e, e ∈ backlog ww' -> full (bl_workflowUUID e) ww') /\
    exists delivered,
      (forall u, inbox u ww' = inbox u ww ++ (bl_payload <$> entries_of u delivered)) /\
      (forall u, is_Some (chans ww !! u) ->
         fresh_of now u (backlog ww) = entries_of u delivered ++ entries_of u (backlog ww'))) ww.
Proof.
  intros Hok Hd. unfold flushBacklog. apply wp_bind, wp_gets, wp_bind.
  eapply wp_mono; [apply (flush_loop_spec now ww (backlog ww) [] [] []),
                     flush_start; [done|by rewrite wrap64_in]|].
  intros remaining ww' (delivered & [Hok' Hch Hin Hor Hfu Hsub Hlive Hbl Hdr]).
  apply wp_modify. split_and!; try done.
  - destruct Hok' as [Ho Hi Hb Hl]. split; cbn; try done.
    apply sublist_length in Hsub. pose proof (wk_backlog _ Hok). cbn in Hsub. lia.
  - by exists delivered.
Qed.

(** [dispatch] run without interruption hands the event to its workflow:
    last in the inbox, or last in the backlog when the inbox is full, or
    counted as dropped when the backlog is full as well. *)
Theorem dispatch_exact (now : Z) (u : string) (p : TaskPayload) (ww : workflowWatchers) :
  watchers_ok ww ->
  wp (dispatch now u p) (fun _ ww' =>
    watchers_ok ww' /\
    match chans ww !! u with
    | None => ww' = ww
    | Some _ =>
        if (length (inbox u ww) <? workflowEventChanBuf)%nat then
          backlog ww' = backlog ww /\ dropped ww' = dropped ww /\
          forall v, inbox v ww' = inbox v ww ++ (if decide (v = u) then [p] else [])
        else
          (forall v, inbox v ww' = inbox v ww) /\
          if (length (backlog ww) <? maxBacklogSize)%nat then
            backlog ww' = backlog ww ++ [MkBacklog u p now] /\ dropped ww' = dropped ww
          else backlog ww' = backlog ww /\ dropped ww' = wrap64 (dropped ww + 1)
    end) ww.
Proof.
  intros Hok. unfold dispatch. apply wp_bind, wp_gets. unfold dispatch_lookup.
  destruct (chans ww !! u) as [ch|] eqn:Hu; [|by apply wp_ret].
  unfold dispatch_send. apply wp_bind.
  eapply wp_mono; [by apply try_send_spec with (u := u)|].
  intros sent ww' (Hok' & Hch & Hbl & Hd & Hs). destruct sent.
  - apply wp_ret. split; [done|]. assert (length (inbox u ww) < workflowEventChanBuf)%nat as Hlt.
    { assert (Hc : chans ww' !! u = Some ch) by congruence.
      pose proof (wk_buf _ Hok' _ _ (ok_inbox _ _ _ Hok' Hc)) as Hle. cbn in Hle.
      rewrite Hs, decide_True, length_app in Hle by done. cbn in Hle. lia. }
    apply Nat.ltb_lt in Hlt. by rewrite Hlt.
  - destruct Hs as [-> Hf]. unfold full in Hf. apply wp_modify.
    assert ((length (inbox u ww) <? workflowEventChanBuf)%nat = false) as ->.
    { apply Nat.ltb_ge. lia. }
    destruct (length (backlog ww) <? maxBacklogSize)%nat eqn:E; (split; [|done]).
    + apply Nat.ltb_lt in E. destruct Hok as [Ho Hi Hb Hl]. split; cbn; try done.
      rewrite length_app. cbn. lia.
    + by destruct Hok.
Qed.

(** Between the lookup and the send of [dispatch] the workflow's goroutine
    may unregister: the send then panics, whatever the state, whenever the
    workflow was registered. *)
Theorem dispatch_races_unregister (now : Z) (u : string) (p : TaskPayload) (ch : nat)
    (ww : workflowWatchers) :
  watchers_ok ww -> dispatch_lookup u ww = Some ch ->
  dispatch_send now u p ch (unregister u ww) = Panic.
Proof.
  intros Hok Hu. pose proof (ok_inbox _ _ _ Hok Hu) as Hc. unfold dispatch_lookup in Hu.
  unfold dispatch_send, unregister. rewrite Hu. unfold mbind, M_bind, try_send. cbn.
  by rewrite list_lookup_alter_eq, Hc.
Qed.

(** When a workflow is registered again before the goroutine of its
    previous run unregisters (a retry right after a cancellation), that
    goroutine closes the channel of the new run: its receiver finds the end of
    the channel, and events of the workflow go nowhere. *)
Theorem stale_unregister (now : Z) (u : string) (p : TaskPayload) (ww : workflowWatchers) :
  let '(old, ww1) := register u ww in
  let '(new, ww2) := register u ww1 in
  let ww3 := unregister u ww2 in
  old <> new /\ (receive new ww3).1 = Some None /\ dispatch now u p ww3 = Ret (tt, ww3).
Proof.
  cbn. rewrite length_app. cbn. unfold unregister. cbn. rewrite lookup_insert_eq. cbn.
  split_and!.
  - lia.
  - unfold receive. cbn. rewrite list_lookup_alter_eq, lookup_app_r by (rewrite length_app; cbn; lia).
    rewrite length_app. cbn. by rewrite Nat.sub_diag.
  - unfold dispatch, dispatch_lookup, mbind, M_bind, gets. cbn. by rewrite lookup_delete_eq.
Qed.

(** ** Witnesses *)

Definition one_watcher : workflowWatchers :=
  (register "wf" newWorkflowWatchers).2
    <| backlog := [MkBacklog "wf" zero_payload 0; MkBacklog "old" zero_payload (-1)] |>.

Lemma one_watcher_ok : watchers_ok one_watcher.
Proof.
  destruct (register_ok "wf" _ new_ok) as [Ho Hi Hb Hl]. split; [done..|].
  cbn. unfold maxBacklogSize. lia.
Qed.

Lemma flushBacklog_exact_witness :
  wp (flushBacklog maxAge) (fun _ ww' => dropped ww' = 1) one_watcher.
Proof.
  eapply wp_mono.
  - apply (flushBacklog_exact maxAge one_watcher); [apply one_watcher_ok|].
    vm_compute. split; discriminate.
  - intros _ ww' (_ & _ & _ & -> & _). reflexivity.
Defined.

Lemma dispatch_exact_witness :
  wp (dispatch 5 "wf" zero_payload) (fun _ ww' => inbox "wf" ww' = [zero_payload]) one_watcher.
Proof.
  eapply wp_mono; [apply (dispatch_exact 5 "wf" zero_payload one_watcher), one_watcher_ok|].
  intros _ ww' [_ H]. destruct H as (_ & _ & H). rewrite H. reflexivity.
Defined.

Lemma dispatch_races_unregister_witness :
  dispatch_send 5 "wf" zero_payload 0%nat (unregister "wf" one_watcher) = Panic.
Proof. apply dispatch_races_unregister; [apply one_watcher_ok|reflexivity]. Defined.
