(* ===== verification/Listeners.v ===== *)
(** * Task listeners (infra/engine/scheduler/scheduler.go)

    A goroutine of the parallel executor waits for the events of its task on a
    channel of one slot that it makes itself and registers under the
    workflow's UUID and the task's name.  Channels are objects: registering a
    name again replaces the channel under that name, and the first goroutine
    keeps waiting on its own. *)
From Stdlib Require Import ZArith Lia.
From stdpp Require Import base gmap strings list.
From S2P Require Import Prelude GoVal Model Payload.
Set Warnings "-register-all,-clear-no-such-hyp,-level-tolerance".
Local Open Scope nat_scope.
Local Open Scope list_scope.

(** A channel of capacity one. *)
Record taskChan := MkTaskChan { slot : option TaskPayload; tc_closed : bool }.

(** [tl_map] is [Scheduler.taskListeners] with the [chans] of each workflow;
    [tl_heap] holds the channels made so far. *)
Record Listeners := MkListeners {
  tl_map : gmap string (gmap string nat);
  tl_heap : list taskChan }.

#[export] Instance eta_taskChan : Eta taskChan := fun c => MkTaskChan (slot c) (tc_closed c).
#[export] Instance eta_Listeners : Eta Listeners := fun l => MkListeners (tl_map l) (tl_heap l).

Definition noListeners : Listeners := MkListeners ∅ [].

(** ** Operations *)

Definition newWorkflowListeners : gmap string nat := ∅.

(** [make(chan *store.TaskPayload, 1)] of the caller. *)
Definition make_chan (tl : Listeners) : nat * Listeners :=
  (length (tl_heap tl), tl <| tl_heap ::= fun h => h ++ [MkTaskChan None false] |>).

Definition getOrCreateListeners (workflowUUID : string) (tl : Listeners) : gmap string nat :=
  default newWorkflowListeners (tl_map tl !! workflowUUID).

Definition registerTaskListener (workflowUUID taskName : string) (ch : nat) (tl : Listeners)
  : Listeners :=
  tl <| tl_map ::=
    <[workflowUUID := <[taskName := ch]> (getOrCreateListeners workflowUUID tl)]> |>.

(** [close(ch)]; closing twice panics. *)
Definition close_task_chan (ch : nat) : M Listeners unit := fun tl =>
  match tl_heap tl !! ch with
  | Some c =>
      if tc_closed c then Panic
      else Ret (tt, tl <| tl_heap ::= <[ch := c <| tc_closed := true |>]> |>)
  | None => Panic
  end.

Definition lookup_listener (workflowUUID taskName : string) (tl : Listeners) : option nat :=
  tl_map tl !! workflowUUID ≫= fun m => m !! taskName.

(** The entry goes, and the workflow's map when it was the last one. *)
Definition drop_listener (workflowUUID taskName : string) (tl : Listeners) : Listeners :=
  match tl_map tl !! workflowUUID with
  | None => tl
  | Some m =>
      let m := delete taskName m in
      tl <| tl_map ::= fun tm =>
        if decide (m = ∅) then delete workflowUUID tm else <[workflowUUID := m]> tm |>
  end.

Definition unregisterTaskListener (workflowUUID taskName : string) : M Listeners unit :=
  ch ← gets (lookup_listener workflowUUID taskName);
  modify (drop_listener workflowUUID taskName);;
  match ch with Some ch => close_task_chan ch | None => mret tt end.

(** A non-blocking send; it panics on a closed channel. *)
Definition listener_send (ch : nat) (payload : TaskPayload) : M Listeners bool := fun tl =>
  match tl_heap tl !! ch with
  | Some c =>
      if tc_closed c then Panic
      else match slot c with
           | None => Ret (true, tl <| tl_heap ::= <[ch := c <| slot := Some payload |>]> |>)
           | Some _ => Ret (false, tl)
           end
  | None => Ret (false, tl)
  end.

(** The locks are released between the lookup and the send. *)
Definition notifyTaskListener (workflowUUID taskName : string) (payload : TaskPayload)
  : M Listeners bool :=
  ch ← gets (lookup_listener workflowUUID taskName);
  match ch with
  | None => mret false
  | Some ch => listener_send ch payload
  end.

Definition cleanupTaskListeners (workflowUUID : string) : M Listeners unit :=
  m ← gets (getOrCreateListeners workflowUUID);
  modify (fun tl => tl <| tl_map ::= delete workflowUUID |>);;
  for_each (fun kv => close_task_chan kv.2) (map_to_list m).

(** What a receive would yield now: [None] when it would wait, [Some None]
    when the channel is closed and empty. *)
Definition readable (ch : nat) (tl : Listeners) : option (option TaskPayload) :=
  match tl_heap tl !! ch with
  | Some c =>
      match slot c with
      | Some p => Some (Some p)
      | None => if tc_closed c then Some None else None
      end
  | None => None
  end.

(** Taking the payload out of the slot. *)
Definition take_payload (ch : nat) (tl : Listeners) : Listeners :=
  tl <| tl_heap ::= alter (fun c => c <| slot := None |>) ch |>.

(** ** Executions *)

(** What the goroutines of the scheduler do: make and register a channel, and
    the other operations. *)
Inductive tl_op : Type :=
| OpListen (workflowUUID taskName : string)
| OpUnregister (workflowUUID taskName : string)
| OpNotify (workflowUUID taskName : string) (payload : TaskPayload)
| OpCleanup (workflowUUID : string)
| OpReceive (ch : nat).

Definition listen (workflowUUID taskName : string) : M Listeners nat := fun tl =>
  let '(ch, tl) := make_chan tl in
  Ret (ch, registerTaskListener workflowUUID taskName ch tl).

Definition tl_step (o : tl_op) : M Listeners unit :=
  match o with
  | OpListen u t => listen u t;; mret tt
  | OpUnregister u t => unregisterTaskListener u t
  | OpNotify u t p => notifyTaskListener u t p;; mret tt
  | OpCleanup u => cleanupTaskListeners u
  | OpReceive ch => modify (take_payload ch)
  end.

(** ** Well-formed listeners: every registered channel is open and registered
    once *)

Record listeners_ok (tl : Listeners) : Prop := {
  lk_open u t ch : lookup_listener u t tl = Some ch ->
    exists c, tl_heap tl !! ch = Some c /\ tc_closed c = false;
  lk_inj u t v s ch : lookup_listener u t tl = Some ch -> lookup_listener v s tl = Some ch ->
    u = v /\ t = s }.

(** ** Lemmas *)

Lemma lookup_register u t ch tl v s :
  lookup_listener v s (registerTaskListener u t ch tl) =
  if decide (v = u /\ s = t) then Some ch else lookup_listener v s tl.
Proof.
  unfold lookup_listener, registerTaskListener, getOrCreateListeners. upd_simpl.
  destruct (decide (v = u)) as [->|Hv].
  - rewrite lookup_insert_eq. cbn. destruct (decide (s = t)) as [->|Hs].
    + rewrite lookup_insert_eq. by rewrite decide_True.
    + rewrite lookup_insert_ne by done. rewrite decide_False by naive_solver.
      by destruct (tl_map tl !! u).
  - rewrite lookup_insert_ne by done. by rewrite decide_False by naive_solver.
Qed.

Lemma lookup_drop u t tl v s :
  lookup_listener v s (drop_listener u t tl) =
  if decide (v = u /\ s = t) then None else lookup_listener v s tl.
Proof.
  unfold lookup_listener, drop_listener. destruct (tl_map tl !! u) as [m|] eqn:Hm; cbn.
  - destruct (decide (v = u)) as [->|Hv].
    + rewrite Hm. cbn. case_decide as He.
      * rewrite lookup_delete_eq. cbn. case_decide; [done|].
        assert (Hs : delete t m !! s = None) by (by rewrite He).
        rewrite lookup_delete_ne in Hs; [done|naive_solver].
      * rewrite lookup_insert_eq. cbn. destruct (decide (s = t)) as [->|Hs].
        -- rewrite lookup_delete_eq. by rewrite decide_True.
        -- rewrite lookup_delete_ne by done. by rewrite decide_False by naive_solver.
    + rewrite (decide_False (P := v = u /\ _)) by naive_solver. case_decide.
      * by rewrite lookup_delete_ne.
      * by rewrite lookup_insert_ne.
  - case_decide as H; [|done]. destruct H as [-> ->]. by rewrite Hm.
Qed.

(** Closing a channel, of a state whose registered channels are others. *)
Lemma wp_close ch c tl (Q : unit -> Listeners -> Prop) :
  tl_heap tl !! ch = Some c -> tc_closed c = false ->
  Q tt (tl <| tl_heap ::= <[ch := c <| tc_closed := true |>]> |>) -> wp (close_task_chan ch) Q tl.
Proof. intros Hc Ho HQ. unfold wp, close_task_chan. by rewrite Hc, Ho. Qed.

(** [listeners_ok] of every state with a part of the map, and a heap in which
    that part is open. *)
Lemma listeners_ok_sub tl tl' :
  listeners_ok tl ->
  (forall u t ch, lookup_listener u t tl' = Some ch -> lookup_listener u t tl = Some ch /\
     option_map tc_closed (tl_heap tl' !! ch) = option_map tc_closed (tl_heap tl !! ch)) ->
  listeners_ok tl'.
Proof.
  intros [Ho Hi] Hsub. split.
  - intros u t ch Hch. destruct (Hsub _ _ _ Hch) as [Hch' Hc].
    destruct (Ho _ _ _ Hch') as (c & Hh & Hf). rewrite Hh in Hc. cbn in Hc.
    destruct (tl_heap tl' !! ch) as [c'|]; [|done]. exists c'. split; [done|].
    injection Hc as ->. done.
  - intros u t v s ch H1 H2. apply (Hi u t v s ch); [apply Hsub, H1|apply Hsub, H2].
Qed.

Lemma lookup_heap_same tl h u t : lookup_listener u t (tl <| tl_heap := h |>) = lookup_listener u t tl.
Proof. done. Qed.

(** Closing a list of open, distinct channels. *)
Lemma wp_close_all (l : list (string * nat)) : forall tl,
  NoDup l.*2 ->
  (forall kv, kv ∈ l -> exists c, tl_heap tl !! kv.2 = Some c /\ tc_closed c = false) ->
  wp (for_each (fun kv => close_task_chan kv.2) l)
     (fun _ tl' => tl_map tl' = tl_map tl /\
        forall ch, tl_heap tl' !! ch =
          if decide (ch ∈ l.*2) then (fun c => c <| tc_closed := true |>) <$> tl_heap tl !! ch
          else tl_heap tl !! ch) tl.
Proof.
  induction l as [|[k ch] l IH]; intros tl Hnd Hopen; [done|]. cbn.
  cbn in Hnd. apply NoDup_cons in Hnd as [Hn Hnd].
  destruct (Hopen (k, ch)) as (c & Hc & Hf); [by left|]. cbn in Hc.
  apply wp_bind. eapply wp_close; [exact Hc|exact Hf|].
  eapply wp_mono; [apply IH; [done|]|].
  - intros kv Hkv. destruct (Hopen kv) as (c' & Hc' & Hf'); [by right|]. exists c'. split; [|done].
    upd_simpl. rewrite list_lookup_insert_ne; [done|]. intros ->. by apply Hn, list_elem_of_fmap_2.
  - intros [] tl' [Hm Hh]. split; [done|]. intros x. rewrite Hh. upd_simpl.
    destruct (decide (x = ch)) as [->|Hx].
    + rewrite (decide_False (P := ch ∈ l.*2)), (decide_True (P := ch ∈ ch :: l.*2)) by set_solver.
      rewrite list_lookup_insert_eq by by eapply lookup_lt_Some. by rewrite Hc.
    + rewrite list_lookup_insert_ne by done.
      destruct (decide (x ∈ l.*2)); [rewrite decide_True by set_solver|rewrite decide_False by set_solver]; done.
Qed.

(** A channel that nobody can send to or close any more, and that is still
    empty. *)
Definition orphan (ch : nat) (tl : Listeners) : Prop :=
  tl_heap tl !! ch = Some (MkTaskChan None false) /\
  forall u t, lookup_listener u t tl <> Some ch.

Lemma listen_ok u t ch0 tl : listeners_ok tl -> wp (listen u t) (fun ch tl' =>
  listeners_ok tl' /\ lookup_listener u t tl' = Some ch /\ readable ch tl' = None /\
  (tl_heap tl !! ch0 = Some (MkTaskChan None false) ->
   (forall v s, (v, s) <> (u, t) -> lookup_listener v s tl <> Some ch0) -> orphan ch0 tl')) tl.
Proof.
  intros [Ho Hi]. unfold wp, listen, make_chan. cbn.
  set (tl1 := registerTaskListener _ _ _ _).
  assert (Hh : tl_heap tl1 = tl_heap tl ++ [MkTaskChan None false]) by done.
  assert (Hl : forall v s, lookup_listener v s tl1 =
    if decide (v = u /\ s = t) then Some (length (tl_heap tl)) else lookup_listener v s tl)
    by (intros; unfold tl1; by rewrite lookup_register).
  assert (Hlt : forall v s ch, lookup_listener v s tl = Some ch -> ch < length (tl_heap tl)).
  { intros v s ch Hch. destruct (Ho _ _ _ Hch) as (c & Hc & _). by eapply lookup_lt_Some. }
  clearbody tl1. split_and!; [split| | |].
  - intros v s ch. rewrite Hl, Hh. case_decide.
    + intros [= <-]. exists (MkTaskChan None false). split; [|done].
      by rewrite lookup_app_r, Nat.sub_diag by lia.
    + intros Hch. destruct (Ho _ _ _ Hch) as (c & Hc & Hf). exists c. split; [|done].
      by apply lookup_app_l_Some.
  - intros v s v' s' ch. rewrite !Hl. repeat case_decide; intros H1 H2.
    + naive_solver.
    + injection H1 as <-. apply Hlt in H2. lia.
    + injection H2 as <-. apply Hlt in H1. lia.
    + by apply (Hi v s v' s' ch).
  - rewrite Hl. by rewrite decide_True.
  - unfold readable. by rewrite Hh, lookup_app_r, Nat.sub_diag by lia.
  - intros Hs Hn. pose proof (lookup_lt_Some _ _ _ Hs) as Hlt'. split.
    + rewrite Hh. by apply lookup_app_l_Some.
    + intros v s. rewrite Hl. case_decide as Hd; [intros [= <-]; lia|].
      apply Hn. naive_solver.
Qed.

Lemma tl_unregister_ok u t ch0 tl : listeners_ok tl -> wp (unregisterTaskListener u t) (fun _ tl' =>
  listeners_ok tl' /\ lookup_listener u t tl' = None /\ (orphan ch0 tl -> orphan ch0 tl')) tl.
Proof.
  intros [Ho Hi]. unfold unregisterTaskListener. apply wp_bind, wp_gets, wp_bind, wp_modify.
  assert (Hh : tl_heap (drop_listener u t tl) = tl_heap tl)
    by (unfold drop_listener; case_match; done).
  destruct (lookup_listener u t tl) as [ch|] eqn:Hch.
  - destruct (Ho _ _ _ Hch) as (c & Hc & Hf).
    eapply wp_close; [by rewrite Hh|done|].
    set (tl' := drop_listener u t tl <| tl_heap ::= _ |>).
    assert (Hl : forall v s, lookup_listener v s tl' =
      if decide (v = u /\ s = t) then None else lookup_listener v s tl) by (intros; apply lookup_drop).
    assert (Hh' : tl_heap tl' = <[ch := c <| tc_closed := true |>]> (tl_heap tl))
      by (unfold tl'; upd_simpl; by rewrite Hh).
    clearbody tl'. split_and!.
    + apply (listeners_ok_sub tl); [done|]. intros v s x. rewrite Hl. case_decide; [done|].
      intros Hx. split; [done|]. rewrite Hh', list_lookup_insert_ne; [done|].
      intros <-. apply H. eapply Hi; [exact Hx|exact Hch].
    + rewrite Hl. by rewrite decide_True.
    + intros [Hs Hn]. split.
      * rewrite Hh', list_lookup_insert_ne; [done|]. intros <-. by apply (Hn u t).
      * intros v s. rewrite Hl. case_decide; [done|apply Hn].
  - apply wp_ret. split_and!.
    + apply (listeners_ok_sub tl); [done|]. intros v s x. rewrite lookup_drop, Hh.
      by case_decide.
    + rewrite lookup_drop. by rewrite decide_True.
    + intros [Hs Hn]. split; [by rewrite Hh|]. intros v s. rewrite lookup_drop.
      case_decide; [done|apply Hn].
Qed.

Lemma notify_ok u t p ch0 tl : listeners_ok tl -> wp (notifyTaskListener u t p) (fun sent tl' =>
  listeners_ok tl' /\ tl_map tl' = tl_map tl /\
  sent = bool_decide (is_Some (lookup_listener u t tl ≫= fun ch =>
           if readable ch tl is Some _ then None else Some ch)) /\
  (forall ch, readable ch tl' = if decide (sent = true /\ lookup_listener u t tl = Some ch)
                                then Some (Some p) else readable ch tl) /\
  (orphan ch0 tl -> orphan ch0 tl')) tl.
Proof.
  intros [Ho Hi]. unfold notifyTaskListener. apply wp_bind, wp_gets.
  destruct (lookup_listener u t tl) as [ch|] eqn:Hch; cbn.
  2:{ by apply wp_ret. }
  destruct (Ho _ _ _ Hch) as (c & Hc & Hf).
  assert (Hr : readable ch tl = match slot c with Some q => Some (Some q) | None => None end)
    by (unfold readable; rewrite Hc, Hf; done).
  assert (Hsend : listener_send ch p tl = match slot c with
    | None => Ret (true, tl <| tl_heap ::= <[ch := c <| slot := Some p |>]> |>)
    | Some _ => Ret (false, tl) end) by (unfold listener_send; rewrite Hc, Hf; done).
  unfold wp. rewrite Hsend, Hr. clear Hsend.
  destruct (slot c) as [q|] eqn:Hs.
  { by split_and!. }
  set (tl' := tl <| tl_heap ::= _ |>).
  assert (Hh' : tl_heap tl' = <[ch := c <| slot := Some p |>]> (tl_heap tl)) by done.
  assert (Hl : forall v s, lookup_listener v s tl' = lookup_listener v s tl) by done.
  assert (Hm : tl_map tl' = tl_map tl) by done.
  clearbody tl'. pose proof (lookup_lt_Some _ _ _ Hc) as Hlt. split_and!; [|done|done| |].
  - apply (listeners_ok_sub tl); [done|]. intros v s x. rewrite Hl. intros Hx. split; [done|].
    rewrite Hh'. destruct (decide (x = ch)) as [->|Hx'].
    + rewrite list_lookup_insert_eq, Hc by done. done.
    + by rewrite list_lookup_insert_ne.
  - intros x. unfold readable. rewrite Hh'. case_decide as Hd.
    + destruct Hd as [_ [= ->]]. by rewrite list_lookup_insert_eq.
    + rewrite list_lookup_insert_ne; [done|]. naive_solver.
  - intros [Hs' Hn]. split.
    + rewrite Hh', list_lookup_insert_ne; [done|]. intros <-. by apply (Hn u t).
    + intros v s. rewrite Hl. apply Hn.
Qed.

Lemma cleanup_ok u ch0 tl : listeners_ok tl -> wp (cleanupTaskListeners u) (fun _ tl' =>
  listeners_ok tl' /\ (forall t, lookup_listener u t tl' = None) /\
  (forall t ch, lookup_listener u t tl = Some ch -> readable ch tl' =
     match readable ch tl with Some r => Some r | None => Some None end) /\
  (orphan ch0 tl -> orphan ch0 tl')) tl.
Proof.
  intros [Ho Hi]. unfold cleanupTaskListeners. apply wp_bind, wp_gets, wp_bind, wp_modify.
  set (m := getOrCreateListeners u tl).
  assert (Hm : forall t, m !! t = lookup_listener u t tl).
  { intros t. unfold m, getOrCreateListeners, lookup_listener. by destruct (tl_map tl !! u). }
  clearbody m.
  assert (Hin : forall x, x ∈ (map_to_list m).*2 <-> exists t, lookup_listener u t tl = Some x).
  { intros x. rewrite list_elem_of_fmap. split.
    - intros ([t y] & -> & Hy%elem_of_map_to_list). exists t. cbn. by rewrite <- Hm.
    - intros (t & Ht). exists (t, x). split; [done|]. by rewrite elem_of_map_to_list, Hm. }
  eapply wp_mono; [apply wp_close_all|].
  - apply NoDup_fmap_2_strong; [|apply NoDup_map_to_list].
    intros [k x] [k' x'] Hk%elem_of_map_to_list Hk'%elem_of_map_to_list Hx. cbn in Hx. subst x'.
    rewrite Hm in Hk, Hk'. by destruct (Hi _ _ _ _ _ Hk Hk') as [_ ->].
  - intros [k x] Hk%elem_of_map_to_list. rewrite Hm in Hk. exact (Ho _ _ _ Hk).
  - intros [] tl' [Hmap Hheap]. cbn in Hheap. upd_simpl.
    assert (Hl : forall v s, lookup_listener v s tl' =
      if decide (v = u) then None else lookup_listener v s tl).
    { intros v s. unfold lookup_listener. rewrite Hmap. case_decide as Hv.
      - subst. by rewrite lookup_delete_eq.
      - by rewrite lookup_delete_ne. }
    clear Hmap. split_and!.
    + apply (listeners_ok_sub tl); [done|]. intros v s x. rewrite Hl. case_decide; [done|].
      intros Hx. split; [done|]. rewrite Hheap, decide_False; [done|]. rewrite Hin.
      intros (t & Ht). by destruct (Hi _ _ _ _ _ Hx Ht).
    + intros t. rewrite Hl. by rewrite decide_True.
    + intros t ch Ht. unfold readable. rewrite Hheap, decide_True by (apply Hin; by exists t).
      destruct (Ho _ _ _ Ht) as (c & Hc & Hf). rewrite Hc. cbn.
      rewrite Hf. by destruct (slot c).
    + intros [Hs Hn]. split.
      * rewrite Hheap, decide_False; [done|]. rewrite Hin. intros (t & Ht). by apply (Hn u t).
      * intros v s. rewrite Hl. case_decide; [done|apply Hn].
Qed.

Lemma take_ok ch ch0 tl : listeners_ok tl ->
  listeners_ok (take_payload ch tl) /\ (orphan ch0 tl -> orphan ch0 (take_payload ch tl)).
Proof.
  intros Hok. assert (Hh : forall x, tl_heap (take_payload ch tl) !! x =
    (if decide (x = ch) then fmap (fun c => c <| slot := None |>) else id) (tl_heap tl !! x)).
  { intros x. unfold take_payload. upd_simpl. destruct (decide (x = ch)) as [->|Hx].
    - apply list_lookup_alter_eq.
    - by apply list_lookup_alter_ne. }
  split.
  - apply (listeners_ok_sub tl); [done|]. intros v s x Hx. split; [exact Hx|]. rewrite Hh.
    case_decide; [|done]. by destruct (tl_heap tl !! x).
  - intros [Hs Hn]. split; [|exact Hn]. rewrite Hh, Hs. by case_decide.
Qed.


Lemma tl_step_ok (o : tl_op) ch0 tl : listeners_ok tl -> wp (tl_step o) (fun _ tl' =>
  listeners_ok tl' /\ (orphan ch0 tl -> orphan ch0 tl')) tl.
Proof.
  intros Hok. destruct o as [u t|u t|u t p|u|ch]; cbn [tl_step].
  - apply wp_bind. eapply wp_mono; [by apply (listen_ok u t ch0)|].
    intros ch tl' (Hok' & _ & _ & Hn). split; [done|]. intros [Hs Ho]. by apply Hn.
  - eapply wp_mono; [by apply (tl_unregister_ok u t ch0)|]. naive_solver.
  - apply wp_bind. eapply wp_mono; [by apply (notify_ok u t p ch0)|].
    intros b tl' (? & _ & _ & _ & ?). done.
  - eapply wp_mono; [by apply (cleanup_ok u ch0)|]. naive_solver.
  - by apply wp_modify, take_ok.
Qed.

Lemma tl_run_ok (ops : list tl_op) ch0 tl : listeners_ok tl ->
  wp (for_each tl_step ops) (fun _ tl' =>
    listeners_ok tl' /\ (orphan ch0 tl -> orphan ch0 tl')) tl.
Proof.
  intros Hok. apply (wp_for_each (fun tl' => listeners_ok tl' /\ (orphan ch0 tl -> orphan ch0 tl')));
    [|done].
  intros o tl1 _ [Hok1 Ho1]. eapply wp_mono; [by apply (tl_step_ok o ch0)|].
  intros [] tl2 [? ?]. auto.
Qed.

Lemma noListeners_ok : listeners_ok noListeners.
Proof. split; unfold lookup_listener, noListeners; cbn; intros *; by rewrite lookup_empty. Qed.

(** ** Properties *)

(** C19: no sequence of registrations, deregistrations, notifications, cleanups
    and receives panics (a channel is never closed twice, and nothing is sent
    on a closed one); and after it, a notification reaches the channel
    registered under its name, if its slot is free, and no other, and a
    cleanup ends every wait of its workflow. *)
Theorem listeners_exact (ops : list tl_op) (u t : string) (p : TaskPayload) :
  exists tl, for_each tl_step ops noListeners = Ret (tt, tl) /\ listeners_ok tl /\
  wp (notifyTaskListener u t p) (fun sent tl' =>
    forall ch, readable ch tl' =
      if decide (lookup_listener u t tl = Some ch /\ readable ch tl = None)
      then Some (Some p) else readable ch tl) tl /\
  wp (cleanupTaskListeners u) (fun _ tl' =>
    forall s ch, lookup_listener u s tl = Some ch -> readable ch tl' <> None) tl.
Proof.
  destruct (wp_run _ _ _ (tl_run_ok ops 0 _ noListeners_ok)) as ([] & tl & Hrun & Hok & _).
  exists tl. split_and!; [done|done| |].
  - eapply wp_mono; [by apply (notify_ok u t p 0)|]. intros sent tl' (_ & _ & Hsent & Hr & _) ch.
    rewrite Hr, Hsent. destruct (lookup_listener u t tl) as [x|]; cbn.
    2:{ rewrite !decide_False by naive_solver. done. }
    destruct (readable x tl) eqn:Hx; cbn; repeat case_decide; naive_solver.
  - eapply wp_mono; [by apply (cleanup_ok u 0)|]. intros _ tl' (_ & _ & Hc & _) s ch Hs.
    rewrite (Hc s ch) by done. by destruct (readable ch tl).
Qed.

(** A goroutine whose channel was replaced before its payload came, as
    happens to all but the last of the goroutines that wait for tasks of the
    same name, never receives anything and is never woken: its watchdog ends
    the wait. *)
Theorem replaced_listener_starves (u t : string) (ch : nat) (ops : list tl_op) (tl : Listeners) :
  listeners_ok tl -> lookup_listener u t tl = Some ch -> readable ch tl = None ->
  wp (for_each tl_step (OpListen u t :: ops)) (fun _ tl' => readable ch tl' = None) tl.
Proof.
  intros Hok Hch Hr. cbn. apply wp_bind, wp_bind.
  eapply wp_mono; [by apply (listen_ok u t ch)|].
  intros x tl1 (Hok1 & _ & _ & Ho). apply wp_ret.
  eapply wp_mono; [by apply (tl_run_ok ops ch)|]. intros _ tl2 [_ Ho2].
  destruct Ho2 as [Hs _].
  - apply Ho.
    + destruct (lk_open _ Hok _ _ _ Hch) as ([s c] & Hc & Hf). cbn in Hf. subst c.
      unfold readable in Hr. rewrite Hc in Hr. cbn in Hr. by destruct s.
    + intros v s Hne Hvs. apply Hne. by destruct (lk_inj _ Hok _ _ _ _ _ Hvs Hch) as [-> ->].
  - unfold readable. by rewrite Hs.
Qed.

Definition waiting_one : Listeners :=
  registerTaskListener "wf" "task" 0 (make_chan noListeners).2.

Lemma replaced_listener_starves_witness :
  (lookup_listener "wf" "task" waiting_one = Some 0 /\ readable 0 waiting_one = None) /\
  wp (for_each tl_step [OpListen "wf" "task"; OpNotify "wf" "task" zero_payload;
                        OpUnregister "wf" "task"]) (fun _ tl' => readable 0 tl' = None) waiting_one.
Proof.
  split; [split; reflexivity|].
  apply (replaced_listener_starves "wf" "task" 0); [|reflexivity..].
  destruct (wp_run _ _ _ (listen_ok "wf" "task" 0 _ noListeners_ok)) as (ch & tl & [= <- <-] & H & _).
  exact H.
Defined.

(** The lookup and the send of a notification are two steps; when the
    waiting goroutine gives up between them (its watchdog fired, its context
    was cancelled) it closes the channel, and the send panics. *)
Theorem notify_races_unregister (u t : string) (p : TaskPayload) (ch : nat) (tl : Listeners) :
  listeners_ok tl -> lookup_listener u t tl = Some ch ->
  wp (unregisterTaskListener u t) (fun _ tl' => listener_send ch p tl' = Panic) tl.
Proof.
  intros Hok Hch. unfold unregisterTaskListener. apply wp_bind, wp_gets, wp_bind, wp_modify.
  rewrite Hch. destruct (lk_open _ Hok _ _ _ Hch) as (c & Hc & Hf).
  assert (Hh : tl_heap (drop_listener u t tl) = tl_heap tl) by (unfold drop_listener; case_match; done).
  eapply wp_close; [by rewrite Hh|done|]. unfold listener_send. upd_simpl.
  rewrite Hh, list_lookup_insert_eq by by eapply lookup_lt_Some. done.
Qed.

Lemma notify_races_unregister_witness :
  lookup_listener "wf" "task" waiting_one = Some 0 /\
  wp (unregisterTaskListener "wf" "task")
    (fun _ tl' => listener_send 0 zero_payload tl' = Panic) waiting_one.
Proof.
  split; [reflexivity|]. apply (notify_races_unregister "wf" "task" zero_payload 0); [|reflexivity].
  destruct (wp_run _ _ _ (listen_ok "wf" "task" 0 _ noListeners_ok)) as (ch & tl & [= <- <-] & H & _).
  exact H.
Defined.
