(* ===== verification/World.v ===== *)
(** * The scheduler's shared state (infra/engine/scheduler: scheduler.go,
    workflow_manager.go, interfaces.go; infra/store/history.go)

    One record for what the scheduler's components share: the running entries
    and the history of the workflow manager, the dispatcher, the event
    triggers, the task listeners, and what the scheduler hands to the outside
    (store writes, MySQL jobs, broadcast events, goroutines it starts). *)
From Stdlib Require Import ZArith Lia.
From stdpp Require Import base gmap strings list.
From S2P Require Import Prelude GoVal Model Payload Dispatcher Watchers Listeners.
From S2P Require Import EventTriggers Circuit.
Set Warnings "-register-all,-clear-no-such-hyp,-level-tolerance".
Local Open Scope Z_scope.
Local Open Scope list_scope.

(** ** The code outside the repository

    Identifiers come from google/uuid, crypto/rand and OpenTelemetry: any
    functions of a counter. *)
Class Naming := {
  uuid_v4 : nat -> string;
  rand_hex : nat -> string;
  rand_u64 : nat -> option Z;
  trace_carrier : nat -> gmap string string }.

(** A [HistoryStore] (infra/store/history.go) by its answers: each method is a
    function of its arguments and of how many calls the store has had.  A row's
    data is the state it decodes to, [None] when it does not decode; the same
    for the text of a row's deltas. *)
Record ExecutionRecord := MkExecutionRecord {
  er_ExecutionID : Z; er_UUID : string; er_Name : string; er_Data : option WorkflowState }.

Record HistoryStore := MkHistoryStore {
  SaveWorkflowDef : nat -> Workflow -> res string Z;
  UpsertWorkflowDef : nat -> Workflow -> res string Z;
  CreateExecution : nat -> Z -> WorkflowState -> string -> Z -> res string Z;
  UpdateWorkflowStatus : nat -> Z -> string -> res string unit;
  UpdateExecution : nat -> Z -> WorkflowState -> string -> string -> res string unit;
  SaveTask : nat -> Z -> Z -> TaskPayload -> res string unit;
  SaveTaskDeltas : nat -> Z -> WorkflowSnapshot -> res string unit;
  LoadTaskDeltas : nat -> Z -> res string (option (list TaskDelta));
  BatchLoadTaskDeltas : nat -> list Z -> res string (gmap Z (option (list TaskDelta)));
  LoadExecutions : nat -> Z -> Z -> res string (list ExecutionRecord * Z);
  GetExecutionByUUID : nat -> string -> res string (option ExecutionRecord);
  LoadRunningExecutions : nat -> res string (list ExecutionRecord) }.

(** The calls that write, as the store sees them. *)
Inductive db_write : Type :=
| WSaveWorkflowDef (wf : Workflow)
| WUpsertWorkflowDef (wf : Workflow)
| WCreateExecution (workflowID : Z) (state : WorkflowState) (status : string) (startedAt : Z)
| WUpdateWorkflowStatus (workflowID : Z) (status : string)
| WUpdateExecution (execID : Z) (state : WorkflowState) (status errMsg : string)
| WSaveTask (execID workflowID : Z) (payload : TaskPayload)
| WSaveTaskDeltas (execID : Z) (snapshot : WorkflowSnapshot).

(** ** Components of the state *)

(** A running entry; [we_ctx] identifies the context its [cancel] cancels. *)
Record workflowEntry := MkEntry {
  we_state : WorkflowState; we_ctx : nat; recovered : bool }.

#[export] Instance eta_workflowEntry : Eta workflowEntry := fun e =>
  MkEntry (we_state e) (we_ctx e) (recovered e).

Record persistJob := MkJob {
  job_uuid : string; job_workflowID : Z; job_execID : Z; job_status : WorkflowStatus;
  job_errMsg : string; job_val : WorkflowState }.

(** The queue of the persistence pool holds 128 jobs; when it stays full for
    five seconds the job is given up. *)
Definition persistQueueSize : nat := 128.
#[global] Arguments persistQueueSize : simpl never.

Definition submit_job (job : persistJob) (jobs : list persistJob) : list persistJob :=
  if (length jobs <? persistQueueSize)%nat then jobs ++ [job] else jobs.

(** A message for the WebSocket bus, with the workflow it is about ("" for a
    broadcast to all). *)
Inductive event_data : Type :=
| DataWorkflow (wf : Workflow)
| DataUUID (uuid : string)
| DataMap (m : gmap string string)
| DataOutput (task : string) (output : vmap).

Record ws_event := MkEvent { ev_workflow : string; ev_type : string; ev_data : event_data }.

Inductive goroutine : Type :=
| GAsyncInitMySQL (wf : Workflow) (startedAt : Z)
| GTimeoutAfter (ctx : nat) (uuid : string) (timeout : Z)
| GWatchWorkflowStatus (ctx : nat) (uuid : string)
| GExecuteWorkflow (ctx : nat) (uuid : string) (upstream : list vmap) (startGroupIdx : Z)
| GRetryTask (ctx : nat) (payload : TaskPayload) (backoffSec : Z)
| GSubmitTarget (uuid : string)
| GDelayedGroups (ctx : nat) (uuid : string) (groups : list (list TaskNode)) (upstream : list vmap)
    (groupIdx delaySec : Z)
| GSubWorkflow (ctx : nat) (parent : string) (node : TaskNode) (subWf : Workflow)
    (upstream : list vmap)
| GRollbackTasks (uuid : string) (tasks : list (TaskNode * vmap))
| GSaveTaskDeltas (execID : Z) (snapshot : WorkflowSnapshot)
| GSaveTask (execID workflowID : Z) (payload : TaskPayload).

(** The scheduler's configuration, and the prefix of the task keys. *)
Record SchedConf := MkSchedConf {
  disp_config : DispConfig;
  MaxHistoryCache : Z;
  tasks_prefix : string }.

(** [wm_locked]: some call has returned with the manager's lock [wm.mu] held.
    [rollback_sem] is the rollback semaphore; [etcd] the task keys and
    [faults] the coming answers of the store; [jobs], [events] and [spawned]
    what was handed to the persistence pool, broadcast and started. *)
Record World := MkWorld {
  wm_locked : bool;
  runningEntries : gmap string workflowEntry;
  workflowHistory : gmap Z WorkflowState;
  workflowHistoryByUUID : gmap string (list Z);
  historyOrder : list Z;
  registeredWorkflows : gmap string Workflow;
  completedCount : Z;
  failedCount : Z;
  w_td : TaskDispatcher;
  eventTriggerMgr : eventTriggerManager;
  wfWatchers : workflowWatchers;
  rollback_sem : rollbackSemaphore;
  taskListeners : Listeners;
  snapshotLastTime : gmap string Z;
  mysqlBreaker : Breaker;
  cancelled : gset nat;
  nextCtx : nat;
  cronJobs : list (string * Workflow);
  w_conf : SchedConf;
  historyStore : option HistoryStore;
  dbCalls : nat;
  dbLog : list db_write;
  etcd : gmap string TaskPayload;
  faults : list bool;
  now : Z;
  counter : nat;
  jobs : list persistJob;
  events : list ws_event;
  spawned : list goroutine }.

#[export] Instance eta_World : Eta World := fun w =>
  MkWorld (wm_locked w) (runningEntries w) (workflowHistory w) (workflowHistoryByUUID w)
    (historyOrder w) (registeredWorkflows w) (completedCount w) (failedCount w) (w_td w)
    (eventTriggerMgr w) (wfWatchers w) (rollback_sem w) (taskListeners w) (snapshotLastTime w)
    (mysqlBreaker w) (cancelled w) (nextCtx w) (cronJobs w) (w_conf w) (historyStore w)
    (dbCalls w) (dbLog w) (etcd w) (faults w) (now w) (counter w) (jobs w) (events w)
    (spawned w).

(** [NewScheduler] before it loads history and recovers runs. *)
Definition mysqlBreakerMaxFailures : Z := 5.
Definition mysqlBreakerCooldown : Z := 30 * Second.

Definition NewScheduler (hs : option HistoryStore) (conf : SchedConf) (now : Z) : World :=
  MkWorld false ∅ ∅ ∅ [] ∅ 0 0 NewTaskDispatcher newEventTriggerManager newWorkflowWatchers
    (newRollbackSemaphore maxRollbackConcurrency) noListeners ∅
    (NewBreaker "mysql-persist" mysqlBreakerMaxFailures mysqlBreakerCooldown now) ∅ 1 [] conf hs
    0 [] ∅ [] now 0 [] [] [].

(** ** Elementary effects *)

Definition emit (wf typ : string) (d : event_data) : M World unit :=
  modify (fun w => w <| events ::= fun l => l ++ [MkEvent wf typ d] |>).

Definition spawn (g : goroutine) : M World unit :=
  modify (fun w => w <| spawned ::= fun l => l ++ [g] |>).

Definition fresh_id : M World nat := fun w =>
  Ret (counter w, w <| counter ::= S |>).

(** Whether the next call to the store succeeds; with no answer left, it does. *)
Definition store_answer : M World bool := fun w =>
  match faults w with
  | [] => Ret (true, w)
  | ok :: l => Ret (ok, w <| faults := l |>)
  end.

Section naming.
Context `{Naming}.

Definition new_trace_id : M World string := n ← fresh_id; mret (uuid_v4 n).
Definition rand_hex4 : M World string := n ← fresh_id; mret (rand_hex n).
Definition inject_trace : M World (gmap string string) := n ← fresh_id; mret (trace_carrier n).

End naming.

(** A write to etcd, and a batch of writes in one transaction. *)
Definition etcd_put (key : string) (p : TaskPayload) (ttl : Z) : M World bool :=
  ok ← store_answer;
  (if ok : bool then modify (fun w => w <| etcd ::= <[key := p]> |>) else mret tt);;
  mret ok.

Definition etcd_batch_put (kvs : list (string * TaskPayload)) (ttl : Z) : M World bool :=
  ok ← store_answer;
  (if ok : bool
   then modify (fun w => w <| etcd ::= fun m => foldl (fun m kv => <[kv.1 := kv.2]> m) m kvs |>)
   else mret tt);;
  mret ok.

Definition etcd_delete (key : string) : M World bool :=
  ok ← store_answer;
  (if ok : bool then modify (fun w => w <| etcd ::= delete key |>) else mret tt);;
  mret ok.

(** A call to MySQL: its answer, and its trace when it writes. *)
Definition db_call {A : Type} (f : nat -> res string A) : M World (res string A) := fun w =>
  Ret (f (dbCalls w), w <| dbCalls ::= S |>).

Definition db_write_call {A : Type} (wr : db_write) (f : nat -> res string A)
  : M World (res string A) := fun w =>
  Ret (f (dbCalls w), w <| dbCalls ::= S |> <| dbLog ::= fun l => l ++ [wr] |>).

(** A call on a component of the state. *)
Definition on_watchers {A : Type} (m : M workflowWatchers A) : M World A := fun w =>
  match m (wfWatchers w) with
  | Ret (a, ww) => Ret (a, w <| wfWatchers := ww |>)
  | Panic => Panic
  | Blocked => Blocked
  end.

Definition on_sem {A : Type} (m : M rollbackSemaphore A) : M World A := fun w =>
  match m (rollback_sem w) with
  | Ret (a, s) => Ret (a, w <| rollback_sem := s |>)
  | Panic => Panic
  | Blocked => Blocked
  end.

Definition on_listeners {A : Type} (m : M Listeners A) : M World A := fun w =>
  match m (taskListeners w) with
  | Ret (a, tl) => Ret (a, w <| taskListeners := tl |>)
  | Panic => Panic
  | Blocked => Blocked
  end.

Section sleeping.
Context `{Naming}.

(** [backoffWithJitter] (repository.go): the doubled backoff, cut at [max],
    and a part of it added or taken away: the remainder of a signed number.
    [base * 2 ^ attempt] is a float in the source, exact below 2^53. *)
Definition backoffWithJitter (attempt base max : Z) (rnd : option Z) : Z :=
  let exp := Z.min (base * 2 ^ attempt) max in
  let jitterN := Z.quot exp 2 in
  if jitterN <=? 0 then exp
  else match rnd with
       | None => exp
       | Some u => wrap64 (exp + Z.rem (wrap64 u) jitterN)
       end.

Definition draw_u64 : M World (option Z) := n ← fresh_id; mret (rand_u64 n).

Definition sleep (d : Z) : M World unit :=
  modify (fun w => w <| now ::= fun t => t + Z.max 0 d |>).

End sleeping.

(** ** Entries

    [LockEntry] takes the manager's read lock, looks the entry up, and locks
    the entry; what callers do until they unlock it is one atomic step here. *)

(** [wm.mu.Lock()] and [wm.mu.RLock()], up to the matching unlock. *)
Definition lock_wm : M World unit := fun w => if wm_locked w then Blocked else Ret (tt, w).

Definition LockEntry (uuid : string) : M World (option workflowEntry) :=
  lock_wm;; gets (fun w => runningEntries w !! uuid).

(** Mutate the state of a locked entry in place. *)
Definition update_entry (uuid : string) (f : WorkflowState -> WorkflowState) (w : World) : World :=
  match runningEntries w !! uuid with
  | Some e => w <| runningEntries ::= <[uuid := e <| we_state ::= f |>]> |>
  | None => w
  end.

Definition running_state (uuid : string) (w : World) : option WorkflowState :=
  we_state <$> runningEntries w !! uuid.

(** ** Snapshot throttling (scheduler.go) *)

Definition snapshotThrottle (uuid : string) (interval : Z) : M World bool := fun w =>
  match snapshotLastTime w !! uuid with
  | None => Ret (true, w <| snapshotLastTime ::= <[uuid := now w]> |>)
  | Some lastTime =>
      if now w - lastTime <? interval then Ret (false, w)
      else Ret (true, w <| snapshotLastTime ::= <[uuid := now w]> |>)
  end.

Definition cleanSnapshotThrottle (uuid : string) (w : World) : World :=
  w <| snapshotLastTime ::= delete uuid |>.

(** ** Well-formed worlds *)

Record sane (w : World) : Prop := {
  sane_lock : wm_locked w = false;
  sane_listeners : listeners_ok (taskListeners w);
  sane_entries u e : runningEntries w !! u = Some e -> is_Some (ws_Workflow (we_state e)) }.

Lemma sane_set_listeners w tl : sane w -> listeners_ok tl -> sane (w <| taskListeners := tl |>).
Proof. intros [Hl Hk He] Htl. by split. Qed.

(** A well-formed world stays so when entries go and the components that
    matter stay. *)
Lemma sane_sub w w' : sane w -> wm_locked w' = wm_locked w -> taskListeners w' = taskListeners w ->
  (forall u e, runningEntries w' !! u = Some e -> runningEntries w !! u = Some e) -> sane w'.
Proof. intros [Hl Hk He] El Et Hsub. split; [by rewrite El|by rewrite Et|eauto]. Qed.

(** ** Lemmas: running these effects *)

Lemma wp_lock_wm Q w : wm_locked w = false -> Q tt w -> wp lock_wm Q w.
Proof. intros Hl HQ. unfold wp, lock_wm. by rewrite Hl. Qed.

Lemma wp_LockEntry uuid (Q : option workflowEntry -> World -> Prop) w :
  wm_locked w = false -> Q (runningEntries w !! uuid) w -> wp (LockEntry uuid) Q w.
Proof. intros Hl HQ. unfold LockEntry. apply wp_bind, wp_lock_wm; done. Qed.

Lemma wp_emit wf typ d (Q : unit -> World -> Prop) w :
  Q tt (w <| events ::= fun l => l ++ [MkEvent wf typ d] |>) -> wp (emit wf typ d) Q w.
Proof. done. Qed.

Lemma wp_spawn g (Q : unit -> World -> Prop) w :
  Q tt (w <| spawned ::= fun l => l ++ [g] |>) -> wp (spawn g) Q w.
Proof. done. Qed.

Lemma wp_on_listeners {A : Type} (m : M Listeners A) (Q : A -> World -> Prop) w :
  wp m (fun a tl => Q a (w <| taskListeners := tl |>)) (taskListeners w) ->
  wp (on_listeners m) Q w.
Proof. unfold wp, on_listeners. by destruct (m (taskListeners w)) as [[a tl]| |]. Qed.

Lemma wlp_on_listeners {A : Type} (m : M Listeners A) (Q : A -> World -> Prop) w :
  (forall a tl, Q a (w <| taskListeners := tl |>)) -> wlp (on_listeners m) Q w.
Proof. unfold wlp, on_listeners. intros HQ. by destruct (m (taskListeners w)) as [[a tl]| |]. Qed.

#[export] Hint Resolve wp_lock_wm wp_LockEntry wp_emit wp_spawn : vibe.
