(* ===== verification/Copy.v ===== *)
(** * Deep copies (domain/model/workflow.go: Workflow.DeepCopy)

    A copy is what JSON makes of a definition: numbers in parameters come back
    as floats, fields marked omitempty lose the difference between nil and
    empty, and parameters that JSON cannot write make the copy fail.  The
    strings outside the parameters are taken to be valid UTF-8. *)
From Stdlib Require Import ZArith Lia String.
From stdpp Require Import base gmap strings list.
From S2P Require Import Prelude GoVal Model Payload Validate.
Set Warnings "-register-all,-clear-no-such-hyp,-level-tolerance".
Local Open Scope list_scope.

(** An omitempty map: an empty one is not written, and reads back as nil. *)
Definition omit_empty {A : Type} (m : option (gmap string A)) : option (gmap string A) :=
  match m with
  | Some m => if decide (dom m = ∅) then None else Some m
  | None => None
  end.

Definition encodable_opt (m : option vmap) : bool :=
  match m with Some m => encodable_map m | None => true end.

Fixpoint encodable_node (n : TaskNode) : bool :=
  encodable_opt (Params n) && encodable_opt (SubWorkflowParams n) &&
  match Branches n with
  | Some bs => forallb (fun b => forallb (forallb encodable_node) b.2) bs
  | None => true
  end &&
  match FanOut n with Some fo => encodable_node (fo_Task fo) | None => true end.

Fixpoint json_node (n : TaskNode) : TaskNode :=
  MkTaskNode (Type_ n) (Name n)
    (omit_empty (json_map <$> Params n)) (DelaySec n)
    match Branches n with
    | Some bs =>
        match bs with
        | [] => None
        | _ => Some (List.map (fun b => (b.1, List.map (List.map json_node) b.2)) bs)
        end
    | None => None
    end
    (DefaultBranch n) (ParallelBranch n) (SubWorkflow n)
    (omit_empty (json_map <$> SubWorkflowParams n))
    match FanOut n with
    | Some fo => Some (MkFanOut (IteratorKey fo) (json_node (fo_Task fo)) (MaxParallel fo)
                         (OutputKey fo))
    | None => None
    end
    (Loop n) (omit_empty (InputMapping n)).

Definition json_groups : list (list TaskNode) -> list (list TaskNode) :=
  fmap (M := list) (fmap (M := list) json_node).
#[global] Arguments json_groups : simpl never.

Definition DeepCopy (wf : Workflow) : option Workflow :=
  if forallb (forallb encodable_node) (TaskGroups wf) then
    Some (wf <| TaskGroups ::= json_groups |>)
  else None.

(** ** Lemmas: what validation reads survives the copy *)

Lemma json_type n : GetTaskNodeType (json_node n) = GetTaskNodeType n.
Proof. by destruct n. Qed.

Lemma json_name n : Name (json_node n) = Name n.
Proof. by destruct n. Qed.

Lemma json_loop n : Loop (json_node n) = Loop n.
Proof. by destruct n. Qed.

Lemma json_sub n : SubWorkflow (json_node n) = SubWorkflow n.
Proof. by destruct n. Qed.

Lemma json_default n : DefaultBranch (json_node n) = DefaultBranch n.
Proof. by destruct n. Qed.

Lemma json_mapping n :
  (default ∅ (InputMapping (json_node n)) : gmap string string) = default ∅ (InputMapping n).
Proof.
  destruct n as [? ? ? ? ? ? ? ? ? ? ? [im|]]; cbn; [|done]. case_decide as Hd; [|done].
  apply dom_empty_inv_L in Hd. by subst.
Qed.

Lemma json_fan n :
  FanOut (json_node n) =
  (fun fo => MkFanOut (IteratorKey fo) (json_node (fo_Task fo)) (MaxParallel fo) (OutputKey fo))
    <$> FanOut n.
Proof. destruct n as [? ? ? ? ? ? ? ? ? [fo|] ? ?]; done. Qed.

Definition json_branch (b : string * list (list TaskNode)) : string * list (list TaskNode) :=
  (b.1, json_groups b.2).

Lemma json_branches n :
  default [] (Branches (json_node n)) = json_branch <$> default [] (Branches n).
Proof. destruct n as [? ? ? ? [[|b bs]|] ? ? ? ? ? ? ?]; done. Qed.

Lemma json_branches_some n bs :
  Branches (json_node n) = Some bs ->
  exists bs', Branches n = Some bs' /\ bs = json_branch <$> bs'.
Proof. destruct n as [? ? ? ? [[|b bs']|] ? ? ? ? ? ? ?]; cbn; intros [= <-]; by eexists. Qed.

Lemma for_res_fmap {E A B S : Type} (f : S -> A -> res E S) (h : S -> B -> res E S)
    (g : B -> A) (l : list B) (s : S) :
  (forall s b, f s (g b) = h s b) -> for_res f s (g <$> l) = for_res h s l.
Proof.
  intros Hf. revert s. induction l as [|b l IH]; intros s; [done|]. cbn. rewrite Hf.
  destruct (h s b); [apply IH|done].
Qed.

Lemma indexed_json groups :
  indexed_nodes (json_groups groups) =
  (fun p => (p.1, json_node p.2)) <$> indexed_nodes groups.
Proof.
  unfold indexed_nodes, json_groups. rewrite concat_fmap, imap_fmap. f_equal.
  rewrite fmap_imap. apply imap_ext. intros i g _. cbn.
  by rewrite <- !list_fmap_compose.
Qed.

Lemma validate_node_json n gi : validateTaskNode (json_node n) gi = validateTaskNode n gi.
Proof.
  unfold validateTaskNode. rewrite json_type, json_sub, json_name, json_loop, json_fan.
  destruct (FanOut n) as [fo|]; cbn; [by rewrite json_name|done].
Qed.

Lemma add_main_json gi st n : add_main_task gi st (json_node n) = add_main_task gi st n.
Proof. unfold add_main_task. by rewrite validate_node_json. Qed.

Lemma add_branch_json gi p b st n : add_branch_task gi p b st (json_node n) = add_branch_task gi p b st n.
Proof. unfold add_branch_task. by rewrite json_name. Qed.

Lemma add_branches_json st gn :
  add_branches st (gn.1, json_node gn.2) = add_branches st gn.
Proof.
  destruct gn as [gi n]. cbn. rewrite json_branches, json_name.
  apply for_res_fmap. intros s [b groups]. cbn. apply for_res_fmap. intros s' g.
  unfold add_branch_group. rewrite (for_res_fmap _ (add_branch_task gi (Name n) b)); [done|].
  intros. apply add_branch_json.
Qed.

Lemma validate_default_json gi n :
  validate_default_branch (gi, n) = Ok tt ->
  validate_default_branch (gi, json_node n) = Ok tt.
Proof.
  rewrite !default_branch_spec. unfold default_branch_ok. rewrite json_default.
  destruct (Branches (json_node n)) as [bs|] eqn:E; [|done].
  apply json_branches_some in E as (bs' & -> & ->).
  rewrite <- list_fmap_compose. done.
Qed.

Lemma validate_mapping_json gi n : validate_mapping (gi, json_node n) = validate_mapping (gi, n).
Proof. unfold validate_mapping. by rewrite json_mapping, json_name. Qed.

Lemma check_all_json (f : Z * TaskNode -> V unit) (l : list (Z * TaskNode)) :
  (forall gi n, f (gi, n) = Ok tt -> f (gi, json_node n) = Ok tt) ->
  check_all f l = Ok tt -> check_all f ((fun p => (p.1, json_node p.2)) <$> l) = Ok tt.
Proof.
  rewrite !check_all_ok, Forall_fmap. intros Hf H. eapply list.Forall_impl; [exact H|].
  intros [gi n]. apply Hf.
Qed.

Lemma validate_json wf :
  validateWorkflowTasks wf = Ok tt ->
  validateWorkflowTasks (wf <| TaskGroups ::= json_groups |>) = Ok tt.
Proof.
  unfold validateWorkflowTasks, mbind, res_bind.
  change (TaskGroups (wf <| TaskGroups ::= json_groups |>)) with (json_groups (TaskGroups wf)).
  change (wf_ErrorPolicy (wf <| TaskGroups ::= json_groups |>)) with (wf_ErrorPolicy wf).
  change (validate_event_trigger (wf <| TaskGroups ::= json_groups |>)) with (validate_event_trigger wf).
  destruct (ErrorPolicy_Validate _) as [[]|]; [|done].
  destruct (validate_event_trigger wf) as [[]|]; [|done].
  rewrite indexed_json.
  destruct (check_all validate_mapping (indexed_nodes (TaskGroups wf))) as [[]|] eqn:Em; [|done].
  destruct (check_all validate_default_branch (indexed_nodes (TaskGroups wf))) as [[]|] eqn:Ed; [|done].
  rewrite !check_all_json; [|intros *; apply validate_default_json|done
                            |intros *; by rewrite validate_mapping_json|done].
  unfold json_groups. rewrite (for_res_fmap _ add_main_group).
  2:{ intros [gi names] g. unfold add_main_group.
      rewrite (for_res_fmap _ (add_main_task gi)); [done|]. intros. apply add_main_json. }
  destruct (for_res add_main_group _ _) as [[gi names]|]; [|done]. cbn.
  rewrite (for_res_fmap _ add_branches) by (intros; apply add_branches_json). done.
Qed.

Lemma branch_nodes_json n :
  branch_nodes (json_node n) = (fun p => (p.1, json_node p.2)) <$> branch_nodes n.
Proof.
  unfold branch_nodes. rewrite json_branches, concat_fmap, <- !list_fmap_compose. f_equal.
  apply list_fmap_ext. intros _ [b gs] _. cbn. unfold json_groups.

  change (fmap (fmap json_node) gs) with (fmap (M := list) (fun l => json_node <$> l) gs). rewrite <- concat_fmap.
  by rewrite <- !list_fmap_compose.
Qed.

Lemma foldl_fmap {A B S : Type} (f : S -> A -> S) (g : B -> A) (l : list B) (s : S) :
  foldl f s (g <$> l) = foldl (fun s b => f s (g b)) s l.
Proof. revert s. induction l as [|b l IH]; intros s; [done|apply IH]. Qed.

Lemma foldl_ext' {A S : Type} (f h : S -> A -> S) (l : list A) (s : S) :
  (forall s a, f s a = h s a) -> foldl f s l = foldl h s l.
Proof. intros Hf. revert s. induction l as [|a l IH]; intros s; [done|]. cbn. by rewrite Hf. Qed.

Lemma group_index_json wf :
  BuildTaskGroupIndex (wf <| TaskGroups ::= json_groups |>) = BuildTaskGroupIndex wf.
Proof.
  unfold BuildTaskGroupIndex.
  change (TaskGroups (wf <| TaskGroups ::= json_groups |>)) with (json_groups (TaskGroups wf)).
  rewrite indexed_json, foldl_fmap. apply foldl_ext'. intros idx [gi n]. cbn. by rewrite json_name.
Qed.

Lemma branch_index_json wf :
  BuildBranchTaskIndex (wf <| TaskGroups ::= json_groups |>) = BuildBranchTaskIndex wf.
Proof.
  unfold BuildBranchTaskIndex.
  change (TaskGroups (wf <| TaskGroups ::= json_groups |>)) with (json_groups (TaskGroups wf)).
  rewrite indexed_json, foldl_fmap. apply foldl_ext'. intros idx [gi n]. cbn.
  rewrite branch_nodes_json, foldl_fmap. apply foldl_ext'. intros m [b bn]. cbn.
  by rewrite !json_name.
Qed.

(** ** Properties *)

(** The copy of an accepted definition is accepted, has the same name and
    UUID, and the same task and branch indexes; copying fails only on
    parameters that JSON cannot write. *)
Theorem DeepCopy_keeps_definition (wf : Workflow) :
  validateWorkflowTasks wf = Ok tt ->
  (DeepCopy wf = None <-> exists g n, g ∈ TaskGroups wf /\ n ∈ g /\ encodable_node n = false) /\
  forall wf', DeepCopy wf = Some wf' ->
    validateWorkflowTasks wf' = Ok tt /\
    UUID wf' = UUID wf /\ wf_Name wf' = wf_Name wf /\
    length (TaskGroups wf') = length (TaskGroups wf) /\
    BuildTaskGroupIndex wf' = BuildTaskGroupIndex wf /\
    BuildBranchTaskIndex wf' = BuildBranchTaskIndex wf.
Proof.
  intros Hv. unfold DeepCopy. split.
  - destruct (forallb _ _) eqn:E; split; try done.
    + intros (g & n & Hg & Hn & Hb). rewrite forallb_forall in E.
      specialize (E g). rewrite <- list_elem_of_In in E. specialize (E Hg).
      rewrite forallb_forall in E. specialize (E n). rewrite <- list_elem_of_In in E.
      rewrite E in Hb by done. done.
    + intros _. apply not_true_iff_false in E. rewrite forallb_forall in E.
      destruct (decide (Exists (Exists (fun n => encodable_node n = false)) (TaskGroups wf))) as [Hex|Hne].
      * apply Exists_exists in Hex as (g & Hg & (n & Hn & Hb)%Exists_exists). by exists g, n.
      * exfalso. apply E. intros g Hg. apply forallb_forall. intros n Hn.
        apply not_false_iff_true. intros Hb. apply Hne, Exists_exists. exists g.
        split; [by apply list_elem_of_In|]. apply Exists_exists. exists n.
        split; [by apply list_elem_of_In|done].
  - intros wf'. case_match; [|done]. intros [= <-]. split_and!.
    + by apply validate_json.
    + done.
    + done.
    + cbn. by apply length_fmap.
    + apply group_index_json.
    + apply branch_index_json.
Qed.

Definition copy_example : Workflow :=
  AddTaskNodeGroup (AddTaskGroup (NewWorkflow "w") ["a"])
    [named_node "b" <| Params := Some {["n" := VInt 3]} |>
       <| Branches := Some [("x", [[named_node "c" <| Params := Some ∅ |>]])] |>].

Lemma DeepCopy_keeps_definition_witness :
  exists wf', DeepCopy copy_example = Some wf' /\ wf' <> copy_example /\
    BuildBranchTaskIndex wf' = BuildBranchTaskIndex copy_example.
Proof.
  eexists. split; [reflexivity|]. split.
  - intros E. apply (f_equal (fun w => Params <$> (concat (TaskGroups w) !! 1%nat))) in E.
    vm_compute in E. discriminate.
  - apply (DeepCopy_keeps_definition copy_example); reflexivity.
Defined.
