(* ===== verification/Manager.v ===== *)
(** * The workflow manager (infra/engine/scheduler/workflow_manager.go)

    The running entries, the history of finished runs with its eviction, and
    the operations of the API: submit, cancel, approve, reject, retry, run,
    register, the queries.  What the manager asks of the coordinator that it
    does not do itself is the class [Coordinator]. *)
From Stdlib Require Import ZArith Lia.
From stdpp Require Import base gmap strings list sorting.
From S2P Require Import Prelude GoVal Model Validate Payload Dispatcher Watchers.
From S2P Require Import Listeners EventTriggers Circuit World Copy.
Set Warnings "-register-all,-clear-no-such-hyp,-level-tolerance".
Local Open Scope Z_scope.
Local Open Scope list_scope.

Definition defaultMaxHistoryCache : Z := 1000.
Definition maxHistoryByUUID : nat := 10.
Definition maxHistoryPageSize : Z := 100.

Inductive wm_error : Type :=
| InvalidName (e : validation_error) | NoTasks | InvalidTasks (e : validation_error)
| NotFound | NotRunning | NotPaused (st : WorkflowStatus) | AlreadyRunning | NotRegistered
| NotInHistory | HistoryInconsistent | CopyFailed | NotCron | CronRejected | StoreFailed (e : string).

(** The root context is 0; the contexts of workflows are numbered from 1. *)
Definition RootContext : nat := 0.

Class Coordinator := {
  StartSagaRollback : string -> WorkflowState -> TaskPayload -> M World unit;
  HandleTaskFailed : nat -> string -> WorkflowState -> TaskPayload -> M World unit }.

(** Whether the cron library accepts an expression. *)
Class CronLib := { cron_accepts : string -> bool }.

(** ** Queries *)

Definition wm_GetWorkflowState (uuid : string) : M World (option WorkflowState) :=
  entry ← LockEntry uuid; mret (we_state <$> entry).

Definition ListWorkflowStates : M World (list WorkflowState) :=
  lock_wm;; gets (fun w => we_state <$> (map_to_list (runningEntries w)).*2).

(** Descending execution IDs. *)
Definition newer (a b : WorkflowState) : Prop := ExecutionID b <= ExecutionID a.

#[export] Instance newer_dec : RelDecision newer.
Proof. intros a b. unfold newer. apply _. Defined.

#[export] Instance newer_trans : Transitive newer.
Proof. intros a b c. unfold newer. lia. Qed.

#[export] Instance newer_total : Total newer.
Proof. intros a b. unfold newer. lia. Qed.

Definition sortedHistoryLocked (history : gmap Z WorkflowState) : list WorkflowState :=
  merge_sort newer (map_to_list history).*2.

Definition ListHistory : M World (list WorkflowState) :=
  lock_wm;; gets (fun w => sortedHistoryLocked (workflowHistory w)).

Definition loadHistoryFromMySQL (uuid : string) : M World (option WorkflowState) :=
  hs ← gets historyStore;
  match hs with
  | None => mret None
  | Some hs =>
      rec ← db_call (fun n => GetExecutionByUUID hs n uuid);
      mret match rec with
           | Ok (Some rec) => er_Data rec
           | _ => None
           end
  end.

Definition latest_id (uuid : string) (w : World) : option Z :=
  list.last (default [] (workflowHistoryByUUID w !! uuid)).

Definition GetHistory (uuid : string) : M World (option WorkflowState) :=
  lock_wm;;
  st ← gets (fun w => latest_id uuid w ≫= fun latestID => workflowHistory w !! latestID);
  match st with
  | Some st => mret (Some st)
  | None => loadHistoryFromMySQL uuid
  end.

Definition registered_state (wf : Workflow) : WorkflowState :=
  MkWorkflowState (Some wf) WorkflowStatusPending 0 ∅ ∅ ∅ "" "" ∅ 0 ∅ ∅ "" 0 0 0 ∅.

Definition ListWorkflowDefs : M World (list WorkflowState) :=
  lock_wm;; gets (fun w => registered_state <$> (map_to_list (registeredWorkflows w)).*2).

Definition GetRegisteredWorkflow (uuid : string) : M World (option Workflow) :=
  lock_wm;; gets (fun w => registeredWorkflows w !! uuid).

(** ** Submission *)

(** The state of a new run. *)
Definition new_state (wf : Workflow) (now : Z) : WorkflowState :=
  MkWorkflowState (Some wf) WorkflowStatusRunning now ∅ ∅ ∅ "" "" ∅ 0
    (BuildTaskGroupIndex wf) (BuildBranchTaskIndex wf) (UUID wf) 0 0 0 ∅.

Definition SubmitWorkflow (wf : Workflow) : M World (res wm_error unit) :=
  match validateWorkflowName (wf_Name wf) with
  | Err e => mret (Err (InvalidName e))
  | Ok _ =>
  if decide (TaskGroups wf = []) then mret (Err NoTasks) else
  match validateWorkflowTasks wf with
  | Err e => mret (Err (InvalidTasks e))
  | Ok _ =>
      ctx ← gets nextCtx;
      modify (fun w => w <| nextCtx ::= S |>);;
      t ← gets now;
      lock_wm;;
      modify (fun w => w <| runningEntries ::=
        <[UUID wf := MkEntry (new_state wf t) ctx false]> |>);;
      hs ← gets historyStore;
      match hs with Some _ => spawn (GAsyncInitMySQL wf t) | None => mret tt end;;
      emit "" "workflow_submitted" (DataWorkflow wf);;
      (if 0 <? TimeoutSec wf
       then spawn (GTimeoutAfter ctx (UUID wf) (wrap64 (TimeoutSec wf * Second))) else mret tt);;
      spawn (GWatchWorkflowStatus ctx (UUID wf));;
      spawn (GExecuteWorkflow RootContext (UUID wf) [] 0);;
      mret (Ok tt)
  end end.

Definition RunWorkflow (uuid : string) : M World (res wm_error unit) :=
  wf ← GetRegisteredWorkflow uuid;
  match wf with
  | None => mret (Err NotRegistered)
  | Some wf =>
      running ← wm_GetWorkflowState uuid;
      match running with
      | Some _ => mret (Err AlreadyRunning)
      | None =>
          match DeepCopy wf with
          | None => mret (Err CopyFailed)
          | Some wfCopy => SubmitWorkflow wfCopy
          end
      end
  end.

(** ** The history *)

(** The first occurrence goes, the others keep their order. *)
Fixpoint remove_id (execID : Z) (l : list Z) : list Z :=
  match l with
  | [] => []
  | id :: l' => if id =? execID then l' else id :: remove_id execID l'
  end.

Definition removeHistoryByUUIDEntry (uuid : string) (execID : Z) (w : World) : World :=
  match workflowHistoryByUUID w !! uuid with
  | None => w
  | Some execIDs =>
      if decide (execID ∈ execIDs) then
        let l := remove_id execID execIDs in
        w <| workflowHistoryByUUID ::=
          if decide (l = []) then delete uuid else <[uuid := l]> |>
      else w
  end.

Definition removeFromHistoryOrder (execID : Z) (w : World) : World :=
  w <| historyOrder ::= remove_id execID |>.

(** What a retry takes out of the history. *)
Definition forget (uuid : string) (latestID : Z) (w : World) : World :=
  removeFromHistoryOrder latestID
    (removeHistoryByUUIDEntry uuid latestID (w <| workflowHistory ::= delete latestID |>)).

(** One turn of the eviction loop, on a non-empty order. *)
Definition evict_oldest (w : World) : World :=
  match historyOrder w with
  | [] => w
  | oldestID :: order =>
      let w := w <| historyOrder := order |> in
      let w := match workflowHistory w !! oldestID with
               | Some oldState => removeHistoryByUUIDEntry (WorkflowUUID oldState) oldestID w
               | None => w
               end in
      w <| workflowHistory ::= delete oldestID |>
  end.

(** Each turn shortens the order by one: its length is enough fuel. *)
Fixpoint evict_history (fuel : nat) (maxCache : Z) (w : World) : World :=
  match fuel with
  | O => w
  | S fuel' =>
      if maxCache <? Z.of_nat (length (historyOrder w))
      then evict_history fuel' maxCache (evict_oldest w) else w
  end.

Definition max_cache (w : World) : Z :=
  let m := MaxHistoryCache (w_conf w) in
  if m <=? 0 then defaultMaxHistoryCache else m.

(** What [json.Marshal] of a state can write. *)
Definition encodable_outputs (m : gmap string vmap) : bool :=
  forallb encodable_map (map_to_list m).*2.

Definition encodable_state (st : WorkflowState) : bool :=
  match ws_Workflow st with
  | Some wf => forallb (forallb encodable_node) (TaskGroups wf)
  | None => true
  end && encodable_outputs (CompletedTasks st) && encodable_map (PausedTaskOutput st).

Definition push_history (uuid : string) (state : WorkflowState) (w : World) : World :=
  let ids := default [] (workflowHistoryByUUID w !! uuid) ++ [ExecutionID state] in
  w <| workflowHistory ::= <[ExecutionID state := state]> |>
    <| workflowHistoryByUUID ::= <[uuid := drop (length ids - maxHistoryByUUID) ids]> |>
    <| historyOrder ::= fun l => l ++ [ExecutionID state] |>
    <| runningEntries ::= delete uuid |>.

Definition count_ended (state : WorkflowState) (w : World) : World :=
  match Status state with
  | WorkflowStatusCompleted => w <| completedCount ::= fun n => wrap64 (n + 1) |>
  | WorkflowStatusFailed | WorkflowStatusRolledBack =>
      w <| failedCount ::= fun n => wrap64 (n + 1) |>
  | _ => w
  end.

(** Ends a run: its state goes from the running entries to the history, its
    context is cancelled, its last state goes to the persistence pool. *)
Definition PersistWorkflowLocked (uuid : string) (state : WorkflowState) (entry : workflowEntry)
  : M World unit :=
  lock_wm;;
  modify (push_history uuid state);;
  modify (cleanSnapshotThrottle uuid);;
  modify (fun w => w <| w_td ::= CleanupPerWfCounter uuid |>);;
  modify (fun w => w <| cancelled ::= fun s => {[we_ctx entry]} ∪ s |>);;
  modify (count_ended state);;
  (if encodable_state state then
     modify (fun w => w <| jobs ::= submit_job
       (MkJob uuid (Model.WorkflowID state) (ExecutionID state) (Status state) (ws_Error state) state) |>)
   else mret tt);;
  lock_wm;;
  modify (fun w => evict_history (length (historyOrder w)) (max_cache w) w).

Section operations.
Context `{Naming} `{Coordinator}.

(** ** Cancellation and approvals *)

Definition CancelWorkflow (uuid : string) : M World (res wm_error unit) :=
  entry ← LockEntry uuid;
  match entry with
  | None => mret (Err NotFound)
  | Some entry =>
      let state := we_state entry in
      if decide (Status state = WorkflowStatusRunning \/ Status state = WorkflowStatusPaused) then
        let wasPaused := bool_decide (Status state = WorkflowStatusPaused) in
        let pausedTaskName := PausedTaskName state in
        let state := state <| ws_Error := "用户已取消" |> in
        PersistWorkflowLocked uuid state entry;;
        emit uuid "workflow_cancelled" (DataUUID uuid);;
        let taskName := if wasPaused && negb (bool_decide (pausedTaskName = ""))
                        then pausedTaskName else "__cancelled__" in
        traceID ← new_trace_id;
        let fakePayload := zero_payload <| WorkflowID := uuid |> <| TaskName := taskName |>
          <| TraceID := traceID |> <| Result := "用户已取消" |> in
        StartSagaRollback uuid state fakePayload;;
        mret (Ok tt)
      else mret (Err NotRunning)
  end.

Definition control_key (k : string) : bool :=
  bool_decide (k = Context.SkipGroupsKey \/ k = Context.BranchKey \/ k = Context.ApprovalKey).

Definition clean_output (output : vmap) : vmap :=
  filter (fun kv => control_key kv.1 = false) output.

Definition ApproveWorkflow (uuid : string) : M World (res wm_error unit) :=
  entry ← LockEntry uuid;
  match entry with
  | None => mret (Err NotFound)
  | Some entry =>
      let state := we_state entry in
      if decide (Status state = WorkflowStatusPaused) then
        modify (update_entry uuid (fun st => st <| Status := WorkflowStatusRunning |>));;
        match ws_Workflow state with
        | None => panic
        | Some wf =>
            let last := wrap64 (Z.of_nat (length (TaskGroups wf)) - 1) in
            let pausedGroupIdx := PausedGroupIdx state in
            emit uuid "workflow_approved"
              (DataMap {["workflow" := uuid; "task" := PausedTaskName state]});;
            (if (0 <=? pausedGroupIdx) && (pausedGroupIdx <? last) then
               spawn (GExecuteWorkflow RootContext uuid [clean_output (PausedTaskOutput state)]
                        (wrap64 (pausedGroupIdx + 1)))
             else if pausedGroupIdx =? last then
               entry2 ← LockEntry uuid;
               match entry2 with
               | Some entry2 =>
                   let state2 := we_state entry2 <| Status := WorkflowStatusCompleted |> in
                   PersistWorkflowLocked uuid state2 entry2
               | None => mret tt
               end;;
               emit uuid "workflow_completed" (DataUUID uuid)
             else mret tt);;
            mret (Ok tt)
        end
      else mret (Err (NotPaused (Status state)))
  end.

Definition RejectWorkflow (uuid reason : string) : M World (res wm_error unit) :=
  entry ← LockEntry uuid;
  match entry with
  | None => mret (Err NotFound)
  | Some entry =>
      let state := we_state entry in
      if decide (Status state = WorkflowStatusPaused) then
        let reason := if decide (reason = "") then "审批被驳回" else reason in
        emit uuid "workflow_rejected"
          (DataMap {["workflow" := uuid; "task" := PausedTaskName state; "reason" := reason]});;
        traceID ← new_trace_id;
        let failedPayload := zero_payload <| WorkflowID := uuid |>
          <| TaskName := PausedTaskName state |> <| TraceID := traceID |>
          <| pl_Status := StatusFailed |> <| Result := reason |> in
        HandleTaskFailed RootContext uuid state failedPayload;;
        mret (Ok tt)
      else mret (Err (NotPaused (Status state)))
  end.

End operations.

Definition RetryWorkflow (uuid : string) : M World (res wm_error unit) :=
  lock_wm;;
  running ← gets (fun w => runningEntries w !! uuid);
  match running with
  | Some _ => mret (Err AlreadyRunning)
  | None =>
      latest ← gets (latest_id uuid);
      match latest with
      | None => mret (Err NotInHistory)
      | Some latestID =>
          state ← gets (fun w => workflowHistory w !! latestID);
          match state with
          | None => mret (Err HistoryInconsistent)
          | Some state =>
              match ws_Workflow state with
              | None => panic
              | Some wf =>
                  match DeepCopy wf with
                  | None => mret (Err CopyFailed)
                  | Some wf =>
                      modify (forget uuid latestID);;
                      SubmitWorkflow wf
                  end
              end
          end
      end
  end.

(** ** Cron and registration *)

Definition ScheduleCronWorkflow `{CronLib} (wf : Workflow) : M World (res wm_error unit) :=
  if bool_decide (Trigger wf <> TriggerCron) || bool_decide (CronExpr wf = "") then
    mret (Err NotCron)
  else if cron_accepts (CronExpr wf) then
    modify (fun w => w <| cronJobs ::= fun l => l ++ [(CronExpr wf, wf)] |>);;
    mret (Ok tt)
  else mret (Err CronRejected).

(** What the cron library calls when the time comes. *)
Definition cron_fire (wf : Workflow) : M World unit :=
  match DeepCopy wf with
  | None => mret tt
  | Some wfCopy => SubmitWorkflow wfCopy;; mret tt
  end.

(** A failed copy returns with [wm.mu] held. *)
Definition RegisterWorkflow (wf : Workflow) : M World unit :=
  match validateWorkflowName (wf_Name wf) with
  | Err _ => mret tt
  | Ok _ =>
  match validateWorkflowTasks wf with
  | Err _ => mret tt
  | Ok _ =>
      lock_wm;;
      match DeepCopy wf with
      | None => modify (fun w => w <| wm_locked := true |>)
      | Some wfCopy =>
          modify (fun w => w <| registeredWorkflows ::= <[UUID wf := wfCopy]> |>);;
          hs ← gets historyStore;
          match hs with
          | None => mret tt
          | Some hs => db_write_call (WUpsertWorkflowDef wf) (fun n => UpsertWorkflowDef hs n wf);;
                       mret tt
          end
      end
  end end.

Definition SaveWorkflow (wf : Workflow) : M World (res wm_error unit) :=
  hs ← gets historyStore;
  match hs with
  | None => mret (Ok tt)
  | Some hs =>
      r ← db_write_call (WSaveWorkflowDef wf) (fun n => SaveWorkflowDef hs n wf);
      mret match r with Ok _ => Ok tt | Err e => Err (StoreFailed e) end
  end.

(** ** Records in MySQL *)

Definition clearFailedTask_wm (workflowUUID taskName : string) : M World unit :=
  entry ← LockEntry workflowUUID;
  match entry with
  | None => mret tt
  | Some _ => modify (update_entry workflowUUID (fun st =>
      st <| FailedTasks ::= delete taskName |> <| Snapshotted ::= delete taskName |>))
  end.

Definition cleanupWorkflowState (uuid : string) : M World unit :=
  lock_wm;;
  entry ← gets (fun w => runningEntries w !! uuid);
  match entry with
  | Some entry =>
      modify (fun w => w <| runningEntries ::= delete uuid |>
                         <| cancelled ::= fun s => {[we_ctx entry]} ∪ s |>)
  | None => mret tt
  end;;
  modify (fun w => w <| wfWatchers ::= unregister uuid |>);;
  on_listeners (cleanupTaskListeners uuid);;
  modify (cleanSnapshotThrottle uuid).

(** Runs only when there is a store. *)
Definition asyncInitMySQL (wf : Workflow) (startedAt : Z) : M World unit :=
  hs ← gets historyStore;
  match hs with
  | None => panic
  | Some hs =>
      r ← db_write_call (WSaveWorkflowDef wf) (fun n => SaveWorkflowDef hs n wf);
      match r with
      | Err _ => cleanupWorkflowState (UUID wf)
      | Ok workflowID =>
          entry ← LockEntry (UUID wf);
          match entry with
          | None => mret tt
          | Some entry =>
              modify (update_entry (UUID wf) (fun st => st <| Model.WorkflowID := workflowID |>));;
              let copied := we_state entry <| Model.WorkflowID := workflowID |> in
              if encodable_state copied then
                r ← db_write_call (WCreateExecution workflowID copied "RUNNING" startedAt)
                      (fun n => CreateExecution hs n workflowID copied "RUNNING" startedAt);
                match r with
                | Err _ => cleanupWorkflowState (UUID wf)
                | Ok execID =>
                    entry2 ← LockEntry (UUID wf);
                    match entry2 with
                    | Some _ => modify (update_entry (UUID wf) (fun st =>
                        st <| ExecutionID := execID |>))
                    | None => mret tt
                    end;;
                    db_write_call (WUpdateWorkflowStatus workflowID "RUNNING")
                      (fun n => UpdateWorkflowStatus hs n workflowID "RUNNING");;
                    mret tt
                end
              else cleanupWorkflowState (UUID wf)
          end
      end
  end.

(** ** Pages of the history *)

(** [all[start:end]]: out of range, it panics. *)
Definition slice {A : Type} (l : list A) (start stop : Z) : M World (list A) :=
  if (0 <=? start) && (start <=? stop) && (stop <=? Z.of_nat (length l)) then
    mret (take (Z.to_nat (stop - start)) (drop (Z.to_nat start) l))
  else panic.

Definition page_from_memory (page pageSize : Z) : M World (list WorkflowState * Z) :=
  all ← ListHistory;
  let total := Z.of_nat (length all) in
  let page := if page <? 1 then 1 else page in
  let pageSize := if pageSize <? 1 then 10 else pageSize in
  let start := wrap64 (wrap64 (page - 1) * pageSize) in
  if total <=? start then mret ([], total)
  else
    let stop := wrap64 (start + pageSize) in
    let stop := if total <? stop then total else stop in
    l ← slice all start stop;
    mret (l, total).

Definition ListHistoryPaged (page pageSize : Z) : M World (list WorkflowState * Z) :=
  let pageSize := if maxHistoryPageSize <? pageSize then maxHistoryPageSize else pageSize in
  hs ← gets historyStore;
  match hs with
  | None => page_from_memory page pageSize
  | Some hs =>
      r ← db_call (fun n => LoadExecutions hs n (wrap64 (wrap64 (page - 1) * pageSize)) pageSize);
      match r with
      | Ok (records, total) => mret (omap er_Data records, total)
      | Err _ => page_from_memory page pageSize
      end
  end.

(** ** Lemmas: the history *)

(** The history is consistent: its order lists its keys once, states are
    stored under their execution IDs, and the list of a UUID, of ten at most,
    holds runs of that UUID. *)
Record hist_ok (w : World) : Prop := {
  ho_order : NoDup (historyOrder w);
  ho_dom i : i ∈ historyOrder w <-> is_Some (workflowHistory w !! i);
  ho_key i st : workflowHistory w !! i = Some st -> ExecutionID st = i;
  ho_runs u l i : workflowHistoryByUUID w !! u = Some l -> i ∈ l ->
    exists st, workflowHistory w !! i = Some st /\ WorkflowUUID st = u;
  ho_list u l : workflowHistoryByUUID w !! u = Some l ->
    NoDup l /\ l <> [] /\ (length l <= maxHistoryByUUID)%nat }.

Lemma remove_id_sublist x l : sublist (remove_id x l) l.
Proof. induction l as [|y l IH]; cbn; [done|]. case_match; by constructor. Qed.

Lemma elem_of_remove_id x y l : NoDup l -> y ∈ remove_id x l <-> y ∈ l /\ y <> x.
Proof.
  induction l as [|z l IH]; [set_solver|]. intros [Hz Hl]%NoDup_cons. cbn.
  destruct (Z.eqb_spec z x) as [->|Hne]; [|set_solver].
  split; [intros Hy; split; [set_solver|congruence]|set_solver].
Qed.

Lemma last_remove_id x y l : x <> y -> list.last l = Some y -> list.last (remove_id x l) = Some y.
Proof.
  intros Hne. induction l as [|z l IH]; [done|]. cbn [remove_id].
  destruct l as [|z' l].
  - cbn. intros [= ->]. destruct (Z.eqb_spec y x); [congruence|done].
  - change (list.last (z :: z' :: l)) with (list.last (z' :: l)). intros Hl.
    specialize (IH Hl). destruct (z =? x); [done|].
    destruct (remove_id x (z' :: l)) as [|a k] eqn:E; [done|exact IH].
Qed.

Lemma elem_of_drop_weak {A : Type} (x : A) n l : x ∈ drop n l -> x ∈ l.
Proof. intros Hx. eapply elem_of_sublist; [apply Hx|apply sublist_drop]. Qed.

(** Eviction changes nothing but the history. *)
Definition same_but_history (w w' : World) : Prop :=
  exists h u o, w' = w <| workflowHistory := h |> <| workflowHistoryByUUID := u |>
                       <| historyOrder := o |>.

Lemma same_but_history_refl w : same_but_history w w.
Proof. exists (workflowHistory w), (workflowHistoryByUUID w), (historyOrder w). by destruct w. Qed.

Lemma same_but_history_trans w1 w2 w3 :
  same_but_history w1 w2 -> same_but_history w2 w3 -> same_but_history w1 w3.
Proof. intros (h & u & o & ->) (h' & u' & o' & ->). by exists h', u', o'. Qed.

Lemma removeHistoryByUUIDEntry_eq uuid x w :
  exists u, removeHistoryByUUIDEntry uuid x w = w <| workflowHistoryByUUID := u |>.
Proof.
  unfold removeHistoryByUUIDEntry. repeat case_match; eexists; try reflexivity;
    instantiate (1 := workflowHistoryByUUID w); by destruct w.
Qed.

Lemma evict_oldest_frame w : same_but_history w (evict_oldest w).
Proof.
  unfold evict_oldest. destruct (historyOrder w) as [|x order]; [apply same_but_history_refl|].
  cbn. destruct (workflowHistory w !! x) as [st|].
  - match goal with |- context [removeHistoryByUUIDEntry ?a ?b ?c] =>
      destruct (removeHistoryByUUIDEntry_eq a b c) as [u Hu]; rewrite Hu end.
    by eexists _, u, order.
  - by exists (delete x (workflowHistory w)), (workflowHistoryByUUID w), order.
Qed.

Lemma evict_history_frame fuel max w : same_but_history w (evict_history fuel max w).
Proof.
  revert w. induction fuel as [|fuel IH]; intros w; cbn; [apply same_but_history_refl|].
  case_match; [|apply same_but_history_refl].
  eapply same_but_history_trans; [apply evict_oldest_frame|apply IH].
Qed.

(** Taking an execution out of the list of its UUID. *)
Lemma removeHistoryByUUIDEntry_lookup uuid x w v l :
  (forall u k, workflowHistoryByUUID w !! u = Some k -> NoDup k) ->
  workflowHistoryByUUID (removeHistoryByUUIDEntry uuid x w) !! v = Some l <->
  exists k, workflowHistoryByUUID w !! v = Some k /\
    if decide (v = uuid /\ x ∈ k) then l = remove_id x k /\ l <> [] else l = k.
Proof.
  intros Hnd. unfold removeHistoryByUUIDEntry.
  destruct (workflowHistoryByUUID w !! uuid) as [k|] eqn:Hk.
  - destruct (decide (x ∈ k)) as [Hx|Hx]; cbn.
    + destruct (decide (v = uuid)) as [->|Hne].
      * rewrite Hk. case_decide as E; rewrite ?lookup_delete_eq, ?lookup_insert_eq;
          split; [done| |intros [= <-]; exists k; rewrite decide_True; naive_solver|].
        -- intros (k' & [= <-] & H). rewrite decide_True in H by done. naive_solver.
        -- intros (k' & [= <-] & H). rewrite decide_True in H by done. naive_solver.
      * case_decide as E; rewrite ?lookup_delete_ne, ?lookup_insert_ne by done;
          (split; [intros; eexists; split; [done|by rewrite decide_False by naive_solver]
                  |intros (k' & ? & H); rewrite decide_False in H by naive_solver; congruence]).
    + split; [intros Hl; exists l; split; [done|]; rewrite decide_False; [done|naive_solver]|].
      intros (k' & Hv & H). rewrite decide_False in H; [congruence|naive_solver].
  - split; [intros Hl; exists l; split; [done|]; rewrite decide_False; [done|naive_solver]|].
    intros (k' & Hv & H). rewrite decide_False in H; [congruence|naive_solver].
Qed.

Lemma forget_ok uuid x st w :
  hist_ok w -> workflowHistory w !! x = Some st -> WorkflowUUID st = uuid ->
  let w' := forget uuid x w in
  hist_ok w' /\ historyOrder w' = remove_id x (historyOrder w) /\
  (forall i, i <> x -> workflowHistory w' !! i = workflowHistory w !! i) /\
  (forall u i, i <> x -> latest_id u w = Some i -> latest_id u w' = Some i).
Proof.
  intros [Hnd Hdom Hkey Hruns Hlist] Hst Hstu. unfold forget, removeFromHistoryOrder. cbn zeta.
  set (w1 := w <| workflowHistory ::= delete x |>).
  destruct (removeHistoryByUUIDEntry_eq uuid x w1) as [uu Huu].
  pose proof (removeHistoryByUUIDEntry_lookup uuid x w1) as Hrem.
  assert (Hnd1 : forall u k, workflowHistoryByUUID w1 !! u = Some k -> NoDup k).
  { intros u k Hk. by apply (Hlist u k). }
  rewrite Huu in *. cbn in *.
  assert (Hl : forall u l, uu !! u = Some l ->
    exists k, workflowHistoryByUUID w !! u = Some k /\ sublist l k /\ l <> [] /\ x ∉ l).
  { intros u l Hu. apply Hrem in Hu as (k & Hk & H); [|done]. exists k. split; [done|].
    destruct (Hlist _ _ Hk) as (Hkn & Hk0 & _). case_decide as E.
    - destruct H as [-> Hne]. split; [apply remove_id_sublist|]. split; [done|].
      rewrite elem_of_remove_id by done. naive_solver.
    - subst l. split_and!; [done..|]. intros Hxk. apply E. split; [|done].
      destruct (Hruns _ _ _ Hk Hxk) as (st' & Hst' & <-). congruence. }
  split; [split; cbn|split_and!; [done|cbn|cbn]].
  - by eapply sublist_NoDup, remove_id_sublist.
  - intros i. rewrite lookup_delete_is_Some, <- Hdom, elem_of_remove_id by done. naive_solver.
  - intros i st' [_ Hi]%lookup_delete_Some. by apply Hkey.
  - intros u l i Hu Hi. destruct (Hl _ _ Hu) as (k & Hk & Hs & _ & Hxl).
    destruct (Hruns u k i Hk) as (st' & Hst' & Hst'u); [by eapply elem_of_sublist|].
    exists st'. split; [|done]. rewrite lookup_delete_ne; [done|]. by intros <-.
  - intros u l Hu. destruct (Hl _ _ Hu) as (k & Hk & Hs & Hne & _).
    destruct (Hlist _ _ Hk) as (Hkn & _ & Hkl). split_and!; [by eapply sublist_NoDup|done|].
    apply sublist_length in Hs. lia.
  - intros i Hi. by rewrite lookup_delete_ne.
  - intros u i Hi. unfold latest_id. cbn. intros Hlast.
    destruct (workflowHistoryByUUID w !! u) as [k|] eqn:Hk; [|done]. cbn in Hlast.
    destruct (decide (u = uuid /\ x ∈ k)) as [E|E].
    + assert (uu !! u = Some (remove_id x k)) as ->.
      { apply Hrem; [done|]. exists k. split; [done|]. rewrite decide_True by done.
        split; [done|]. intros E'. apply last_remove_id with (x := x) in Hlast; [|done].
        by rewrite E' in Hlast. }
      cbn. by apply last_remove_id.
    + assert (uu !! u = Some k) as ->; [|done].
      apply Hrem; [done|]. exists k. split; [done|]. by rewrite decide_False.
Qed.

Lemma evict_oldest_eq w x order st :
  historyOrder w = x :: order -> workflowHistory w !! x = Some st ->
  evict_oldest w = forget (WorkflowUUID st) x w.
Proof.
  intros Ho Hst. unfold evict_oldest, forget, removeFromHistoryOrder, removeHistoryByUUIDEntry.
  rewrite Ho. cbn. rewrite Hst. destruct (workflowHistoryByUUID w !! WorkflowUUID st) as [l|];
    [destruct (decide (x ∈ l))|]; cbn; rewrite Ho; cbn; by rewrite Z.eqb_refl.
Qed.

Lemma evict_oldest_ok w x order :
  hist_ok w -> historyOrder w = x :: order ->
  hist_ok (evict_oldest w) /\ historyOrder (evict_oldest w) = order /\
  (forall i, i <> x -> workflowHistory (evict_oldest w) !! i = workflowHistory w !! i) /\
  (forall u i, i <> x -> latest_id u w = Some i -> latest_id u (evict_oldest w) = Some i).
Proof.
  intros Hok Ho. destruct (proj1 (ho_dom _ Hok x)) as [st Hst]; [rewrite Ho; left|].
  rewrite (evict_oldest_eq _ _ _ _ Ho Hst).
  destruct (forget_ok _ _ _ _ Hok Hst eq_refl) as (H1 & H2 & H3 & H4).
  split_and!; [done| |done|done]. rewrite H2, Ho. cbn. by rewrite Z.eqb_refl.
Qed.

(** Evicting from a consistent history keeps its newest [max] executions. *)
Lemma evict_history_ok fuel max w :
  hist_ok w -> (length (historyOrder w) <= fuel)%nat -> 0 <= max ->
  let w' := evict_history fuel max w in
  hist_ok w' /\
  historyOrder w' = drop (length (historyOrder w) - Z.to_nat max) (historyOrder w) /\
  (forall i, i ∈ historyOrder w' -> workflowHistory w' !! i = workflowHistory w !! i) /\
  (forall u i, i ∈ historyOrder w' -> latest_id u w = Some i -> latest_id u w' = Some i).
Proof.
  revert w. induction fuel as [|fuel IH]; intros w Hok Hlen Hmax; cbn.
  - assert (historyOrder w = []) as -> by (by apply length_zero_iff_nil; lia).
    rewrite drop_nil. done.
  - destruct (Z.ltb_spec max (Z.of_nat (length (historyOrder w)))) as [Hlt|Hge].
    2:{ replace (_ - _)%nat with O by lia. done. }
    destruct (historyOrder w) as [|x order] eqn:Ho; [cbn in Hlt; lia|].
    destruct (evict_oldest_ok w x order Hok Ho) as (Hok1 & Ho1 & Hh1 & Hl1).
    cbn in Hlen, Hlt. destruct (IH (evict_oldest w)) as (Hok2 & Ho2 & Hh2 & Hl2);
      [done|rewrite Ho1; lia|done|]. cbn in Hok2, Ho2, Hh2, Hl2. rewrite Ho1 in Ho2.
    assert (Hx : x ∉ historyOrder (evict_history fuel max (evict_oldest w))).
    { rewrite Ho2. intros Hx%elem_of_drop_weak. pose proof (ho_order _ Hok) as Hnd.
      rewrite Ho in Hnd. by apply NoDup_cons in Hnd as [? _]. }
    split_and!; [done| | |].
    + rewrite Ho2. cbn [length].
      replace (S (length order) - Z.to_nat max)%nat with (S (length order - Z.to_nat max)) by lia.
      done.
    + intros i Hi. rewrite Hh2 by done. apply Hh1. by intros ->.
    + intros u i Hi Hu. apply Hl2; [done|]. apply Hl1; [by intros ->|done].
Qed.

(** ** Lemmas: persisting *)

Definition persist_jobs (uuid : string) (state : WorkflowState) (l : list persistJob)
  : list persistJob :=
  if encodable_state state
  then submit_job (MkJob uuid (Model.WorkflowID state) (ExecutionID state) (Status state)
                     (ws_Error state) state) l
  else l.

(** The world after [PersistWorkflowLocked], before the eviction. *)
Definition persist_core (uuid : string) (state : WorkflowState) (entry : workflowEntry)
    (w : World) : World :=
  count_ended state (cleanSnapshotThrottle uuid (push_history uuid state w)
    <| w_td ::= CleanupPerWfCounter uuid |>
    <| cancelled ::= fun s => {[we_ctx entry]} ∪ s |>) <| jobs ::= persist_jobs uuid state |>.

Definition persisted (uuid : string) (state : WorkflowState) (entry : workflowEntry) (w : World)
  : World :=
  let w := persist_core uuid state entry w in
  evict_history (length (historyOrder w)) (max_cache w) w.

Lemma persist_eq uuid state entry w :
  wm_locked w = false ->
  PersistWorkflowLocked uuid state entry w = Ret (tt, persisted uuid state entry w).
Proof.
  intros Hl. unfold PersistWorkflowLocked, persisted, persist_core, persist_jobs, lock_wm, modify,
    mbind, M_bind. cbn. rewrite Hl. cbn. unfold count_ended.
  destruct (encodable_state state), (Status state); cbn; rewrite Hl; reflexivity.
Qed.

Lemma wp_persist uuid state entry (Q : unit -> World -> Prop) w :
  wm_locked w = false -> Q tt (persisted uuid state entry w) ->
  wp (PersistWorkflowLocked uuid state entry) Q w.
Proof. intros Hl HQ. unfold wp. by rewrite persist_eq. Qed.

(** What persisting does to the components other than the history. *)
Lemma persisted_frame uuid state entry w :
  same_but_history (persist_core uuid state entry w) (persisted uuid state entry w).
Proof. apply evict_history_frame. Qed.

Lemma count_ended_frame state w :
  exists c f, count_ended state w = w <| completedCount := c |> <| failedCount := f |>.
Proof.
  unfold count_ended. destruct w. destruct (Status state); cbn; eexists _, _; reflexivity.
Qed.

(** The components persisting leaves alone. *)
Record same_outside (w w' : World) : Prop := {
  so_locked : wm_locked w' = wm_locked w;
  so_registered : registeredWorkflows w' = registeredWorkflows w;
  so_triggers : eventTriggerMgr w' = eventTriggerMgr w;
  so_watchers : wfWatchers w' = wfWatchers w;
  so_listeners : taskListeners w' = taskListeners w;
  so_conf : w_conf w' = w_conf w;
  so_store : historyStore w' = historyStore w;
  so_db : dbLog w' = dbLog w;
  so_etcd : etcd w' = etcd w;
  so_now : now w' = now w;
  so_events : events w' = events w;
  so_spawned : spawned w' = spawned w }.

Lemma persisted_outside uuid state entry w :
  same_outside w (persisted uuid state entry w) /\
  runningEntries (persisted uuid state entry w) = delete uuid (runningEntries w) /\
  cancelled (persisted uuid state entry w) = {[we_ctx entry]} ∪ cancelled w /\
  jobs (persisted uuid state entry w) = persist_jobs uuid state (jobs w) /\
  w_td (persisted uuid state entry w) = CleanupPerWfCounter uuid (w_td w) /\
  snapshotLastTime (persisted uuid state entry w) = delete uuid (snapshotLastTime w).
Proof.
  destruct (persisted_frame uuid state entry w) as (h & u & o & ->). unfold persist_core.
  match goal with |- context [count_ended state ?x] =>
    destruct (count_ended_frame state x) as (c & f & ->) end.
  done.
Qed.

(** What it adds to a consistent history. *)
Lemma push_history_ok uuid state w :
  hist_ok w -> WorkflowUUID state = uuid -> ExecutionID state ∉ historyOrder w ->
  hist_ok (push_history uuid state w) /\
  latest_id uuid (push_history uuid state w) = Some (ExecutionID state).
Proof.
  intros [Hnd Hdom Hkey Hruns Hlist] Hu Hid. unfold push_history. cbn.
  set (ids := default [] (workflowHistoryByUUID w !! uuid)).
  assert (Hids : NoDup (ids ++ [ExecutionID state]) /\ (length ids <= maxHistoryByUUID)%nat /\
                 forall i, i ∈ ids -> i ∈ historyOrder w /\ exists st, workflowHistory w !! i = Some st /\
                   WorkflowUUID st = uuid).
  { unfold ids. destruct (workflowHistoryByUUID w !! uuid) as [l|] eqn:Hl; cbn.
    - destruct (Hlist _ _ Hl) as (Hln & _ & Hll).
      assert (Hin : forall i, i ∈ l -> i ∈ historyOrder w /\ exists st, workflowHistory w !! i = Some st /\
                   WorkflowUUID st = uuid).
      { intros i Hi. destruct (Hruns _ _ _ Hl Hi) as (st & Hst & Hstu).
        split; [apply Hdom; by eexists|by exists st]. }
      split_and!; [|done|done].
      apply NoDup_app. split_and!; [done| |apply NoDup_singleton].
      intros i Hi ->%list_elem_of_singleton. by apply Hid, Hin.
    - split_and!; [apply NoDup_singleton|lia|intros i Hi; by apply elem_of_nil in Hi]. }
  destruct Hids as (Hidn & Hidl & Hidin).
  set (d := drop _ _). assert (Hd : d = drop (length ids + 1 - maxHistoryByUUID) ids ++ [ExecutionID state]).
  { unfold d. rewrite length_app. cbn [length].
    rewrite drop_app_le by (unfold maxHistoryByUUID in *; lia). done. }
  split; [split; cbn|].
  - apply NoDup_app. split_and!; [done| |apply NoDup_singleton].
    intros i Hi ->%list_elem_of_singleton. done.
  - intros i. rewrite elem_of_app, list_elem_of_singleton, Hdom, lookup_insert_is_Some'. naive_solver.
  - intros i st [[<- <-]|[_ Hi]]%lookup_insert_Some; [done|by apply Hkey].
  - intros u l i [[<- <-]|[Hne Hul]]%lookup_insert_Some Hi.
    + rewrite Hd in Hi. apply elem_of_app in Hi as [Hi%elem_of_drop_weak|Hi%list_elem_of_singleton].
      * destruct (Hidin _ Hi) as (Hio & st & Hst & Hstu). exists st. split; [|done].
        rewrite lookup_insert_ne; [done|]. by intros <-.
      * subst i. exists state. by rewrite lookup_insert_eq.
    + destruct (Hruns _ _ _ Hul Hi) as (st & Hst & Hstu). exists st. split; [|done].
      rewrite lookup_insert_ne; [done|]. intros <-. apply Hid, Hdom. by eexists.
  - intros u l [[<- <-]|[Hne Hul]]%lookup_insert_Some; [|by apply (Hlist u l)].
    split_and!.
    + unfold d. by eapply sublist_NoDup, sublist_drop.
    + rewrite Hd. by destruct (drop _ ids).
    + unfold d. rewrite length_drop, length_app. cbn. unfold maxHistoryByUUID. lia.
  - unfold latest_id. cbn. rewrite lookup_insert_eq. cbn. fold ids. fold d.
    rewrite Hd. by rewrite list.last_snoc.
Qed.

Lemma core_history uuid state entry w :
  let w1 := push_history uuid state w in
  let w2 := persist_core uuid state entry w in
  workflowHistory w2 = workflowHistory w1 /\ workflowHistoryByUUID w2 = workflowHistoryByUUID w1 /\
  historyOrder w2 = historyOrder w1 /\ w_conf w2 = w_conf w.
Proof.
  cbn zeta. unfold persist_core.
  match goal with |- context [count_ended state ?x] =>
    destruct (count_ended_frame state x) as (c & f & ->) end.
  done.
Qed.

Lemma hist_ok_ext w w' :
  workflowHistory w' = workflowHistory w -> workflowHistoryByUUID w' = workflowHistoryByUUID w ->
  historyOrder w' = historyOrder w -> hist_ok w -> hist_ok w'.
Proof. intros E1 E2 E3 []. split; rewrite ?E1, ?E2, ?E3; done. Qed.

Lemma max_cache_pos w : 0 < max_cache w.
Proof. unfold max_cache, defaultMaxHistoryCache. case_match; lia. Qed.

Lemma persisted_history uuid state entry w :
  hist_ok w -> WorkflowUUID state = uuid -> ExecutionID state ∉ historyOrder w ->
  let w' := persisted uuid state entry w in
  hist_ok w' /\
  historyOrder w' = drop (S (length (historyOrder w)) - Z.to_nat (max_cache w))
                      (historyOrder w ++ [ExecutionID state]) /\
  workflowHistory w' !! ExecutionID state = Some state /\
  latest_id uuid w' = Some (ExecutionID state).
Proof.
  intros Hok Hu Hid. destruct (push_history_ok uuid state w Hok Hu Hid) as [Hok1 Hlat].
  destruct (core_history uuid state entry w) as (Eh & Eu & Eo & Ec).
  pose proof (hist_ok_ext _ _ Eh Eu Eo Hok1) as Hok2.
  assert (Em : max_cache (persist_core uuid state entry w) = max_cache w)
    by (unfold max_cache; by rewrite Ec).
  destruct (evict_history_ok (length (historyOrder (persist_core uuid state entry w)))
    (max_cache w) _ Hok2 ltac:(lia) ltac:(pose proof (max_cache_pos w); lia))
    as (Hok3 & Ho3 & Hh3 & Hl3).
  unfold persisted. rewrite Em. rewrite Eo in *. cbn [push_history historyOrder] in Ho3.
  change (historyOrder (push_history uuid state w))
    with (historyOrder w ++ [ExecutionID state]) in *.
  rewrite length_app in *. cbn [length] in *. rewrite Nat.add_1_r in *.
  assert (Hin : ExecutionID state ∈ historyOrder (evict_history (S (length (historyOrder w)))
    (max_cache w) (persist_core uuid state entry w))).
  { rewrite Ho3, drop_app_le by (pose proof (max_cache_pos w); lia).
    apply elem_of_app. right. by left. }
  split_and!; [done|done| |].
  - rewrite Hh3, Eh by done. cbn. by rewrite lookup_insert_eq.
  - apply Hl3; [done|]. unfold latest_id in *. by rewrite Eu.
Qed.

Lemma GetHistory_found uuid i st w :
  wm_locked w = false -> latest_id uuid w = Some i -> workflowHistory w !! i = Some st ->
  GetHistory uuid w = Ret (Some st, w).
Proof.
  intros Hl Hi Hst. unfold GetHistory, lock_wm, mbind, M_bind, gets. rewrite Hl. cbn.
  by rewrite Hi; cbn; rewrite Hst.
Qed.

Lemma GetHistory_found_as uuid i st w w' :
  wm_locked w' = wm_locked w -> workflowHistory w' = workflowHistory w ->
  workflowHistoryByUUID w' = workflowHistoryByUUID w ->
  wm_locked w = false -> latest_id uuid w = Some i -> workflowHistory w !! i = Some st ->
  GetHistory uuid w' = Ret (Some st, w').
Proof.
  intros El Eh Eu Hl Hi Hst. eapply GetHistory_found; [by rewrite El| |by rewrite Eh].
  unfold latest_id in *. by rewrite Eu.
Qed.

(** No eviction while there is room; the newest run of a UUID is the one just
    pushed. *)
Lemma evict_history_room fuel max w :
  Z.of_nat (length (historyOrder w)) <= max -> evict_history fuel max w = w.
Proof. intros H. destruct fuel; cbn; [done|]. case_match; [lia|done]. Qed.

Lemma latest_push uuid state w : latest_id uuid (push_history uuid state w) = Some (ExecutionID state).
Proof.
  unfold latest_id, push_history. cbn. rewrite lookup_insert_eq. cbn.
  rewrite drop_app_le by (rewrite length_app; unfold maxHistoryByUUID; cbn; lia).
  apply list.last_snoc.
Qed.

Lemma latest_push_ne uuid u state w :
  u <> uuid -> latest_id u (push_history uuid state w) = latest_id u w.
Proof. intros Hu. unfold latest_id, push_history. cbn. by rewrite lookup_insert_ne. Qed.

Lemma persisted_room uuid state entry w :
  Z.of_nat (length (historyOrder w)) + 1 <= max_cache w ->
  let w' := persisted uuid state entry w in
  max_cache w' = max_cache w /\
  historyOrder w' = historyOrder w ++ [ExecutionID state] /\
  workflowHistory w' = <[ExecutionID state := state]> (workflowHistory w) /\
  forall u, latest_id u w' = latest_id u (push_history uuid state w).
Proof.
  intros Hroom. destruct (core_history uuid state entry w) as (Eh & Eu & Eo & Ec).
  assert (Em : max_cache (persist_core uuid state entry w) = max_cache w)
    by (unfold max_cache; by rewrite Ec).
  unfold persisted. rewrite evict_history_room, Em, Eh, Eo.
  - split_and!; [done..|]. intros u. unfold latest_id. by rewrite Eu.
  - rewrite Em, Eo. cbn. rewrite length_app. cbn. lia.
Qed.

(** ** Lemmas: submission *)

Definition accepted (wf : Workflow) : Prop :=
  validateWorkflowName (wf_Name wf) = Ok tt /\ TaskGroups wf <> [] /\
  validateWorkflowTasks wf = Ok tt.

(** The goroutines a submission starts. *)
Definition started (ctx : nat) (wf : Workflow) (w : World) : list goroutine :=
  match historyStore w with Some _ => [GAsyncInitMySQL wf (now w)] | None => [] end ++
  (if 0 <? TimeoutSec wf
   then [GTimeoutAfter ctx (UUID wf) (wrap64 (TimeoutSec wf * Second))] else []) ++
  [GWatchWorkflowStatus ctx (UUID wf); GExecuteWorkflow RootContext (UUID wf) [] 0].

Definition submitted (wf : Workflow) (w : World) : World :=
  w <| nextCtx ::= S |>
    <| runningEntries ::= <[UUID wf := MkEntry (new_state wf (now w)) (nextCtx w) false]> |>
    <| spawned ::= fun l => l ++ started (nextCtx w) wf w |>
    <| events ::= fun l => l ++ [MkEvent "" "workflow_submitted" (DataWorkflow wf)] |>.

Lemma submit_accepted wf w :
  wm_locked w = false -> accepted wf -> SubmitWorkflow wf w = Ret (Ok tt, submitted wf w).
Proof.
  intros Hl (Hn & Hg & Ht). unfold SubmitWorkflow. rewrite Hn, decide_False, Ht by done.
  unfold submitted, started, spawn, emit, lock_wm, modify, gets, mbind, M_bind. cbn. rewrite Hl.
  cbn. destruct (historyStore w); cbn; destruct (0 <? TimeoutSec wf); cbn;
    by rewrite <- ?(assoc_L app).
Qed.

Lemma submit_refused wf w :
  ~ accepted wf -> exists e, SubmitWorkflow wf w = Ret (Err e, w).
Proof.
  intros Ha. unfold SubmitWorkflow, accepted in *.
  destruct (validateWorkflowName (wf_Name wf)) as [[]|e]; [|by eexists].
  case_decide as Hg; [by eexists|].
  destruct (validateWorkflowTasks wf) as [[]|e]; [|by eexists]. by destruct Ha.
Qed.

(** What registration guarantees of the definitions it keeps. *)
Definition registry_ok (w : World) : Prop :=
  forall u wf, registeredWorkflows w !! u = Some wf ->
    UUID wf = u /\ validateWorkflowName (wf_Name wf) = Ok tt /\ validateWorkflowTasks wf = Ok tt.

Lemma copy_fields wf c : DeepCopy wf = Some c ->
  UUID c = UUID wf /\ wf_Name c = wf_Name wf /\ (TaskGroups c = [] <-> TaskGroups wf = []) /\
  (validateWorkflowTasks wf = Ok tt -> validateWorkflowTasks c = Ok tt).
Proof.
  unfold DeepCopy. case_match; [|done]. intros [= <-].
  split_and!; [done|done| |by apply validate_json].
  cbn. unfold json_groups. destruct (TaskGroups wf); done.
Qed.

Lemma copy_accepted wf c : DeepCopy wf = Some c -> accepted wf -> accepted c.
Proof.
  intros Hc (Hn & Hg & Ht). destruct (copy_fields _ _ Hc) as (_ & En & Eg & Ev).
  split_and!; [by rewrite En|by rewrite Eg|by apply Ev].
Qed.

(** ** Properties *)

(** C9: on a consistent history a finished run with an execution ID of its own
    is what [GetHistory] finds next; the history stays consistent and keeps the
    newest executions up to the cache's limit, the run is no longer among the
    running entries, and its context is cancelled. *)
Theorem PersistWorkflowLocked_history (uuid : string) (state : WorkflowState)
    (entry : workflowEntry) (w : World) :
  wm_locked w = false -> hist_ok w ->
  WorkflowUUID state = uuid -> ExecutionID state ∉ historyOrder w ->
  wp (PersistWorkflowLocked uuid state entry;; GetHistory uuid) (fun found w' =>
    found = Some state /\ hist_ok w' /\
    historyOrder w' = drop (S (length (historyOrder w)) - Z.to_nat (max_cache w))
                        (historyOrder w ++ [ExecutionID state]) /\
    runningEntries w' = delete uuid (runningEntries w) /\ we_ctx entry ∈ cancelled w') w.
Proof.
  intros Hl Hok Hu Hid. destruct (persisted_history uuid state entry w Hok Hu Hid)
    as (Hok' & Ho & Hst & Hlat).
  destruct (persisted_outside uuid state entry w) as (Hout & Hr & Hc & _).
  apply wp_bind. unfold wp at 1. rewrite persist_eq by done. unfold wp.
  rewrite (GetHistory_found _ _ state) by (rewrite ?(so_locked _ _ Hout); done).
  split_and!; try done. rewrite Hc. set_solver.
Qed.

(** Two runs with the same execution ID (0 for every run when there is no
    store) share one place in the history: after a second workflow ends, asking
    for the first one returns the state of the second. *)
Theorem history_collides (u1 u2 : string) (st1 st2 : WorkflowState) (e1 e2 : workflowEntry)
    (w : World) :
  wm_locked w = false ->
  ExecutionID st1 = ExecutionID st2 -> u1 <> u2 ->
  Z.of_nat (length (historyOrder w)) + 2 <= max_cache w ->
  wp (PersistWorkflowLocked u1 st1 e1;; PersistWorkflowLocked u2 st2 e2;; GetHistory u1)
    (fun found _ => found = Some st2) w.
Proof.
  intros Hl Hid Hu Hroom.
  destruct (persisted_outside u1 st1 e1 w) as [Ho1 _].
  destruct (persisted_room u1 st1 e1 w) as (Em1 & Eo1 & _ & El1); [lia|].
  set (w1 := persisted u1 st1 e1 w) in *.
  destruct (persisted_outside u2 st2 e2 w1) as [Ho2 _].
  destruct (persisted_room u2 st2 e2 w1) as (_ & _ & Eh2 & El2).
  { rewrite Em1, Eo1, length_app. cbn. lia. }
  apply wp_bind. unfold wp at 1. rewrite persist_eq by done. fold w1.
  apply wp_bind. unfold wp at 1. rewrite persist_eq by (by rewrite (so_locked _ _ Ho1)).
  unfold wp. rewrite (GetHistory_found _ (ExecutionID st1) st2).
  - done.
  - by rewrite (so_locked _ _ Ho2), (so_locked _ _ Ho1).
  - by rewrite El2, latest_push_ne, El1, latest_push.
  - rewrite Eh2, Hid. apply lookup_insert_eq.
Qed.

(** C26: Registering puts a copy of a definition in the registry, under its
    UUID and in the place of the one before, exactly when its name and its tasks pass
    validation and it can be copied; the registry stays one of validated
    definitions, and a definition refused changes nothing.  One that
    passes but cannot be copied (its parameters are no JSON) is not kept, and
    the call returns with the manager's lock held: submitting, running or
    retrying a workflow, looking up a definition and reading the history
    wait for ever from then on. *)
Theorem RegisterWorkflow_registry (wf : Workflow) (w : World) :
  wm_locked w = false -> registry_ok w ->
  wp (RegisterWorkflow wf) (fun _ w' =>
    registry_ok w' /\
    if is_ok (validateWorkflowName (wf_Name wf)) && is_ok (validateWorkflowTasks wf) then
      match DeepCopy wf with
      | Some c => wm_locked w' = false /\
                  registeredWorkflows w' = <[UUID wf := c]> (registeredWorkflows w)
      | None => registeredWorkflows w' = registeredWorkflows w /\
                (forall wf', accepted wf' -> SubmitWorkflow wf' w' = Blocked) /\
                (forall uuid, RetryWorkflow uuid w' = Blocked) /\
                (forall uuid, RunWorkflow uuid w' = Blocked) /\
                (forall uuid, GetRegisteredWorkflow uuid w' = Blocked) /\
                (forall uuid, GetHistory uuid w' = Blocked)
      end
    else w' = w) w.
Proof.
  intros Hl Hreg. unfold RegisterWorkflow, wp.
  destruct (validateWorkflowName (wf_Name wf)) as [[]|e] eqn:Hn; [|done].
  destruct (validateWorkflowTasks wf) as [[]|e] eqn:Ht; [|done].
  unfold lock_wm, mbind, M_bind. rewrite Hl. cbn.
  destruct (DeepCopy wf) as [c|] eqn:Hc; cbn.
  - destruct (copy_fields _ _ Hc) as (Eu & En & _ & Ev).
    assert (Hreg' : forall u wf', <[UUID wf:=c]> (registeredWorkflows w) !! u = Some wf' ->
      UUID wf' = u /\ validateWorkflowName (wf_Name wf') = Ok tt /\
      validateWorkflowTasks wf' = Ok tt).
    { intros u wf' [[<- <-]|[_ Hu]]%lookup_insert_Some; [|by apply Hreg].
      rewrite En. auto. }
    unfold gets, modify, db_write_call. cbn. destruct (historyStore w); cbn; done.
  - split; [exact Hreg|]. split_and!; [done|..]; intros.
    + destruct H as (Hn' & Hg' & Ht'). unfold SubmitWorkflow. by rewrite Hn', decide_False, Ht'.
    + done.
    + done.
    + done.
    + done.
Qed.

(** Running a registered definition that is not running starts a copy of
    it as a new run, and one that is running, or not registered, is refused
    without any effect. *)
Theorem RunWorkflow_starts (uuid : string) (w : World) :
  wm_locked w = false -> registry_ok w ->
  wp (RunWorkflow uuid) (fun r w' =>
    match registeredWorkflows w !! uuid, runningEntries w !! uuid with
    | None, _ => r = Err NotRegistered /\ w' = w
    | Some _, Some _ => r = Err AlreadyRunning /\ w' = w
    | Some wf, None =>
        match DeepCopy wf with
        | None => r = Err CopyFailed /\ w' = w
        | Some c =>
            if decide (TaskGroups wf = []) then r = Err NoTasks /\ w' = w
            else r = Ok tt /\
              runningEntries w' =
                <[uuid := MkEntry (new_state c (now w)) (nextCtx w) false]> (runningEntries w) /\
              spawned w' = spawned w ++ started (nextCtx w) c w
        end
    end) w.
Proof.
  intros Hl Hreg. unfold RunWorkflow, GetRegisteredWorkflow, wm_GetWorkflowState, LockEntry,
    lock_wm, gets, mbind, M_bind, wp. rewrite Hl. cbn.
  destruct (registeredWorkflows w !! uuid) as [wf|] eqn:Hw; [|done].
  rewrite Hl. cbn. destruct (runningEntries w !! uuid); [done|]. cbn.
  destruct (DeepCopy wf) as [c|] eqn:Hc; [|done].
  destruct (copy_fields _ _ Hc) as (Eu & En & Eg & Ev). destruct (Hreg _ _ Hw) as (Hu & Hn & Ht).
  destruct (decide (TaskGroups wf = [])) as [Hg|Hg].
  - unfold SubmitWorkflow. rewrite En, Hn, decide_True by tauto. done.
  - rewrite submit_accepted by (try done; apply (copy_accepted _ _ Hc); done).
    unfold submitted. cbn. rewrite Eu, Hu. done.
Qed.

(** Retrying a finished workflow takes its newest run out of a consistent
    history, which stays consistent, and starts a copy of its definition; it
    refuses a workflow that is running or has no run in memory. *)
Theorem RetryWorkflow_restarts (uuid : string) (w : World) :
  wm_locked w = false -> hist_ok w ->
  (forall i st, workflowHistory w !! i = Some st -> exists wf, ws_Workflow st = Some wf /\ accepted wf) ->
  wp (RetryWorkflow uuid) (fun r w' =>
    hist_ok w' /\
    match runningEntries w !! uuid, latest_id uuid w with
    | Some _, _ => r = Err AlreadyRunning /\ w' = w
    | None, None => r = Err NotInHistory /\ w' = w
    | None, Some i =>
        exists st wf, workflowHistory w !! i = Some st /\ ws_Workflow st = Some wf /\
          WorkflowUUID st = uuid /\
          match DeepCopy wf with
          | None => r = Err CopyFailed /\ w' = w
          | Some c =>
              r = Ok tt /\ workflowHistory w' = delete i (workflowHistory w) /\
              runningEntries w' =
                <[UUID wf := MkEntry (new_state c (now w)) (nextCtx w) false]> (runningEntries w)
          end
    end) w.
Proof.
  intros Hl Hok Hdefs. unfold RetryWorkflow, lock_wm, gets, modify, mbind, M_bind, wp.
  rewrite Hl. cbn. destruct (runningEntries w !! uuid); [done|].
  destruct (latest_id uuid w) as [i|] eqn:Hi; [|done].
  assert (Hst : exists st, workflowHistory w !! i = Some st /\ WorkflowUUID st = uuid).
  { unfold latest_id in Hi. destruct (workflowHistoryByUUID w !! uuid) as [l|] eqn:Hul; [|done].
    eapply (ho_runs _ Hok); [done|]. apply list.last_Some_elem_of. done. }
  destruct Hst as (st & Hst & Hu). rewrite Hst. destruct (Hdefs _ _ Hst) as (wf & Hwf & Ha).
  rewrite Hwf. destruct (DeepCopy wf) as [c|] eqn:Hc.
  2:{ split; [done|]. exists st, wf. rewrite Hc. done. }
  destruct (forget_ok uuid i st w Hok Hst Hu) as (Hok' & _).
  assert (Hf : exists h u o, forget uuid i w = w <| workflowHistory := h |>
    <| workflowHistoryByUUID := u |> <| historyOrder := o |> /\ h = delete i (workflowHistory w)).
  { unfold forget, removeFromHistoryOrder.
    destruct (removeHistoryByUUIDEntry_eq uuid i (w <| workflowHistory ::= delete i |>)) as [u ->].
    eexists _, u, _. split; reflexivity. }
  destruct Hf as (h & u & o & Hf & ->).
  rewrite submit_accepted; [|by rewrite Hf|by apply (copy_accepted _ _ Hc)].
  split; [by eapply hist_ok_ext; [..|exact Hok']|].
  exists st, wf. rewrite Hc. split_and!; [done..| |].
  - by rewrite Hf.
  - destruct (copy_fields _ _ Hc) as (Eu & _). rewrite Hf. cbn. by rewrite Eu.
Qed.

(** Without a store, and for page numbers whose offset fits in 63 bits,
    [ListHistoryPaged] returns the requested page (page 1 and size 10 for
    numbers below 1, at most 100 states) of the history in descending order of
    execution IDs, with its total size. *)
Theorem ListHistoryPaged_memory (page pageSize : Z) (w : World) :
  wm_locked w = false -> historyStore w = None ->
  minInt64 < page -> Z.max 1 page * 100 <= maxInt64 ->
  let size := if pageSize <? 1 then 10 else Z.min 100 pageSize in
  let all := sortedHistoryLocked (workflowHistory w) in
  Z.of_nat (length all) <= 2 ^ 62 ->
  ListHistoryPaged page pageSize w =
    Ret ((take (Z.to_nat size) (drop (Z.to_nat ((Z.max 1 page - 1) * size)) all),
          Z.of_nat (length all)), w) /\
  Sorted newer all /\ all ≡ₚ (map_to_list (workflowHistory w)).*2.
Proof.
  intros Hl Hs Hp1 Hp2 size all Hall. split; [|split].
  2:{ apply Sorted_merge_sort; apply _. }
  2:{ apply merge_sort_Permutation. }
  unfold ListHistoryPaged, gets, mbind, M_bind. cbn. rewrite Hs.
  unfold page_from_memory, ListHistory, lock_wm, gets, mbind, M_bind. rewrite Hl. cbn.
  fold all.
  set (page' := if page <? 1 then 1 else page).
  assert (page' = Z.max 1 page) as -> by (unfold page'; case_match; lia).
  assert (Hsize : (if (if maxHistoryPageSize <? pageSize then maxHistoryPageSize else pageSize) <? 1
    then 10 else if maxHistoryPageSize <? pageSize then maxHistoryPageSize else pageSize) = size).
  { unfold size, maxHistoryPageSize. repeat case_match; lia. }
  rewrite Hsize.
  assert (Hs1 : 1 <= size <= 100) by (unfold size; destruct (Z.ltb_spec pageSize 1); lia).
  set (p := Z.max 1 page) in *. assert (1 <= p) by lia. clearbody size p.
  unfold maxInt64 in Hp2.
  rewrite (wrap64_in (p - 1)) by (unfold in64, minInt64, maxInt64; lia).
  rewrite (wrap64_in ((p - 1) * size)) by (unfold in64, minInt64, maxInt64; nia).
  destruct (Z.leb_spec (Z.of_nat (length all)) ((p - 1) * size)) as [Hle|Hlt].
  - unfold mret, M_ret. rewrite drop_ge by nia. by rewrite take_nil.
  - rewrite (wrap64_in ((p - 1) * size + size)) by (unfold in64, minInt64, maxInt64; nia).
    rewrite (Z.add_comm _ size) in *.
    destruct (Z.ltb_spec (Z.of_nat (length all)) (size + (p - 1) * size)) as [Hlt'|Hge'];
      unfold slice.
    + rewrite (proj2 (Z.leb_le 0 _)) by nia. rewrite (proj2 (Z.leb_le ((p - 1) * size) _)) by lia.
      rewrite Z.leb_refl. unfold mret, M_ret, mbind, M_bind. cbn. do 3 f_equal.
      rewrite !take_ge; [done|..]; rewrite length_drop; nia.
    + rewrite (proj2 (Z.leb_le 0 _)) by nia. rewrite (proj2 (Z.leb_le ((p - 1) * size) _)) by lia.
      rewrite (proj2 (Z.leb_le _ _) Hge'). unfold mret, M_ret, mbind, M_bind. cbn. do 3 f_equal.
      f_equal. lia.
Qed.

(** A page number whose offset overflows makes [ListHistoryPaged] panic
    instead of returning an empty page, whatever the history holds. *)
Theorem ListHistoryPaged_overflow (w : World) :
  wm_locked w = false -> historyStore w = None ->
  ListHistoryPaged (2 ^ 61 + 1) 4 w = Panic.
Proof.
  intros Hl Hs. unfold ListHistoryPaged, gets, mbind, M_bind. rewrite Hs.
  unfold page_from_memory, ListHistory, lock_wm, gets, mbind, M_bind. rewrite Hl.
  set (all := sortedHistoryLocked _). clearbody all. unfold slice.
  replace (wrap64 (wrap64 _ * _)) with minInt64 by reflexivity.
  rewrite (proj2 (Z.leb_gt _ minInt64)) by (unfold minInt64; lia).
  replace (wrap64 (minInt64 + _)) with (minInt64 + 4) by reflexivity.
  rewrite (proj2 (Z.ltb_ge _ (minInt64 + 4))) by (unfold minInt64; lia).
  reflexivity.
Qed.

(** Approving a paused workflow resumes it after the paused group with the
    paused task's output, control keys removed; ends it when that was the last
    group; and, for any other recorded index, leaves it running with nothing
    started that could finish it. *)
Theorem ApproveWorkflow_resumes (uuid : string) (e : workflowEntry) (wf : Workflow) (w : World) :
  wm_locked w = false -> runningEntries w !! uuid = Some e ->
  ws_Workflow (we_state e) = Some wf -> in64 (Z.of_nat (length (TaskGroups wf))) ->
  let st := we_state e in
  let idx := PausedGroupIdx st in
  let last := Z.of_nat (length (TaskGroups wf)) - 1 in
  wp (ApproveWorkflow uuid) (fun r w' =>
    if decide (Status st = WorkflowStatusPaused) then
      r = Ok tt /\
      if (0 <=? idx) && (idx <? last) then
        running_state uuid w' = Some (st <| Status := WorkflowStatusRunning |>) /\
        spawned w' = spawned w ++ [GExecuteWorkflow RootContext uuid [clean_output (PausedTaskOutput st)] (idx + 1)]
      else if idx =? last then
        runningEntries w' !! uuid = None /\ we_ctx e ∈ cancelled w' /\
        (hist_ok w -> WorkflowUUID st = uuid -> ExecutionID st ∉ historyOrder w ->
         GetHistory uuid w' = Ret (Some (st <| Status := WorkflowStatusCompleted |>), w'))
      else
        running_state uuid w' = Some (st <| Status := WorkflowStatusRunning |>) /\
        spawned w' = spawned w
    else r = Err (NotPaused (Status st)) /\ w' = w) w.
Proof.
  intros Hl He Hwf Hlen st idx last. unfold ApproveWorkflow. apply wp_bind, wp_LockEntry; [done|]. rewrite He.
  fold st. destruct (decide (Status st = WorkflowStatusPaused)) as [Hp|Hp]; [|done].
  apply wp_bind, wp_modify. fold st in Hwf. rewrite Hwf.
  rewrite (wrap64_in (Z.of_nat (length (TaskGroups wf)) - 1))
    by (unfold in64, minInt64, maxInt64 in *; lia).
  fold last. change (PausedGroupIdx st) with idx.
  set (st' := st <| Status := WorkflowStatusRunning |>).
  assert (Hup : update_entry uuid (fun st => st <| Status := WorkflowStatusRunning |>) w =
    w <| runningEntries ::= <[uuid := e <| we_state := st' |>]> |>).
  { unfold update_entry. by rewrite He. }
  rewrite Hup. apply wp_bind, wp_modify, wp_bind.
  destruct ((0 <=? idx) && (idx <? last)) eqn:E1.
  - apply wp_spawn, wp_ret. split; [done|]. rewrite wrap64_in
      by (unfold in64, minInt64, maxInt64 in *; lia).
    split; [|done]. unfold running_state. cbn. by rewrite lookup_insert_eq.
  - destruct (idx =? last) eqn:E2.
    + match goal with |- wp _ _ ?x => set (w0 := x) end.
      assert (H0 : wm_locked w0 = false /\ runningEntries w0 !! uuid = Some (e <| we_state := st' |>) /\
        workflowHistory w0 = workflowHistory w /\
        workflowHistoryByUUID w0 = workflowHistoryByUUID w /\ historyOrder w0 = historyOrder w).
      { split_and!; [exact Hl|apply lookup_insert_eq|done..]. }
      clearbody w0. destruct H0 as (Hl0 & He0 & Eh & Eu & Eo).
      apply wp_bind, wp_LockEntry; [done|]. rewrite He0. apply wp_bind, wp_persist; [done|].
      set (st2 := we_state (e <| we_state := st' |>) <| Status := WorkflowStatusCompleted |>).
      change st2 with (st <| Status := WorkflowStatusCompleted |>). clear st2.
      set (st2 := st <| Status := WorkflowStatusCompleted |>).
      set (e2 := e <| we_state := st' |>). change (we_ctx e) with (we_ctx e2).
      destruct (persisted_outside uuid st2 e2 w0) as (Hout & Hr & Hc & _).
      pose proof (persisted_history uuid st2 e2 w0) as Hh.
      clearbody e2. remember (persisted uuid st2 e2 w0) as w1 eqn:Ew. clear Ew.
      apply wp_emit, wp_ret. split; [done|]. split_and!.
      * change (runningEntries w1 !! uuid = None). rewrite Hr. apply lookup_delete_eq.
      * change (we_ctx e2 ∈ cancelled w1). rewrite Hc. set_solver.
      * intros Hok Hu Hid. destruct Hh as (_ & _ & Hst & Hlat); [|done|by rewrite Eo|].
        { by eapply hist_ok_ext; [..|exact Hok]. }
        eapply (GetHistory_found_as _ _ _ w1); [reflexivity..|by rewrite (so_locked _ _ Hout)| |].
        -- exact Hlat.
        -- exact Hst.
    + apply wp_ret, wp_ret. split; [done|]. split; [|done].
      unfold running_state. cbn. by rewrite lookup_insert_eq.
Qed.

(** ** Witnesses: a scheduler without a store *)

Definition ex_conf : SchedConf := MkSchedConf (MkDispConfig 2 1 300 30 1) 1000 "/tasks/".
Definition ex_world : World := NewScheduler None ex_conf 0.
Definition ex_wf : Workflow := AddTaskGroup (AddTaskGroup (NewWorkflow "demo") ["a"]) ["b"].
Definition ex_state : WorkflowState := new_state ex_wf 0 <| ExecutionID := 7 |>.
Definition ex_entry : workflowEntry := MkEntry ex_state 1 false.

Lemma ex_world_ok : hist_ok ex_world.
Proof.
  split; cbn.
  - constructor.
  - intros i. rewrite lookup_empty. split; [intros Hi; by apply elem_of_nil in Hi|by intros []].
  - intros i st. by rewrite lookup_empty.
  - intros u l i. by rewrite lookup_empty.
  - intros u l. by rewrite lookup_empty.
Qed.

Lemma ex_accepted : accepted ex_wf.
Proof. split_and!; [reflexivity|discriminate|reflexivity]. Qed.

(** After one run of [ex_wf] has ended. *)
Definition ex_ended : World := persisted "demo" ex_state ex_entry ex_world.

Lemma ex_ended_ok :
  hist_ok ex_ended /\ wm_locked ex_ended = false /\
  workflowHistory ex_ended = {[7 := ex_state]} /\ latest_id "demo" ex_ended = Some 7 /\
  runningEntries ex_ended = ∅.
Proof.
  destruct (persisted_history "demo" ex_state ex_entry ex_world) as (Hok & _ & _ & Hlat);
    [apply ex_world_ok|reflexivity|cbn; set_solver|].
  destruct (persisted_outside "demo" ex_state ex_entry ex_world) as (Hout & Hr & _).
  split_and!; [exact Hok|exact (so_locked _ _ Hout)| |exact Hlat|exact Hr].
  destruct (persisted_room "demo" ex_state ex_entry ex_world) as (_ & _ & Hh & _); [done|].
  exact Hh.
Qed.

Lemma PersistWorkflowLocked_history_witness :
  wp (PersistWorkflowLocked "demo" ex_state ex_entry;; GetHistory "demo")
    (fun found _ => found = Some ex_state) ex_world.
Proof.
  eapply wp_mono; [apply (PersistWorkflowLocked_history "demo" ex_state ex_entry ex_world)|].
  - reflexivity.
  - apply ex_world_ok.
  - reflexivity.
  - cbn. set_solver.
  - intros found w' [-> _]. reflexivity.
Defined.

Lemma history_collides_witness :
  wp (PersistWorkflowLocked "x" (registered_state (NewWorkflow "x")) ex_entry;;
      PersistWorkflowLocked "y" (registered_state (NewWorkflow "y")) ex_entry;; GetHistory "x")
    (fun found _ => found = Some (registered_state (NewWorkflow "y"))) ex_world.
Proof. apply history_collides; [reflexivity|reflexivity|discriminate|vm_compute; congruence]. Defined.

Lemma ex_registry : registry_ok ex_world.
Proof. intros u wf. change (registeredWorkflows ex_world) with (∅ : gmap string Workflow). by rewrite lookup_empty. Qed.

Lemma RegisterWorkflow_registry_witness :
  wp (RegisterWorkflow (NewWorkflow "nan" <| TaskGroups :=
        [[named_node "a" <| Params := Some {["x" := VFloat64 SpecFloat.S754_nan]} |>]] |>))
    (fun _ w' => SubmitWorkflow ex_wf w' = Blocked) ex_world.
Proof.
  eapply wp_mono; [apply RegisterWorkflow_registry; [reflexivity|apply ex_registry]|].
  intros [] w' [_ H].
  destruct (is_ok _ && is_ok _) eqn:E; [|vm_compute in E; discriminate].
  destruct (DeepCopy _) eqn:Ec; [vm_compute in Ec; discriminate|].
  apply H, ex_accepted.
Defined.

Lemma RunWorkflow_starts_witness :
  wp (RunWorkflow "demo") (fun r _ => r = Err NotRegistered) ex_world.
Proof.
  eapply wp_mono; [apply (RunWorkflow_starts "demo" ex_world); [reflexivity|apply ex_registry]|].
  intros r w' [-> _]. reflexivity.
Defined.

Lemma RetryWorkflow_restarts_witness :
  wp (RetryWorkflow "demo") (fun r w' => r = Ok tt /\ workflowHistory w' = ∅) ex_ended.
Proof.
  destruct ex_ended_ok as (Hok & Hl & Hh & Hlat & Hr).
  eapply wp_mono; [apply (RetryWorkflow_restarts "demo" ex_ended); [exact Hl|exact Hok|]|].
  - rewrite Hh. intros i st [<- <-]%lookup_singleton_Some. exists ex_wf.
    split; [reflexivity|apply ex_accepted].
  - intros r w' [_ H]. rewrite Hr, lookup_empty, Hlat in H.
    destruct H as (st & wf & Hst & Hwf & _ & H). rewrite Hh in *.
    apply lookup_singleton_Some in Hst as [_ <-]. injection Hwf as <-.
    destruct (DeepCopy ex_wf) eqn:Ec; [|vm_compute in Ec; discriminate].
    destruct H as (-> & -> & _). split; [reflexivity|]. apply delete_singleton_eq.
Defined.

Lemma ListHistoryPaged_memory_witness :
  ListHistoryPaged 1 20 ex_ended = Ret (([ex_state], 1), ex_ended).
Proof.
  destruct ex_ended_ok as (Hok & Hl & Hh & Hlat & Hr).
  assert (Hs : historyStore ex_ended = None).
  { exact (so_store _ _ (proj1 (persisted_outside "demo" ex_state ex_entry ex_world))). }
  pose proof (ListHistoryPaged_memory 1 20 ex_ended Hl Hs) as H. rewrite Hh in H.
  destruct H as [-> _]; [reflexivity|discriminate|discriminate|]. reflexivity.
Defined.

Lemma ListHistoryPaged_overflow_witness : ListHistoryPaged (2 ^ 61 + 1) 4 ex_world = Panic.
Proof. apply ListHistoryPaged_overflow; reflexivity. Defined.

Definition ex_paused : World :=
  ex_world <| runningEntries := {["demo" := MkEntry (ex_state <| Status := WorkflowStatusPaused |>
    <| PausedTaskOutput := {["approval" := VNil; "x" := VInt 1]} |>) 1 false]} |>.

Lemma ApproveWorkflow_resumes_witness :
  wp (ApproveWorkflow "demo") (fun r w' =>
    r = Ok tt /\ exists up, spawned w' = [GExecuteWorkflow RootContext "demo" [up] 1]) ex_paused.
Proof.
  eapply wp_mono; [eapply (ApproveWorkflow_resumes "demo" _ ex_wf ex_paused)|].
  - reflexivity.
  - reflexivity.
  - reflexivity.
  - vm_compute. split; discriminate.
  - intros r w' H. cbn in H. destruct H as (-> & _ & ->). split; [reflexivity|]. eexists. reflexivity.
Defined.

(** Proofs about callers use [persist_eq] and what is proved of [persisted]. *)
#[global] Opaque persisted.
