(* ===== verification/Repository.v ===== *)
(** * Persistence and recovery (infra/engine/scheduler/repository.go)

    What is written to MySQL, when, and behind which circuit breaker; the
    incremental snapshots of running workflows; and what a restarted master
    makes of what it reads. *)
From Stdlib Require Import ZArith Lia Sorted.
From stdpp Require Import base gmap strings list.
From S2P Require Import Prelude GoVal Model Validate Payload Dispatcher Watchers.
From S2P Require Import EventTriggers Circuit World Copy Manager.
Set Warnings "-register-all,-clear-no-such-hyp,-level-tolerance".
Local Open Scope Z_scope.
Local Open Scope list_scope.

Definition persistBaseBackoff : Z := 500000000.
Definition persistMaxBackoff : Z := 10 * Second.
Definition defaultMaxHistoryInMemory : Z := 500.
Definition snapshotThrottleInterval : Z := 5 * Second.

(** ** The breaker of the MySQL calls *)

Definition breaker_allow : M World bool := fun w =>
  let '(ok, b) := Allow (now w) (mysqlBreaker w) in Ret (ok, w <| mysqlBreaker := b |>).

Definition breaker_success : M World unit :=
  modify (fun w => w <| mysqlBreaker ::= Success (now w) |>).

Definition breaker_failure : M World unit :=
  modify (fun w => w <| mysqlBreaker ::= Failure (now w) |>).

(** ** The persistence pool *)

Section pool.
Context `{Naming}.

(** [i] of [maxRetries]: a failed attempt sleeps before the next one. *)
Fixpoint attempts (fuel : nat) (i : Z) (call : M World (res string unit)) : M World bool :=
  match fuel with
  | O => mret false
  | S fuel' =>
      r ← call;
      match r with
      | Ok _ => mret true
      | Err _ =>
          match fuel' with
          | O => mret false
          | _ => rnd ← draw_u64;
                 sleep (backoffWithJitter i persistBaseBackoff persistMaxBackoff rnd);;
                 attempts fuel' (i + 1) call
          end
      end
  end.

(** With no store, the call is on a nil interface. *)
Definition persistToMySQLInternal (job : persistJob) : M World unit :=
  ok ← breaker_allow;
  if negb ok then mret tt
  else
    hs ← gets historyStore;
    match hs with
    | None => panic
    | Some hs =>
        let status := status_string (job_status job) in
        statusOk ← attempts 3 0
          (db_write_call (WUpdateWorkflowStatus (job_workflowID job) status)
             (fun n => UpdateWorkflowStatus hs n (job_workflowID job) status));
        (if statusOk : bool then mret tt else breaker_failure);;
        execOk ← attempts 3 0
          (db_write_call (WUpdateExecution (job_execID job) (job_val job) status (job_errMsg job))
             (fun n => UpdateExecution hs n (job_execID job) (job_val job) status (job_errMsg job)));
        if execOk : bool then breaker_success else breaker_failure
    end.

(** One turn of a worker of the pool. *)
Definition pool_worker : M World unit :=
  l ← gets jobs;
  match l with
  | [] => mret tt
  | job :: rest => modify (fun w => w <| jobs := rest |>);; persistToMySQLInternal job
  end.

End pool.

(** ** Incremental snapshots *)

Definition snapshotted (st : WorkflowState) (taskName : string) : bool :=
  negb (default 0 (Snapshotted st !! taskName) =? 0).

(** The tasks of [m] that no snapshot has recorded. *)
Definition new_tasks {A : Type} (st : WorkflowState) (m : gmap string A) : list (string * A) :=
  filter (fun kv => snapshotted st kv.1 = false) (map_to_list m).

Definition collected (st : WorkflowState) : list TaskDelta :=
  ((fun '(n, out) => MkTaskDelta n "completed" out "") <$> new_tasks st (CompletedTasks st)) ++
  ((fun '(n, r) => MkTaskDelta n "failed" ∅ r) <$> new_tasks st (FailedTasks st)) ++
  ((fun '(n, _) => MkTaskDelta n "rolled_back" ∅ "") <$> new_tasks st (RolledBack st)).

Definition known_task (st : WorkflowState) (n : string) : bool :=
  bool_decide (is_Some (CompletedTasks st !! n) \/ is_Some (FailedTasks st !! n) \/
               is_Some (RolledBack st !! n)).

Definition collectTaskDeltasLocked (st : WorkflowState) : list TaskDelta * WorkflowState :=
  let deltas := collected st in
  let seq := wrapU64 (SnapshotSeq st + 1) in
  let marked := foldl (fun m d => <[d_TaskName d := seq]> m) (Snapshotted st) deltas in
  let marked :=
    if negb (bool_decide (deltas = [])) && (seq mod 10 =? 0) then
      filter (fun kv => known_task st kv.1 = true) marked
    else marked in
  (deltas, st <| SnapshotSeq := seq |> <| Snapshotted := marked |>).

Definition snapshotRunningWorkflow (uuid : string) : M World unit :=
  go ← snapshotThrottle uuid snapshotThrottleInterval;
  if negb go then mret tt
  else
  allowed ← breaker_allow;
  if negb allowed then mret tt
  else
  entry ← LockEntry uuid;
  match entry with
  | None => mret tt
  | Some entry =>
      let execID := ExecutionID (we_state entry) in
      hs ← gets historyStore;
      match hs with
      | None => mret tt
      | Some _ =>
          if execID =? 0 then mret tt
          else
            t ← gets now;
            let '(deltas, st) := collectTaskDeltasLocked (we_state entry) in
            let snapshot := MkWorkflowSnapshot uuid execID (status_string (Status st)) deltas
                              (ws_Error st) t in
            modify (update_entry uuid (fun _ => st));;
            if forallb (fun d => encodable_map (d_Output d)) deltas then
              spawn (GSaveTaskDeltas execID snapshot)
            else mret tt
      end
  end.

(** The goroutine a snapshot starts. *)
Definition run_save_deltas (execID : Z) (snapshot : WorkflowSnapshot) : M World unit :=
  hs ← gets historyStore;
  match hs with
  | None => panic
  | Some hs =>
      r ← db_write_call (WSaveTaskDeltas execID snapshot) (fun n => SaveTaskDeltas hs n execID snapshot);
      match r with Ok _ => breaker_success | Err _ => breaker_failure end
  end.

Definition saveTaskRecord (payload : TaskPayload) (execID workflowID : Z) : M World unit :=
  hs ← gets historyStore;
  match hs with
  | None => mret tt
  | Some _ =>
      if execID =? 0 then mret tt
      else
        allowed ← breaker_allow;
        if allowed : bool then spawn (GSaveTask execID workflowID payload) else mret tt
  end.

Definition run_save_task (execID workflowID : Z) (payload : TaskPayload) : M World unit :=
  hs ← gets historyStore;
  match hs with
  | None => panic
  | Some hs =>
      r ← db_write_call (WSaveTask execID workflowID payload)
            (fun n => SaveTask hs n execID workflowID payload);
      match r with Ok _ => breaker_success | Err _ => breaker_failure end
  end.

(** ** Start-up *)

Definition load_record (rec : ExecutionRecord) (w : World) : World :=
  match er_Data rec with
  | None => w
  | Some state =>
      w <| workflowHistory ::= <[er_ExecutionID rec := state]> |>
        <| workflowHistoryByUUID ::= fun m =>
             <[er_UUID rec := default [] (m !! er_UUID rec) ++ [er_ExecutionID rec]]> m |>
        <| historyOrder ::= fun l => l ++ [er_ExecutionID rec] |>
  end.

Definition loadHistory : M World unit :=
  hs ← gets historyStore;
  match hs with
  | None => mret tt
  | Some hs =>
      conf ← gets w_conf;
      let maxInMemory := if MaxHistoryCache conf <=? 0 then defaultMaxHistoryInMemory
                         else MaxHistoryCache conf in
      r ← db_call (fun n => LoadExecutions hs n 0 maxInMemory);
      match r with
      | Err _ => mret tt
      | Ok (records, _) =>
          for_each (fun rec => lock_wm;; modify (load_record rec)) records
      end
  end.

(** The first task of a group that is not completed, and whether it is pending
    in etcd. *)
Fixpoint open_task (pending : gset string) (completed : gmap string vmap) (g : list TaskNode)
  : option (TaskNode * bool) :=
  match g with
  | [] => None
  | n :: g' =>
      match completed !! Name n with
      | Some _ => open_task pending completed g'
      | None => Some (n, bool_decide (Name n ∈ pending))
      end
  end.

(** Where a recovered run goes on: the first group with a task that is not
    completed, and the outputs of the groups before it.  (Of a pending task it
    is logged that its group is skipped.) *)
Fixpoint recovery_point (pending : gset string) (gi : Z) (groups : list (list TaskNode))
    (completed : gmap string vmap) (upstream : list vmap) : Z * list vmap :=
  match groups with
  | [] => (gi, upstream)
  | g :: groups' =>
      let allCompleted := match open_task pending completed g with
                          | None => true
                          | Some (_, true) => false
                          | Some (_, false) => false
                          end in
      if allCompleted then
        recovery_point pending (gi + 1) groups' completed
          (upstream ++ omap (fun n => completed !! Name n) g)
      else (gi, upstream)
  end.

(** The names of the workflow's tasks still pending in etcd. *)
Definition scanEtcdPendingTasks (workflowUUID : string) : M World (gset string) :=
  prefix ← gets (fun w => tasks_prefix (w_conf w) +:+ StatusPending +:+ "/" +:+ workflowUUID +:+ "/");
  ok ← store_answer;
  if ok : bool then
    gets (fun w => list_to_set
      (TaskName ∘ snd <$> filter (fun kv => String.prefix prefix kv.1 = true) (map_to_list (etcd w))))
  else mret ∅.

Definition applyDeltasToState (hs : HistoryStore) (execID : Z) (st : WorkflowState)
  : M World WorkflowState :=
  r ← db_call (fun n => LoadTaskDeltas hs n execID);
  mret match r with Ok (Some deltas) => ApplyDeltas st deltas | _ => st end.

Definition apply_recorded (hs : HistoryStore) (execID : Z)
    (allDeltas : option (gmap Z (option (list TaskDelta)))) (st : WorkflowState)
  : M World WorkflowState :=
  match allDeltas with
  | Some m => mret match m !! execID with Some (Some deltas) => ApplyDeltas st deltas | _ => st end
  | None => applyDeltasToState hs execID st
  end.

(** The status and the indexes of a recovered state. *)
Definition revived (wf : Workflow) (st : WorkflowState) : WorkflowState :=
  st <| Status := WorkflowStatusRunning |>
     <| TaskGroupIndex ::= fun i => if decide (i = ∅) then BuildTaskGroupIndex wf else i |>
     <| BranchTaskIndex ::= fun i => if decide (i = ∅) then BuildBranchTaskIndex wf else i |>.

(** What is left of the time of a run that has begun at [StartedAt]. *)
Definition time_left (wf : Workflow) (st : WorkflowState) (t : Z) : Z :=
  let remaining := wrap64 (wrap64 (TimeoutSec wf * Second) - (t - StartedAt st)) in
  if 0 <? remaining then remaining else 0.

Definition recoverSingleWorkflow (rec : ExecutionRecord)
    (allDeltas : option (gmap Z (option (list TaskDelta)))) : M World unit :=
  match er_Data rec with
  | None => mret tt
  | Some state =>
      let uuid := if decide (WorkflowUUID state = "") then
                    match ws_Workflow state with Some wf => UUID wf | None => "" end
                  else WorkflowUUID state in
      if decide (uuid = "") then mret tt
      else
        hs ← gets historyStore;
        match hs with
        | None => panic
        | Some hs =>
            pending ← scanEtcdPendingTasks uuid;
            state ← apply_recorded hs (er_ExecutionID rec) allDeltas state;
            match ws_Workflow state with
            | None => panic
            | Some wf =>
                let groups := TaskGroups wf in
                let '(startGroupIdx, upstream) := recovery_point pending 0 groups (CompletedTasks state) [] in
                ctx ← gets nextCtx;
                modify (fun w => w <| nextCtx ::= S |>);;
                let state := revived wf state in
                lock_wm;;
                existing ← gets (fun w => runningEntries w !! uuid);
                match existing with
                | Some _ => modify (fun w => w <| cancelled ::= fun s => {[ctx]} ∪ s |>)
                | None =>
                    modify (fun w => w <| runningEntries ::= <[uuid := MkEntry state ctx true]> |>);;
                    spawn (GWatchWorkflowStatus ctx uuid);;
                    t ← gets now;
                    (if 0 <? TimeoutSec wf
                     then spawn (GTimeoutAfter ctx uuid (time_left wf state t))
                     else mret tt);;
                    (if startGroupIdx <? Z.of_nat (length groups)
                     then spawn (GExecuteWorkflow ctx uuid upstream startGroupIdx)
                     else mret tt)
                end
            end
        end
  end.

(** The recoveries run in parallel; their order is the records' here. *)
Definition recoverRunningWorkflows : M World unit :=
  hs ← gets historyStore;
  match hs with
  | None => mret tt
  | Some hs =>
      r ← db_call (fun n => LoadRunningExecutions hs n);
      match r with
      | Err _ | Ok [] => mret tt
      | Ok records =>
          d ← db_call (fun n => BatchLoadTaskDeltas hs n (er_ExecutionID <$> records));
          let allDeltas := match d with
                           | Ok m => if decide (m = ∅) then None else Some m
                           | Err _ => None
                           end in
          for_each (fun rec => recoverSingleWorkflow rec allDeltas) records
      end
  end.

(** ** Lemmas: snapshots *)

Lemma elem_of_new_tasks {A : Type} st (m : gmap string A) n x :
  (n, x) ∈ new_tasks st m <-> m !! n = Some x /\ snapshotted st n = false.
Proof. unfold new_tasks. rewrite list_elem_of_filter, elem_of_map_to_list. cbn. tauto. Qed.

Lemma new_tasks_NoDup {A : Type} st (m : gmap string A) : NoDup (new_tasks st m).*1.
Proof.
  eapply sublist_NoDup; [apply (NoDup_fst_map_to_list m)|]. apply fmap_sublist, sublist_filter.
Qed.

(** Applying the deltas of one kind: each listed task gets its value. *)
Lemma apply_kind {A V : Type} (mk : string * A -> TaskDelta) (get : WorkflowState -> gmap string V)
    (value : A -> V) (l : list (string * A)) base :
  (forall s p, get (ApplyDelta s (mk p)) = <[p.1 := value p.2]> (get s)) ->
  get (ApplyDeltas base (mk <$> l)) = insert_all fst (fun p => value p.2) (get base) l.
Proof.
  intros Hmk. revert base. induction l as [|p l IH]; intros base; [done|]. cbn.
  unfold ApplyDeltas in *. rewrite IH. cbn. by rewrite Hmk.
Qed.

Lemma apply_other {A V : Type} (mk : string * A -> TaskDelta) (get : WorkflowState -> V)
    (l : list (string * A)) base :
  (forall s p, get (ApplyDelta s (mk p)) = get s) ->
  get (ApplyDeltas base (mk <$> l)) = get base.
Proof.
  intros Hmk. revert base. induction l as [|p l IH]; intros base; [done|]. cbn.
  unfold ApplyDeltas in *. rewrite IH. apply Hmk.
Qed.

(** The tasks of [m] not yet snapshotted, over what [base] has. *)
Lemma insert_new_tasks {A V : Type} (value : A -> V) st (m : gmap string A) (base : gmap string V) n :
  insert_all fst (fun p => value p.2) base (new_tasks st m) !! n =
  if snapshotted st n then base !! n
  else match m !! n with Some x => Some (value x) | None => base !! n end.
Proof.
  destruct (decide (n ∈ fst <$> new_tasks st m)) as [Hin|Hin].
  - apply list_elem_of_fmap in Hin as ([n' x] & -> & Hx). cbn.
    pose proof (insert_all_elem fst (fun p => value p.2) base (new_tasks st m) (n', x)
      (new_tasks_NoDup st m) Hx) as Hi. cbn in Hi. rewrite Hi.
    apply elem_of_new_tasks in Hx as [Hx Hs]. by rewrite Hs, Hx.
  - rewrite insert_all_ne by done. destruct (snapshotted st n) eqn:Hs; [done|].
    destruct (m !! n) as [x|] eqn:Hx; [|done]. destruct Hin.
    apply list_elem_of_fmap. exists (n, x). by rewrite elem_of_new_tasks.
Qed.

Lemma ApplyDelta_completed s n out :
  ApplyDelta s (MkTaskDelta n "completed" out "") = s <| CompletedTasks ::= <[n := out]> |>.
Proof. done. Qed.

Lemma ApplyDelta_failed s n r :
  ApplyDelta s (MkTaskDelta n "failed" ∅ r) = s <| FailedTasks ::= <[n := r]> |>.
Proof. done. Qed.

Lemma ApplyDelta_rolled s n :
  ApplyDelta s (MkTaskDelta n "rolled_back" ∅ "") = s <| RolledBack ::= <[n := true]> |>.
Proof. done. Qed.

(** Marking the collected tasks. *)
Lemma marked_lookup (deltas : list TaskDelta) (seq : Z) (m : gmap string Z) n :
  foldl (fun m d => <[d_TaskName d := seq]> m) m deltas !! n =
  if decide (n ∈ d_TaskName <$> deltas) then Some seq else m !! n.
Proof.
  revert m. induction deltas as [|d deltas IH]; intros m; [done|]. cbn. rewrite IH.
  repeat case_decide; try set_solver.
  - assert (n = d_TaskName d) as -> by set_solver. apply lookup_insert_eq.
  - apply lookup_insert_ne. set_solver.
Qed.

Lemma collected_names st n :
  n ∈ d_TaskName <$> collected st <-> known_task st n = true /\ snapshotted st n = false.
Proof.
  unfold collected, known_task. rewrite !fmap_app, <- !list_fmap_compose, !elem_of_app,
    !list_elem_of_fmap, bool_decide_eq_true. split.
  - intros [([a x] & -> & Hx)|[([a x] & -> & Hx)|([a x] & -> & Hx)]]; cbn in *;
      apply elem_of_new_tasks in Hx as [Hx Hs]; (split; [|done]); eauto 6.
  - intros [[[x Hx]|[[x Hx]|[x Hx]]] Hs]; [left|right; left|right; right]; exists (n, x);
      (split; [done|]); by apply elem_of_new_tasks.
Qed.

(** ** Properties: snapshots *)

(** C20: a snapshot carries exactly the tasks that no earlier one recorded, so
    that applying it to any state brings that state's completed, failed and
    rolled back tasks up to date, recorded tasks aside; what it carried is then
    recorded, and a second snapshot of the same state is empty. *)
Theorem snapshot_roundtrip (st base : WorkflowState) :
  0 <= SnapshotSeq st < two64 - 1 ->
  let '(deltas, st') := collectTaskDeltasLocked st in
  let base' := ApplyDeltas base deltas in
  (forall n, CompletedTasks base' !! n =
     if snapshotted st n then CompletedTasks base !! n
     else match CompletedTasks st !! n with Some o => Some o | None => CompletedTasks base !! n end) /\
  (forall n, FailedTasks base' !! n =
     if snapshotted st n then FailedTasks base !! n
     else match FailedTasks st !! n with Some r => Some r | None => FailedTasks base !! n end) /\
  (forall n, RolledBack base' !! n =
     if snapshotted st n then RolledBack base !! n
     else match RolledBack st !! n with Some _ => Some true | None => RolledBack base !! n end) /\
  CompletedTasks st' = CompletedTasks st /\ FailedTasks st' = FailedTasks st /\
  RolledBack st' = RolledBack st /\ (collectTaskDeltasLocked st').1 = [].
Proof.
  intros Hseq. unfold collectTaskDeltasLocked. cbv beta iota zeta. split_and!; try done.
  - intros n. unfold collected. rewrite !ApplyDeltas_app.
    rewrite (apply_other _ CompletedTasks), (apply_other _ CompletedTasks) by (by intros s []).
    rewrite (apply_kind _ CompletedTasks (fun o => o)) by (by intros s []).
    rewrite (insert_new_tasks (fun o => o)). done.
  - intros n. unfold collected. rewrite !ApplyDeltas_app.
    rewrite (apply_other _ FailedTasks) by (by intros s []).
    rewrite (apply_kind _ FailedTasks (fun o => o)) by (by intros s []).
    rewrite (insert_new_tasks (fun o => o)), (apply_other _ FailedTasks) by (by intros s []). done.
  - intros n. unfold collected. rewrite !ApplyDeltas_app.
    rewrite (apply_kind _ RolledBack (fun _ => true)) by (by intros s []).
    rewrite (insert_new_tasks (fun _ => true)), !(apply_other _ RolledBack) by (by intros s []). done.
  - assert (Hs : wrapU64 (SnapshotSeq st + 1) = SnapshotSeq st + 1)
      by (unfold wrapU64; apply Z.mod_small; lia).
    set (st' := _ <| Snapshotted := _ |>).
    cut (forall n, n ∉ d_TaskName <$> collected st').
    { intros H. cbn. destruct (collected st') as [|d l]; [done|]. destruct (H (d_TaskName d)). left. }
    intros n [Hk Hn]%collected_names. change (known_task st' n) with (known_task st n) in Hk.
    assert (Hm : foldl (fun m d => <[d_TaskName d := wrapU64 (SnapshotSeq st + 1)]> m)
      (Snapshotted st) (collected st) !! n = Snapshotted st' !! n).
    { unfold st'. cbn [Snapshotted upd]. cbn. case_match; [|done].
      rewrite map_lookup_filter. cbn. destruct (foldl _ _ _ !! n); [|done]. cbn. by rewrite Hk. }
    unfold snapshotted in Hn. rewrite <- Hm, marked_lookup in Hn. case_decide as Hd.
    + cbn in Hn. rewrite Hs in Hn. destruct (Z.eqb_spec (SnapshotSeq st + 1) 0); [lia|done].
    + apply Hd, collected_names. split; [done|]. exact Hn.
Qed.

Lemma snapshot_roundtrip_witness :
  let st := new_state ex_wf 0 <| CompletedTasks := {["a" := {["x" := VInt 1]}]} |> in
  CompletedTasks (ApplyDeltas (new_state ex_wf 0) (collectTaskDeltasLocked st).1) !! "a" =
  Some {["x" := VInt 1]}.
Proof.
  intros st.
  pose proof (snapshot_roundtrip st (new_state ex_wf 0)) as H.
  destruct (collectTaskDeltasLocked st) as [deltas st']. destruct H as (H & _).
  - vm_compute. split; [discriminate|reflexivity].
  - cbn zeta. rewrite H. reflexivity.
Defined.

(** ** Properties: recovery *)

Lemma open_task_spec pending completed g :
  match open_task pending completed g with
  | None => forall node, node ∈ g -> is_Some (completed !! Name node)
  | Some (node, _) => node ∈ g /\ completed !! Name node = None
  end.
Proof.
  induction g as [|n g IH]; cbn; [intros node Hn; by apply elem_of_nil in Hn|].
  destruct (completed !! Name n) eqn:Hn; [|by split; [left|]].
  destruct (open_task pending completed g) as [[node b]|]; [split; [right|]; tauto|].
  intros node [->|Hin]%elem_of_cons; [by eexists|by apply IH].
Qed.

(** The scan for pending tasks has no bearing on where the run goes on. *)
Lemma recovery_point_pending pending pending' groups completed : forall gi upstream,
  recovery_point pending gi groups completed upstream = recovery_point pending' gi groups completed upstream.
Proof.
  assert (Hopen : forall g, open_task pending completed g = None <-> open_task pending' completed g = None)
    by (induction g as [|n g IH]; cbn; [done|]; by destruct (completed !! Name n)).
  induction groups as [|g groups IH]; intros gi upstream; [done|]. cbn. specialize (Hopen g).
  destruct (open_task pending completed g) as [[? []]|], (open_task pending' completed g) as [[? []]|];
    naive_solver.
Qed.

Lemma recovery_point_spec pending groups completed : forall gi upstream,
  exists n, (n <= length groups)%nat /\
    recovery_point pending gi groups completed upstream =
      (gi + Z.of_nat n, upstream ++ omap (fun node => completed !! Name node) (concat (take n groups))) /\
    (forall node, node ∈ concat (take n groups) -> is_Some (completed !! Name node)) /\
    ((n < length groups)%nat ->
     exists g node, groups !! n = Some g /\ node ∈ g /\ completed !! Name node = None).
Proof.
  induction groups as [|g groups IH]; intros gi upstream.
  - exists O. cbn. rewrite app_nil_r, Z.add_0_r. split_and!; [done|done|set_solver|lia].
  - cbn. pose proof (open_task_spec pending completed g) as Hg.
    destruct (open_task pending completed g) as [[node b]|].
    2: { destruct (IH (gi + 1) (upstream ++ omap (fun n => completed !! Name n) g))
        as (n & Hn & Hr & Hall & Hnext). exists (S n). split_and!; [lia| | |].
      * rewrite Hr. cbn. rewrite omap_app, (assoc_L app). f_equal. lia.
      * intros node. cbn. intros [Hin|Hin]%elem_of_app; [by apply Hg|by apply Hall].
      * intros Hlt. apply Hnext. lia. }
    exists O. cbn. rewrite app_nil_r, Z.add_0_r. split_and!; [lia|by destruct b|set_solver|].
    intros _. by exists g, node.
Qed.

Lemma wp_scan uuid (Q : gset string -> World -> Prop) w :
  (forall r f, Q r (w <| faults := f |>)) -> wp (scanEtcdPendingTasks uuid) Q w.
Proof.
  intros HQ. assert (HQ' : forall r, Q r w) by (intros r; specialize (HQ r (faults w)); by destruct w).
  unfold scanEtcdPendingTasks, store_answer. apply wp_bind, wp_gets, wp_bind. unfold wp at 1.
  destruct (faults w) as [|[] l]; [apply wp_gets, HQ'|apply wp_gets, HQ|apply wp_ret, HQ].
Qed.

(** What the batch of deltas says of an execution. *)
Definition with_deltas (m : gmap Z (option (list TaskDelta))) (execID : Z) (st : WorkflowState)
  : WorkflowState :=
  match m !! execID with Some (Some deltas) => ApplyDeltas st deltas | _ => st end.

Lemma recovered_run (rec : ExecutionRecord) (hs : HistoryStore)
    (m : gmap Z (option (list TaskDelta))) (st : WorkflowState) (wf : Workflow) (w : World) :
  wm_locked w = false -> historyStore w = Some hs -> er_Data rec = Some st ->
  WorkflowUUID st <> "" -> ws_Workflow (with_deltas m (er_ExecutionID rec) st) = Some wf ->
  let uuid := WorkflowUUID st in
  let st' := with_deltas m (er_ExecutionID rec) st in
  let ctx := nextCtx w in
  wp (recoverSingleWorkflow rec (Some m)) (fun _ w' =>
    match runningEntries w !! uuid with
    | Some _ => runningEntries w' = runningEntries w /\ spawned w' = spawned w
    | None =>
        runningEntries w' = <[uuid := MkEntry (revived wf st') ctx true]> (runningEntries w) /\
        Status (revived wf st') = WorkflowStatusRunning /\
        CompletedTasks (revived wf st') = CompletedTasks st' /\
        exists n up,
          up = omap (fun node => CompletedTasks st' !! Name node) (concat (take n (TaskGroups wf))) /\
          (forall node, node ∈ concat (take n (TaskGroups wf)) ->
             is_Some (CompletedTasks st' !! Name node)) /\
          spawned w' = spawned w ++ GWatchWorkflowStatus ctx uuid ::
            (if 0 <? TimeoutSec wf then [GTimeoutAfter ctx uuid (time_left wf st' (now w))] else []) ++
            (if decide (n < length (TaskGroups wf))%nat
             then [GExecuteWorkflow ctx uuid up (Z.of_nat n)] else []) /\
          ((n < length (TaskGroups wf))%nat ->
           exists g node, TaskGroups wf !! n = Some g /\ node ∈ g /\ CompletedTasks st' !! Name node = None)
    end) w.
Proof.
  intros Hl Hs Hd Hu Hwf uuid st' ctx. unfold recoverSingleWorkflow. rewrite Hd.
  rewrite (decide_False (P := WorkflowUUID st = "")) by done. rewrite decide_False by done.
  apply wp_bind, wp_gets. rewrite Hs. apply wp_bind, wp_scan. intros r f.
  unfold apply_recorded. fold (with_deltas m (er_ExecutionID rec) st). apply wp_bind, wp_ret.
  rewrite Hwf. fold st'.
  destruct (recovery_point_spec r (TaskGroups wf) (CompletedTasks st') 0 []) as (n & Hn & -> & Hall & Hnext).
  cbn [app]. rewrite Z.add_0_l.
  apply wp_bind, wp_gets, wp_bind, wp_modify, wp_bind, wp_lock_wm; [exact Hl|].
  apply wp_bind, wp_gets. cbn [runningEntries upd].
  change (runningEntries _) with (runningEntries w) at 1. fold uuid.
  destruct (runningEntries w !! uuid); [by apply wp_modify|].
  apply wp_bind, wp_modify, wp_bind, wp_spawn, wp_bind, wp_gets, wp_bind.
  set (W := upd spawned _ _).
  assert (HW : runningEntries W = <[uuid := MkEntry (revived wf st') ctx true]> (runningEntries w) /\
    spawned W = spawned w ++ [GWatchWorkflowStatus ctx uuid] /\ now W = now w) by done.
  clearbody W. destruct HW as (HWr & HWs & HWn).
  eapply (wp_mono _ (fun _ w' => runningEntries w' = runningEntries W /\
    spawned w' = spawned W ++
      (if 0 <? TimeoutSec wf then [GTimeoutAfter ctx uuid (time_left wf st' (now w))] else []))).
  { rewrite HWn. case_match; [by apply wp_spawn|apply wp_ret; by rewrite app_nil_r]. }
  intros [] w1 (Hr1 & Hs1).
  destruct (Z.ltb_spec (Z.of_nat n) (Z.of_nat (length (TaskGroups wf)))) as [Hlt|Hge];
    [apply wp_spawn|apply wp_ret]; (split_and!; [cbn; congruence|done|done|]);
    exists n; eexists; (split; [reflexivity|]); (split; [exact Hall|]); (split; [|done]).
  - rewrite decide_True by lia. cbn. by rewrite Hs1, HWs, <- !(assoc_L app).
  - rewrite decide_False by lia. by rewrite Hs1, HWs, app_nil_r, <- (assoc_L app).
Qed.

(** C24: a recovered run is RUNNING, whatever its recorded status, paused runs
    included, and keeps its recorded progress.  Started for it are its watcher;
    when it has a limit, a timer for what is left of it; and, unless
    every task is completed, its execution from the first group with a task
    that is not, with the outputs of all the groups before; nothing else.  A
    workflow that runs already is left alone. *)
Theorem recoverSingleWorkflow_resumes (rec : ExecutionRecord) (hs : HistoryStore)
    (m : gmap Z (option (list TaskDelta))) (st : WorkflowState) (wf : Workflow) (w : World) :
  wm_locked w = false -> historyStore w = Some hs -> er_Data rec = Some st ->
  WorkflowUUID st <> "" -> ws_Workflow (with_deltas m (er_ExecutionID rec) st) = Some wf ->
  let uuid := WorkflowUUID st in
  let st' := with_deltas m (er_ExecutionID rec) st in
  let ctx := nextCtx w in
  wp (recoverSingleWorkflow rec (Some m)) (fun _ w' =>
    match runningEntries w !! uuid with
    | Some _ => runningEntries w' = runningEntries w /\ spawned w' = spawned w
    | None =>
        runningEntries w' = <[uuid := MkEntry (revived wf st') ctx true]> (runningEntries w) /\
        Status (revived wf st') = WorkflowStatusRunning /\
        CompletedTasks (revived wf st') = CompletedTasks st' /\
        exists n up,
          up = omap (fun node => CompletedTasks st' !! Name node) (concat (take n (TaskGroups wf))) /\
          (forall node, node ∈ concat (take n (TaskGroups wf)) ->
             is_Some (CompletedTasks st' !! Name node)) /\
          spawned w' = spawned w ++ GWatchWorkflowStatus ctx uuid ::
            (if 0 <? TimeoutSec wf then [GTimeoutAfter ctx uuid (time_left wf st' (now w))] else []) ++
            (if decide (n < length (TaskGroups wf))%nat
             then [GExecuteWorkflow ctx uuid up (Z.of_nat n)] else []) /\
          ((n < length (TaskGroups wf))%nat ->
           exists g node, TaskGroups wf !! n = Some g /\ node ∈ g /\ CompletedTasks st' !! Name node = None)
    end) w.
Proof. apply recovered_run. Qed.

Definition ex_hs : HistoryStore :=
  MkHistoryStore (fun _ _ => Ok 1) (fun _ _ => Ok 1) (fun _ _ _ _ _ => Ok 7) (fun _ _ _ => Ok tt)
    (fun _ _ _ _ _ => Ok tt) (fun _ _ _ _ => Ok tt) (fun _ _ _ => Ok tt) (fun _ _ => Ok None)
    (fun _ _ => Ok ∅)
    (fun _ _ _ => Ok ([MkExecutionRecord 9 "demo" "demo" (Some (ex_state <| ExecutionID := 9 |>));
                       MkExecutionRecord 7 "demo" "demo" (Some ex_state)], 2))
    (fun _ _ => Ok None) (fun _ => Ok []).

Lemma recoverSingleWorkflow_resumes_witness :
  wp (recoverSingleWorkflow
        (MkExecutionRecord 7 "demo" "demo" (Some (ex_state <| Status := WorkflowStatusPaused |>)))
        (Some {[7 := Some [MkTaskDelta "a" "completed" {["x" := VInt 1]} ""]]}))
    (fun _ w' => Status <$> running_state "demo" w' = Some WorkflowStatusRunning)
    (NewScheduler (Some ex_hs) ex_conf 0).
Proof.
  eapply wp_mono; [eapply (recoverSingleWorkflow_resumes _ ex_hs); [reflexivity..|discriminate|reflexivity]|].
  intros [] w' H. cbv zeta in H.
  change (runningEntries (NewScheduler (Some ex_hs) ex_conf 0)) with (∅ : gmap string workflowEntry) in H.
  rewrite lookup_empty in H. destruct H as (Hr & Hst & _). unfold running_state. rewrite Hr.
  cbn [WorkflowUUID ex_state new_state upd]. change (UUID ex_wf) with "demo".
  rewrite lookup_insert_eq. exact (f_equal Some Hst).
Defined.

(** ** Properties: what is written *)

Section pool_properties.
Context `{Naming}.

Lemma attempts_spec wr f k : forall i w,
  wp (attempts (S k) i (db_write_call wr f)) (fun _ w' =>
    mysqlBreaker w' = mysqlBreaker w /\ historyStore w' = historyStore w /\
    exists a, (1 <= a <= S k)%nat /\ dbLog w' = dbLog w ++ replicate a wr) w.
Proof.
  induction k as [|k IH]; intros i w; cbn [attempts].
  - apply wp_bind. unfold wp at 1, db_write_call.
    destruct (f (dbCalls w)); apply wp_ret; split_and!; try done; exists 1%nat; (split; [lia|done]).
  - apply wp_bind. unfold wp at 1, db_write_call at 1.
    destruct (f (dbCalls w)).
    + apply wp_ret. split_and!; try done. exists 1%nat. split; [lia|done].
    + apply wp_bind. unfold draw_u64. apply wp_bind. unfold wp at 1, fresh_id.
      apply wp_ret, wp_bind. unfold sleep. apply wp_modify.
      eapply wp_mono; [apply IH|]. intros [] w' (Hb & Hs & a & Ha & Hlog);
        (split_and!; [by rewrite Hb|by rewrite Hs|]; exists (S a); split; [lia|];
         rewrite Hlog; cbn; by rewrite <- (assoc_L app)).
Qed.

(** A job of the persistence pool that the breaker lets through writes the
    workflow's status and then the execution, one to three times each, and
    always reports to the breaker, so that it is never left half-open; a job
    that is not let through writes nothing. *)
Theorem persistToMySQLInternal_writes (job : persistJob) (hs : HistoryStore) (w : World) :
  historyStore w = Some hs ->
  wp (persistToMySQLInternal job) (fun _ w' =>
    if (Allow (now w) (mysqlBreaker w)).1 then
      Circuit.state (mysqlBreaker w') <> StateHalfOpen /\
      exists a b, (1 <= a <= 3)%nat /\ (1 <= b <= 3)%nat /\
        dbLog w' = dbLog w ++
          replicate a (WUpdateWorkflowStatus (job_workflowID job) (status_string (job_status job))) ++
          replicate b (WUpdateExecution (job_execID job) (job_val job)
                         (status_string (job_status job)) (job_errMsg job))
    else dbLog w' = dbLog w) w.
Proof.
  intros Hs. unfold persistToMySQLInternal. apply wp_bind. unfold wp at 1, breaker_allow.
  destruct (Allow (now w) (mysqlBreaker w)) as [ok b] eqn:Ha. cbn [fst].
  destruct ok; [|by apply wp_ret]. cbn [negb]. apply wp_bind, wp_gets.
  match goal with |- context [historyStore ?x] => change (historyStore x) with (historyStore w) end.
  rewrite Hs. apply wp_bind. eapply wp_mono; [apply attempts_spec|].
  intros ok1 w1 (Hb1 & Hs1 & a & Hra & Hlog1). apply wp_bind.
  eapply (wp_mono _ (fun _ w2 => dbLog w2 = dbLog w1)).
  { destruct ok1; [by apply wp_ret|by apply wp_modify]. }
  intros [] w2 Hlog2. apply wp_bind. eapply wp_mono; [apply attempts_spec|].
  intros ok2 w3 (Hb3 & Hs3 & b' & Hrb & Hlog3).
  destruct ok2; apply wp_modify; split; try (exists a, b'; split_and!; try lia;
    cbn in *; rewrite Hlog3, Hlog2, Hlog1, <- (assoc_L app); done).
  - cbn. unfold Success. by case_decide as E; cbn in *; rewrite ?E.
  - cbn. unfold Failure. repeat case_decide; repeat case_match; cbn in *; congruence.
Qed.

(** With no store configured, the first run that ends brings the
    persistence pool down: its job is a call on a nil interface. *)
Theorem no_store_panics (uuid : string) (state : WorkflowState) (entry : workflowEntry) (w : World) :
  wm_locked w = false -> historyStore w = None -> jobs w = [] -> encodable_state state = true ->
  Circuit.state (mysqlBreaker w) = StateClosed ->
  (PersistWorkflowLocked uuid state entry;; pool_worker) w = Panic.
Proof.
  intros Hl Hs Hj He Hb. unfold mbind, M_bind at 1. rewrite persist_eq by done.
  destruct (persisted_outside uuid state entry w) as (Hout & _ & _ & Hjobs & _).
  pose proof (so_store _ _ Hout) as Hs'.
  assert (Hb' : mysqlBreaker (persisted uuid state entry w) = mysqlBreaker w).
  { destruct (persisted_frame uuid state entry w) as (h & u & o & ->). unfold persist_core.
    match goal with |- context [count_ended state ?x] =>
      destruct (count_ended_frame state x) as (c & f & ->) end. done. }
  remember (persisted uuid state entry w) as w1 eqn:E. clear E.
  unfold persist_jobs in Hjobs. rewrite He, Hj in Hjobs.
  unfold pool_worker, mbind, M_bind, gets. rewrite Hjobs.
  unfold persistToMySQLInternal, mbind, M_bind, breaker_allow, gets, modify.
  match goal with |- context [submit_job ?j []] => change (submit_job j []) with [j] end. cbv beta iota.
  match goal with |- context [mysqlBreaker ?x] => change (mysqlBreaker x) with (mysqlBreaker w1) end.
  rewrite Hb'. unfold Allow. rewrite Hb. cbn [negb historyStore upd].
  match goal with |- context [historyStore ?x] => change (historyStore x) with (historyStore w1) end.
  by rewrite Hs', Hs.
Qed.

End pool_properties.

(** What a snapshot leaves alone: everything but its own records in the state,
    the throttle, the breaker, and a goroutine that writes. *)
Record snapshot_only (uuid : string) (w w' : World) : Prop := {
  ss_locked : wm_locked w' = wm_locked w;
  ss_listeners : taskListeners w' = taskListeners w;
  ss_events : events w' = events w;
  ss_cancelled : cancelled w' = cancelled w;
  ss_registered : registeredWorkflows w' = registeredWorkflows w;
  ss_conf : w_conf w' = w_conf w;
  ss_td : w_td w' = w_td w;
  ss_spawned : exists l, spawned w' = spawned w ++ l;
  ss_entry : runningEntries w' = runningEntries w \/
    exists e seq m, runningEntries w !! uuid = Some e /\
      runningEntries w' = <[uuid := e <| we_state ::= fun st =>
        st <| SnapshotSeq := seq |> <| Snapshotted := m |> |>]> (runningEntries w) }.

Lemma snapshot_only_refl uuid w : snapshot_only uuid w w.
Proof. split; try done; [exists []; by rewrite app_nil_r|by left]. Qed.

Lemma snapshot_keeps uuid w : wm_locked w = false ->
  wp (snapshotRunningWorkflow uuid) (fun _ w' => snapshot_only uuid w w') w.
Proof.
  intros Hl. unfold snapshotRunningWorkflow. apply wp_bind. unfold wp at 1, snapshotThrottle.
  assert (Hgo : forall m, wp (allowed ← breaker_allow;
    if negb allowed then mret tt
    else
    entry ← LockEntry uuid;
    match entry with
    | None => mret tt
    | Some entry =>
        let execID := ExecutionID (we_state entry) in
        hs ← gets historyStore;
        match hs with
        | None => mret tt
        | Some _ =>
            if execID =? 0 then mret tt
            else
              t ← gets now;
              let '(deltas, st) := collectTaskDeltasLocked (we_state entry) in
              let snapshot := MkWorkflowSnapshot uuid execID (status_string (Status st)) deltas
                                (ws_Error st) t in
              modify (update_entry uuid (fun _ => st));;
              if forallb (fun d => encodable_map (d_Output d)) deltas then
                spawn (GSaveTaskDeltas execID snapshot)
              else mret tt
        end
    end) (fun _ w' => snapshot_only uuid w w') (w <| snapshotLastTime := m |>)).
  { intros m. apply wp_bind. unfold wp at 1, breaker_allow. destruct (Allow _ _) as [ok b].
    assert (Hs : forall x y, snapshot_only uuid w (w <| snapshotLastTime := x |> <| mysqlBreaker := y |>)).
    { intros x y. split; try done; [exists []; by rewrite app_nil_r|by left]. }
    destruct ok; cbn [negb]; [|by apply wp_ret].
    apply wp_bind, wp_LockEntry; [exact Hl|]. upd_simpl.
    destruct (runningEntries w !! uuid) as [e|] eqn:He; [|by apply wp_ret].
    apply wp_bind, wp_gets. case_match; [|by apply wp_ret]. case_match; [by apply wp_ret|].
    apply wp_bind, wp_gets. apply wp_bind, wp_modify. unfold update_entry. upd_simpl. rewrite He.
    assert (He' : forall l, snapshot_only uuid w (w <| snapshotLastTime := m |> <| mysqlBreaker := b |>
      <| runningEntries ::= <[uuid := e <| we_state ::= fun _ =>
           (collectTaskDeltasLocked (we_state e)).2 |>]> |> <| spawned ::= fun s => s ++ l |>)).
    { intros l. split; try done; [by exists l|]. right. eexists e, _, _. split; [done|].
      upd_simpl. reflexivity. }
    case_match.
    - apply wp_spawn. exact (He' [_]).
    - apply wp_ret. specialize (He' []). upd_simpl. by rewrite app_nil_r in He'. }
  destruct (snapshotLastTime w !! uuid); [destruct (_ <? _)|].
  - exact (snapshot_only_refl uuid w).
  - exact (Hgo _).
  - exact (Hgo _).
Qed.

(** A snapshot that is let through as the breaker's probe and then finds
    nothing to write (no entry, no execution ID yet, or no store) never
    reports: the breaker stays half-open and refuses every later call. *)
Theorem snapshot_loses_probe (uuid : string) (w : World) :
  wm_locked w = false ->
  Circuit.state (mysqlBreaker w) = StateOpen ->
  cooldownInterval (mysqlBreaker w) <= now w - lastStateChange (mysqlBreaker w) ->
  snapshotLastTime w !! uuid = None ->
  (forall e, runningEntries w !! uuid = Some e -> ExecutionID (we_state e) = 0) ->
  wp (snapshotRunningWorkflow uuid) (fun _ w' =>
    spawned w' = spawned w /\ forall t, (Allow t (mysqlBreaker w')).1 = false) w.
Proof.
  intros Hl Hb Hc Ht He. unfold snapshotRunningWorkflow. apply wp_bind.
  unfold wp at 1, snapshotThrottle. rewrite Ht. cbn [negb].
  match goal with |- wp _ _ ?x => set (w1 := x) end.
  apply wp_bind. unfold wp at 1, breaker_allow.
  assert (Hallow : Allow (now w1) (mysqlBreaker w1) =
    (true, mysqlBreaker w <| Circuit.state := StateHalfOpen |> <| lastStateChange := now w |>)).
  { unfold Allow. change (mysqlBreaker w1) with (mysqlBreaker w). change (now w1) with (now w).
    rewrite Hb. by rewrite (proj2 (Z.leb_le _ _) Hc). }
  rewrite Hallow. cbn [negb]. apply wp_bind, wp_LockEntry; [exact Hl|].
  match goal with |- context [runningEntries ?x] => change (runningEntries x) with (runningEntries w) end.
  destruct (runningEntries w !! uuid) as [e|] eqn:Hen; [|by apply wp_ret].
  apply wp_bind, wp_gets.
  match goal with |- context [historyStore ?x] => destruct (historyStore x) end; [|by apply wp_ret].
  rewrite (He e eq_refl), Z.eqb_refl. by apply wp_ret.
Qed.

(** The backoff between attempts is positive and within half of the capped
    exponential backoff, above or below. *)
Theorem backoffWithJitter_bounds (attempt base max : Z) (rnd : option Z) :
  0 <= attempt -> 2 <= base -> 2 <= max <= 2 ^ 61 ->
  let exp := Z.min (base * 2 ^ attempt) max in
  let d := backoffWithJitter attempt base max rnd in
  exp - exp / 2 < d < exp + exp / 2 /\ 0 < d.
Proof.
  intros Ha Hb Hm exp d. assert (He : 2 <= exp <= 2 ^ 61).
  { unfold exp. assert (1 <= 2 ^ attempt) by (apply (Z.pow_le_mono_r 2 0); lia). nia. }
  unfold d, backoffWithJitter. fold exp. rewrite Z.quot_div_nonneg by lia.
  pose proof (Z.div_mod exp 2 ltac:(lia)). pose proof (Z.mod_pos_bound exp 2 ltac:(lia)).
  destruct (Z.leb_spec (exp / 2) 0); [lia|].
  destruct rnd as [u|]; [|lia].
  pose proof (Z.rem_bound_abs (wrap64 u) (exp / 2) ltac:(lia)).
  rewrite wrap64_in by (unfold in64, minInt64, maxInt64; lia). lia.
Qed.

(** ** Properties: the history at start-up *)

Lemma load_records_spec (records : list ExecutionRecord) : forall w,
  wm_locked w = false ->
  wp (for_each (fun rec => lock_wm;; modify (load_record rec)) records) (fun _ w' =>
    forall u, default [] (workflowHistoryByUUID w' !! u) =
      default [] (workflowHistoryByUUID w !! u) ++
      omap (fun rec => if decide (er_UUID rec = u) then (fun _ => er_ExecutionID rec) <$> er_Data rec else None)
        records) w.
Proof.
  induction records as [|rec records IH]; intros w Hl; cbn.
  - intros u. by rewrite app_nil_r.
  - apply wp_bind, wp_bind, wp_lock_wm; [done|]. apply wp_modify.
    assert (Hl' : wm_locked (load_record rec w) = false) by (unfold load_record; by case_match).
    eapply wp_mono; [by apply IH|]. intros [] w' Hw' u. rewrite Hw'.
    unfold load_record. destruct (er_Data rec) as [st|]; cbn; [|by case_decide].
    case_decide as E; [subst u; rewrite lookup_insert_eq|rewrite lookup_insert_ne by done];
      cbn; [by rewrite <- (assoc_L app)|done].
Qed.

(** The store returns executions newest first and the history keeps the
    latest one last, so after start-up the run found for a workflow is the
    oldest of those loaded. *)
Theorem loadHistory_reversed (hs : HistoryStore) (records : list ExecutionRecord) (total : Z)
    (u : string) (w : World) :
  wm_locked w = false -> historyStore w = Some hs -> workflowHistoryByUUID w = ∅ ->
  (forall k limit, LoadExecutions hs k 0 limit = Ok (records, total)) ->
  StronglySorted (fun a b => er_ExecutionID b < er_ExecutionID a) records ->
  wp loadHistory (fun _ w' =>
    forall i, latest_id u w' = Some i ->
      forall rec, rec ∈ records -> er_UUID rec = u -> is_Some (er_Data rec) -> i <= er_ExecutionID rec) w.
Proof.
  intros Hl Hs Hm Hload Hsort. unfold loadHistory. apply wp_bind, wp_gets. rewrite Hs.
  apply wp_bind, wp_gets, wp_bind. unfold wp at 1, db_call. rewrite Hload.
  eapply wp_mono; [by apply load_records_spec|]. intros [] w' Hw' i Hi rec Hrec Hu Hd.
  unfold latest_id in Hi. rewrite Hw' in Hi. cbn [workflowHistoryByUUID upd] in Hi.
  match type of Hi with context [?m !! u] => change m with (workflowHistoryByUUID w) in Hi end.
  rewrite Hm, lookup_empty in Hi. cbn [default app] in Hi. clear Hw' Hload.
  revert Hi Hrec. induction records as [|r records IH]; [set_solver|].
  apply StronglySorted_inv in Hsort as [Hsort Hall]. cbn. intros Hi Hrec.
  rewrite list.Forall_forall in Hall.
  assert (Hin : list.last (omap (fun rec => if decide (er_UUID rec = u)
    then (fun _ => er_ExecutionID rec) <$> er_Data rec else None) records) = Some i \/
    omap (fun rec => if decide (er_UUID rec = u)
    then (fun _ => er_ExecutionID rec) <$> er_Data rec else None) records = [] /\ i = er_ExecutionID r).
  { destruct (omap _ records) as [|x l] eqn:E.
    - right. destruct (if decide _ then _ else _) as [y|] eqn:Ey; [|done].
      cbn in Hi. injection Hi as ->. split; [done|]. case_decide; [|done].
      destruct (er_Data r); [|done]. by injection Ey as ->.
    - left. destruct (if decide _ then _ else _); exact Hi. }
  destruct Hin as [Hin|[Hnil ->]].
  - apply elem_of_cons in Hrec as [->|Hrec]; [|by apply IH].
    apply list.last_Some_elem_of, list_elem_of_omap in Hin as (r' & Hr' & Hid).
    case_decide; [|done]. destruct (er_Data r'); [|done]. injection Hid as <-.
    apply Hall in Hr'. lia.
  - apply elem_of_cons in Hrec as [->|Hrec]; [lia|].
    assert (Hx : er_ExecutionID rec ∈ omap (fun rec => if decide (er_UUID rec = u)
      then (fun _ => er_ExecutionID rec) <$> er_Data rec else None) records).
    { apply list_elem_of_omap. exists rec. split; [done|]. rewrite decide_True by done.
      destruct Hd as [d ->]. done. }
    rewrite Hnil in Hx. by apply elem_of_nil in Hx.
Qed.

(** ** Witnesses *)

Definition ex_naming : Naming :=
  {| uuid_v4 := fun n => "trace"; rand_hex := fun n => "0f0f0f0f"; rand_u64 := fun _ => Some 3;
     trace_carrier := fun _ => ∅ |}.

#[export] Existing Instance ex_naming.

Definition ex_db_world : World := NewScheduler (Some ex_hs) ex_conf 0.

Lemma persistToMySQLInternal_writes_witness :
  let job := MkJob "demo" 1 7 WorkflowStatusCompleted "" ex_state in
  wp (persistToMySQLInternal job) (fun _ w' =>
    exists a b, (1 <= a <= 3)%nat /\ (1 <= b <= 3)%nat /\
      dbLog w' = replicate a (WUpdateWorkflowStatus 1 "COMPLETED") ++
                 replicate b (WUpdateExecution 7 ex_state "COMPLETED" "")) ex_db_world.
Proof.
  intros job. eapply wp_mono;
    [apply (persistToMySQLInternal_writes job ex_hs ex_db_world); reflexivity|].
  intros [] w' H. destruct H as (_ & a & b & Ha & Hb & ->). exists a, b. done.
Defined.

Lemma no_store_panics_witness :
  (PersistWorkflowLocked "demo" ex_state ex_entry;; pool_worker) ex_world = Panic.
Proof. apply no_store_panics; reflexivity. Defined.

Lemma snapshot_loses_probe_witness :
  wp (snapshotRunningWorkflow "demo") (fun _ w' => forall t, (Allow t (mysqlBreaker w')).1 = false)
    (ex_db_world <| now := 10 ^ 12 |>
       <| mysqlBreaker ::= fun b => b <| Circuit.state := StateOpen |> |>).
Proof.
  eapply wp_mono; [apply snapshot_loses_probe|].
  - reflexivity.
  - reflexivity.
  - vm_compute. discriminate.
  - reflexivity.
  - intros e He. discriminate He.
  - intros [] w' [_ H]. exact H.
Defined.

Lemma backoffWithJitter_bounds_witness :
  0 < backoffWithJitter 1 persistBaseBackoff persistMaxBackoff (Some (2 ^ 63 + 1)).
Proof. apply backoffWithJitter_bounds; vm_compute; try discriminate. split; discriminate. Defined.

Lemma loadHistory_reversed_witness :
  wp loadHistory (fun _ w' => forall i, latest_id "demo" w' = Some i -> i <= 7) ex_db_world.
Proof.
  eapply wp_mono; [eapply (loadHistory_reversed ex_hs _ 2 "demo"); try reflexivity|].
  - repeat constructor.
  - intros [] w' H i Hi.
    apply (H i Hi (MkExecutionRecord 7 "demo" "demo" (Some ex_state))).
    + right. left.
    + reflexivity.
    + by eexists.
Defined.
