(* ===== verification/Watch.v ===== *)
(** * Task events, failures and compensation (infra/engine/scheduler: watch.go,
    error_policy.go)

    What the scheduler does with the events of a workflow's tasks: recording
    them, retrying, applying the error policy, failing or rolling back the
    workflow.  [DispatcherHost] and [Coordinator] get their instances here. *)
From Stdlib Require Import ZArith Lia Ascii String SpecFloat.
From stdpp Require Import base gmap strings list pretty.
From S2P Require Import Prelude GoVal Model Heap Validate Payload Dispatcher Watchers.
From S2P Require Import Listeners EventTriggers Circuit World Copy Manager Repository.
Set Warnings "-register-all,-clear-no-such-hyp,-level-tolerance".
Local Open Scope Z_scope.
Local Open Scope list_scope.

(** ** Durations *)

(** Digits of the fraction [v / 10^prec], without trailing zeros, after a
    point: [fmtFrac] of package time. *)
Fixpoint frac_digits (prec : nat) (v : Z) (printed : bool) (acc : string) : string :=
  match prec with
  | O => if printed then "." +:+ acc else acc
  | S prec' =>
      let digit := v mod 10 in
      let printed := printed || negb (digit =? 0) in
      frac_digits prec' (v / 10) printed (if printed then pretty digit +:+ acc else acc)
  end.

(** [Duration.String]. *)
Definition duration_string (d : Z) : string :=
  let u := Z.abs d in
  let sign := if d <? 0 then "-" else "" in
  if u =? 0 then "0s"
  else if u <? 1000 then sign +:+ pretty u +:+ "ns"
  else if u <? 1000000 then sign +:+ pretty (u / 1000) +:+ frac_digits 3 u false "" +:+ "µs"
  else if u <? Second then sign +:+ pretty (u / 1000000) +:+ frac_digits 6 u false "" +:+ "ms"
  else
    let secs := u / Second in
    let s := pretty (secs mod 60) +:+ frac_digits 9 u false "" +:+ "s" in
    let mins := secs / 60 in
    if mins =? 0 then sign +:+ s
    else
      let s := pretty (mins mod 60) +:+ "m" +:+ s in
      let hours := mins / 60 in
      if hours =? 0 then sign +:+ s else sign +:+ pretty hours +:+ "h" +:+ s.

(** [int64(d.Seconds())]: the whole seconds, and the rest as a fraction, added
    as floats.  (A float of a whole number of this size is exact.) *)
Definition whole_seconds (d : Z) : Z :=
  let sec := Z.quot d Second in
  let nsec := Z.rem d Second in
  if nsec =? 0 then sec
  else default 0 (float_trunc
    (SFadd 53 1024 (float_of_int sec) (SFdiv 53 1024 (float_of_int nsec) (float_of_int Second)))).

(** ** Error policies (error_policy.go) *)

Inductive ErrorPolicyAction : Type :=
| ErrorActionRetry | ErrorActionRollback | ErrorActionSkip | ErrorActionFailFast.

(** [state.Workflow.ErrorPolicy], when neither is nil. *)
Definition policy_of (state : WorkflowState) : option ErrorPolicy :=
  match ws_Workflow state with Some wf => wf_ErrorPolicy wf | None => None end.

Definition defaultAction (payload : TaskPayload) : ErrorPolicyAction :=
  if NoRetry payload then ErrorActionRollback
  else if RetryCount payload <? pl_MaxRetries payload then ErrorActionRetry
  else ErrorActionRollback.

Definition ResolveErrorPolicy (state : option WorkflowState) (payload : TaskPayload)
  : ErrorPolicyAction :=
  match state ≫= policy_of with
  | None => defaultAction payload
  | Some ep =>
      let taskPolicy := GetTaskErrorPolicy (Some ep) (TaskName payload) in
      if decide (taskPolicy = ErrorPolicyRollback) then ErrorActionRollback
      else if decide (taskPolicy = ErrorPolicySkip) then
        if IsSkippable (Some ep) (TaskName payload) then ErrorActionSkip else ErrorActionRetry
      else if decide (taskPolicy = ErrorPolicyFailFast) then ErrorActionFailFast
      else defaultAction payload
  end.

(** The backoff before the next attempt; a negative count panics in the
    source, see [retry_backoff]. *)
Definition calculateBackoff (payload : TaskPayload) : Z :=
  wrap64 (wrap64 (pl_BaseBackoff payload * Second) * shl64 1 (RetryCount payload)).

Section watch.
Context `{Naming}.

(** ** Marking a workflow as failed *)

(** (A target's goroutine runs later, see [run_submit_target].) *)
Definition markWorkflowFailed_s (payload : TaskPayload) (errMsg : string) : M World unit :=
  let uuid := WorkflowID payload in
  entry ← LockEntry uuid;
  match entry with
  | Some entry =>
      let state := we_state entry <| FailedTasks ::= <[TaskName payload := errMsg]> |>
                     <| Status := WorkflowStatusFailed |> <| ws_Error := errMsg |> in
      PersistWorkflowLocked uuid state entry
  | None => mret tt
  end;;
  emit uuid "workflow_failed" (DataUUID uuid);;
  targets ← gets (fun w => FireTaskFailed (eventTriggerMgr w) uuid (TaskName payload));
  for_each (fun target => spawn (GSubmitTarget target)) targets.

Definition run_submit_target (target : string) : M World unit :=
  wf ← GetRegisteredWorkflow target;
  match wf with
  | None => mret tt
  | Some wf =>
      match DeepCopy wf with
      | None => mret tt
      | Some wfCopy => SubmitWorkflow wfCopy;; mret tt
      end
  end.

(** ** The dispatcher's host *)

#[export] Instance world_host : DispatcherHost World := {
  host_td := w_td;
  host_set_td := fun td w => w <| w_td := td |>;
  host_config := fun w => disp_config (w_conf w);
  host_now := now;
  host_tasks_prefix := fun w => tasks_prefix (w_conf w);
  host_store := etcd;
  GetWorkflowState := running_state;
  NewTraceID := new_trace_id;
  randHex4 := rand_hex4;
  InjectTraceContext := inject_trace;
  putWithTTL := etcd_put;
  BatchPutWithTTL := etcd_batch_put;
  markWorkflowFailed := markWorkflowFailed_s;
  clearFailedTask := clearFailedTask_wm }.

(** ** Compensation (Saga) *)

Fixpoint find_group (name : string) (gi : Z) (groups : list (list TaskNode)) : Z :=
  match groups with
  | [] => -1
  | g :: groups' =>
      if decide (name ∈ Name <$> g) then gi else find_group name (gi + 1) groups'
  end.

(** (An empty index reads back from JSON as a nil one.) *)
Definition failed_group_index (st : WorkflowState) (wf : Workflow) (taskName : string) : Z :=
  if decide (TaskGroupIndex st = ∅) then find_group taskName 0 (TaskGroups wf)
  else default (-1) (TaskGroupIndex st !! taskName).

Definition saga_error (failed : TaskPayload) : string :=
  "任务 " +:+ TaskName failed +:+ " 重试 " +:+ pretty (RetryCount failed) +:+
  " 次后仍然失败: " +:+ Result failed.

(** The task of one node to roll back: completed and not rolled back yet, as
    the running entry says now. *)
Definition rollback_of (uuid : string) (n : TaskNode) : M World (list (TaskNode * vmap)) :=
  entry ← LockEntry uuid;
  mret match entry with
       | Some entry =>
           let st := we_state entry in
           match CompletedTasks st !! Name n, RolledBack st !! Name n with
           | Some output, None => [(n, output)]
           | _, _ => []
           end
       | None => []
       end.

Fixpoint rollbacks_of (uuid : string) (nodes : list TaskNode) : M World (list (TaskNode * vmap)) :=
  match nodes with
  | [] => mret []
  | n :: nodes' => l ← rollback_of uuid n; l' ← rollbacks_of uuid nodes'; mret (l ++ l')
  end.

(** Groups [gi - 1] down to 0; [groups[gi]] out of range panics. *)
Fixpoint collect_rollbacks (uuid : string) (groups : list (list TaskNode)) (gi : nat)
  : M World (list (TaskNode * vmap)) :=
  match gi with
  | O => mret []
  | S gi' =>
      match groups !! gi' with
      | None => panic
      | Some g => l ← rollbacks_of uuid g; l' ← collect_rollbacks uuid groups gi'; mret (l ++ l')
      end
  end.

(** Persist the workflow as rolled back, if it is still there. *)
Definition finish_rollback (uuid : string) : M World unit :=
  entry2 ← LockEntry uuid;
  match entry2 with
  | Some entry2 =>
      PersistWorkflowLocked uuid (we_state entry2 <| Status := WorkflowStatusRolledBack |>) entry2
  | None => mret tt
  end;;
  emit uuid "workflow_rolled_back" (DataUUID uuid).

Definition startSagaRollback (uuid : string) (state : WorkflowState) (failed : TaskPayload)
  : M World unit :=
  entry ← LockEntry uuid;
  match entry with
  | None => mret tt
  | Some entry =>
      let st := we_state entry in
      if decide (Status st = WorkflowStatusRollingBack \/ Status st = WorkflowStatusRolledBack \/
                 Status st = WorkflowStatusFailed) then mret tt
      else
        let st := st <| Status := WorkflowStatusRollingBack |> <| ws_Error := saga_error failed |> in
        PersistWorkflowLocked uuid st entry;;
        match ws_Workflow st with
        | None => panic
        | Some wf =>
            let failedGroupIdx := failed_group_index st wf (TaskName failed) in
            emit uuid "workflow_rolling_back"
              (DataMap {["workflow" := uuid; "failed_task" := TaskName failed;
                         "failed_group" := pretty (failedGroupIdx + 1); "error" := Result failed]});;
            if failedGroupIdx <=? 0 then finish_rollback uuid
            else
              tasks ← collect_rollbacks uuid (TaskGroups wf) (Z.to_nat failedGroupIdx);
              if bool_decide (tasks = []) then finish_rollback uuid
              else spawn (GRollbackTasks uuid tasks)
        end
  end.

(** One rollback task of the goroutine: [timed_out] tells that its context
    ended before the task was seen to be rolled back. *)
Definition rollback_task (timed_out : bool) (uuid : string) (task : TaskNode * vmap)
  : M World unit :=
  on_sem acquire;;
  PushRollbackTask uuid task.1 task.2;;
  (if timed_out then
     entry ← LockEntry uuid;
     match entry with
     | Some entry =>
         PersistWorkflowLocked uuid (we_state entry <| RolledBack ::= <[Name task.1 := true]> |>) entry
     | None => mret tt
     end
   else mret tt);;
  on_sem release.

Definition handleRollbackCompleted (uuid : string) (payload : TaskPayload) : M World unit :=
  entry ← LockEntry uuid;
  match entry with
  | None => mret tt
  | Some entry =>
      let st := we_state entry <| RolledBack ::= <[TaskName payload := true]> |> in
      PersistWorkflowLocked uuid st entry;;
      match ws_Workflow st with
      | None => panic
      | Some wf =>
          let allRolledBack := forallb (fun n =>
            match CompletedTasks st !! Name n with
            | Some _ => default false (RolledBack st !! Name n)
            | None => true
            end) (concat (TaskGroups wf)) in
          emit uuid "task_rolled_back"
            (DataMap {["workflow" := uuid; "task" := TaskName payload]});;
          if allRolledBack then finish_rollback uuid else mret tt
      end
  end.

(** ** The error policy handler *)

Definition policy_failure (policy : string) (payload : TaskPayload) : string :=
  "任务 " +:+ TaskName payload +:+ " 失败（策略=" +:+ policy +:+ "）: " +:+ Result payload.

Definition ExecuteRollback (uuid : string) (state : WorkflowState) (payload : TaskPayload)
  : M World unit :=
  let errMsg := policy_failure "rollback" payload in
  emit uuid "workflow_failed"
    (DataMap {["workflow" := uuid; "task" := TaskName payload; "error" := errMsg]});;
  traceID ← new_trace_id;
  startSagaRollback uuid state
    (zero_payload <| WorkflowID := uuid |> <| TaskName := TaskName payload |>
       <| TraceID := traceID |> <| Result := errMsg |>).

Definition ExecuteFailFast (uuid : string) (payload : TaskPayload) : M World unit :=
  let errMsg := policy_failure "fail_fast" payload in
  markWorkflowFailed_s payload errMsg;;
  emit uuid "workflow_failed"
    (DataMap {["workflow" := uuid; "task" := TaskName payload; "error" := errMsg;
               "policy" := "fail_fast"]}).

Definition ExecuteSkip (uuid : string) (payload : TaskPayload) : M World unit :=
  emit uuid "task_skipped"
    (DataMap {["workflow" := uuid; "task" := TaskName payload; "error" := Result payload;
               "reason" := "error_policy_skip"]}).

(** [true]: the policy has handled the timeout. *)
Definition HandleTimeoutPolicy (uuid : string) (state : WorkflowState) (timeout : Z)
  : M World bool :=
  match policy_of state with
  | None => mret false
  | Some ep =>
      if decide (GetTimeoutPolicy (Some ep) = "fail") then
        let errMsg := "工作流执行超时（策略=fail，" +:+ duration_string timeout +:+ "）" in
        traceID ← new_trace_id;
        markWorkflowFailed_s
          (zero_payload <| WorkflowID := uuid |> <| TaskName := "__timeout__" |>
             <| TraceID := traceID |> <| Result := errMsg |>) errMsg;;
        mret true
      else mret false
  end.

(** ** Failures *)

Definition skipped_output (payload : TaskPayload) : vmap :=
  {["_skipped" := VBool true; "_error" := VString (Result payload);
    "_skip_reason" := VString "error_policy_skip"]}.

(** The whole seconds of the backoff; shifting by a negative count panics. *)
Definition retry_backoff (payload : TaskPayload) : M World Z :=
  if RetryCount payload <? 0 then panic else mret (calculateBackoff payload).

(** What a failure does when no policy decides. *)
Definition default_failure (ctx : nat) (uuid : string) (state : WorkflowState)
    (payload : TaskPayload) : M World unit :=
  let stop_retrying :=
    emit uuid "workflow_failed"
      (DataMap {["workflow" := uuid; "task" := TaskName payload; "error" := Result payload]});;
    startSagaRollback uuid state payload;;
    ReleaseSlotForWorkflow uuid in
  if NoRetry payload then stop_retrying
  else if RetryCount payload <? pl_MaxRetries payload then
    backoff ← retry_backoff payload;
    ReleaseSlotForWorkflow uuid;;
    spawn (GRetryTask ctx payload (whole_seconds backoff))
  else stop_retrying.

Definition skip_task (uuid : string) (payload : TaskPayload) : M World unit :=
  entry ← LockEntry uuid;
  match entry with
  | Some entry =>
      let st := we_state entry <| CompletedTasks ::= <[TaskName payload := skipped_output payload]> |>
                  <| FailedTasks ::= delete (TaskName payload) |> in
      PersistWorkflowLocked uuid st entry
  | None => mret tt
  end;;
  ExecuteSkip uuid payload;;
  on_listeners (notifyTaskListener uuid (TaskName payload)
    (zero_payload <| WorkflowID := uuid |> <| TaskName := TaskName payload |>
       <| TraceID := TraceID payload |> <| pl_Status := StatusCompleted |>
       <| Output := Some (skipped_output payload) |>));;
  ReleaseSlotForWorkflow uuid.

Definition handleTaskFailed (ctx : nat) (uuid : string) (state : WorkflowState)
    (payload : TaskPayload) : M World unit :=
  match policy_of state with
  | None => default_failure ctx uuid state payload
  | Some ep =>
      let taskPolicy := GetTaskErrorPolicy (Some ep) (TaskName payload) in
      if decide (taskPolicy = ErrorPolicyFailFast) then
        ExecuteFailFast uuid payload;; ReleaseSlotForWorkflow uuid
      else if decide (taskPolicy = ErrorPolicyRollback) then
        ExecuteRollback uuid state payload;; ReleaseSlotForWorkflow uuid
      else if decide (taskPolicy = ErrorPolicySkip) then
        if IsSkippable (Some ep) (TaskName payload) then skip_task uuid payload
        else default_failure ctx uuid state payload
      else default_failure ctx uuid state payload
  end.

#[export] Instance world_coordinator : Coordinator := {
  StartSagaRollback := startSagaRollback;
  HandleTaskFailed := handleTaskFailed }.

(** [expired]: the timer fired before the workflow's context ended. *)
Definition timeoutAfter (expired : bool) (uuid : string) (timeout : Z) : M World unit :=
  if negb expired then mret tt
  else
  entry ← LockEntry uuid;
  match entry with
  | None => mret tt
  | Some entry =>
      let state := we_state entry in
      if decide (Status state = WorkflowStatusRunning \/ Status state = WorkflowStatusPaused) then
        let errMsg := "工作流执行超时（" +:+ duration_string timeout +:+ "）" in
        let state := state <| ws_Error := errMsg |> in
        PersistWorkflowLocked uuid state entry;;
        handled ← HandleTimeoutPolicy uuid state timeout;
        if handled : bool then mret tt
        else
          traceID ← new_trace_id;
          startSagaRollback uuid state
            (zero_payload <| WorkflowID := uuid |> <| TaskName := "__timeout__" |>
               <| TraceID := traceID |> <| Result := errMsg |>)
      else mret tt
  end.

(** ** Events *)

Definition cleanupTaskEtcdKey (payload : TaskPayload) : M World unit :=
  if decide (EtcdKey payload = "") then mret tt else etcd_delete (EtcdKey payload);; mret tt.

Definition recordTaskCompleted (uuid : string) (payload : TaskPayload) : M World unit :=
  entry ← LockEntry uuid;
  match entry with
  | None => mret tt
  | Some entry =>
      modify (update_entry uuid (fun st =>
        st <| CompletedTasks ::= <[TaskName payload := default ∅ (Output payload)]> |>));;
      snapshotRunningWorkflow uuid;;
      saveTaskRecord payload (ExecutionID (we_state entry)) (Model.WorkflowID (we_state entry));;
      emit uuid "task_completed" (DataOutput (TaskName payload) (default ∅ (Output payload)));;
      cleanupTaskEtcdKey payload
  end.

Definition recordTaskFailed (uuid : string) (payload : TaskPayload) : M World unit :=
  entry ← LockEntry uuid;
  match entry with
  | Some _ => modify (update_entry uuid (fun st =>
      st <| FailedTasks ::= <[TaskName payload := Result payload]> |>))
  | None => mret tt
  end;;
  snapshotRunningWorkflow uuid;;
  emit uuid "task_failed"
    (DataMap {["workflow" := uuid; "task" := TaskName payload; "error" := Result payload]});;
  cleanupTaskEtcdKey payload.

(** Whether [watchWorkflowStatus] passes over an event of this entry. *)
Definition ignored (entry : workflowEntry) (payload : TaskPayload) : bool :=
  let st := we_state entry in
  let is_done := bool_decide (is_Some (CompletedTasks st !! TaskName payload)) in
  let is_failed := bool_decide (is_Some (FailedTasks st !! TaskName payload)) in
  (negb (Rollback payload) && is_failed) ||
  (recovered entry && (is_done || (is_failed && negb (Rollback payload)))).

(** One event of [watchWorkflowStatus]; [false] ends its goroutine. *)
Definition watch_event (ctx : nat) (uuid : string) (payload : TaskPayload) : M World bool :=
  entry ← LockEntry uuid;
  match entry with
  | None => mret false
  | Some entry =>
      if ignored entry payload then mret true
      else
        let state := we_state entry in
        (if decide (pl_Status payload = StatusCompleted) then
           if Rollback payload then handleRollbackCompleted uuid payload
           else
             recordTaskCompleted uuid payload;;
             on_listeners (notifyTaskListener uuid (TaskName payload) payload);;
             ReleaseSlotForWorkflow uuid
         else if decide (pl_Status payload = StatusFailed) then
           if Rollback payload then handleRollbackCompleted uuid payload
           else
             recordTaskFailed uuid payload;;
             on_listeners (notifyTaskListener uuid (TaskName payload) payload);;
             handleTaskFailed ctx uuid state payload
         else mret tt);;
        mret true
  end.

(** ** The global watcher *)

(** A worker of the fan-out pool, on an event of etcd. *)
Definition fan_out_event (key : string) (value : TaskPayload) : M World unit :=
  let payload := Deserialize value <| EtcdKey := key |> in
  t ← gets now;
  on_watchers (dispatch t (WorkflowID payload) payload).

(** One PENDING task found by the scan after a reconnection. *)
Definition rescan_task (value : TaskPayload) : M World unit :=
  let payload := Deserialize value in
  let uuid := WorkflowID payload in
  entry ← LockEntry uuid;
  match entry with
  | None => mret tt
  | Some entry =>
      let st := we_state entry in
      if bool_decide (is_Some (CompletedTasks st !! TaskName payload)) ||
         bool_decide (is_Some (FailedTasks st !! TaskName payload)) then mret tt
      else t ← gets now; on_watchers (dispatch t uuid payload)
  end.

Definition rescanAndRedispatchTasks : M World unit :=
  prefix ← gets (fun w => tasks_prefix (w_conf w) +:+ StatusPending +:+ "/");
  ok ← store_answer;
  if ok : bool then
    kvs ← gets (fun w => filter (fun kv => String.prefix prefix kv.1 = true) (map_to_list (etcd w)));
    for_each (fun kv => rescan_task kv.2) kvs
  else mret tt.

End watch.

(** ** Lemmas: the host of the dispatcher *)

Section watch_properties.
Context `{Naming}.

#[export] Instance world_laws : DispatcherLaws World.
Proof.
  split; try done.
  - intros k p ttl w. unfold putWithTTL, wp. cbn. unfold etcd_put, store_answer, mbind, M_bind.
    destruct (faults w) as [|[] l]; cbn; (split; [done|]); [exists true..|exists false]; done.
  - intros l ttl w. unfold BatchPutWithTTL, wp. cbn. unfold etcd_batch_put, store_answer, mbind, M_bind.
    destruct (faults w) as [|[] l']; cbn; (split; [done|]); [exists true..|exists false]; done.
Qed.

(** Once ended, a run stays ended through what the dispatcher does: no part of
    it starts one. *)
Definition ended (uuid : string) (w : World) : Prop :=
  wm_locked w = false /\ runningEntries w !! uuid = None.

Lemma sane_persisted uuid st e w : sane w -> sane (persisted uuid st e w).
Proof.
  intros Hs. destruct (persisted_outside uuid st e w) as (Hout & Hr & _).
  apply (sane_sub w); [done|by rewrite (so_locked _ _ Hout)|by rewrite (so_listeners _ _ Hout)|].
  intros u x. rewrite Hr. intros Hx%lookup_delete_Some. by destruct Hx.
Qed.

Lemma markWorkflowFailed_sane payload msg w : sane w ->
  wp (markWorkflowFailed_s payload msg) (fun _ w' => sane w' /\
    forall u, u = WorkflowID payload \/ runningEntries w !! u = None ->
      runningEntries w' !! u = None) w.
Proof.
  intros Hs. unfold markWorkflowFailed_s. apply wp_bind, wp_LockEntry; [apply Hs|].
  apply wp_bind. eapply (wp_mono _ (fun _ w' => sane w' /\
    forall u, u = WorkflowID payload \/ runningEntries w !! u = None ->
      runningEntries w' !! u = None)).
  - destruct (runningEntries w !! WorkflowID payload) as [e|] eqn:He.
    2:{ apply wp_ret. split; [done|]. by intros u [->|]. }
    apply wp_persist; [apply Hs|]. split; [by apply sane_persisted|].
    match goal with |- context [persisted ?u ?s ?en ?x] =>
      destruct (persisted_outside u s en x) as (_ & Hr & _) end.
    intros u Hu. rewrite Hr. apply lookup_delete_None. destruct Hu; auto.
  - intros _ w1 [Hs1 Hk]. apply wp_bind, wp_emit, wp_bind, wp_gets.
    apply wp_for_each; [|by split; [apply (sane_sub w1)|]].
    intros t w2 _ [Hs2 Hk2]. apply wp_spawn. by split; [apply (sane_sub w2)|].
Qed.

(** A run that has ended, in a well-formed world. *)
Definition gone (uuid : string) (w : World) : Prop := sane w /\ runningEntries w !! uuid = None.

Lemma etcd_batch_keeps (I : World -> Prop) l ttl w :
  (forall e fl, I (w <| etcd := e |> <| faults := fl |>)) ->
  wp (etcd_batch_put l ttl) (fun _ => I) w.
Proof.
  intros HI. unfold wp, etcd_batch_put, store_answer, mbind, M_bind.
  destruct (faults w) as [|[] l'] eqn:Hf; cbn.
  - specialize (HI (foldl (fun m kv => <[kv.1 := kv.2]> m) (etcd w) l) []).
    rewrite <- Hf in HI. by destruct w.
  - apply HI.
  - specialize (HI (etcd w) l'). by destruct w.
Qed.

Lemma sane_preserved : host_preserves sane.
Proof.
  split.
  - intros td w Hs. by apply (sane_sub w).
  - intros w Hs. by apply (sane_sub w).
  - intros w Hs. by apply (sane_sub w).
  - intros l ttl w Hs. apply etcd_batch_keeps. intros. by apply (sane_sub w).
  - intros p msg w Hs. eapply wp_mono; [by apply markWorkflowFailed_sane|]. naive_solver.
  - intros u st w Hs Hst. apply fmap_Some in Hst as (e & He & ->). by apply (sane_entries _ Hs u).
Qed.

Lemma gone_preserved uuid : host_preserves (gone uuid).
Proof.
  split.
  - intros td w [Hs Hr]. by split; [apply (sane_sub w)|].
  - intros w [Hs Hr]. by split; [apply (sane_sub w)|].
  - intros w [Hs Hr]. by split; [apply (sane_sub w)|].
  - intros l ttl w [Hs Hr]. apply etcd_batch_keeps. intros. by split; [apply (sane_sub w)|].
  - intros p msg w [Hs Hr]. eapply wp_mono; [by apply markWorkflowFailed_sane|].
    intros ? w' H'; cbv beta in H'. destruct H' as [? Hk]. split; [done|]. apply Hk. by right.
  - intros u st w [Hs _]. by apply sane_preserved.
Qed.

Lemma release_sane u w : sane w -> wp (ReleaseSlotForWorkflow u) (fun _ => sane) w.
Proof. apply ReleaseSlotForWorkflow_inv, sane_preserved. Qed.

Lemma release_gone uuid u w : gone uuid w -> wp (ReleaseSlotForWorkflow u) (fun _ => gone uuid) w.
Proof. apply ReleaseSlotForWorkflow_inv, gone_preserved. Qed.

(** ** Lemmas: compensation after the run has been persisted *)

Lemma rollbacks_none uuid nodes w :
  ended uuid w -> rollbacks_of uuid nodes w = Ret ([], w).
Proof.
  intros [Hl Hr]. induction nodes as [|n nodes IH]; [done|]. cbn.
  unfold rollback_of, LockEntry, lock_wm, gets, mbind, M_bind. rewrite Hl, Hr. cbn. by rewrite IH.
Qed.

Lemma collect_none uuid groups gi w :
  ended uuid w -> (gi <= length groups)%nat -> collect_rollbacks uuid groups gi w = Ret ([], w).
Proof.
  intros He. induction gi as [|gi IH]; intros Hlen; [done|]. cbn.
  destruct (lookup_lt_is_Some_2 groups gi ltac:(lia)) as [g ->].
  unfold mbind, M_bind. rewrite rollbacks_none by done. rewrite IH by lia. done.
Qed.

Lemma finish_none uuid w :
  ended uuid w ->
  finish_rollback uuid w =
    Ret (tt, w <| events ::= fun l => l ++ [MkEvent uuid "workflow_rolled_back" (DataUUID uuid)] |>).
Proof.
  intros [Hl Hr]. unfold finish_rollback, LockEntry, lock_wm, gets, emit, modify, mbind, M_bind.
  by rewrite Hl, Hr.
Qed.

Lemma find_group_bound name groups gi :
  0 <= gi -> find_group name gi groups < gi + Z.of_nat (length groups) \/ groups = [].
Proof.
  revert gi. induction groups as [|g groups IH]; intros gi Hgi; [by right|]. left. cbn.
  case_decide; [lia|]. destruct (IH (gi + 1)) as [Hlt| ->]; cbn; lia.
Qed.

Lemma failed_group_index_bound st wf name :
  TaskGroupIndex st = BuildTaskGroupIndex wf ->
  (Z.to_nat (failed_group_index st wf name) <= length (TaskGroups wf))%nat.
Proof.
  intros Hi. unfold failed_group_index. case_decide.
  - destruct (find_group_bound name (TaskGroups wf) 0) as [|E]; [lia|lia|]. rewrite E. cbn. lia.
  - destruct (TaskGroupIndex st !! name) as [gi|] eqn:E; cbn; [|lia].
    rewrite Hi, BuildTaskGroupIndex_eq in E.
    apply insert_all_Some in E as [([gi' n] & Hin & _ & <-)|[_ E]]; [|by rewrite lookup_empty in E].
    apply elem_of_indexed_nodes in Hin as (i & g & Hg & -> & _). apply lookup_lt_Some in Hg. cbn. lia.
Qed.

(** Nothing but broadcasts and identifiers drawn. *)
Definition only_events (w w' : World) : Prop :=
  exists l n, w' = w <| events ::= fun evs => evs ++ l |> <| counter := n |>.

Definition saga_state (st : WorkflowState) (failed : TaskPayload) : WorkflowState :=
  st <| Status := WorkflowStatusRollingBack |> <| ws_Error := saga_error failed |>.

Lemma startSagaRollback_running uuid st0 failed e wf w :
  wm_locked w = false -> runningEntries w !! uuid = Some e ->
  ws_Workflow (we_state e) = Some wf ->
  TaskGroupIndex (we_state e) = BuildTaskGroupIndex wf ->
  Status (we_state e) = WorkflowStatusRunning \/ Status (we_state e) = WorkflowStatusPaused ->
  wp (startSagaRollback uuid st0 failed)
    (fun _ w' => only_events (persisted uuid (saga_state (we_state e) failed) e w) w') w.
Proof.
  intros Hl He Hwf Hidx Hst. unfold startSagaRollback. apply wp_bind, wp_LockEntry; [done|].
  rewrite He. rewrite decide_False by (intros [|[|]]; destruct Hst; congruence).
  fold (saga_state (we_state e) failed). apply wp_bind, wp_persist; [done|].
  assert (Hend : ended uuid (persisted uuid (saga_state (we_state e) failed) e w)).
  { destruct (persisted_outside uuid (saga_state (we_state e) failed) e w) as (Hout & Hr & _).
    split; [by rewrite (so_locked _ _ Hout)|]. rewrite Hr. apply lookup_delete_eq. }
  generalize dependent (persisted uuid (saga_state (we_state e) failed) e w). intros w1 Hend.
  change (ws_Workflow (saga_state (we_state e) failed)) with (ws_Workflow (we_state e)).
  rewrite Hwf. apply wp_bind, wp_emit.
  set (w2 := w1 <| events ::= _ |>). assert (Hend2 : ended uuid w2) by exact Hend.
  assert (Hb : (Z.to_nat (failed_group_index (saga_state (we_state e) failed) wf (TaskName failed))
                <= length (TaskGroups wf))%nat) by (by apply failed_group_index_bound).
  assert (Hfin : wp (finish_rollback uuid) (fun _ w' => only_events w1 w') w2).
  { unfold wp. rewrite finish_none by done. eexists (_ ++ _), (counter w1). unfold w2. cbn.
    by rewrite (assoc_L app). }
  case_match; [exact Hfin|]. apply wp_bind. unfold wp at 1. rewrite collect_none by done.
  cbn [bool_decide]. exact Hfin.
Qed.

Lemma startSagaRollback_gone uuid st0 failed w :
  ended uuid w -> startSagaRollback uuid st0 failed w = Ret (tt, w).
Proof.
  intros [Hl Hr]. unfold startSagaRollback, LockEntry, lock_wm, gets, mbind, M_bind.
  by rewrite Hl, Hr.
Qed.

Lemma markWorkflowFailed_gone payload msg w :
  ended (WorkflowID payload) w ->
  FireTaskFailed (eventTriggerMgr w) (WorkflowID payload) (TaskName payload) = [] ->
  markWorkflowFailed_s payload msg w =
    Ret (tt, w <| events ::= fun l => l ++
      [MkEvent (WorkflowID payload) "workflow_failed" (DataUUID (WorkflowID payload))] |>).
Proof.
  intros [Hl Hr] Hf. unfold markWorkflowFailed_s, LockEntry, lock_wm, gets, emit, modify, mbind, M_bind.
  rewrite Hl, Hr. cbn. by rewrite Hf.
Qed.

(** ** Properties: compensation *)

(** The run's state in the history when the history is consistent. *)
Definition recorded_as (uuid : string) (st : WorkflowState) (w w' : World) : Prop :=
  hist_ok w -> WorkflowUUID st = uuid -> ExecutionID st ∉ historyOrder w ->
  GetHistory uuid w' = Ret (Some st, w').

Lemma persisted_recorded uuid st e w w' :
  wm_locked w = false -> only_events (persisted uuid st e w) w' -> recorded_as uuid st w w'.
Proof.
  intros Hl (l & n & ->) Hok Hu Hid.
  destruct (persisted_history uuid st e w Hok Hu Hid) as (_ & _ & Hst & Hlat).
  destruct (persisted_outside uuid st e w) as (Hout & _).
  eapply (GetHistory_found_as _ _ _ (persisted uuid st e w)); try done.
  by rewrite (so_locked _ _ Hout).
Qed.

(** C36: a compensation undoes nothing: starting it takes the run away from the
    running entries before it looks there for the completed tasks, so that no
    rollback task is ever written or started, and the history keeps the run in
    the status ROLLING_BACK. *)
Theorem saga_never_compensates (uuid : string) (st0 : WorkflowState) (failed : TaskPayload)
    (e : workflowEntry) (wf : Workflow) (w : World) :
  wm_locked w = false -> runningEntries w !! uuid = Some e ->
  ws_Workflow (we_state e) = Some wf -> TaskGroupIndex (we_state e) = BuildTaskGroupIndex wf ->
  Status (we_state e) = WorkflowStatusRunning \/ Status (we_state e) = WorkflowStatusPaused ->
  wp (startSagaRollback uuid st0 failed) (fun _ w' =>
    runningEntries w' = delete uuid (runningEntries w) /\
    spawned w' = spawned w /\ etcd w' = etcd w /\
    recorded_as uuid (saga_state (we_state e) failed) w w') w.
Proof.
  intros Hl He Hwf Hidx Hst. eapply wp_mono; [by eapply startSagaRollback_running|].
  intros ? w' Hev. cbv beta in Hev.
  destruct (persisted_outside uuid (saga_state (we_state e) failed) e w) as (Hout & Hr & _).
  pose proof (persisted_recorded uuid _ e w w' Hl Hev) as Hrec.
  generalize dependent (persisted uuid (saga_state (we_state e) failed) e w).
  intros w1 Hev Hout Hr. split_and!; [| | |exact Hrec]; destruct Hev as (l & n & E); rewrite E; clear E.
  - exact Hr.
  - exact (so_spawned _ _ Hout).
  - exact (so_etcd _ _ Hout).
Qed.

(** Cancelling a running or paused workflow ends its run and cancels its
    context, but nothing of it is undone, and the history keeps it in the
    status it had, RUNNING or PAUSED, with the error of the cancellation; other
    workflows are refused without any effect. *)
Theorem CancelWorkflow_ends (uuid : string) (w : World) :
  wm_locked w = false ->
  wp (CancelWorkflow uuid) (fun r w' =>
    match runningEntries w !! uuid with
    | None => r = Err NotFound /\ w' = w
    | Some e =>
        let st := we_state e in
        if decide (Status st = WorkflowStatusRunning \/ Status st = WorkflowStatusPaused) then
          r = Ok tt /\ runningEntries w' = delete uuid (runningEntries w) /\
          we_ctx e ∈ cancelled w' /\ spawned w' = spawned w /\ etcd w' = etcd w /\
          recorded_as uuid (st <| ws_Error := "用户已取消" |>) w w'
        else r = Err NotRunning /\ w' = w
    end) w.
Proof.
  intros Hl. unfold CancelWorkflow. apply wp_bind, wp_LockEntry; [done|].
  destruct (runningEntries w !! uuid) as [e|] eqn:He; [|done].
  destruct (decide _) as [Hst|Hst]; [|done].
  set (st := we_state e <| ws_Error := "用户已取消" |>).
  apply wp_bind, wp_persist; [done|].
  destruct (persisted_outside uuid st e w) as (Hout & Hr & Hc & _).
  pose proof (persisted_recorded uuid st e w) as Hrec.
  assert (Hend : ended uuid (persisted uuid st e w)).
  { split; [by rewrite (so_locked _ _ Hout)|]. rewrite Hr. apply lookup_delete_eq. }
  generalize dependent (persisted uuid st e w). intros w1 Hout Hr Hc Hrec Hend.
  apply wp_bind, wp_emit, wp_bind. unfold new_trace_id. apply wp_bind.
  unfold wp at 1, fresh_id. apply wp_ret, wp_bind. unfold StartSagaRollback. cbn [world_coordinator].
  unfold wp at 1. rewrite startSagaRollback_gone by exact Hend. apply wp_ret.
  split_and!; [done|exact Hr| |exact (so_spawned _ _ Hout)|exact (so_etcd _ _ Hout)|].
  - cbn. rewrite Hc. set_solver.
  - apply Hrec; [done|]. by eexists _, _.
Qed.

(** A timeout ends a running or paused workflow in the same way: it is
    neither failed nor rolled back, whatever its timeout policy; the history
    keeps it in the status it had, and it is not counted as failed. *)
Theorem timeoutAfter_ends (uuid : string) (timeout : Z) (e : workflowEntry) (w : World) :
  wm_locked w = false -> runningEntries w !! uuid = Some e ->
  Status (we_state e) = WorkflowStatusRunning \/ Status (we_state e) = WorkflowStatusPaused ->
  FireTaskFailed (eventTriggerMgr w) uuid "__timeout__" = [] ->
  wp (timeoutAfter true uuid timeout) (fun _ w' =>
    runningEntries w' = delete uuid (runningEntries w) /\
    we_ctx e ∈ cancelled w' /\ spawned w' = spawned w /\ failedCount w' = failedCount w /\
    recorded_as uuid
      (we_state e <| ws_Error := "工作流执行超时（" +:+ duration_string timeout +:+ "）" |>) w w') w.
Proof.
  intros Hl He Hst Hfire. unfold timeoutAfter. apply wp_bind, wp_LockEntry; [done|]. rewrite He.
  rewrite decide_True by done. cbv zeta.
  set (st := upd ws_Error _ _).
  apply wp_bind, wp_persist; [done|].
  destruct (persisted_outside uuid st e w) as (Hout & Hr & Hc & _).
  pose proof (persisted_recorded uuid st e w) as Hrec.
  assert (Hend : ended uuid (persisted uuid st e w)).
  { split; [by rewrite (so_locked _ _ Hout)|]. rewrite Hr. apply lookup_delete_eq. }
  assert (Hf : failedCount (persisted uuid st e w) = failedCount w).
  { destruct (persisted_frame uuid st e w) as (h & u & o & ->). unfold persist_core, count_ended.
    change (Status st) with (Status (we_state e)). by destruct Hst as [-> | ->]. }
  generalize dependent (persisted uuid st e w). intros w1 Hout Hr Hc Hrec Hend Hf.
  assert (Hcut : forall w', only_events w1 w' ->
    runningEntries w' = delete uuid (runningEntries w) /\
    we_ctx e ∈ cancelled w' /\ spawned w' = spawned w /\ failedCount w' = failedCount w /\
    recorded_as uuid st w w').
  { intros w' Hev. split_and!; [| | | |by apply Hrec]; destruct Hev as (l & n & E); rewrite E; clear E.
    - exact Hr.
    - cbn. rewrite Hc. set_solver.
    - exact (so_spawned _ _ Hout).
    - exact Hf. }
  assert (Htail : forall w2, only_events w1 w2 -> wp (traceID ← new_trace_id;
    startSagaRollback uuid st (zero_payload <| WorkflowID := uuid |> <| TaskName := "__timeout__" |>
       <| TraceID := traceID |>
       <| Result := "工作流执行超时（" +:+ duration_string timeout +:+ "）" |>))
    (fun _ w' => only_events w1 w') w2).
  { intros w2 (l & n & ->). apply wp_bind. unfold new_trace_id. apply wp_bind.
    unfold wp at 1, fresh_id. apply wp_ret. unfold wp.
    rewrite startSagaRollback_gone by exact Hend. by eexists l, _. }
  assert (H0 : only_events w1 w1).
  { exists [], (counter w1). destruct w1. cbn. by rewrite app_nil_r. }
  eapply (wp_mono _ (fun _ w' => only_events w1 w')); [|intros _ w'; apply Hcut].
  unfold HandleTimeoutPolicy. apply wp_bind.
  destruct (policy_of st) as [ep|]; [|by apply wp_ret, Htail].
  case_decide; [|by apply wp_ret, Htail].
  apply wp_bind. unfold new_trace_id. apply wp_bind. unfold wp at 1, fresh_id. apply wp_ret.
  apply wp_bind. unfold wp at 1. rewrite markWorkflowFailed_gone; [|exact Hend|].
  - apply wp_ret. by eexists _, _.
  - cbn. by rewrite (so_triggers _ _ Hout).
Qed.

(** ** Properties: failures *)

(** Each action of the error policy, as [handleTaskFailed] carries it out. *)
Definition perform (ctx : nat) (uuid : string) (state : WorkflowState) (payload : TaskPayload)
    (a : ErrorPolicyAction) : M World unit :=
  match a with
  | ErrorActionFailFast => ExecuteFailFast uuid payload;; ReleaseSlotForWorkflow uuid
  | ErrorActionSkip => skip_task uuid payload
  | ErrorActionRetry =>
      backoff ← retry_backoff payload;
      ReleaseSlotForWorkflow uuid;;
      spawn (GRetryTask ctx payload (whole_seconds backoff))
  | ErrorActionRollback =>
      if decide (GetTaskErrorPolicy (policy_of state) (TaskName payload) = ErrorPolicyRollback) then
        ExecuteRollback uuid state payload;; ReleaseSlotForWorkflow uuid
      else
        emit uuid "workflow_failed"
          (DataMap {["workflow" := uuid; "task" := TaskName payload; "error" := Result payload]});;
        startSagaRollback uuid state payload;;
        ReleaseSlotForWorkflow uuid
  end.

(** A task whose policy is skip although it may not be skipped. *)
Definition unskippable (state : WorkflowState) (payload : TaskPayload) : bool :=
  bool_decide (GetTaskErrorPolicy (policy_of state) (TaskName payload) = ErrorPolicySkip) &&
  negb (IsSkippable (policy_of state) (TaskName payload)).

Lemma handleTaskFailed_eq (ctx : nat) (uuid : string) (state : WorkflowState)
    (payload : TaskPayload) (w : World) :
  handleTaskFailed ctx uuid state payload w =
  perform ctx uuid state payload
    (if unskippable state payload then defaultAction payload
     else ResolveErrorPolicy (Some state) payload) w.
Proof.
  assert (Hdef : GetTaskErrorPolicy (policy_of state) (TaskName payload) <> ErrorPolicyRollback ->
    default_failure ctx uuid state payload w =
    perform ctx uuid state payload (defaultAction payload) w).
  { intros Hne. unfold default_failure, defaultAction. unfold perform.
    destruct (NoRetry payload); [by rewrite decide_False|].
    destruct (RetryCount payload <? pl_MaxRetries payload); [done|by rewrite decide_False]. }
  unfold handleTaskFailed, unskippable, ResolveErrorPolicy.
  change (Some state ≫= policy_of) with (policy_of state).
  destruct (policy_of state) as [ep|] eqn:Hep; [|by apply Hdef].
  destruct (decide (GetTaskErrorPolicy (Some ep) (TaskName payload) = ErrorPolicyFailFast)) as [Hff|Hff].
  { rewrite Hff, bool_decide_false by discriminate. cbn [andb].
    by rewrite !decide_False by discriminate. }
  destruct (decide (GetTaskErrorPolicy (Some ep) (TaskName payload) = ErrorPolicyRollback)) as [Hrb|Hrb].
  { rewrite Hrb, bool_decide_false by discriminate. cbn [andb perform]. rewrite Hep. by rewrite decide_True. }
  destruct (decide (GetTaskErrorPolicy (Some ep) (TaskName payload) = ErrorPolicySkip)) as [Hsk|Hsk].
  - rewrite bool_decide_true by done. cbn [andb].
    destruct (IsSkippable (Some ep) (TaskName payload)); cbn [negb]; [done|by apply Hdef].
  - rewrite bool_decide_false by done. cbn [andb]. by apply Hdef.
Qed.

(** [handleTaskFailed] carries out the action [ResolveErrorPolicy] names,
    but for one case: a task whose policy is skip and that may not be skipped
    is always retried according to [ResolveErrorPolicy], and is retried only
    while it may be (no NoRetry, attempts left) by [handleTaskFailed]. *)
Theorem handleTaskFailed_resolves (ctx : nat) (uuid : string) (state : WorkflowState)
    (payload : TaskPayload) (w : World) :
  handleTaskFailed ctx uuid state payload w =
  perform ctx uuid state payload
    (if unskippable state payload then defaultAction payload
     else ResolveErrorPolicy (Some state) payload) w /\
  (unskippable state payload = true -> ResolveErrorPolicy (Some state) payload = ErrorActionRetry).
Proof.
  split; [apply handleTaskFailed_eq|]. unfold unskippable, ResolveErrorPolicy.
  change (Some state ≫= policy_of) with (policy_of state).
  intros [Hsk%bool_decide_eq_true Hno%negb_true_iff]%andb_true_iff.
  destruct (policy_of state) as [ep|]; [|done]. rewrite Hsk, decide_False by discriminate.
  by rewrite decide_True, Hno.
Qed.

Lemma persisted_gone uuid st e w : sane w -> gone uuid (persisted uuid st e w).
Proof.
  intros Hs. split; [by apply sane_persisted|].
  destruct (persisted_outside uuid st e w) as (_ & Hr & _). rewrite Hr. apply lookup_delete_eq.
Qed.

Lemma gone_events uuid w w' : only_events w w' -> gone uuid w -> gone uuid w'.
Proof.
  intros (l & n & ->) [Hs Hr]. split; [|exact Hr]. by apply (sane_sub w).
Qed.

Lemma saga_ends uuid st0 p e wf w :
  sane w -> runningEntries w !! uuid = Some e ->
  ws_Workflow (we_state e) = Some wf -> TaskGroupIndex (we_state e) = BuildTaskGroupIndex wf ->
  Status (we_state e) = WorkflowStatusRunning \/ Status (we_state e) = WorkflowStatusPaused ->
  wp (startSagaRollback uuid st0 p;; ReleaseSlotForWorkflow uuid) (fun _ => gone uuid) w.
Proof.
  intros Hs He Hwf Hidx Hst. apply wp_bind. eapply wp_mono.
  - apply (startSagaRollback_running uuid st0 p e wf); try done. apply Hs.
  - intros a w' Hev. cbv beta in Hev. eapply release_gone, gone_events; [exact Hev|].
    by apply persisted_gone.
Qed.

Lemma wp_assoc {S A B C : Type} (m : M S A) (f : A -> M S B) (g : B -> M S C) Q s :
  wp ((m ≫= f) ≫= g) Q s = wp (m ≫= fun a => f a ≫= g) Q s.
Proof. unfold wp, mbind, M_bind. by destruct (m s) as [[a s']| |]. Qed.

Lemma failure_ends (ctx : nat) (uuid : string) (state : WorkflowState)
    (payload : TaskPayload) (e : workflowEntry) (wf : Workflow) (w : World) :
  sane w -> runningEntries w !! uuid = Some e -> WorkflowID payload = uuid ->
  ws_Workflow (we_state e) = Some wf -> TaskGroupIndex (we_state e) = BuildTaskGroupIndex wf ->
  Status (we_state e) = WorkflowStatusRunning \/ Status (we_state e) = WorkflowStatusPaused ->
  (if unskippable state payload then defaultAction payload
   else ResolveErrorPolicy (Some state) payload) <> ErrorActionRetry ->
  wp (handleTaskFailed ctx uuid state payload) (fun _ => gone uuid) w.
Proof.
  intros Hs He Hu Hwf Hidx Hst Hact. unfold wp. rewrite handleTaskFailed_eq.
  change (wp (perform ctx uuid state payload
    (if unskippable state payload then defaultAction payload
     else ResolveErrorPolicy (Some state) payload)) (fun _ => gone uuid) w).
  destruct (if unskippable state payload then _ else _); [done|..]; clear Hact; cbn [perform].
  - case_decide.
    + unfold ExecuteRollback. rewrite wp_assoc. apply wp_bind, wp_modify.
      unfold new_trace_id. rewrite !wp_assoc. apply wp_bind. unfold wp at 1, fresh_id.
      apply wp_bind, wp_ret. by apply (saga_ends _ _ _ e wf); [apply (sane_sub w)|..].
    + apply wp_bind, wp_modify. by apply (saga_ends _ _ _ e wf); [apply (sane_sub w)|..].
  - unfold skip_task. apply wp_bind, wp_LockEntry; [apply Hs|]. rewrite He.
    apply wp_bind, wp_persist; [apply Hs|].
    match goal with |- context [persisted ?u ?s ?en ?x] =>
      pose proof (persisted_gone u s en x Hs) as Hend end.
    match type of Hend with gone _ ?x => generalize dependent x end. intros w1 [Hs1 Hr1].
    apply wp_bind, wp_emit, wp_bind, wp_on_listeners.
    eapply wp_mono; [apply (notify_ok _ _ _ 0); apply Hs1|].
    intros b tl (Hok & _). apply release_gone. split; [|exact Hr1].
    apply sane_set_listeners; [|done]. by apply (sane_sub w1).
  - unfold ExecuteFailFast. apply wp_bind, wp_bind.
    eapply wp_mono; [by apply markWorkflowFailed_sane|].
    intros ? w' H'; cbv beta in H'. destruct H' as [Hs' Hk].
    apply wp_emit, release_gone. split; [by apply (sane_sub w')|]. apply Hk. by left.
Qed.

(** ** What a failure leaves *)

(** The part of the world that has to do with the runs. *)
Definition runs_of (w : World) :=
  (wm_locked w, workflowHistory w, workflowHistoryByUUID w, runningEntries w, jobs w).

(** The run [uuid] of [w] has been ended in the state [st]: taken away from
    the running entries, handed to the pool that writes to MySQL, and put in the history (when that
    is consistent and the run has an execution ID of its own). *)
Definition closed (uuid : string) (st : WorkflowState) (w w' : World) : Prop :=
  runningEntries w' = delete uuid (runningEntries w) /\
  jobs w' = persist_jobs uuid st (jobs w) /\
  recorded_as uuid st w w'.

Lemma closed_persisted uuid st e w w0 w' : wm_locked w = false -> only_events w w0 ->
  runs_of w' = runs_of (persisted uuid st e w0) -> closed uuid st w w'.
Proof.
  intros Hl (l & n & E) Hw. assert (Hl0 : wm_locked w0 = false) by by rewrite E.
  assert (Hok0 : hist_ok w -> hist_ok w0) by (rewrite E; by apply hist_ok_ext).
  assert (Hrest : runningEntries w0 = runningEntries w /\ jobs w0 = jobs w /\ historyOrder w0 = historyOrder w)
    by by rewrite E.
  clear E. destruct Hrest as (Er & Ej & Eo). destruct (persisted_outside uuid st e w0) as (Hout & Hr & _ & Hj & _).
  injection Hw as Ew Eh Eu Er' Ej'. split_and!.
  - by rewrite Er', Hr, Er.
  - by rewrite Ej', Hj, Ej.
  - intros Hok Hu Hid. rewrite <- Eo in Hid.
    destruct (persisted_history uuid st e w0 (Hok0 Hok) Hu Hid) as (_ & _ & Hst & Hlat).
    eapply (GetHistory_found_as _ _ _ (persisted uuid st e w0)); try done. by rewrite (so_locked _ _ Hout).
Qed.

Lemma only_events_refl w : only_events w w.
Proof. exists [], (counter w). destruct w. cbn. by rewrite app_nil_r. Qed.

(** A run closed; then its slot released. *)
Definition closed_released (uuid : string) (st : WorkflowState) (w w' : World) : Prop :=
  exists w1, closed uuid st w w1 /\ ReleaseSlotForWorkflow uuid w1 = Ret (tt, w').

Lemma release_closed uuid st w w1 : closed uuid st w w1 -> sane w1 ->
  wp (ReleaseSlotForWorkflow uuid) (fun _ => closed_released uuid st w) w1.
Proof.
  intros Hc Hs. destruct (wp_run _ _ _ (release_sane uuid w1 Hs)) as ([] & w' & Hr & _).
  unfold wp. rewrite Hr. by exists w1.
Qed.

Lemma runs_of_events w w' : only_events w w' -> runs_of w' = runs_of w.
Proof. by intros (l & n & ->). Qed.

Lemma saga_closes uuid st0 p e wf w w0 :
  sane w -> only_events w w0 -> runningEntries w !! uuid = Some e ->
  ws_Workflow (we_state e) = Some wf -> TaskGroupIndex (we_state e) = BuildTaskGroupIndex wf ->
  Status (we_state e) = WorkflowStatusRunning \/ Status (we_state e) = WorkflowStatusPaused ->
  wp (startSagaRollback uuid st0 p;; ReleaseSlotForWorkflow uuid)
    (fun _ => closed_released uuid (saga_state (we_state e) p) w) w0.
Proof.
  intros Hs Hw0 He Hwf Hidx Hst. assert (Hs0 : sane w0) by (destruct Hw0 as (l & n & ->); by apply (sane_sub w)).
  assert (He0 : runningEntries w0 !! uuid = Some e) by by destruct Hw0 as (l & n & ->).
  apply wp_bind. eapply wp_mono; [apply (startSagaRollback_running uuid st0 p e wf); try done; apply Hs0|].
  intros a w' Hev. cbv beta in Hev. apply release_closed.
  - eapply closed_persisted; [apply Hs|exact Hw0|by apply runs_of_events].
  - by apply (gone_events uuid _ _ Hev), persisted_gone.
Qed.

Definition fail_fast_state (st : WorkflowState) (payload : TaskPayload) (msg : string) : WorkflowState :=
  st <| FailedTasks ::= <[TaskName payload := msg]> |> <| Status := WorkflowStatusFailed |> <| ws_Error := msg |>.

Lemma mark_closes payload msg e w : sane w -> runningEntries w !! WorkflowID payload = Some e ->
  wp (markWorkflowFailed_s payload msg) (fun _ w' => sane w' /\
    runs_of w' = runs_of (persisted (WorkflowID payload) (fail_fast_state (we_state e) payload msg) e w)) w.
Proof.
  intros Hs He. unfold markWorkflowFailed_s. apply wp_bind, wp_LockEntry; [apply Hs|]. rewrite He.
  apply wp_bind, wp_persist; [apply Hs|]. fold (fail_fast_state (we_state e) payload msg).
  pose proof (sane_persisted (WorkflowID payload) (fail_fast_state (we_state e) payload msg) e w Hs) as Hs1.
  generalize dependent (persisted (WorkflowID payload) (fail_fast_state (we_state e) payload msg) e w).
  intros w1 Hs1. apply wp_bind, wp_emit, wp_bind, wp_gets. apply wp_for_each; [|by split; [apply (sane_sub w1)|]].
  intros t w2 _ [Hs2 Hr2]. apply wp_spawn. by split; [apply (sane_sub w2)|].
Qed.

(** The state in which an action of the policy ends a run. *)
Definition ended_state (state : WorkflowState) (payload : TaskPayload) (a : ErrorPolicyAction)
    (st : WorkflowState) : WorkflowState :=
  match a with
  | ErrorActionSkip =>
      st <| CompletedTasks ::= <[TaskName payload := skipped_output payload]> |>
         <| FailedTasks ::= delete (TaskName payload) |>
  | ErrorActionFailFast => fail_fast_state st payload (policy_failure "fail_fast" payload)
  | _ =>
      saga_state st
        (if decide (GetTaskErrorPolicy (policy_of state) (TaskName payload) = ErrorPolicyRollback)
         then zero_payload <| TaskName := TaskName payload |> <| Result := policy_failure "rollback" payload |>
         else payload)
  end.

Lemma failure_closes (ctx : nat) (uuid : string) (state : WorkflowState)
    (payload : TaskPayload) (e : workflowEntry) (wf : Workflow) (a : ErrorPolicyAction) (w : World) :
  sane w -> runningEntries w !! uuid = Some e -> WorkflowID payload = uuid ->
  ws_Workflow (we_state e) = Some wf -> TaskGroupIndex (we_state e) = BuildTaskGroupIndex wf ->
  Status (we_state e) = WorkflowStatusRunning \/ Status (we_state e) = WorkflowStatusPaused ->
  a <> ErrorActionRetry ->
  wp (perform ctx uuid state payload a)
    (fun _ => closed_released uuid (ended_state state payload a (we_state e)) w) w.
Proof.
  intros Hs He Hu Hwf Hidx Hst Ha. destruct a; [done|..]; cbn [perform ended_state].
  - destruct (decide _) as [_|_].
    + unfold ExecuteRollback. rewrite wp_assoc. apply wp_bind, wp_modify.
      unfold new_trace_id. rewrite !wp_assoc. apply wp_bind. unfold wp at 1, fresh_id.
      apply wp_bind, wp_ret. match goal with |- wp (startSagaRollback _ _ ?p;; _) _ ?w0 =>
        refine (saga_closes uuid state p e wf w w0 Hs _ He Hwf Hidx Hst) end. by eexists _, _.
    + apply wp_bind, wp_modify. eapply (saga_closes uuid state payload e wf w); try done.
      eexists _, (counter w). by destruct w.
  - unfold skip_task. apply wp_bind, wp_LockEntry; [apply Hs|]. rewrite He.
    apply wp_bind, wp_persist; [apply Hs|]. set (st := upd FailedTasks _ _).
    pose proof (persisted_gone uuid st e w Hs) as [Hs1 _].
    pose proof (closed_persisted uuid st e w w) as Hc. specialize (fun w' => Hc w' (sane_lock _ Hs) (only_events_refl w)).
    generalize dependent (persisted uuid st e w). intros w1 Hs1 Hc.
    apply wp_bind, wp_emit, wp_bind, wp_on_listeners.
    eapply wp_mono; [apply (notify_ok _ _ _ 0); apply Hs1|].
    intros b tl (Hok & _). apply release_closed; [by apply Hc|].
    apply sane_set_listeners; [|done]. by apply (sane_sub w1).
  - unfold ExecuteFailFast. apply wp_bind, wp_bind. subst uuid.
    eapply wp_mono; [by apply (mark_closes payload _ e)|]. intros ? w' [Hs' Hr].
    apply wp_emit, release_closed; [|by apply (sane_sub w')].
    eapply closed_persisted; [apply Hs|apply only_events_refl|exact Hr].
Qed.

(** C37: A failure that is not retried ends the run, whatever the policy
    says, skipping included.  The run is taken from the running entries and
    persisted: it is put in the history and handed to the pool that writes to
    MySQL; then its slot is released.  With the policy fail_fast it is persisted as
    FAILED; with skip, in the status it had and with the task marked as
    completed, and the workflow is not continued; in the other cases as
    ROLLING_BACK. *)
Theorem failure_ends_unless_retried (ctx : nat) (uuid : string) (state : WorkflowState)
    (payload : TaskPayload) (e : workflowEntry) (wf : Workflow) (w : World) :
  sane w -> runningEntries w !! uuid = Some e -> WorkflowID payload = uuid ->
  ws_Workflow (we_state e) = Some wf -> TaskGroupIndex (we_state e) = BuildTaskGroupIndex wf ->
  Status (we_state e) = WorkflowStatusRunning \/ Status (we_state e) = WorkflowStatusPaused ->
  let action := if unskippable state payload then defaultAction payload
                else ResolveErrorPolicy (Some state) payload in
  action <> ErrorActionRetry ->
  let st := ended_state state payload action (we_state e) in
  wp (handleTaskFailed ctx uuid state payload) (fun _ w' =>
    gone uuid w' /\
    exists w1, runningEntries w1 = delete uuid (runningEntries w) /\
      jobs w1 = persist_jobs uuid st (jobs w) /\
      (hist_ok w -> WorkflowUUID st = uuid -> ExecutionID st ∉ historyOrder w ->
         GetHistory uuid w1 = Ret (Some st, w1)) /\
      ReleaseSlotForWorkflow uuid w1 = Ret (tt, w')) w.
Proof.
  intros Hs He Hu Hwf Hidx Hst action Ha st. apply wp_and; [by eapply failure_ends|].
  unfold wp. rewrite handleTaskFailed_eq.
  change (wp (perform ctx uuid state payload action) (fun _ w' =>
    exists w1, runningEntries w1 = delete uuid (runningEntries w) /\
      jobs w1 = persist_jobs uuid st (jobs w) /\ recorded_as uuid st w w1 /\
      ReleaseSlotForWorkflow uuid w1 = Ret (tt, w')) w).
  eapply wp_mono; [by eapply failure_closes|]. intros _ w' (w1 & (Hr & Hj & Hh) & Hrel). by exists w1.
Qed.

End watch_properties.

(** After a reconnection the pending tasks are dispatched again, but the
    goroutine of their workflow passes over every event that is neither
    COMPLETED nor FAILED: the scan changes nothing. *)
Theorem rescan_has_no_effect `{Naming} (ctx : nat) (uuid : string) (value : TaskPayload) (w : World) :
  wm_locked w = false -> pl_Status value = StatusPending ->
  exists goes_on, watch_event ctx uuid (Deserialize value) w = Ret (goes_on, w).
Proof.
  intros Hl Hs. unfold watch_event, LockEntry, lock_wm, gets, mbind, M_bind. rewrite Hl.
  destruct (runningEntries w !! uuid) as [e|]; [|by eexists].
  case_match; [by eexists|]. change (pl_Status (Deserialize value)) with (pl_Status value).
  rewrite Hs, !decide_False by discriminate. by eexists.
Qed.

(** ** Witnesses *)

Definition ex_running : World :=
  ex_world <| runningEntries := {["demo" := MkEntry ex_state 1 false]} |>.

Lemma ex_counters : counters_small (host_td ex_running).
Proof.
  split_and!; [vm_compute; split; discriminate| |vm_compute; discriminate].
  intros u. unfold loadPerWfActive. cbn. rewrite lookup_empty. vm_compute. split; discriminate.
Qed.

Lemma PushTask_slots_witness :
  wp (PushTask "demo" (named_node "a") [])
    (fun r w' => globalActive (w_td w') <= 1) ex_running.
Proof.
  eapply wp_mono; [apply (PushTask_slots "demo" (named_node "a") [] ex_running)|].
  - apply ex_counters.
  - intros st Hst. vm_compute in Hst. injection Hst as <-. by eexists.
  - intros r w' Hq. destruct Hq as [(_ & Hat & _)|(_ & _ & Hc)].
    + exfalso. destruct Hat as [Hat|Hat]; vm_compute in Hat; destruct Hat as [_ Hat]; by apply Hat.
    + destruct r; destruct Hc as [Hg _]; change (host_td w') with (w_td w') in Hg; rewrite Hg;
        vm_compute; discriminate.
Defined.

(** Three tasks wait, one of a workflow that has ended; the next write to etcd
    fails or does not. *)
Definition ex_queued (l : list bool) : World :=
  ex_running <| w_td := NewTaskDispatcher <| pendingPQ :=
    Push pq_less (MkPending "demo" (named_node "a") [] 5 30)
      (Push pq_less (MkPending "gone" (named_node "x") [] 9 20)
         (Push pq_less (MkPending "demo" (named_node "b") [] 9 10) [])) |> |>
  <| faults := l |>.

Lemma ex_queued_ok l :
  counters_small (host_td (ex_queued l)) /\ heap pq_less (pendingPQ (host_td (ex_queued l))) /\
  all_defined (ex_queued l) /\ head_in_time (ex_queued l).
Proof.
  split_and!.
  - split_and!; [vm_compute; split; discriminate| |vm_compute; discriminate].
    intros u. unfold loadPerWfActive. cbn. rewrite lookup_empty. vm_compute. split; discriminate.
  - repeat (apply Push_heap; [apply _|]). apply heap_nil.
  - intros u st Hst. cbn in Hst. apply fmap_Some in Hst as (e & He & ->). cbn in He. apply lookup_singleton_Some in He as [_ <-].
    by eexists.
  - vm_compute. discriminate.
Qed.



Lemma saga_never_compensates_witness :
  wp (startSagaRollback "demo" ex_state zero_payload) (fun _ w' => spawned w' = [] /\ etcd w' = ∅)
    ex_running.
Proof.
  eapply wp_mono; [eapply (saga_never_compensates "demo" ex_state zero_payload _ ex_wf ex_running)|].
  - reflexivity.
  - reflexivity.
  - reflexivity.
  - reflexivity.
  - left. reflexivity.
  - intros a w' H. cbv beta in H. destruct H as (_ & -> & -> & _). split; reflexivity.
Defined.

Lemma CancelWorkflow_ends_witness :
  wp (CancelWorkflow "demo") (fun r w' => r = Ok tt /\ runningEntries w' = ∅) ex_running.
Proof.
  eapply wp_mono; [apply (CancelWorkflow_ends "demo" ex_running); reflexivity|].
  intros r w' H.
  replace (runningEntries ex_running !! "demo") with (Some (MkEntry ex_state 1 false)) in H by reflexivity.
  cbv beta iota zeta in H. rewrite decide_True in H by (left; reflexivity).
  destruct H as (-> & -> & _). split; [reflexivity|]. apply delete_singleton_eq.
Defined.

Lemma timeoutAfter_ends_witness :
  wp (timeoutAfter true "demo" (60 * Second)) (fun _ w' => failedCount w' = 0) ex_running.
Proof.
  eapply wp_mono; [eapply (timeoutAfter_ends "demo" _ _ ex_running)|].
  - reflexivity.
  - reflexivity.
  - left. reflexivity.
  - reflexivity.
  - intros a w' H. cbv beta in H. destruct H as (_ & _ & _ & -> & _). reflexivity.
Defined.

(** A workflow that may skip any task, and the failure of one. *)
Definition skipping_wf : Workflow := SetErrorPolicy ex_wf "skip" "".
Definition ex_skipping : World :=
  ex_world <| runningEntries := {["demo" := MkEntry (new_state skipping_wf 0) 1 false]} |>.
Definition ex_failure : TaskPayload :=
  zero_payload <| WorkflowID := "demo" |> <| TaskName := "a" |> <| pl_Status := StatusFailed |>
    <| pl_MaxRetries := 3 |>.

Lemma ex_skipping_sane : sane ex_skipping.
Proof.
  split; [done|apply noListeners_ok|]. intros u e. unfold ex_skipping. upd_simpl.
  intros [<- <-]%lookup_singleton_Some. by eexists.
Qed.

Lemma failure_ends_unless_retried_witness :
  sane ex_skipping /\
  wp (handleTaskFailed 1 "demo" (new_state skipping_wf 0) ex_failure) (fun _ w' => gone "demo" w' /\
    exists w1 st, GetHistory "demo" w1 = Ret (Some st, w1) /\ Status st = WorkflowStatusRunning /\
      is_Some (CompletedTasks st !! "a") /\ ReleaseSlotForWorkflow "demo" w1 = Ret (tt, w')) ex_skipping.
Proof.
  split; [exact ex_skipping_sane|]. eapply wp_mono.
  - apply (failure_ends_unless_retried 1 "demo" (new_state skipping_wf 0) ex_failure
      (MkEntry (new_state skipping_wf 0) 1 false) skipping_wf ex_skipping).
    + exact ex_skipping_sane.
    + reflexivity.
    + reflexivity.
    + reflexivity.
    + reflexivity.
    + left. reflexivity.
    + vm_compute. discriminate.
  - intros [] w' (Hg & w1 & _ & _ & Hh & Hr). split; [exact Hg|]. eexists w1, _. split_and!.
    + apply Hh; [|reflexivity|cbn; set_solver].
      apply (hist_ok_ext ex_world); [reflexivity..|apply ex_world_ok].
    + reflexivity.
    + vm_compute. by eexists.
    + exact Hr.
Defined.

Lemma rescan_has_no_effect_witness :
  exists goes_on, watch_event 1 "demo" (Deserialize (ex_failure <| pl_Status := StatusPending |>))
    ex_running = Ret (goes_on, ex_running).
Proof. apply rescan_has_no_effect; reflexivity. Defined.
