(* ===== verification/Parallel.v ===== *)
(** * Parallel execution of tasks (infra/engine/scheduler/execution_manager.go:
    ParallelExecutor)

    Every task of a group has its goroutine: it pushes the task, registers a
    listener and waits for the task's event, the watchdog or the cancellation
    of its context.  The goroutines interleave freely: which of them goes next,
    what the rest of the system does meanwhile and which ready case a [select]
    takes are answers of an [Environment], and every theorem holds for all of
    them. *)
From Stdlib Require Import ZArith Lia Ascii String.
From stdpp Require Import base gmap strings list pretty.
From S2P Require Import Prelude GoVal Model Payload Dispatcher Watchers Listeners World.
From S2P Require Import Manager Repository Watch.
Set Warnings "-register-all,-clear-no-such-hyp,-level-tolerance".
Local Open Scope Z_scope.
Local Open Scope list_scope.

(** ** Errors of the executors *)

Inductive exec_error : Type :=
| PushError (uuid task : string) (e : push_error)
| WorkflowContextCancelled
| ContextError
| WatchdogError (sec : Z)
| ListenerClosed
| TaskStatusError (status result : string)
| TooFewSucceeded (success total minSuccess : Z)
| WorkflowGone (uuid : string)
| SubNotRegistered (sub : string)
| SubCopyFailed (sub : string)
| SubEnded (uuid : string) (status : WorkflowStatus)
| SubFailed (uuid err : string)
| FanOutUndefined
| FanOutNoList (key : string).

Definition status_text (s : WorkflowStatus) : string :=
  match s with
  | WorkflowStatusPending => "PENDING" | WorkflowStatusRunning => "RUNNING"
  | WorkflowStatusPaused => "PAUSED" | WorkflowStatusRollingBack => "ROLLING_BACK"
  | WorkflowStatusRolledBack => "ROLLED_BACK" | WorkflowStatusCompleted => "COMPLETED"
  | WorkflowStatusFailed => "FAILED"
  end.

(** [%q] of a string of printable ASCII characters without quotes. *)
Definition quoted (s : string) : string :=
  let q := String (ascii_of_nat 34) "" in q +:+ s +:+ q.

(** The messages, without the text of wrapped errors of JSON and etcd. *)
Definition error_text (e : exec_error) : string :=
  match e with
  | PushError uuid task WorkflowMissing => "工作流 " +:+ uuid +:+ " 不存在"
  | PushError uuid task SerializeFailed => "序列化任务失败 " +:+ task
  | PushError uuid task PutFailed => "下发任务失败 " +:+ task
  | WorkflowContextCancelled => "工作流上下文已取消: context canceled"
  | ContextError => "context canceled"
  | WatchdogError sec => "Master 端任务超时：Worker 在 " +:+ pretty sec +:+ " 秒内未响应"
  | ListenerClosed => "任务监听通道已关闭"
  | TaskStatusError status result => "任务状态: " +:+ status +:+ ", 错误: " +:+ result
  | TooFewSucceeded success total min =>
      "并行任务组执行失败：成功 " +:+ pretty success +:+ "/" +:+ pretty total +:+
      "，需要至少 " +:+ pretty min +:+ " 个成功"
  | WorkflowGone uuid => "工作流 " +:+ uuid +:+ " 不存在"
  | SubNotRegistered sub => "子工作流 " +:+ sub +:+ " 未注册或不存在"
  | SubCopyFailed sub => "深拷贝子工作流 " +:+ sub +:+ " 失败"
  | SubEnded uuid status => "子工作流 " +:+ uuid +:+ " 已结束，状态: " +:+ status_text status
  | SubFailed uuid err => "子工作流 " +:+ uuid +:+ " 执行失败: " +:+ err
  | FanOutUndefined => "Fan-Out 定义为空"
  | FanOutNoList key => "Fan-Out: 上游输出中未找到 key=" +:+ quoted key +:+ " 的列表"
  end.

(** ** The environment *)

(** The case a [select] takes when several are ready; with no preference for
    a ready one, it takes one that is. *)
Inductive wish : Type := WishDone | WishTimer | WishEvent.

(** [pick n]: which of [n] runnable goroutines goes next.  [others]: all that
    happens elsewhere until a [select] goes on.  [early_result uuid]: the result
    of the sub-workflow, if it is there by the time its group is looked at. *)
Class Environment := {
  pick : nat -> M World nat;
  others : M World wish;
  early_result : string -> M World (option (res exec_error (list vmap))) }.

Inductive ParallelStrategy : Type := ParallelStrategyAll | ParallelStrategyFailFast.

#[export] Instance ParallelStrategy_eq_dec : EqDecision ParallelStrategy.
Proof. solve_decision. Defined.

Record ParallelOptions := MkOptions {
  Strategy : ParallelStrategy; MinSuccess : Z; opt_TaskTimeoutSec : Z }.

Definition defaultTaskWatchdogTimeoutSec : Z := 90.

(** ** The goroutines of a group *)

Inductive phase : Type := Fresh | Pushed | Waiting (ch : nat) | Finished.

(** [j_section] groups the tasks that share a semaphore. *)
Record job := MkTask {
  j_section : nat; j_node : TaskNode; j_upstream : list vmap; j_watchdog : Z; j_phase : phase }.

#[export] Instance eta_job : Eta job := fun j =>
  MkTask (j_section j) (j_node j) (j_upstream j) (j_watchdog j) (j_phase j).

(** The output of a task that has completed, nil or not. *)
Abbreviation task_result := (res exec_error (option vmap)).

Definition in_flight (s : nat) (j : job) : bool :=
  (j_section j =? s)%nat && match j_phase j with Pushed | Waiting _ => true | _ => false end.

Definition held (s : nat) (jobs : list job) : Z :=
  Z.of_nat (length (filter (fun j => in_flight s j = true) jobs)).

Definition can_go (cap : nat -> Z) (jobs : list job) (j : job) : bool :=
  match j_phase j with
  | Fresh => held (j_section j) jobs <? cap (j_section j)
  | Pushed | Waiting _ => true
  | Finished => false
  end.

Definition runnable (cap : nat -> Z) (jobs : list job) : list nat :=
  concat (imap (fun i j => if can_go cap jobs j then [i] else []) jobs).

Section parallel.
Context `{Naming} `{Environment}.

Definition is_cancelled (ctx : nat) (w : World) : bool := bool_decide (ctx ∈ cancelled w).

(** The [select] of [executeSingleTask]: an empty channel in a context that is
    not cancelled leaves the watchdog. *)
Definition await (ctx : nat) (stopped : bool) (watchdogSec : Z) (ch : nat)
  : M World task_result :=
  x ← others;
  dead ← gets (fun w => stopped || is_cancelled ctx w);
  got ← gets (fun w => readable ch (taskListeners w));
  match x, dead, got with
  | WishDone, true, _ => mret (Err WorkflowContextCancelled)
  | WishTimer, _, _ => mret (Err (WatchdogError watchdogSec))
  | _, _, Some None => mret (Err ListenerClosed)
  | _, _, Some (Some payload) =>
      modify (fun w => w <| taskListeners ::= take_payload ch |>);;
      mret (if decide (pl_Status payload = StatusCompleted) then Ok (Output payload)
            else Err (TaskStatusError (pl_Status payload) (Result payload)))
  | _, true, None => mret (Err WorkflowContextCancelled)
  | _, false, None => mret (Err (WatchdogError watchdogSec))
  end.

(** [executeSingleTask], one step at a time: push, listen, wait. *)
Definition task_step (ctx : nat) (uuid : string) (stopped : bool) (j : job)
  : M World (phase * option task_result) :=
  match j_phase j with
  | Fresh =>
      err ← PushTask uuid (j_node j) (j_upstream j);
      mret match err with
           | Ok _ => (Pushed, None)
           | Err e => (Finished, Some (Err (PushError uuid (Name (j_node j)) e)))
           end
  | Pushed =>
      ch ← on_listeners (listen uuid (Name (j_node j)));
      mret (Waiting ch, None)
  | Waiting ch =>
      r ← await ctx stopped (j_watchdog j) ch;
      on_listeners (unregisterTaskListener uuid (Name (j_node j)));;
      mret (Finished, Some r)
  | Finished => mret (Finished, None)
  end.

(** The results in the order they arrive, each with the index of its task. *)
Abbreviation results := (list (nat * task_result)).

Definition any_failed (rs : results) : bool := existsb (fun r => negb (is_ok r.2)) rs.

Fixpoint run_tasks (fuel : nat) (ctx : nat) (uuid : string) (strategy : ParallelStrategy)
    (cap : nat -> Z) (jobs : list job) (rs : results) : M World results :=
  match fuel, runnable cap jobs with
  | S fuel', (i0 :: _) as live =>
      k ← pick (length live);
      let i := default i0 (live !! (k mod length live)%nat) in
      match jobs !! i with
      | None => mret rs
      | Some j =>
          let stopped := bool_decide (strategy = ParallelStrategyFailFast) && any_failed rs in
          r ← task_step ctx uuid stopped j;
          run_tasks fuel' ctx uuid strategy cap (<[i := j <| j_phase := r.1 |>]> jobs)
            match r.2 with Some x => rs ++ [(i, x)] | None => rs end
      end
  | _, _ => mret rs
  end.

Definition phase_weight (p : phase) : nat :=
  match p with Fresh => 3 | Pushed => 2 | Waiting _ => 1 | Finished => 0 end.

(** Steps to go: three per task. *)
Definition steps_left (jobs : list job) : nat :=
  sum_list_with (fun j => phase_weight (j_phase j)) jobs.

Definition start_task (section : nat) (watchdogSec : Z) (ups : list vmap) (n : TaskNode) : job :=
  MkTask section n ups watchdogSec Fresh.

(** ** The outcome of a group *)

Definition succeeded (rs : list task_result) : list (option vmap) :=
  omap (fun r => match r with Ok o => Some o | Err _ => None end) rs.

Definition first_error (rs : list task_result) : option exec_error :=
  head (omap (fun r => match r with Ok _ => None | Err e => Some e end) rs).

(** Outputs that are nil are left out. *)
Definition present (outs : list (option vmap)) : list vmap := omap id outs.

Definition group_outcome (minSuccess total : Z) (rs : list task_result)
  : res exec_error (list vmap) :=
  let minSuccess := if minSuccess <=? 0 then total else minSuccess in
  let successCount := Z.of_nat (length (succeeded rs)) in
  if minSuccess <=? successCount then Ok (present (succeeded rs))
  else Err (default (TooFewSucceeded successCount total minSuccess) (first_error rs)).

Definition watchdog_of (opts : ParallelOptions) : Z :=
  if opt_TaskTimeoutSec opts <=? 0 then defaultTaskWatchdogTimeoutSec else opt_TaskTimeoutSec opts.

(** No limit on how many tasks of a section run. *)
Definition unlimited (jobs : list job) : nat -> Z := fun _ => Z.of_nat (length jobs).

Definition ExecuteWithOptions (ctx : nat) (uuid : string) (group : list TaskNode)
    (ups : list vmap) (opts : ParallelOptions) : M World (res exec_error (list vmap)) :=
  if decide (group = []) then mret (Ok [])
  else
    let jobs := start_task 0 (watchdog_of opts) ups <$> group in
    rs ← run_tasks (steps_left jobs) ctx uuid (Strategy opts) (unlimited jobs) jobs [];
    mret (group_outcome (MinSuccess opts) (Z.of_nat (length group)) rs.*2).

Definition Execute_default (ctx : nat) (uuid : string) (group : list TaskNode) (ups : list vmap)
  : M World (res exec_error (list vmap)) :=
  ExecuteWithOptions ctx uuid group ups (MkOptions ParallelStrategyAll 0 0).

End parallel.

(** ** Laws of the environment

    What the rest of the system is trusted with: it does not panic, and it
    leaves the world well formed. *)
Class EnvironmentLaws `{Environment} : Prop := {
  pick_sane n w : sane w -> wp (pick n) (fun _ => sane) w;
  others_sane w : sane w -> wp others (fun _ => sane) w;
  early_sane u w : sane w -> wp (early_result u) (fun _ => sane) w }.

(** Pushing a task touches the dispatcher, the store and the sources of names
    only. *)
Definition pushed_only (w w' : World) : Prop :=
  exists td e fl c,
    w' = w <| w_td := td |> <| etcd := e |> <| faults := fl |> <| counter := c |>.

Lemma pushed_only_refl w : pushed_only w w.
Proof. exists (w_td w), (etcd w), (faults w), (counter w). by destruct w. Qed.

Lemma pushed_only_trans w1 w2 w3 : pushed_only w1 w2 -> pushed_only w2 w3 -> pushed_only w1 w3.
Proof.
  intros (td & e & fl & c & ->) (td' & e' & fl' & c' & ->). by exists td', e', fl', c'.
Qed.

Lemma sane_pushed w w' : sane w -> pushed_only w w' -> sane w'.
Proof. intros [Hl Hk He] (td & e & fl & c & ->). split; [exact Hl|exact Hk|exact He]. Qed.

Section pushing.
Context `{Naming}.

(** A step that only pushes, before the rest. *)
Lemma pushed_bind {A B : Type} (m : M World A) (f : A -> M World B) w0 w :
  pushed_only w0 w -> wp m (fun _ w' => pushed_only w w') w ->
  (forall a w', pushed_only w0 w' -> wp (f a) (fun _ w'' => pushed_only w0 w'') w') ->
  wp (m ≫= f) (fun _ w' => pushed_only w0 w') w.
Proof.
  intros Hw Hm Hf. apply wp_bind. eapply wp_mono; [exact Hm|].
  intros a w' Hw'. apply Hf. by eapply pushed_only_trans.
Qed.

Lemma pushed_read {A B : Type} (g : World -> A) (f : A -> M World B) w0 w :
  wp (f (g w)) (fun _ w' => pushed_only w0 w') w -> wp (gets g ≫= f) (fun _ w' => pushed_only w0 w') w.
Proof. intros Hf. by apply wp_bind, wp_gets. Qed.

Lemma pushed_td (f : TaskDispatcher -> TaskDispatcher) w :
  wp (on_td f) (fun _ w' => pushed_only w w') w.
Proof. exists (f (w_td w)), (etcd w), (faults w), (counter w). by destruct w. Qed.

Lemma pushed_ret {A : Type} (a : A) w0 w :
  pushed_only w0 w -> wp (mret a) (fun _ w' => pushed_only w0 w') w.
Proof. done. Qed.

Lemma fresh_pushed {A : Type} (f : nat -> A) w :
  wp (n ← fresh_id; mret (f n)) (fun _ w' => pushed_only w w') w.
Proof. exists (w_td w), (etcd w), (faults w), (S (counter w)). by destruct w. Qed.

Lemma etcd_put_pushed k p ttl w : wp (etcd_put k p ttl) (fun _ w' => pushed_only w w') w.
Proof.
  unfold wp, etcd_put, store_answer, mbind, M_bind. destruct (faults w) as [|[] fl] eqn:Hf.
  - exists (w_td w), (<[k := p]> (etcd w)), (faults w), (counter w). by destruct w.
  - exists (w_td w), (<[k := p]> (etcd w)), fl, (counter w). by destruct w.
  - exists (w_td w), (etcd w), fl, (counter w). by destruct w.
Qed.

Lemma doPush_pushed uuid n ups w :
  (forall st, running_state uuid w = Some st -> is_Some (ws_Workflow st)) ->
  wp (doPush uuid n ups) (fun _ w' => pushed_only w w') w.
Proof.
  intros Hst. unfold doPush. apply pushed_read. cbn.
  destruct (running_state uuid w) as [st|] eqn:He; [|apply pushed_ret, pushed_only_refl].
  destruct (Hst st eq_refl) as [wf ->]. apply pushed_read.
  eapply pushed_bind; [apply pushed_only_refl|apply fresh_pushed|]. intros tr w1 Hw1.
  eapply pushed_bind; [done|apply fresh_pushed|]. intros tc w2 Hw2.
  case_match; [|by apply pushed_ret]. do 2 apply pushed_read.
  eapply pushed_bind; [done|apply fresh_pushed|]. intros rnd w3 Hw3.
  eapply pushed_bind; [done|apply etcd_put_pushed|]. intros ok w4 Hw4. by apply pushed_ret.
Qed.

Lemma enqueue_pushed uuid n ups prio w :
  wp (enqueuePending uuid n ups prio) (fun _ w' => pushed_only w w') w.
Proof. unfold enqueuePending. apply pushed_read, pushed_td. Qed.

Lemma reserve_pushed uuid n ups prio w :
  wp (reserve uuid n ups prio) (fun _ w' => pushed_only w w') w.
Proof.
  assert (Hq : forall w', pushed_only w w' ->
    wp (enqueuePending uuid n ups prio;; mret false) (fun _ w'' => pushed_only w w'') w').
  { intros w' Hw'. eapply pushed_bind; [done|apply enqueue_pushed|]. intros. by apply pushed_ret. }
  assert (Ha : forall k w', wp (addGlobalActive k) (fun _ w'' => pushed_only w' w'') w').
  { intros k w'. exists (addGlobal k (w_td w')), (etcd w'), (faults w'), (counter w'). by destruct w'. }
  unfold reserve. do 2 apply pushed_read. case_match; [apply Hq, pushed_only_refl|].
  apply pushed_read. case_match; [apply Hq, pushed_only_refl|].
  eapply pushed_bind; [apply pushed_only_refl| |].
  { unfold wp, incPerWf. destruct (incPerWfActive _ _) as [v td].
    exists td, (etcd w), (faults w), (counter w). by destruct w. }
  intros v w1 Hw1. case_match.
  { eapply pushed_bind; [done|apply pushed_td|]. intros. by apply Hq. }
  eapply pushed_bind; [done|apply Ha|]. intros g w2 Hw2. case_match; [|by apply pushed_ret].
  eapply pushed_bind; [done|apply Ha|]. intros ? w3 Hw3.
  eapply pushed_bind; [done|apply pushed_td|]. intros. by apply Hq.
Qed.

Lemma PushTask_pushed uuid n ups w : sane w ->
  wp (PushTask uuid n ups) (fun _ w' => pushed_only w w') w.
Proof.
  intros Hs. unfold PushTask. do 2 apply pushed_read.
  eapply pushed_bind; [apply pushed_only_refl| |].
  { case_match; [apply reserve_pushed|apply pushed_ret, pushed_only_refl]. }
  intros go w1 Hw1. destruct go; [|by apply pushed_ret].
  eapply pushed_bind; [done| |].
  { apply doPush_pushed. intros st Hst. unfold running_state in Hst.
    apply fmap_Some in Hst as (e & He & ->).
    exact (sane_entries _ (sane_pushed _ _ Hs Hw1) _ _ He). }
  intros [?|?] w2 Hw2; [by apply pushed_ret|].
  eapply pushed_bind; [done| |intros _ w3 Hw3].
  { case_match; [apply pushed_td|apply pushed_ret, pushed_only_refl]. }
  eapply pushed_bind; [done|apply pushed_td|]. intros. by apply pushed_ret.
Qed.

End pushing.

(** ** Lemmas: the goroutines of a group *)

(** [rs] has the results of exactly the tasks that are done, one each. *)
Definition tracked (jobs : list job) (rs : list (nat * task_result)) : Prop :=
  NoDup rs.*1 /\ forall i, i ∈ rs.*1 <-> exists j, jobs !! i = Some j /\ j_phase j = Finished.

Lemma elem_of_runnable cap jobs i :
  i ∈ runnable cap jobs <-> exists j, jobs !! i = Some j /\ can_go cap jobs j = true.
Proof.
  unfold runnable. rewrite list_elem_of_In, in_concat. setoid_rewrite <- list_elem_of_In. split.
  - intros (l & Hl & Hi). apply elem_of_lookup_imap in Hl as (k & j & -> & Hj).
    destruct (can_go cap jobs j) eqn:Hc; [|by apply elem_of_nil in Hi].
    apply list_elem_of_singleton in Hi as ->. eauto.
  - intros (j & Hj & Hc). exists [i]. split; [|by left].
    apply elem_of_lookup_imap. exists i, j. by rewrite Hc.
Qed.

(** As long as every section may run a task, some goroutine can go on until
    all are done. *)
Lemma runnable_nil cap jobs :
  (forall s, 1 <= cap s) -> runnable cap jobs = [] ->
  forall i j, jobs !! i = Some j -> j_phase j = Finished.
Proof.
  intros Hcap Hnil.
  assert (Hgo : forall i j, jobs !! i = Some j -> can_go cap jobs j = false).
  { intros i j Hj. destruct (can_go cap jobs j) eqn:Hc; [|done].
    assert (Hi : i ∈ runnable cap jobs) by (apply elem_of_runnable; eauto).
    rewrite Hnil in Hi. by apply elem_of_nil in Hi. }
  intros i j Hj. pose proof (Hgo i j Hj) as Hc. unfold can_go in Hc.
  destruct (j_phase j) eqn:Hp; try done. exfalso.
  assert (held (j_section j) jobs = 0).
  { unfold held. replace (filter _ jobs) with (@nil job); [done|]. symmetry.
    destruct (filter _ jobs) as [|j' l] eqn:Hf; [done|].
    assert (Hin : j' ∈ filter (fun j0 => in_flight (j_section j) j0 = true) jobs)
      by (rewrite Hf; by left).
    apply list_elem_of_filter in Hin as [Hfl Hin].
    apply list_elem_of_lookup in Hin as (i' & Hi'). pose proof (Hgo i' j' Hi') as Hc'.
    unfold can_go in Hc'. unfold in_flight in Hfl. destruct (j_phase j'); try done;
      by rewrite andb_false_r in Hfl. }
  specialize (Hcap (j_section j)). lia.
Qed.

Lemma steps_left_insert jobs i j p :
  jobs !! i = Some j -> (phase_weight p < phase_weight (j_phase j))%nat ->
  (S (steps_left (<[i := j <| j_phase := p |>]> jobs)) <= steps_left jobs)%nat.
Proof.
  intros Hj Hp. unfold steps_left. revert i Hj.
  induction jobs as [|j0 jobs IH]; intros [|i] Hj; simplify_eq/=; [upd_simpl; lia|].
  specialize (IH i Hj). lia.
Qed.

Lemma steps_left_fresh jobs : Forall (fun j => j_phase j = Fresh) jobs ->
  steps_left jobs = (3 * length jobs)%nat.
Proof.
  unfold steps_left. induction 1 as [|j l Hj Hl IH]; [done|]. cbn. rewrite IH, Hj. cbn. lia.
Qed.

Lemma tracked_step jobs rs i j p (x : option task_result) :
  jobs !! i = Some j -> j_phase j <> Finished -> (p = Finished <-> is_Some x) ->
  tracked jobs rs ->
  tracked (<[i := j <| j_phase := p |>]> jobs)
    match x with Some x => rs ++ [(i, x)] | None => rs end.
Proof.
  intros Hj Hp Hx [Hnd Hin]. pose proof (lookup_lt_Some _ _ _ Hj) as Hlt.
  assert (Hi : i ∉ rs.*1) by (rewrite Hin; intros (j' & Hj' & Hf); naive_solver).
  split.
  - destruct x as [x|]; [|done]. rewrite fmap_app. cbn. apply NoDup_app. split_and!; [done| |].
    + intros k Hk ->%list_elem_of_singleton. done.
    + apply NoDup_singleton.
  - intros k. destruct (decide (k = i)) as [->|Hk].
    + rewrite list_lookup_insert_eq by done. destruct x as [x|].
      * rewrite fmap_app, elem_of_app. cbn. split; [|set_solver]. intros _. eexists. split; [done|].
        upd_simpl. apply Hx. by eexists.
      * split; [done|]. intros (j' & [= <-] & Hf). upd_simpl. apply Hx in Hf. by destruct Hf.
    + rewrite list_lookup_insert_ne by done. rewrite <- Hin.
      destruct x as [x|]; [|done]. rewrite fmap_app, elem_of_app. cbn. set_solver.
Qed.

Lemma steps_left_at jobs (i : nat) j : jobs !! i = Some j -> (phase_weight (j_phase j) <= steps_left jobs)%nat.
Proof.
  unfold steps_left. revert i. induction jobs as [|j0 l IH]; intros [|i] Hj; simplify_eq/=; [lia|].
  specialize (IH i Hj). lia.
Qed.

Section machine.
Context `{Naming} `{EnvironmentLaws}.

Lemma await_sane ctx stopped sec ch w : sane w ->
  wp (await ctx stopped sec ch) (fun _ => sane) w.
Proof.
  intros Hs. unfold await. apply wp_bind. eapply wp_mono; [by apply others_sane|].
  intros x w' Hs'. apply wp_bind, wp_gets, wp_bind, wp_gets.
  assert (Ht : forall p, wp (modify (fun w => w <| taskListeners ::= take_payload ch |>);;
    mret (if decide (pl_Status p = StatusCompleted) then Ok (Output p)
          else Err (TaskStatusError (pl_Status p) (Result p)) : task_result)) (fun _ => sane) w').
  { intros p. apply wp_bind, wp_modify, wp_ret.
    apply sane_set_listeners; [done|]. apply (take_ok ch 0), Hs'. }
  destruct x, (stopped || is_cancelled ctx w'), (readable ch (taskListeners w')) as [[p|]|];
    first [by apply wp_ret | apply Ht].
Qed.

Lemma task_step_ok ctx uuid stopped j w : sane w -> j_phase j <> Finished ->
  wp (task_step ctx uuid stopped j) (fun r w' => sane w' /\
    (phase_weight r.1 < phase_weight (j_phase j))%nat /\ (r.1 = Finished <-> is_Some r.2)) w.
Proof.
  intros Hs Hp. unfold task_step. destruct (j_phase j) as [| |ch|]; [..|done].
  - apply wp_bind. eapply wp_mono; [by apply PushTask_pushed|]. intros r w' Hw'.
    apply wp_ret. pose proof (sane_pushed _ _ Hs Hw') as Hs'.
    destruct r; cbn; (split_and!; [done|lia|]); [by split; [|intros []]|].
    split; [by eexists|done].
  - apply wp_bind, wp_on_listeners. eapply wp_mono; [apply (listen_ok _ _ 0), Hs|].
    intros ch tl (Hok & _). apply wp_ret. cbn.
    split_and!; [by apply sane_set_listeners|lia|]. by split; [|intros []].
  - apply wp_bind. eapply wp_mono; [by apply await_sane|]. intros r w' Hs'.
    apply wp_bind, wp_on_listeners. eapply wp_mono; [apply (tl_unregister_ok _ _ 0), Hs'|].
    intros _ tl (Hok & _). apply wp_ret. cbn.
    split_and!; [by apply sane_set_listeners|lia|]. split; [by eexists|done].
Qed.

Lemma run_tasks_spec ctx uuid strategy cap : (forall s, 1 <= cap s) ->
  forall fuel jobs rs w, sane w -> tracked jobs rs -> (steps_left jobs <= fuel)%nat ->
  wp (run_tasks fuel ctx uuid strategy cap jobs rs) (fun rs' w' =>
    sane w' /\ rs'.*1 ≡ₚ seq 0 (length jobs)) w.
Proof.
  intros Hcap. induction fuel as [|fuel IH]; intros jobs rs w Hs Ht Hfuel; cbn [run_tasks];
    pose proof (runnable_nil cap jobs Hcap) as Hnil;
    assert (Hend : (forall i j, jobs !! i = Some j -> j_phase j = Finished) ->
      rs.*1 ≡ₚ seq 0 (length jobs)).
  1,3: intros Hall; destruct Ht as [Hnd Hin];
    (apply NoDup_Permutation; [done|apply NoDup_seq|]); intros i;
    rewrite Hin, elem_of_seq; split;
    [intros (j & Hj & _); apply lookup_lt_Some in Hj; lia|];
    (intros [_ Hi]; destruct (lookup_lt_is_Some_2 jobs i) as [j Hj]; [lia|eauto]).
  - apply wp_ret. split; [done|]. apply Hend. intros i j Hj.
    assert (Hz : phase_weight (j_phase j) = 0%nat) by (pose proof (steps_left_at jobs i j Hj); lia).
    by destruct (j_phase j).
  - destruct (runnable cap jobs) as [|i0 live] eqn:Hlive;
      [apply wp_ret; split; [done|by apply Hend, Hnil]|].
    apply wp_bind. eapply wp_mono; [by apply pick_sane|]. intros k w1 Hs1. cbn beta.
    set (i := default i0 _).
    assert (Hi : i ∈ runnable cap jobs).
    { rewrite Hlive. unfold i. destruct ((i0 :: live) !! _) as [x|] eqn:Hx; cbn; [|by left].
      by eapply list_elem_of_lookup_2. }
    apply elem_of_runnable in Hi as (j & Hj & Hgo). rewrite Hj.
    assert (Hnf : j_phase j <> Finished) by (intros Hf; unfold can_go in Hgo; by rewrite Hf in Hgo).
    apply wp_bind. eapply wp_mono; [by apply task_step_ok|].
    intros [p x] w2 (Hs2 & Hlt & Hx). cbn [fst snd] in *.
    pose proof (steps_left_insert _ _ _ _ Hj Hlt).
    eapply wp_mono; [apply IH; [done|by apply tracked_step|lia]|].
    intros rs' w' [Hs' Hp']. by rewrite length_insert in Hp'.
Qed.

Lemma tracked_fresh jobs : Forall (fun j => j_phase j = Fresh) jobs -> tracked jobs [].
Proof.
  intros Hf. split; [apply NoDup_nil_2|]. intros i. split; [intros Hi; by apply elem_of_nil in Hi|].
  intros (j & Hj & Hp). rewrite list.Forall_lookup in Hf. specialize (Hf _ _ Hj). congruence.
Qed.

Lemma fresh_start section sec ups group :
  Forall (fun j => j_phase j = Fresh) (start_task section sec ups <$> group).
Proof. by apply list.Forall_fmap, Forall_true. Qed.

End machine.

(** ** Lemmas: outcomes *)

Lemma first_error_None (rs : list task_result) :
  first_error rs = None -> length (succeeded rs) = length rs.
Proof.
  unfold first_error, succeeded. induction rs as [|[o|e] rs IH]; cbn; [done| |done].
  intros Hn. f_equal. by apply IH.
Qed.

Lemma first_error_Some (rs : list (nat * task_result)) e :
  first_error rs.*2 = Some e ->
  exists pre i post, rs = pre ++ (i, Err e) :: post /\ Forall (fun r => is_ok r.2 = true) pre.
Proof.
  unfold first_error. induction rs as [|[i [o|e']] rs IH]; cbn; [done| |].
  - intros Hn. destruct (IH Hn) as (pre & k & post & -> & Hpre).
    exists ((i, Ok o) :: pre), k, post. split; [done|]. by constructor.
  - intros [= ->]. by exists [], i, rs.
Qed.

Lemma present_all (outs : list (option vmap)) : Forall is_Some outs -> length (present outs) = length outs.
Proof. unfold present. induction 1 as [|x l [o ->] _ IH]; [done|]. cbn. by rewrite IH. Qed.

Lemma succeeded_le (rs : list task_result) : (length (succeeded rs) <= length rs)%nat.
Proof. unfold succeeded. induction rs as [|[o|e] rs IH]; cbn; lia. Qed.

Lemma ExecuteWithOptions_sane `{Naming} `{EnvironmentLaws} ctx uuid group ups opts w :
  sane w -> wp (ExecuteWithOptions ctx uuid group ups opts) (fun _ => sane) w.
Proof.
  intros Hs. unfold ExecuteWithOptions. case_decide as Hg; [by apply wp_ret|].
  apply wp_bind. eapply wp_mono.
  - apply run_tasks_spec; [|exact Hs|by apply tracked_fresh, fresh_start|done].
    intros s. unfold unlimited. rewrite length_fmap. destruct group; [done|cbn; lia].
  - intros rs w' [Hs' _]. by apply wp_ret.
Qed.

Definition required (opts : ParallelOptions) (n : nat) : Z :=
  if MinSuccess opts <=? 0 then Z.of_nat n else MinSuccess opts.

(** C3: a group of tasks, in whatever order its goroutines run and whatever
    happens meanwhile, ends with one result per task.  It succeeds when enough
    tasks have, with the outputs that are not nil in the order they arrived;
    otherwise it fails with the first error that arrived. *)
Theorem ExecuteWithOptions_outcome `{Naming} `{EnvironmentLaws} (ctx : nat) (uuid : string)
    (group : list TaskNode) (ups : list vmap) (opts : ParallelOptions) (w : World) :
  sane w -> MinSuccess opts <= Z.of_nat (length group) ->
  wp (ExecuteWithOptions ctx uuid group ups opts) (fun r w' => sane w' /\
    exists rs : list (nat * task_result), rs.*1 ≡ₚ seq 0 (length group) /\
    let successes := Z.of_nat (length (succeeded rs.*2)) in
    match r with
    | Ok outs => required opts (length group) <= successes /\ outs = present (succeeded rs.*2)
    | Err e => successes < required opts (length group) /\
        exists pre i post, rs = pre ++ (i, Err e) :: post /\
          Forall (fun r => is_ok r.2 = true) pre
    end) w.
Proof.
  intros Hs Hmin. unfold ExecuteWithOptions. case_decide as Hg.
  { subst group. apply wp_ret. split; [done|]. exists []. cbn. split; [done|].
    split; [|done]. unfold required. cbn in *. case_match; lia. }
  set (jobs := start_task 0 (watchdog_of opts) ups <$> group).
  assert (Hlen : length jobs = length group) by apply length_fmap.
  pose proof (fresh_start 0 (watchdog_of opts) ups group) as Hfresh. fold jobs in Hfresh.
  apply wp_bind. eapply wp_mono.
  { apply run_tasks_spec; [|exact Hs|by apply tracked_fresh|done].
    intros s. unfold unlimited. rewrite Hlen. destruct group; [done|cbn; lia]. }
  intros rs w' [Hs' Hperm]. apply wp_ret. split; [done|]. rewrite Hlen in Hperm.
  exists rs. split; [done|]. cbn zeta. unfold group_outcome. fold (required opts (length group)).
  change (if MinSuccess opts <=? 0 then Z.of_nat (length group) else MinSuccess opts)
    with (required opts (length group)).
  destruct (Z.leb_spec (required opts (length group)) (Z.of_nat (length (succeeded rs.*2)))); [done|].
  destruct (first_error rs.*2) as [e|] eqn:He; cbn.
  - split; [done|]. by apply first_error_Some.
  - apply first_error_None in He. exfalso.
    assert (length rs.*2 = length group).
    { rewrite length_fmap, <- (length_fmap fst), Hperm. apply length_seq. }
    unfold required in *. destruct (Z.leb_spec (MinSuccess opts) 0); lia.
Qed.

(** ** A concrete environment: every waiting task completes *)

Definition complete_chan (p : TaskPayload) (c : taskChan) : taskChan :=
  if tc_closed c then c else c <| slot := Some p |>.

Definition all_complete (p : TaskPayload) : Environment := {|
  pick := fun _ => mret 0%nat;
  others := fun w =>
    Ret (WishEvent, w <| taskListeners ::= fun tl => tl <| tl_heap ::= fmap (complete_chan p) |> |>);
  early_result := fun _ => mret None |}.

Lemma all_complete_laws (p : TaskPayload) : @EnvironmentLaws (all_complete p).
Proof.
  split; try done. intros w Hs. unfold wp. cbn. apply sane_set_listeners; [done|].
  apply (listeners_ok_sub (taskListeners w)); [apply Hs|]. intros u t ch Hch. split; [exact Hch|].
  upd_simpl. rewrite list_lookup_fmap. destruct (tl_heap (taskListeners w) !! ch) as [c|]; [|done].
  cbn. unfold complete_chan. by destruct (tc_closed c) eqn:Hc; cbn; rewrite ?Hc.
Qed.

Definition ex_done : TaskPayload :=
  zero_payload <| pl_Status := StatusCompleted |> <| Output := Some {["r" := VInt 1]} |>.

#[export] Instance ex_env : Environment := all_complete ex_done.
#[export] Instance ex_env_laws : EnvironmentLaws := all_complete_laws ex_done.

Definition ex_tasks : list TaskNode := [named_node "a"; named_node "b"].

Lemma ExecuteWithOptions_outcome_witness :
  returned (ExecuteWithOptions 1 "demo" ex_tasks [] (MkOptions ParallelStrategyAll 0 0)) ex_skipping
    = Some (Ok [{["r" := VInt 1]}; {["r" := VInt 1]}]) /\
  wp (ExecuteWithOptions 1 "demo" ex_tasks [] (MkOptions ParallelStrategyAll 0 0))
    (fun r w' => sane w') ex_skipping.
Proof.
  split; [vm_compute; reflexivity|].
  eapply wp_mono.
  - apply (ExecuteWithOptions_outcome 1 "demo" ex_tasks []
      (MkOptions ParallelStrategyAll 0 0) ex_skipping).
    + exact ex_skipping_sane.
    + vm_compute. discriminate.
  - intros r w' H. exact (proj1 H).
Defined.
