(* ===== verification/Executor.v ===== *)
(** * Execution of workflows (infra/engine/scheduler: execution_manager.go,
    advanced_executor.go)

    The serial executor runs the groups of a workflow one after the other and
    reads the control marks that tasks leave in their outputs: approval,
    branch, skip.  Sub-workflows, fan-outs and loops are groups of their own
    kind.  A goroutine that a call starts last, and that only waits for other
    goroutines before it goes on, runs in line here; goroutines that outlive
    the call are handed to the world. *)
From Stdlib Require Import ZArith Lia Ascii String.
From stdpp Require Import base gmap strings list pretty.
From S2P Require Import Prelude GoVal Model Payload Dispatcher Watchers Listeners.
From S2P Require Import EventTriggers World Copy Manager Repository Watch Parallel.
Set Warnings "-register-all,-clear-no-such-hyp,-level-tolerance".
Local Open Scope Z_scope.
Local Open Scope list_scope.

(** ** Helpers of advanced_executor.go *)

(** The last output that has the key with a [[]any]; other values under the
    key are passed over, but a nil [[]any] is the result, and taken for none. *)
Definition extractIteratorList (upstreamOutputs : list vmap) (key : string) : option (list val) :=
  mjoin (head (omap (fun o => match o !! key with
                              | Some (VList l) => Some (Some l)
                              | Some (VNilRef TList) => Some None
                              | _ => None
                              end)
                (reverse upstreamOutputs))).

Definition buildItemOutput (index : Z) (item : val) (upstreamOutputs : list vmap) : vmap :=
  let output : vmap := {["_index" := VInt index; "_item" := item]} in
  let output := match item with VMap m => merge_into output m | _ => output end in
  foldl (fun output up => output ∪ up) output upstreamOutputs.

Definition shouldContinueLoop (lastOutput : option vmap) (loopDef : LoopDef)
    (currentIteration : Z) : bool :=
  if MaxIterations loopDef <=? currentIteration then false
  else if decide (ConditionType loopDef = "key") then
    if decide (ConditionKey loopDef = "") then true
    else match lastOutput with
         | None => true
         | Some o =>
             match o !! ConditionKey loopDef with
             | Some (VBool b) => b
             | _ => match o !! LoopContinueKey with Some (VBool b) => b | _ => true end
             end
         end
  else true.

(** In the order of the map's iteration. *)
Definition collectCompletedOutputs (completed : gmap string vmap) : list vmap :=
  (map_to_list completed).*2.

(** ** Helpers of execution_manager.go *)

Definition group_at (groups : list (list TaskNode)) (idx : Z) : option (list TaskNode) :=
  if idx <? 0 then None else groups !! Z.to_nat idx.

Definition findTaskNodeWithBranches (groups : list (list TaskNode)) (groupIdx : Z)
  : option TaskNode :=
  g ← group_at groups groupIdx;
  head (filter (fun n => is_Some (Branches n)) g).

Definition findTaskNameInOutput (groups : list (list TaskNode)) (groupIdx : Z) : string :=
  match group_at groups groupIdx with Some (n :: _) => Name n | _ => "" end.

(** [currentNode.Branches[name]]. *)
Definition branch_groups (n : TaskNode) (name : string) : option (list (list TaskNode)) :=
  snd <$> head (filter (fun b => b.1 = name) (default [] (Branches n))).

Definition max_delay (group : list TaskNode) : Z :=
  foldl (fun d n => if d <? DelaySec n then DelaySec n else d) 0 group.

Inductive group_kind : Type := PlainGroup | LoopGroup | AdvancedGroup.

(** The first node that is of an advanced kind decides. *)
Fixpoint detectAdvancedNodes (group : list TaskNode) : group_kind :=
  match group with
  | [] => PlainGroup
  | n :: group' =>
      match Loop n with
      | Some _ => LoopGroup
      | None =>
          if bool_decide (GetTaskNodeType n = TaskNodeTypeFanOut) &&
             match FanOut n with Some _ => true | None => false end then AdvancedGroup
          else if bool_decide (GetTaskNodeType n = TaskNodeTypeSubWorkflow) &&
                  negb (bool_decide (SubWorkflow n = "")) then AdvancedGroup
          else detectAdvancedNodes group'
      end
  end.

(** The master's limit for a task: three times the worker's, 90 seconds at
    least. *)
Definition master_timeout (st : option WorkflowState) : Z :=
  match st ≫= ws_Workflow with
  | Some wf =>
      if (0 <? TaskTimeoutSec wf) && (defaultTaskWatchdogTimeoutSec <? wrap64 (TaskTimeoutSec wf * 3))
      then wrap64 (TaskTimeoutSec wf * 3) else defaultTaskWatchdogTimeoutSec
  | None => defaultTaskWatchdogTimeoutSec
  end.

Definition all_tasks (timeoutSec : Z) : ParallelOptions :=
  MkOptions ParallelStrategyAll 0 timeoutSec.

Section executor.
Context `{GoPlatform} `{Naming} `{Environment}.

(** ** Loops *)

(** A [select] between a result that is there and the end of the context. *)
Definition or_cancelled {A : Type} (ctx : nat) (r : res exec_error A) : M World (res exec_error A) :=
  x ← others;
  dead ← gets (is_cancelled ctx);
  mret match x, dead with WishDone, true => Err ContextError | _, _ => r end.

(** One iteration over the groups of the body, [gi] of them done: the outputs
    so far and the last output. *)
Fixpoint loop_groups (ctx : nat) (uuid : string) (timeoutSec : Z) (start stop gi : Z)
    (groups : list (list TaskNode)) (allOutputs : list vmap) (last : option vmap)
  : M World (res exec_error (list vmap * option vmap)) :=
  match groups with
  | [] => mret (Ok (allOutputs, last))
  | group :: groups' =>
      r ← ExecuteWithOptions ctx uuid group allOutputs (all_tasks timeoutSec);
      r ← or_cancelled ctx r;
      match r with
      | Err e => mret (Err e)
      | Ok grpOutputs =>
          let allOutputs := allOutputs ++ grpOutputs in
          let last := match list.last grpOutputs with Some o => Some o | None => last end in
          let skip := match last with
                      | Some o => Context.GetSkipGroups (Context.NewContextFromMap o)
                      | None => 0
                      end in
          if (0 <? skip) && ((stop + 1) - (start + gi + 1) <=? skip) then mret (Ok (allOutputs, last))
          else loop_groups ctx uuid timeoutSec start stop (gi + 1) groups' allOutputs last
      end
  end.

(** ([upstreamOutputs] is not read.) *)
Definition executeLoopBody (ctx : nat) (uuid : string) (groups : list (list TaskNode))
    (start stop : Z) (upstreamOutputs : list vmap)
  : M World (res exec_error (list vmap * option vmap)) :=
  loopGroups ← slice groups start (stop + 1);
  st ← wm_GetWorkflowState uuid;
  match st with
  | None => mret (Err (WorkflowGone uuid))
  | Some _ => loop_groups ctx uuid (master_timeout st) start stop 0 loopGroups [] None
  end.

(** [n] iterations are left of [MaxIterations]; the result of the loop, with
    the outputs as they are when it fails. *)
Fixpoint loop_iterations (n : nat) (ctx : nat) (uuid : string) (groups : list (list TaskNode))
    (start stop : Z) (loopDef : LoopDef) (iteration : Z) (currentOutputs : list vmap)
  : M World (list vmap * option exec_error) :=
  match n with
  | O => mret (currentOutputs, None)
  | S n' =>
      dead ← gets (is_cancelled ctx);
      if dead : bool then mret (currentOutputs, Some ContextError)
      else
      let iterUpstream := currentOutputs ++ [{[LoopIterationKey := VInt iteration]}] in
      r ← executeLoopBody ctx uuid groups start stop iterUpstream;
      r ← or_cancelled ctx r;
      match r with
      | Err e => mret (currentOutputs, Some e)
      | Ok (outputs, lastOutput) =>
          let currentOutputs := currentOutputs ++ outputs in
          if shouldContinueLoop lastOutput loopDef (iteration + 1) then
            loop_iterations n' ctx uuid groups start stop loopDef (iteration + 1) currentOutputs
          else mret (currentOutputs, None)
      end
  end.

Definition runLoop (ctx : nat) (uuid : string) (groups : list (list TaskNode)) (start stop : Z)
    (loopDef : LoopDef) (upstreamOutputs : list vmap) : M World (list vmap * option exec_error) :=
  loop_iterations (Z.to_nat (MaxIterations loopDef)) ctx uuid groups start stop loopDef 0
    upstreamOutputs.

(** ** Fan-outs

    The tasks of a fan-out, or its result when there are none to run. *)
Definition fan_out_tasks (section : nat) (node : TaskNode) (upstreamOutputs : list vmap)
  : res (res exec_error vmap) (list job) :=
  match FanOut node with
  | None => Err (Err FanOutUndefined)
  | Some fanOut =>
      match extractIteratorList upstreamOutputs (IteratorKey fanOut) with
      | None => Err (Err (FanOutNoList (IteratorKey fanOut)))
      | Some [] => Err (Ok ∅)
      | Some items =>
          Ok (imap (fun idx item =>
                start_task section defaultTaskWatchdogTimeoutSec
                  [buildItemOutput (Z.of_nat idx) item upstreamOutputs] (fo_Task fanOut)) items)
      end
  end.

(** How many of them run at a time. *)
Definition fan_out_parallel (fanOut : FanOutDef) (items : nat) : Z :=
  if MaxParallel fanOut <=? 0 then Z.of_nat items else MaxParallel fanOut.

(** A [[]map[string]any] that was appended to. *)
Definition maps_value (l : list vmap) : val :=
  match l with [] => VNilRef TMaps | _ => VMaps l end.

(** The results of its tasks, in the order they arrive. *)
Definition fan_out_result (fanOut : FanOutDef) (rs : list task_result) : res exec_error vmap :=
  match first_error rs with
  | Some e => Err e
  | None =>
      let allResults := present (succeeded rs) in
      let outputKey := if decide (OutputKey fanOut = "") then DefaultFanOutOutputKey
                       else OutputKey fanOut in
      Ok (<["_count" := VInt (Z.of_nat (length allResults))]>
            {[outputKey := maps_value allResults]})
  end.

Definition ExecuteFanOut (ctx : nat) (uuid : string) (node : TaskNode)
    (upstreamOutputs : list vmap) : M World (res exec_error vmap) :=
  match fan_out_tasks 0 node upstreamOutputs, FanOut node with
  | Ok jobs, Some fanOut =>
      rs ← run_tasks (steps_left jobs) ctx uuid ParallelStrategyAll
             (fun _ => fan_out_parallel fanOut (length jobs)) jobs [];
      mret (fan_out_result fanOut rs.*2)
  | Err r, _ => mret r
  | _, None => mret (Err FanOutUndefined)
  end.

(** ** Sub-workflows

    An error when the sub-workflow cannot be found or copied; otherwise its
    goroutines are started, and its result may or may not come in time. *)
Definition ExecuteSubWorkflow (ctx : nat) (uuid : string) (node : TaskNode)
    (upstreamOutputs : list vmap) : M World (option (res exec_error (list vmap))) :=
  subWfDef ← GetRegisteredWorkflow (SubWorkflow node);
  match subWfDef with
  | None => mret (Some (Err (SubNotRegistered (SubWorkflow node))))
  | Some subWfDef =>
      match DeepCopy subWfDef with
      | None => mret (Some (Err (SubCopyFailed (SubWorkflow node))))
      | Some subWf =>
          let subWf := if bool_decide (default ∅ (SubWorkflowParams node) = ∅) then subWf
                       else subWf <| UUID := uuid +:+ "__sub__" +:+ Name node |> in
          spawn (GSubWorkflow ctx uuid node subWf upstreamOutputs);;
          early_result (UUID subWf)
      end
  end.

(** The output of a sub-workflow in its parent. *)
Definition sub_output (node : TaskNode) (outputs : list vmap) : vmap :=
  foldl merge_into {["_sub_workflow" := VString (SubWorkflow node);
                     "_task_name" := VString (Name node)]} outputs.

(** ** Ends of a workflow *)

Definition fail_group (uuid : string) (what : string) (groupIdx : Z) (e : exec_error)
  : M World unit :=
  entry ← LockEntry uuid;
  match entry with
  | Some entry =>
      PersistWorkflowLocked uuid
        (we_state entry <| Status := WorkflowStatusFailed |>
           <| ws_Error := what +:+ " " +:+ pretty (groupIdx + 1) +:+ " 执行失败: " +:+ error_text e |>)
        entry
  | None => mret tt
  end;;
  emit uuid "workflow_failed" (DataUUID uuid).

(** (The callback of the completed event only logs its targets.) *)
Definition finishWorkflow (uuid : string) : M World unit :=
  entry ← LockEntry uuid;
  match entry with
  | Some entry =>
      PersistWorkflowLocked uuid (we_state entry <| Status := WorkflowStatusCompleted |>) entry
  | None => mret tt
  end;;
  emit uuid "workflow_completed" (DataUUID uuid);;
  targets ← gets (fun w => FireWorkflowCompleted (eventTriggerMgr w) uuid);
  for_each (fun _ => mret tt) targets.

Definition pauseForApproval (uuid : string) (state : WorkflowState) (groupIdx : Z)
    (output : vmap) (approvalMsg : string) : M World unit :=
  match ws_Workflow state with
  | None => panic
  | Some wf =>
      let taskName := findTaskNameInOutput (TaskGroups wf) groupIdx in
      entry ← LockEntry uuid;
      match entry with
      | None => mret tt
      | Some _ =>
          modify (update_entry uuid (fun st =>
            st <| Status := WorkflowStatusPaused |> <| PausedTaskName := taskName |>
               <| PausedTaskOutput := output |> <| PausedGroupIdx := groupIdx |>));;
          snapshotRunningWorkflow uuid;;
          emit uuid "workflow_paused"
            (DataMap {["workflow" := uuid; "task" := taskName; "message" := approvalMsg]})
      end
  end.

(** ** Control flow

    [exec groups upstream idx] stands for the recursive call of
    [executeGroups]. *)
Section control.
Context (exec : list (list TaskNode) -> list vmap -> Z -> M World unit).

Definition advanceToGroup (ctx : nat) (uuid : string) (groups : list (list TaskNode))
    (groupIdx : Z) (upstreamOutputs : list vmap) : M World unit :=
  match group_at groups groupIdx with
  | None => panic
  | Some nextGroup =>
      if 0 <? max_delay nextGroup then
        spawn (GDelayedGroups ctx uuid groups upstreamOutputs groupIdx (max_delay nextGroup))
      else exec groups upstreamOutputs groupIdx
  end.

Definition pushBranchGroups (ctx : nat) (uuid : string) (branchGroups : list (list TaskNode))
    (upstreamOutputs : list vmap) (groupIdx : Z) : M World unit :=
  if Z.of_nat (length branchGroups) <=? groupIdx then finishWorkflow uuid
  else advanceToGroup ctx uuid branchGroups groupIdx upstreamOutputs.

(** The groups of the branch an output asks for, or of the default branch. *)
Definition chosen_branch (groups : list (list TaskNode)) (currentGroupIdx : Z)
    (branchName : string) : option (list (list TaskNode)) :=
  currentNode ← findTaskNodeWithBranches groups currentGroupIdx;
  match branch_groups currentNode branchName with
  | Some branchGroups => Some branchGroups
  | None =>
      if decide (DefaultBranch currentNode = "") then None
      else branch_groups currentNode (DefaultBranch currentNode)
  end.

(** The loop over the outputs of the group: the first that asks for something
    decides.  (An [int] has 64 bits: the [wrap64] of the mark is the mark.) *)
Fixpoint advance_outputs (ctx : nat) (uuid : string) (state : WorkflowState)
    (groups : list (list TaskNode)) (currentGroupIdx : Z) (groupOutputs : list vmap)
    (outputs : list vmap) (otherwise : M World unit) : M World unit :=
  match outputs with
  | [] => otherwise
  | output :: outputs' =>
      let wctx := Context.NewContextFromMap output in
      let approvalMsg := Context.GetApproval wctx in
      if negb (bool_decide (approvalMsg = "")) then
        pauseForApproval uuid state currentGroupIdx output approvalMsg
      else
      let branchName := Context.GetBranch wctx in
      match (if bool_decide (branchName = "") then None
             else chosen_branch groups currentGroupIdx branchName) with
      | Some branchGroups => pushBranchGroups ctx uuid branchGroups groupOutputs 0
      | None =>
          let skipGroups := wrap64 (Context.GetSkipGroups wctx) in
          if 0 <? skipGroups then
            let nextIdx := wrap64 (currentGroupIdx + 1 + skipGroups) in
            if Z.of_nat (length groups) <=? nextIdx then finishWorkflow uuid
            else advanceToGroup ctx uuid groups nextIdx groupOutputs
          else advance_outputs ctx uuid state groups currentGroupIdx groupOutputs outputs' otherwise
      end
  end.

Definition advanceWorkflow (ctx : nat) (uuid : string) (state : WorkflowState)
    (groups : list (list TaskNode)) (currentGroupIdx : Z)
    (groupOutputs mergedOutputs : list vmap) : M World unit :=
  advance_outputs ctx uuid state groups currentGroupIdx groupOutputs groupOutputs
    (let nextIdx := currentGroupIdx + 1 in
     if Z.of_nat (length groups) <=? nextIdx then finishWorkflow uuid
     else advanceToGroup ctx uuid groups nextIdx mergedOutputs).

(** After a group that did not fail. *)
Definition group_done (ctx : nat) (uuid : string) (groups : list (list TaskNode))
    (groupIdx : Z) (upstreamOutputs allOutputs : list vmap) : M World unit :=
  state ← wm_GetWorkflowState uuid;
  match state with
  | None => mret tt
  | Some state =>
      advanceWorkflow ctx uuid state groups groupIdx allOutputs (upstreamOutputs ++ allOutputs)
  end.

Definition executeLoopGroup (ctx : nat) (uuid : string) (groups : list (list TaskNode))
    (groupIdx : Z) (upstreamOutputs : list vmap) (currentGroup : list TaskNode) : M World unit :=
  match head (omap Loop currentGroup) with
  | None => exec groups upstreamOutputs groupIdx
  | Some loopDef =>
      r ← runLoop ctx uuid groups groupIdx groupIdx loopDef upstreamOutputs;
      match r with
      | (_, Some e) => fail_group uuid "循环任务组" groupIdx e
      | (outputs, None) => group_done ctx uuid groups groupIdx upstreamOutputs outputs
      end
  end.

(** ** Groups with fan-outs and sub-workflows

    The normal tasks are one section, every fan-out is one. *)
Definition is_advanced (n : TaskNode) : bool :=
  bool_decide (GetTaskNodeType n = TaskNodeTypeSubWorkflow \/
               GetTaskNodeType n = TaskNodeTypeFanOut).

(** What the goroutine of an advanced node does before any task runs: the
    tasks of its fan-out, or its callback's argument if it is called. *)
Inductive node_start : Type :=
| Runs (section : nat) (fanOut : FanOutDef) (jobs : list job)
| Calls (r : res exec_error (list vmap))
| Silent.

Definition start_node (ctx : nat) (uuid : string) (section : nat) (upstreamOutputs : list vmap)
    (n : TaskNode) : M World node_start :=
  if decide (GetTaskNodeType n = TaskNodeTypeSubWorkflow) then
    r ← ExecuteSubWorkflow ctx uuid n upstreamOutputs;
    mret match r with
         | None => Silent
         | Some (Ok outputs) => Calls (Ok [sub_output n outputs])
         | Some (Err e) => Calls (Err e)
         end
  else
    mret match fan_out_tasks section n upstreamOutputs, FanOut n with
         | Ok jobs, Some fanOut => Runs section fanOut jobs
         | Err (Ok output), _ => Calls (Ok [output])
         | Err (Err e), _ => Calls (Err e)
         | Ok _, None => Calls (Err FanOutUndefined)
         end.

Fixpoint start_nodes (ctx : nat) (uuid : string) (section : nat) (upstreamOutputs : list vmap)
    (nodes : list TaskNode) : M World (list node_start) :=
  match nodes with
  | [] => mret []
  | n :: nodes' =>
      x ← start_node ctx uuid section upstreamOutputs n;
      l ← start_nodes ctx uuid (S section) upstreamOutputs nodes';
      mret (x :: l)
  end.

Definition jobs_of (x : node_start) : list job :=
  match x with Runs _ _ jobs => jobs | _ => [] end.

(** The results of the tasks of one section. *)
Definition section_results (section : nat) (jobs : list job) (rs : list (nat * task_result))
  : list task_result :=
  omap (fun r => match jobs !! r.1 with
                 | Some j => if decide (j_section j = section) then Some r.2 else None
                 | None => None
                 end) rs.

Definition callback_of (jobs : list job) (rs : list (nat * task_result)) (x : node_start)
  : option (res exec_error (list vmap)) :=
  match x with
  | Silent => None
  | Calls r => Some r
  | Runs section fanOut _ =>
      Some (match fan_out_result fanOut (section_results section jobs rs) with
            | Ok output => Ok [output]
            | Err e => Err e
            end)
  end.

(** How many tasks each section runs at a time. *)
Definition section_cap (starts : list node_start) (normal : nat) (section : nat) : Z :=
  match head (omap (fun x => match x with
                             | Runs s fanOut jobs =>
                                 if decide (s = section)
                                 then Some (fan_out_parallel fanOut (length jobs)) else None
                             | _ => None
                             end) starts) with
  | Some c => c
  | None => Z.max 1 (Z.of_nat normal)
  end.

(** The callbacks in some order. *)
Fixpoint shuffle {A : Type} (n : nat) (l : list A) : M World (list A) :=
  match n, l with
  | S n', a :: _ =>
      k ← pick (length l);
      let i := (k mod length l)%nat in
      rest ← shuffle n' (delete i l);
      mret (default a (l !! i) :: rest)
  | _, _ => mret []
  end.

Definition executeAdvancedGroup (ctx : nat) (uuid : string) (groups : list (list TaskNode))
    (groupIdx : Z) (upstreamOutputs : list vmap) (currentGroup : list TaskNode)
    (taskTimeoutSec : Z) : M World unit :=
  let normalNodes := filter (fun n => is_advanced n = false) currentGroup in
  let advancedNodes := filter (fun n => is_advanced n = true) currentGroup in
  starts ← start_nodes ctx uuid 1 upstreamOutputs advancedNodes;
  let opts := all_tasks taskTimeoutSec in
  let jobs := (start_task 0 (watchdog_of opts) upstreamOutputs <$> normalNodes) ++
              concat (jobs_of <$> starts) in
  rs ← run_tasks (steps_left jobs) ctx uuid ParallelStrategyAll
         (section_cap starts (length normalNodes)) jobs [];
  let normal := if decide (normalNodes = []) then []
                else [group_outcome 0 (Z.of_nat (length normalNodes)) (section_results 0 jobs rs)] in
  callbacks ← shuffle (S (length starts)) (normal ++ omap (callback_of jobs rs) starts);
  match head (omap (fun r => match r with Err e => Some e | Ok _ => None end) callbacks) with
  | Some e => fail_group uuid "高级任务组" groupIdx e
  | None =>
      group_done ctx uuid groups groupIdx upstreamOutputs
        (concat (omap (fun r => match r with Ok outs => Some outs | Err _ => None end) callbacks))
  end.

End control.

(** ** The serial executor

    [stuck] is what a run does that has used up its fuel; with the fuel of
    [fuel_for] none does. *)
Fixpoint executeGroups (stuck : M World unit) (fuel : nat) (ctx : nat) (uuid : string)
    (groups : list (list TaskNode)) (upstreamOutputs : list vmap) (startGroupIdx : Z)
  : M World unit :=
  match fuel with
  | O => stuck
  | S fuel' =>
      let exec := executeGroups stuck fuel' ctx uuid in
      if Z.of_nat (length groups) <=? startGroupIdx then finishWorkflow uuid
      else
      st ← wm_GetWorkflowState uuid;
      let taskTimeoutSec := master_timeout st in
      match group_at groups startGroupIdx with
      | None => panic
      | Some currentGroup =>
          match detectAdvancedNodes currentGroup with
          | LoopGroup =>
              executeLoopGroup exec ctx uuid groups startGroupIdx upstreamOutputs currentGroup
          | AdvancedGroup =>
              executeAdvancedGroup exec ctx uuid groups startGroupIdx upstreamOutputs currentGroup
                taskTimeoutSec
          | PlainGroup =>
              r ← ExecuteWithOptions ctx uuid currentGroup upstreamOutputs (all_tasks taskTimeoutSec);
              match r with
              | Err e => fail_group uuid "任务组" startGroupIdx e
              | Ok allOutputs => group_done exec ctx uuid groups startGroupIdx upstreamOutputs allOutputs
              end
          end
      end
  end.

(** The number of groups, those of branches at every depth included. *)
Fixpoint node_weight (n : TaskNode) : nat :=
  match Branches n with
  | Some bs =>
      sum_list_with (fun b => sum_list_with (fun g => S (sum_list_with node_weight g)) b.2) bs
  | None => 0
  end.

Definition group_weight (g : list TaskNode) : nat := S (sum_list_with node_weight g).
Definition groups_weight (groups : list (list TaskNode)) : nat := sum_list_with group_weight groups.

Definition fuel_for (groups : list (list TaskNode)) : nat := S (groups_weight groups).

Definition Execute (ctx : nat) (uuid : string) (upstreamOutputs : list vmap) (startGroupIdx : Z)
  : M World unit :=
  state ← wm_GetWorkflowState uuid;
  match state with
  | None => mret tt
  | Some state =>
      match ws_Workflow state with
      | None => panic
      | Some wf =>
          executeGroups blocked (fuel_for (TaskGroups wf)) ctx uuid (TaskGroups wf)
            upstreamOutputs startGroupIdx
      end
  end.

(** The goroutine of a delayed group; [fired]: its timer fired before its
    context ended. *)
Definition run_delayed (fired : bool) (ctx : nat) (uuid : string) (groups : list (list TaskNode))
    (upstreamOutputs : list vmap) (groupIdx : Z) : M World unit :=
  if fired then
    executeGroups blocked (fuel_for groups) ctx uuid groups upstreamOutputs groupIdx
  else mret tt.

(** ** The goroutine of a sub-workflow

    One tick of its poll; [None] when it goes on waiting. *)
Definition poll_sub (subUUID : string) : M World (option (res exec_error (list vmap))) :=
  state ← wm_GetWorkflowState subUUID;
  match state with
  | Some state =>
      mret match Status state with
           | WorkflowStatusCompleted => Some (Ok (collectCompletedOutputs (CompletedTasks state)))
           | WorkflowStatusFailed | WorkflowStatusRolledBack =>
               Some (Err (SubFailed subUUID (ws_Error state)))
           | _ => None
           end
  | None =>
      hist ← GetHistory subUUID;
      mret match hist with
           | Some hist =>
               if decide (Status hist = WorkflowStatusCompleted)
               then Some (Ok (collectCompletedOutputs (CompletedTasks hist)))
               else Some (Err (SubEnded subUUID (Status hist)))
           | None => None
           end
  end.

(** [ticks] polls at most, [None] when the goroutine still waits after them. *)
Fixpoint poll_loop (ticks : nat) (ctx : nat) (subUUID : string)
  : M World (option (res exec_error (list vmap))) :=
  match ticks with
  | O => mret None
  | S ticks' =>
      x ← others;
      dead ← gets (is_cancelled ctx);
      match x, dead with
      | WishDone, true => mret (Some (Err ContextError))
      | _, _ =>
          r ← poll_sub subUUID;
          match r with
          | Some r => mret (Some r)
          | None => poll_loop ticks' ctx subUUID
          end
      end
  end.

(** The upstream outputs of the sub-workflow: its parameters come last. *)
Definition sub_upstream (node : TaskNode) (subWf : Workflow) (upstreamOutputs : list vmap)
  : list vmap :=
  match SubWorkflowParams node with
  | Some ps =>
      if bool_decide (ps = ∅) || bool_decide (TaskGroups subWf = []) then upstreamOutputs
      else upstreamOutputs ++ [ps]
  | None => upstreamOutputs
  end.

Definition executeAndTrackSubWorkflow (ticks : nat) (ctx : nat) (node : TaskNode)
    (subWf : Workflow) (upstreamOutputs : list vmap)
  : M World (option (res exec_error (list vmap))) :=
  Execute ctx (UUID subWf) (sub_upstream node subWf upstreamOutputs) 0;;
  r ← poll_loop ticks ctx (UUID subWf);
  match r with
  | Some _ => on_td (CleanupPerWfCounter (UUID subWf));; mret r
  | None => mret r
  end.

End executor.
