(* ===== verification/Orchestration.v ===== *)
(** * Properties of the executors (Executor.v)

    Termination of a run of groups, what the control marks do, the outcome of
    a run end to end, and what fan-outs, loops, sub-workflows and approvals
    inside branches really do. *)
From Stdlib Require Import ZArith Lia Ascii String.
From stdpp Require Import base gmap strings list pretty.
From S2P Require Import Prelude GoVal Model Payload Dispatcher Watchers Listeners.
From S2P Require Import EventTriggers World Copy Manager Repository Watch Parallel.
From S2P Require Import Executor.
Set Warnings "-register-all,-clear-no-such-hyp,-level-tolerance".
Local Open Scope Z_scope.
Local Open Scope list_scope.

(** ** Lemmas: fuel *)

Lemma bind_ext {S A B : Type} (m : M S A) (f g : A -> M S B) s :
  (forall a s', f a s' = g a s') -> (m ≫= f) s = (m ≫= g) s.
Proof. intros Hfg. unfold mbind, M_bind. destruct (m s) as [[a s']| |]; [apply Hfg|done..]. Qed.

(** What is left to run from group [i] on. *)
Definition weight_from (groups : list (list TaskNode)) (i : Z) : nat :=
  groups_weight (drop (Z.to_nat i) groups).

Lemma weight_drop n (groups : list (list TaskNode)) : (groups_weight (drop n groups) <= groups_weight groups)%nat.
Proof.
  unfold groups_weight. revert n. induction groups as [|g l IH]; intros [|n]; cbn; [lia..|].
  specialize (IH n). lia.
Qed.

Lemma length_weight (groups : list (list TaskNode)) : (length groups <= groups_weight groups)%nat.
Proof. unfold groups_weight, group_weight. induction groups as [|g l IH]; cbn in *; lia. Qed.

Lemma group_at_lookup groups i g : group_at groups i = Some g ->
  0 <= i < Z.of_nat (length groups) /\ groups !! Z.to_nat i = Some g.
Proof.
  unfold group_at. destruct (Z.ltb_spec i 0); [done|]. intros Hg. split; [|done].
  apply lookup_lt_Some in Hg. lia.
Qed.

Lemma weight_at groups i g : group_at groups i = Some g ->
  weight_from groups i = (group_weight g + weight_from groups (i + 1))%nat.
Proof.
  intros [Hi Hg]%group_at_lookup. unfold weight_from. rewrite (drop_S _ _ _ Hg).
  replace (Z.to_nat (i + 1)) with (S (Z.to_nat i)) by lia. done.
Qed.

Lemma weight_later groups i g k : group_at groups i = Some g -> i < k ->
  (weight_from groups k < weight_from groups i)%nat.
Proof.
  intros Hg Hk. rewrite (weight_at _ _ _ Hg). pose proof (group_at_lookup _ _ _ Hg) as [Hi _].
  unfold weight_from. replace (Z.to_nat k) with (Z.to_nat (k - (i + 1)) + Z.to_nat (i + 1))%nat by lia.
  rewrite Nat.add_comm, <- drop_drop. pose proof (weight_drop (Z.to_nat (k - (i + 1))) (drop (Z.to_nat (i + 1)) groups)).
  unfold group_weight. lia.
Qed.

Lemma sum_list_with_elem {A : Type} (f : A -> nat) x l : x ∈ l -> (f x <= sum_list_with f l)%nat.
Proof.
  induction l as [|y l IH]; [intros Hx; by apply elem_of_nil in Hx|].
  intros [->|Hx]%elem_of_cons; cbn; [lia|]. specialize (IH Hx). lia.
Qed.

Lemma branch_weight n name bgs : branch_groups n name = Some bgs ->
  (groups_weight bgs <= node_weight n)%nat.
Proof.
  unfold branch_groups. intros (b & Hb & ->)%fmap_Some.
  assert (Hin : b ∈ default [] (Branches n)).
  { destruct (filter _ _) as [|b' l] eqn:Hf; [done|]. injection Hb as ->.
    assert (Hb' : b ∈ filter (fun b0 => b0.1 = name) (default [] (Branches n))) by (rewrite Hf; by left).
    by apply list_elem_of_filter in Hb' as [_ ?]. }
  destruct n as [? ? ? ? [bs|] ? ? ? ? ? ? ?]; cbn in *; [|by apply elem_of_nil in Hin].
  apply (sum_list_with_elem (fun b => groups_weight b.2) b bs Hin).
Qed.

Lemma chosen_weight groups i name bgs : chosen_branch groups i name = Some bgs ->
  (groups_weight bgs < weight_from groups i)%nat.
Proof.
  unfold chosen_branch, findTaskNodeWithBranches. intros H.
  apply bind_Some in H as (n & (g & Hg & Hn)%bind_Some & H).
  rewrite (weight_at _ _ _ Hg).
  assert (Hin : n ∈ g).
  { destruct (filter _ _) as [|n' l] eqn:Hf; [done|]. injection Hn as ->.
    assert (Hn' : n ∈ filter (fun n0 => is_Some (Branches n0)) g) by (rewrite Hf; by left).
    by apply list_elem_of_filter in Hn' as [_ ?]. }
  pose proof (sum_list_with_elem node_weight n g Hin). unfold group_weight.
  assert (groups_weight bgs <= node_weight n)%nat; [|lia].
  destruct (branch_groups n name) eqn:Hb; [injection H as ->; by eapply branch_weight|].
  case_decide; [done|]. by eapply branch_weight.
Qed.

(** A jump forward stays forward, or leaves the slice. *)
Lemma skip_forward i s n : 0 <= i < n -> n < two63 -> 0 < wrap64 s ->
  0 <= wrap64 (i + 1 + wrap64 s) -> i < wrap64 (i + 1 + wrap64 s).
Proof.
  intros Hi Hn Hs. pose proof (wrap64_range s) as Hr. unfold in64, minInt64, maxInt64 in Hr.
  unfold two63 in Hn. set (x := wrap64 s) in *. clearbody x. intros Hw.
  destruct (Z.leb_spec (i + 1 + x) maxInt64).
  - rewrite wrap64_in in * by (unfold in64, minInt64, maxInt64 in *; lia). lia.
  - exfalso. revert Hw. unfold wrap64, two63, two64, maxInt64 in *.
    replace (i + 1 + x + 9223372036854775808)
      with (i + 1 + x + 9223372036854775808 - 18446744073709551616 + 1 * 18446744073709551616) by lia.
    rewrite Z.mod_add, Z.mod_small by lia. lia.
Qed.

Lemma loop_kind_has_loop g : detectAdvancedNodes g = LoopGroup -> exists d, head (omap Loop g) = Some d.
Proof.
  induction g as [|n g IH]; cbn; [done|]. destruct (Loop n) as [d|]; [by exists d|].
  repeat case_match; try done.
Qed.

Section fuel.
Context `{GoPlatform} `{Naming} `{Environment}.
Context (exec exec' : list (list TaskNode) -> list vmap -> Z -> M World unit).
Context (ctx : nat) (uuid : string) (groups : list (list TaskNode)) (i : Z).
Context (Hw : Z.of_nat (groups_weight groups) < two63).
Context (Hexec : forall gs k ups w, (weight_from gs k < weight_from groups i)%nat ->
  Z.of_nat (groups_weight gs) < two63 -> exec gs ups k w = exec' gs ups k w).

Lemma advanceToGroup_ext gs k ups w :
  (0 <= k -> (weight_from gs k < weight_from groups i)%nat) -> Z.of_nat (groups_weight gs) < two63 ->
  advanceToGroup exec ctx uuid gs k ups w = advanceToGroup exec' ctx uuid gs k ups w.
Proof.
  intros Hk Hgs. unfold advanceToGroup. destruct (group_at gs k) as [g|] eqn:Hg; [|done].
  case_match; [done|]. apply Hexec; [|done]. apply Hk. by apply group_at_lookup in Hg as [[? _] _].
Qed.

Lemma advance_ext g state groupOutputs merged w : group_at groups i = Some g ->
  advanceWorkflow exec ctx uuid state groups i groupOutputs merged w =
  advanceWorkflow exec' ctx uuid state groups i groupOutputs merged w.
Proof.
  intros Hg. pose proof (group_at_lookup _ _ _ Hg) as [Hi _].
  pose proof (length_weight groups) as Hlen. unfold advanceWorkflow.
  generalize groupOutputs at 2 4. intros outs. induction outs as [|o outs IH]; cbn [advance_outputs].
  - cbn zeta. destruct (Z.of_nat (length groups) <=? _); [done|]. apply advanceToGroup_ext; [|done]. intros _.
    eapply weight_later; [exact Hg|lia].
  - destruct (negb _); [done|].
    destruct (if bool_decide (Context.GetBranch _ = "") then _ else _) as [bgs|] eqn:Hb.
    + clear IH. unfold pushBranchGroups. destruct (Z.of_nat (length bgs) <=? 0); [done|].
      destruct (bool_decide (Context.GetBranch _ = _)); [done|]. apply chosen_weight in Hb.
      assert (weight_from groups i <= groups_weight groups)%nat by apply weight_drop.
      apply advanceToGroup_ext; [intros _; exact Hb|lia].
    + destruct (0 <? _) eqn:Hs; [|exact IH]. clear IH.
      destruct (Z.of_nat (length groups) <=? _); [done|].
      apply advanceToGroup_ext; [|done]. intros Hk. eapply weight_later; [exact Hg|].
      eapply skip_forward; [exact Hi|lia|lia|exact Hk].
Qed.

Lemma group_done_ext g ups outs w : group_at groups i = Some g ->
  group_done exec ctx uuid groups i ups outs w = group_done exec' ctx uuid groups i ups outs w.
Proof.
  intros Hg. apply bind_ext. intros [st|] w'; [|done]. by eapply advance_ext.
Qed.

Lemma executeAdvancedGroup_ext g ups t w : group_at groups i = Some g ->
  executeAdvancedGroup exec ctx uuid groups i ups g t w =
  executeAdvancedGroup exec' ctx uuid groups i ups g t w.
Proof.
  intros Hg. apply bind_ext. intros starts w1. apply bind_ext. intros rs w2.
  apply bind_ext. intros cbs w3. destruct (head (omap _ cbs)); [done|]. by eapply group_done_ext.
Qed.

Lemma executeLoopGroup_ext g ups w : group_at groups i = Some g -> detectAdvancedNodes g = LoopGroup ->
  executeLoopGroup exec ctx uuid groups i ups g w = executeLoopGroup exec' ctx uuid groups i ups g w.
Proof.
  intros Hg [d Hd]%loop_kind_has_loop. unfold executeLoopGroup. rewrite Hd. apply bind_ext.
  intros [outs [e|]] w'; [done|]. by eapply group_done_ext.
Qed.

End fuel.

Lemma executeGroups_fuel `{GoPlatform} `{Naming} `{Environment} stuck stuck' ctx uuid fuel :
  forall fuel' groups ups i w,
  Z.of_nat (groups_weight groups) < two63 ->
  (weight_from groups i < fuel)%nat -> (weight_from groups i < fuel')%nat ->
  executeGroups stuck fuel ctx uuid groups ups i w = executeGroups stuck' fuel' ctx uuid groups ups i w.
Proof.
  induction fuel as [|fuel IH]; intros [|fuel'] groups ups i w Hw Hf Hf'; [lia..|].
  cbn [executeGroups]. cbn zeta. destruct (Z.of_nat (length groups) <=? i); [done|]. apply bind_ext. intros st w1.
  destruct (group_at groups i) as [g|] eqn:Hg; [|done].
  assert (Hexec : forall gs k ups w, (weight_from gs k < weight_from groups i)%nat ->
    Z.of_nat (groups_weight gs) < two63 ->
    executeGroups stuck fuel ctx uuid gs ups k w = executeGroups stuck' fuel' ctx uuid gs ups k w).
  { intros gs k ups' w' Hk Hgs. apply IH; [done|lia|lia]. }
  destruct (detectAdvancedNodes g) eqn:Hd.
  - apply bind_ext. intros [outs|e] w2; [|done]. by eapply group_done_ext.
  - by apply executeLoopGroup_ext.
  - by apply executeAdvancedGroup_ext.
Qed.

(** C15: a run of groups ends, whatever the tasks answer: with the fuel given
    to it, one more than the number of groups (those of branches at every
    depth included), its result does not depend on what running out of fuel
    would do, nor on having more.  Branches go into smaller definitions, skips
    go forward or, past the end of an [int], panic. *)
Theorem executeGroups_terminates `{GoPlatform} `{Naming} `{Environment}
    (stuck stuck' : M World unit) (fuel : nat) (ctx : nat) (uuid : string)
    (groups : list (list TaskNode)) (ups : list vmap) (i : Z) (w : World) :
  Z.of_nat (groups_weight groups) < two63 -> (fuel_for groups <= fuel)%nat ->
  executeGroups stuck fuel ctx uuid groups ups i w =
  executeGroups stuck' (fuel_for groups) ctx uuid groups ups i w.
Proof.
  intros Hw Hf. unfold fuel_for in *.
  assert (weight_from groups i <= groups_weight groups)%nat by apply weight_drop.
  apply executeGroups_fuel; [done|lia|lia].
Qed.

(** ** Approvals *)

Lemma pause_spec `{Naming} uuid e wf i out msg w :
  sane w -> runningEntries w !! uuid = Some e -> ws_Workflow (we_state e) = Some wf ->
  wp (pauseForApproval uuid (we_state e) i out msg) (fun _ w1 => sane w1 /\
    exists e1, runningEntries w1 !! uuid = Some e1 /\
      Status (we_state e1) = WorkflowStatusPaused /\ PausedTaskOutput (we_state e1) = out /\
      PausedGroupIdx (we_state e1) = i /\ ws_Workflow (we_state e1) = Some wf) w.
Proof.
  intros Hs He Hwf. unfold pauseForApproval. rewrite Hwf.
  apply wp_bind, wp_LockEntry; [apply Hs|]. rewrite He. apply wp_bind, wp_modify.
  unfold update_entry. rewrite He.
  match goal with |- wp _ _ ?x => set (w0 := x) end.
  assert (H0 : runningEntries w0 = <[uuid := e <| we_state ::= fun st =>
    st <| Status := WorkflowStatusPaused |> <| PausedTaskName := findTaskNameInOutput (TaskGroups wf) i |>
       <| PausedTaskOutput := out |> <| PausedGroupIdx := i |> |>]> (runningEntries w)) by done.
  assert (Hs0 : sane w0).
  { split; [apply Hs|apply Hs|]. rewrite H0. intros u x [[<- <-]|[_ Hx]]%lookup_insert_Some.
    - by exists wf.
    - by eapply sane_entries. }
  clearbody w0. apply wp_bind. eapply wp_mono; [by apply (snapshot_keeps uuid w0), Hs0|].
  intros _ w1 [Hlk Hli _ _ _ _ _ _ Hen]. apply wp_emit.
  assert (Hsub : exists e1, runningEntries w1 !! uuid = Some e1 /\
      Status (we_state e1) = WorkflowStatusPaused /\ PausedTaskOutput (we_state e1) = out /\
      PausedGroupIdx (we_state e1) = i /\ ws_Workflow (we_state e1) = Some wf).
  { destruct Hen as [->|(e0 & seq & m & He0 & ->)].
    - rewrite H0, lookup_insert_eq. eexists. split; [done|]. done.
    - rewrite lookup_insert_eq. eexists. split; [done|].
      rewrite H0, lookup_insert_eq in He0. injection He0 as <-. done. }
  split; [|exact Hsub]. split; [upd_simpl; by rewrite Hlk; apply Hs0|upd_simpl; by rewrite Hli; apply Hs0|].
  intros u x. change (runningEntries (w1 <| events ::= _ |>)) with (runningEntries w1).
  destruct Hen as [->|(e0 & seq & m & He0 & ->)]; [apply (sane_entries _ Hs0)|].
  intros [[<- <-]|[_ Hx]]%lookup_insert_Some; [apply (sane_entries _ Hs0 _ _ He0)|].
  by eapply (sane_entries _ Hs0).
Qed.

Lemma approve_forward `{Naming} `{Coordinator} uuid e wf i w :
  sane w -> runningEntries w !! uuid = Some e -> ws_Workflow (we_state e) = Some wf ->
  Status (we_state e) = WorkflowStatusPaused -> PausedGroupIdx (we_state e) = i ->
  Z.of_nat (length (TaskGroups wf)) < two63 -> 0 <= i < Z.of_nat (length (TaskGroups wf)) - 1 ->
  wp (ApproveWorkflow uuid) (fun r w2 => r = Ok tt /\
    spawned w2 = spawned w ++
      [GExecuteWorkflow RootContext uuid [clean_output (PausedTaskOutput (we_state e))] (i + 1)]) w.
Proof.
  intros Hs He Hwf Hp Hi Hlen Hrange. unfold ApproveWorkflow.
  apply wp_bind, wp_LockEntry; [apply Hs|]. rewrite He, decide_True by done.
  apply wp_bind, wp_modify. rewrite Hwf. cbn zeta. rewrite Hi. unfold two63 in Hlen.
  rewrite wrap64_in by (unfold in64, minInt64, maxInt64; lia).
  apply wp_bind, wp_emit, wp_bind.
  rewrite (proj2 (Z.leb_le 0 i)), (proj2 (Z.ltb_lt i _)) by lia. cbn [andb].
  rewrite wrap64_in by (unfold in64, minInt64, maxInt64; lia).
  apply wp_spawn, wp_ret. split; [done|]. unfold update_entry. by rewrite He.
Qed.

(** A group whose first output asks for approval pauses the run with that
    output and the group's index in the list of groups being run, and runs
    nothing more; approving it resumes the main groups of the workflow after
    that index, with that output alone, its control marks removed.  Inside a
    branch the index is the branch's, so that approving jumps into an unrelated
    main group. *)
Theorem branch_approval_resumes_main `{GoPlatform} `{Naming} `{Coordinator}
    (exec : list (list TaskNode) -> list vmap -> Z -> M World unit) (ctx : nat) (uuid : string)
    (e : workflowEntry) (wf : Workflow) (groups : list (list TaskNode)) (i : Z) (out : vmap)
    (outs merged : list vmap) (w : World) :
  sane w -> runningEntries w !! uuid = Some e -> ws_Workflow (we_state e) = Some wf ->
  Z.of_nat (length (TaskGroups wf)) < two63 ->
  Context.GetApproval (Context.NewContextFromMap out) <> "" ->
  wp (advanceWorkflow exec ctx uuid (we_state e) groups i (out :: outs) merged) (fun _ w1 =>
    (exists st, running_state uuid w1 = Some st /\ Status st = WorkflowStatusPaused /\
       PausedTaskOutput st = out /\ PausedGroupIdx st = i) /\
    (0 <= i < Z.of_nat (length (TaskGroups wf)) - 1 ->
     wp (ApproveWorkflow uuid) (fun r w2 => r = Ok tt /\
       spawned w2 = spawned w1 ++ [GExecuteWorkflow RootContext uuid [clean_output out] (i + 1)]) w1)) w.
Proof.
  intros Hs He Hwf Hlen Hmsg. unfold advanceWorkflow. cbn [advance_outputs].
  rewrite bool_decide_eq_false_2 by done. cbn [negb].
  eapply wp_mono; [by eapply pause_spec|].
  intros ? w1 H'; cbv beta in H'. destruct H' as (Hs1 & e1 & He1 & Hp & Ho & Hi & Hwf1). split.
  - exists (we_state e1). unfold running_state. rewrite He1. done.
  - intros Hrange. rewrite <- Ho. by apply (approve_forward uuid e1 wf i).
Qed.


Definition ex_approval : vmap := {[Context.ApprovalKey := VString "ok?"; "x" := VInt 1]}.

Lemma branch_approval_resumes_main_witness :
  wp (advanceWorkflow (H := amd64) (fun _ _ _ => mret tt) 1 "demo" (new_state skipping_wf 0)
        [[named_node "x"]; [named_node "y"]] 0 [ex_approval] []) (fun _ w1 =>
    wp (ApproveWorkflow "demo") (fun r w2 => r = Ok tt /\
      spawned w2 = spawned w1 ++ [GExecuteWorkflow RootContext "demo" [clean_output ex_approval] 1]) w1)
    ex_skipping.
Proof.
  eapply wp_mono.
  - apply (branch_approval_resumes_main (H := amd64) (fun _ _ _ => mret tt) 1 "demo"
      (MkEntry (new_state skipping_wf 0) 1 false) skipping_wf [[named_node "x"]; [named_node "y"]]
      0 ex_approval [] [] ex_skipping).
    + exact ex_skipping_sane.
    + reflexivity.
    + reflexivity.
    + reflexivity.
    + vm_compute. discriminate.
  - intros u w1 [_ H]. apply H. vm_compute. split; [discriminate|reflexivity].
Defined.

(** ** Failures and retries *)

Section failures.
Context `{Naming}.

Definition listening (tl : Listeners) (w : World) : Prop := sane w /\ taskListeners w = tl.

Lemma persisted_listening tl uuid st e w : listening tl w -> listening tl (persisted uuid st e w).
Proof.
  intros [Hs Ht]. split; [by apply sane_persisted|].
  destruct (persisted_outside uuid st e w) as (Hout & _). by rewrite (so_listeners _ _ Hout).
Qed.

Lemma listening_sub tl w w' : listening tl w -> wm_locked w' = wm_locked w ->
  taskListeners w' = taskListeners w -> runningEntries w' = runningEntries w -> listening tl w'.
Proof.
  intros [Hs Ht] E1 E2 E3. split; [|by rewrite E2].
  apply (sane_sub w); [done..|]. intros u e. by rewrite E3.
Qed.

Lemma mark_listening tl p msg w :
  listening tl w -> wp (markWorkflowFailed_s p msg) (fun _ => listening tl) w.
Proof.
  intros Hw. unfold markWorkflowFailed_s. apply wp_bind, wp_LockEntry; [apply Hw|].
  apply wp_bind. eapply (wp_mono _ (fun _ => listening tl)).
  - destruct (runningEntries w !! WorkflowID p) as [e|]; [|by apply wp_ret].
    apply wp_persist; [apply Hw|]. by apply persisted_listening.
  - intros _ w1 Hw1. apply wp_bind, wp_emit, wp_bind, wp_gets.
    apply wp_for_each; [|by apply (listening_sub tl w1)]. intros t w2 _ Hw2.
    apply wp_spawn. by apply (listening_sub tl w2).
Qed.

Lemma listening_preserved tl : host_preserves (listening tl).
Proof.
  split.
  - intros td w Hw. by apply (listening_sub tl w).
  - intros w Hw. by apply (listening_sub tl w).
  - intros w Hw. by apply (listening_sub tl w).
  - intros l ttl w Hw. apply etcd_batch_keeps. intros. by apply (listening_sub tl w).
  - intros p msg w. apply mark_listening.
  - intros u st w [Hs _]. by apply sane_preserved.
Qed.

Lemma update_listening tl uuid f w :
  (forall st, ws_Workflow (f st) = ws_Workflow st) ->
  listening tl w -> listening tl (update_entry uuid f w).
Proof.
  intros Hf [Hs Ht]. unfold update_entry. destruct (runningEntries w !! uuid) as [e|] eqn:He; [|done].
  split; [|done]. split; [apply Hs|apply Hs|]. upd_simpl.
  intros u x [[<- <-]|[_ Hx]]%lookup_insert_Some; [|by eapply (sane_entries _ Hs)].
  cbn. rewrite Hf. by eapply (sane_entries _ Hs).
Qed.

Lemma snapshot_listening tl uuid w :
  listening tl w -> wp (snapshotRunningWorkflow uuid) (fun _ => listening tl) w.
Proof.
  intros [Hs Ht]. eapply wp_mono; [by apply (snapshot_keeps uuid w), Hs|].
  intros ? w1 [Hlk Hli _ _ _ _ _ _ Hen]. split; [|by rewrite Hli].
  split; [by rewrite Hlk; apply Hs|by rewrite Hli; apply Hs|].
  destruct Hen as [->|(e0 & seq & m & He0 & ->)]; [apply Hs|].
  intros u x [[<- <-]|[_ Hx]]%lookup_insert_Some; [apply (sane_entries _ Hs _ _ He0)|].
  by eapply (sane_entries _ Hs).
Qed.

Lemma recordTaskFailed_listening tl uuid payload w :
  listening tl w -> wp (recordTaskFailed uuid payload) (fun _ => listening tl) w.
Proof.
  intros Hw. unfold recordTaskFailed. apply wp_bind, wp_LockEntry; [apply Hw|].
  apply wp_bind. eapply (wp_mono _ (fun _ => listening tl)).
  { destruct (runningEntries w !! uuid); [|by apply wp_ret]. apply wp_modify.
    by apply update_listening. }
  intros ? w1 Hw1. apply wp_bind. eapply wp_mono; [by apply snapshot_listening|].
  intros ? w2 Hw2; cbv beta in Hw2. apply wp_bind, wp_emit. unfold cleanupTaskEtcdKey.
  case_decide; [by apply wp_ret; apply (listening_sub tl w2)|].
  apply wp_bind. unfold wp, etcd_delete, store_answer, mbind, M_bind. cbn.
  destruct (faults w2) as [|[] fl]; cbn; by apply (listening_sub tl w2).
Qed.

(** A task that fails with retries left is announced to the goroutine that
    waits for it before its retry is scheduled: the waiting goroutine finds
    the failed payload, its [select] yields an error, and the group fails
    while the retry is still to come. *)
Theorem failure_notified_before_retry (ctx : nat) (uuid : string) (payload : TaskPayload)
    (e : workflowEntry) (ch : nat) (w : World) :
  sane w -> runningEntries w !! uuid = Some e -> ignored e payload = false ->
  policy_of (we_state e) = None ->
  pl_Status payload = StatusFailed -> Rollback payload = false -> NoRetry payload = false ->
  0 <= RetryCount payload < pl_MaxRetries payload ->
  lookup_listener uuid (TaskName payload) (taskListeners w) = Some ch ->
  readable ch (taskListeners w) = None ->
  wp (watch_event ctx uuid payload) (fun _ w' =>
    readable ch (taskListeners w') = Some (Some payload) /\
    exists backoff, GRetryTask ctx payload backoff ∈ spawned w') w.
Proof.
  intros Hs He Hi Hp Hst Hr Hn Hc Hch Hread. unfold watch_event.
  apply wp_bind, wp_LockEntry; [apply Hs|]. rewrite He, Hi.
  rewrite decide_False by (rewrite Hst; discriminate). rewrite decide_True by done. rewrite Hr.
  apply wp_bind, wp_bind. eapply wp_mono; [by apply (recordTaskFailed_listening (taskListeners w))|].
  intros ? w1 H1; cbv beta in H1. destruct H1 as [Hs1 Ht1]. apply wp_bind, wp_on_listeners. rewrite Ht1.
  eapply wp_mono; [apply (notify_ok _ _ _ 0), Hs|].
  intros sent tl (Hok & _ & Hsent & Hrd & _). cbv beta.
  assert (Hgot : readable ch tl = Some (Some payload)).
  { rewrite Hrd, decide_True; [done|]. split; [|done]. rewrite Hsent, Hch. cbn. by rewrite Hread. }
  clear Hsent Hrd. unfold handleTaskFailed. rewrite Hp. unfold default_failure. rewrite Hn.
  rewrite (proj2 (Z.ltb_lt _ _)) by lia. unfold retry_backoff.
  rewrite (proj2 (Z.ltb_ge _ _)) by lia. apply wp_bind, wp_ret.
  apply wp_bind. eapply wp_mono.
  { apply (ReleaseSlotForWorkflow_inv (listening tl) (listening_preserved tl)).
    split; [|done]. by apply sane_set_listeners. }
  intros ? w2 H2; cbv beta in H2. destruct H2 as [_ Ht2]. apply wp_spawn, wp_ret. upd_simpl. rewrite Ht2. split; [done|].
  eexists. apply elem_of_app. right. by left.
Qed.

End failures.

Definition ex_retryable : TaskPayload := ex_failure <| pl_MaxRetries := 3 |>.
Definition ex_listening : World :=
  ex_world <| runningEntries := {["demo" := MkEntry (new_state ex_wf 0) 1 false]} |>
    <| taskListeners := registerTaskListener "demo" "a" 0 (make_chan noListeners).2 |>.

Lemma ex_listening_sane : sane ex_listening.
Proof.
  split; [done| |].
  - destruct (wp_run _ _ _ (listen_ok "demo" "a" 0 _ noListeners_ok)) as (ch & tl & [= <- <-] & H & _).
    exact H.
  - intros u e. unfold ex_listening. upd_simpl. intros [<- <-]%lookup_singleton_Some. by eexists.
Qed.

Lemma failure_notified_before_retry_witness :
  readable 0 (taskListeners ex_listening) = None /\
  wp (watch_event 1 "demo" ex_retryable) (fun _ w' =>
    readable 0 (taskListeners w') = Some (Some ex_retryable) /\
    exists backoff, GRetryTask 1 ex_retryable backoff ∈ spawned w') ex_listening.
Proof.
  split; [reflexivity|].
  apply (failure_notified_before_retry 1 "demo" ex_retryable (MkEntry (new_state ex_wf 0) 1 false)
    0 ex_listening).
  - exact ex_listening_sane.
  - reflexivity.
  - reflexivity.
  - reflexivity.
  - reflexivity.
  - reflexivity.
  - reflexivity.
  - vm_compute. split; [discriminate|reflexivity].
  - reflexivity.
  - reflexivity.
Defined.

(** ** Fan-outs *)

Lemma fan_out_jobs section node ups jobs :
  fan_out_tasks section node ups = Ok jobs ->
  exists fanOut items, FanOut node = Some fanOut /\
    extractIteratorList ups (IteratorKey fanOut) = Some items /\ length jobs = length items /\
    (0 < length items)%nat /\ Forall (fun j => j_phase j = Fresh /\ j_node j = fo_Task fanOut) jobs.
Proof.
  unfold fan_out_tasks. destruct (FanOut node) as [fo|]; [|done].
  destruct (extractIteratorList ups (IteratorKey fo)) as [[|x l]|] eqn:Hl; [done| |done].
  intros [= <-]. exists fo, (x :: l).
  split_and!; [done|done|cbn; by rewrite length_imap|cbn; lia|].
  constructor; [done|]. apply list.Forall_lookup. intros i j. rewrite list_lookup_imap.
  intros (it & _ & ->)%fmap_Some. done.
Qed.

Lemma fan_out_parallel_pos fanOut n : (0 < n)%nat -> 1 <= fan_out_parallel fanOut n.
Proof. unfold fan_out_parallel. intros. destruct (Z.leb_spec (MaxParallel fanOut) 0); lia. Qed.

(** C34: a fan-out over a list runs its task once per element, whatever the
    interleaving, and then either fails with the first error that arrived, or
    puts the outputs that are not nil (an empty output is one), in the order
    they arrived, under its output key and their number under [_count]: one per
    element when no output is nil, as it is with the outputs that workers write.
    Over an empty list it has an empty output, without a list it fails, and then
    nothing is run. *)
Theorem ExecuteFanOut_outcome `{Naming} `{EnvironmentLaws} (ctx : nat) (uuid : string)
    (node : TaskNode) (fanOut : FanOutDef) (ups : list vmap) (w : World) :
  sane w -> FanOut node = Some fanOut ->
  wp (ExecuteFanOut ctx uuid node ups) (fun r w' => sane w' /\
    match extractIteratorList ups (IteratorKey fanOut) with
    | None => r = Err (FanOutNoList (IteratorKey fanOut)) /\ w' = w
    | Some [] => r = Ok ∅ /\ w' = w
    | Some items =>
        exists rs : list (nat * task_result), rs.*1 ≡ₚ seq 0 (length items) /\
        match r with
        | Ok o => length (succeeded rs.*2) = length items /\
            o !! "_count" = Some (VInt (Z.of_nat (length (present (succeeded rs.*2))))) /\
            (Forall is_Some (succeeded rs.*2) -> o !! "_count" = Some (VInt (Z.of_nat (length items)))) /\
            (OutputKey fanOut <> "_count" ->
             o !! (if decide (OutputKey fanOut = "") then DefaultFanOutOutputKey
                   else OutputKey fanOut) = Some (maps_value (present (succeeded rs.*2))))
        | Err err => exists pre i post, rs = pre ++ (i, Err err) :: post /\
            Forall (fun r => is_ok r.2 = true) pre
        end
    end) w.
Proof.
  intros Hs Hfo. unfold ExecuteFanOut. rewrite Hfo.
  destruct (fan_out_tasks 0 node ups) as [jobs|r0] eqn:Hj.
  - destruct (fan_out_jobs 0 node ups jobs Hj) as (fo & items & Hfo' & Hit & Hlen & Hpos & Hf).
    rewrite Hfo in Hfo'. injection Hfo' as <-. rewrite Hit. destruct items as [|x items]; [cbn in Hpos; lia|].
    assert (Hfresh : Forall (fun j => j_phase j = Fresh) jobs)
      by (eapply list.Forall_impl; [exact Hf|]; by intros j [? _]).
    apply wp_bind. eapply wp_mono.
    { apply run_tasks_spec; [|exact Hs|by apply tracked_fresh|done].
      intros _. apply fan_out_parallel_pos. by rewrite Hlen. }
    intros rs w' [Hs' Hperm]. apply wp_ret. split; [done|]. rewrite Hlen in Hperm.
    exists rs. split; [done|]. unfold fan_out_result.
    destruct (first_error rs.*2) as [err|] eqn:He; [by apply first_error_Some|].
    apply first_error_None in He.
    assert (Hcount : length (succeeded rs.*2) = length (x :: items))
      by (rewrite He, length_fmap, <- (length_fmap fst), Hperm; apply length_seq).
    split_and!; [done|by rewrite lookup_insert_eq| |].
    + intros Hall. by rewrite lookup_insert_eq, present_all, Hcount.
    + intros Hk. rewrite lookup_insert_ne; [by rewrite lookup_singleton_eq|].
      case_decide; [discriminate|]. congruence.
  - apply wp_ret. split; [done|]. unfold fan_out_tasks in Hj. rewrite Hfo in Hj.
    by destruct (extractIteratorList ups (IteratorKey fanOut)) as [[|x l]|]; simplify_eq/=.
Qed.

(** The result of a fan-out cannot feed another one: its list is of maps,
    [[]map[string]any], and a fan-out takes only a [[]any].  Over the output
    key of a fan-out before it, the second one finds no list and fails. *)
Theorem chained_fan_out_fails `{Naming} `{Environment} (ctx : nat) (uuid : string)
    (first second : FanOutDef) (node : TaskNode) (rs : list task_result) (o : vmap)
    (ups : list vmap) (w : World) :
  fan_out_result first rs = Ok o -> FanOut node = Some second ->
  IteratorKey second = (if decide (OutputKey first = "") then DefaultFanOutOutputKey
                        else OutputKey first) ->
  Forall (fun up => up = o \/ up !! IteratorKey second = None) ups ->
  ExecuteFanOut ctx uuid node ups w = Ret (Err (FanOutNoList (IteratorKey second)), w).
Proof.
  intros Ho Hfo Hkey Hups. unfold ExecuteFanOut, fan_out_tasks. rewrite Hfo.
  assert (Hno : match o !! IteratorKey second with
                | Some (VList _) | Some (VNilRef TList) => False | _ => True end).
  { unfold fan_out_result in Ho. destruct (first_error rs); [done|]. injection Ho as <-.
    rewrite <- Hkey. destruct (decide (IteratorKey second = "_count")) as [->|Hc].
    - by rewrite lookup_insert_eq.
    - rewrite lookup_insert_ne, lookup_singleton_eq by done. by destruct (present _). }
  assert (Hx : extractIteratorList ups (IteratorKey second) = None); [|by rewrite Hx].
  unfold extractIteratorList. apply Forall_reverse in Hups.
  induction Hups as [|up l [->|Hup] _ IH]; [done|..]; cbn.
  - destruct (o !! IteratorKey second) as [[| []| | | | | | | | | | |]|]; try exact IH; done.
  - by rewrite Hup.
Qed.

Definition ex_fan : FanOutDef := MkFanOut "xs" (named_node "t") 0 "".
Definition ex_fan_node : TaskNode :=
  named_node "fan" <| Type_ := TaskNodeTypeFanOut |> <| FanOut := Some ex_fan |>.

Lemma ExecuteFanOut_outcome_witness :
  returned (ExecuteFanOut 1 "demo" ex_fan_node [{["xs" := VList []]}]) ex_skipping
    = Some (Ok ∅) /\
  wp (ExecuteFanOut 1 "demo" ex_fan_node [{["xs" := VList [VInt 1]]}]) (fun _ => sane) ex_skipping.
Proof.
  split; [reflexivity|]. eapply wp_mono.
  - apply (ExecuteFanOut_outcome 1 "demo" ex_fan_node ex_fan
      [{["xs" := VList [VInt 1]]}] ex_skipping).
    + exact ex_skipping_sane.
    + reflexivity.
  - intros r w' H. exact (proj1 H).
Defined.

Definition ex_second : FanOutDef := MkFanOut "fan_out_results" (named_node "u") 0 "".

Lemma chained_fan_out_fails_witness :
  ExecuteFanOut 1 "demo" (ex_fan_node <| FanOut := Some ex_second |>)
    [<["_count" := VInt 0]> {["fan_out_results" := VNilRef TMaps]}] ex_skipping = Ret (Err (FanOutNoList "fan_out_results"), ex_skipping).
Proof.
  apply (chained_fan_out_fails 1 "demo" ex_fan ex_second _ []
    (<["_count" := VInt 0]> {["fan_out_results" := VNilRef TMaps]})).
  - reflexivity.
  - reflexivity.
  - reflexivity.
  - constructor; [left; reflexivity|constructor].
Defined.

(** ** Loops *)

Section loops.
Context `{GoPlatform} `{Naming} `{EnvironmentLaws}.

Lemma or_cancelled_sane {A : Type} ctx (r : res exec_error A) w :
  sane w -> wp (or_cancelled ctx r) (fun r' w' => sane w' /\ forall a, r' = Ok a -> r = Ok a) w.
Proof.
  intros Hs. unfold or_cancelled. apply wp_bind. eapply wp_mono; [by apply others_sane|].
  intros x w' Hs'. apply wp_bind, wp_gets, wp_ret. split; [done|]. intros a.
  by destruct x, (is_cancelled ctx w').
Qed.

Lemma loop_groups_sane ctx uuid t start stop groups : forall gi outs last w,
  sane w -> wp (loop_groups ctx uuid t start stop gi groups outs last) (fun _ => sane) w.
Proof.
  induction groups as [|g groups IH]; intros gi outs last w Hs; cbn [loop_groups]; [by apply wp_ret|].
  apply wp_bind. eapply wp_mono; [by apply ExecuteWithOptions_sane|]. intros r w1 Hs1.
  apply wp_bind. eapply wp_mono; [by apply or_cancelled_sane|]. intros r' w2 [Hs2 _].
  destruct r' as [o|e]; [|by apply wp_ret]. cbn zeta. case_match; [by apply wp_ret|by apply IH].
Qed.

Lemma executeLoopBody_sane ctx uuid groups i ups w :
  sane w -> 0 <= i < Z.of_nat (length groups) ->
  wp (executeLoopBody ctx uuid groups i i ups) (fun _ => sane) w.
Proof.
  intros Hs Hi. unfold executeLoopBody. apply wp_bind. unfold slice.
  rewrite (proj2 (Z.leb_le 0 i)), (proj2 (Z.leb_le i (i + 1))), (proj2 (Z.leb_le (i + 1) _)) by lia.
  apply wp_ret, wp_bind, wp_bind, wp_LockEntry; [apply Hs|]. apply wp_ret.
  destruct (we_state <$> runningEntries w !! uuid); [by apply loop_groups_sane|by apply wp_ret].
Qed.

(** The rounds of a loop, from iteration [i] on: all but the last are told to
    go on, and a loop that ends without an error is told to stop by the last. *)
Definition rounds_ok (def : LoopDef) (i : Z) (n : nat) (ups outs : list vmap)
    (err : option exec_error) (rounds : list (list vmap * option vmap)) : Prop :=
  outs = ups ++ concat rounds.*1 /\ (length rounds <= n)%nat /\
  (forall k r, rounds !! k = Some r -> (S k < length rounds)%nat ->
     shouldContinueLoop r.2 def (i + Z.of_nat (S k)) = true) /\
  (err = None -> n = 0%nat \/ exists r, list.last rounds = Some r /\
     shouldContinueLoop r.2 def (i + Z.of_nat (length rounds)) = false).

Lemma rounds_nil def i n ups err : err <> None \/ n = 0%nat -> rounds_ok def i n ups ups err [].
Proof.
  intros Hn. split_and!; [by rewrite app_nil_r|cbn; lia|done|]. intros He. destruct Hn; [done|by left].
Qed.

Lemma rounds_cons def i n ups outs err r rounds :
  shouldContinueLoop r.2 def (i + 1) = true -> (err = None -> n <> 0%nat) ->
  rounds_ok def (i + 1) n (ups ++ r.1) outs err rounds ->
  rounds_ok def i (S n) ups outs err (r :: rounds).
Proof.
  intros Hr Hn (-> & Hlen & Hcont & Hend). split_and!.
  - cbn. by rewrite app_assoc.
  - cbn. lia.
  - intros [|k] r' Hk Hlt; simplify_eq/=; [exact Hr|].
    replace (i + Z.of_nat (S (S k))) with (i + 1 + Z.of_nat (S k)) by lia. apply Hcont; [done|lia].
  - intros He. destruct (Hend He) as [|(r' & Hl & Hs)]; [by destruct (Hn He)|].
    right. exists r'. split; [by destruct rounds|].
    cbn [length]. by replace (i + Z.of_nat (S (length rounds))) with (i + 1 + Z.of_nat (length rounds)) by lia.
Qed.

Lemma loop_iterations_spec ctx uuid groups g def : 0 <= g < Z.of_nat (length groups) ->
  forall n i ups w, sane w -> (n = 0%nat \/ i + Z.of_nat n = MaxIterations def) ->
  wp (loop_iterations n ctx uuid groups g g def i ups) (fun r w' => sane w' /\
    exists rounds, rounds_ok def i n ups r.1 r.2 rounds) w.
Proof.
  intros Hg. induction n as [|n IH]; intros i ups w Hs Hi; cbn [loop_iterations].
  { apply wp_ret. split; [done|]. exists []. apply rounds_nil. by right. }
  destruct Hi as [|Hi]; [done|]. apply wp_bind, wp_gets.
  assert (Hfail : forall e w', sane w' -> sane w' /\ exists rounds,
    rounds_ok def i (S n) ups (ups, Some e).1 (ups, Some e).2 rounds).
  { intros e w' Hs'. split; [done|]. exists []. apply rounds_nil. by left. }
  destruct (is_cancelled ctx w); [by apply wp_ret, Hfail|]. cbn zeta.
  apply wp_bind. eapply wp_mono; [by apply executeLoopBody_sane|]. intros r w1 Hs1.
  apply wp_bind. eapply wp_mono; [by apply or_cancelled_sane|]. intros r' w2 [Hs2 _].
  destruct r' as [[outs last]|e]; [|by apply wp_ret, Hfail].
  destruct (shouldContinueLoop last def (i + 1)) eqn:Hc.
  - assert (n <> 0%nat).
    { intros ->. unfold shouldContinueLoop in Hc. rewrite (proj2 (Z.leb_le _ _)) in Hc by lia. done. }
    eapply wp_mono; [apply IH; [done|lia]|]. intros [outs' err] w' (Hs' & rounds & Hr).
    split; [done|]. exists ((outs, last) :: rounds). by apply rounds_cons.
  - apply wp_ret. split; [done|]. exists [(outs, last)]. split_and!; cbn.
    + by rewrite app_nil_r.
    + lia.
    + intros k r' _ Hlt. lia.
    + intros _. right. by exists (outs, last).
Qed.

(** A loop over a group runs at most [MaxIterations] rounds and stops
    after the first round whose last output says so; its outputs are those it
    was given followed by those of its rounds, although a round itself never
    sees the outputs it is given. *)
Theorem loop_rounds (ctx : nat) (uuid : string) (groups : list (list TaskNode)) (g : Z)
    (def : LoopDef) (ups : list vmap) (w : World) :
  sane w -> 0 <= g < Z.of_nat (length groups) ->
  wp (runLoop ctx uuid groups g g def ups) (fun r w' => sane w' /\
    exists rounds : list (list vmap * option vmap),
      r.1 = ups ++ concat rounds.*1 /\
      (length rounds <= Z.to_nat (MaxIterations def))%nat /\
      (forall k x, rounds !! k = Some x -> (S k < length rounds)%nat ->
         shouldContinueLoop x.2 def (Z.of_nat (S k)) = true) /\
      (r.2 = None -> 0 < MaxIterations def -> exists x, list.last rounds = Some x /\
         shouldContinueLoop x.2 def (Z.of_nat (length rounds)) = false)) w /\
  forall ups', executeLoopBody ctx uuid groups g g ups w = executeLoopBody ctx uuid groups g g ups' w.
Proof.
  intros Hs Hg. split; [|done]. unfold runLoop. eapply wp_mono.
  - apply (loop_iterations_spec ctx uuid groups g def Hg); [done|lia].
  - intros [outs err] w' (Hs' & rounds & Ho & Hlen & Hcont & Hend). split; [done|].
    exists rounds. split_and!; [done|done|exact Hcont|]. intros He Hmax.
    destruct (Hend He) as [Hz|Hx]; [lia|exact Hx].
Qed.

End loops.

Definition ex_loop : LoopDef := MkLoopDef 3 "key" "again".

Lemma loop_rounds_witness :
  returned (runLoop (H := amd64) 1 "demo" [[named_node "a"]] 0 0 ex_loop []) ex_skipping
    = Some ([{["r" := VInt 1]}; {["r" := VInt 1]}; {["r" := VInt 1]}], None) /\
  wp (runLoop (H := amd64) 1 "demo" [[named_node "a"]] 0 0 ex_loop []) (fun _ => sane) ex_skipping.
Proof.
  split; [vm_compute; reflexivity|].
  assert (Hg : 0 <= 0 < Z.of_nat (length [[named_node "a"]])) by (cbn; lia).
  eapply wp_mono; [exact (proj1 (loop_rounds (H := amd64) 1 "demo" [[named_node "a"]] 0 ex_loop []
    ex_skipping ex_skipping_sane Hg))|].
  intros r w' Hr. exact (proj1 Hr).
Defined.

(** The outputs of a loop start with those it was given. *)
Lemma loop_prefix `{GoPlatform} `{Naming} `{Environment} ctx uuid groups start stop def n : forall i ups w,
  wlp (loop_iterations n ctx uuid groups start stop def i ups) (fun r _ => exists new, r.1 = ups ++ new) w.
Proof.
  assert (Hself : forall (l : list vmap), exists new, l = l ++ new)
    by (intros l; exists []; by rewrite app_nil_r).
  induction n as [|n IH]; intros i ups w; cbn [loop_iterations]; [by apply wlp_ret|].
  apply wlp_bind, wlp_gets. destruct (is_cancelled ctx w); [by apply wlp_ret, Hself|].
  cbn zeta. apply wlp_bind. eapply (wlp_mono _ (fun _ _ => True)); [by unfold wlp; case_match; [case_match|..]|].
  intros r w1 _. apply wlp_bind. eapply (wlp_mono _ (fun _ _ => True)); [by unfold wlp; case_match; [case_match|..]|].
  intros [[outs last]|e] w2 _; [|by apply wlp_ret, Hself]. case_match.
  - eapply wlp_mono; [apply IH|]. intros r' w3 (new & ->). exists (outs ++ new). by rewrite app_assoc.
  - apply wlp_ret. by exists outs.
Qed.

(** What an output asks for, when it is a skip and nothing else. *)
Definition skips `{GoPlatform} (o : vmap) (n : Z) : Prop :=
  let c := Context.NewContextFromMap o in
  Context.GetApproval c = "" /\ Context.GetBranch c = "" /\ wrap64 (Context.GetSkipGroups c) = n.

(** The outputs of a loop include those it was given, and the control
    marks of all of them are read again when it ends.  A task that skips [n]
    groups in front of a loop makes the loop skip [n] groups as well. *)
Theorem loop_replays_skip `{GoPlatform} `{Naming} `{Environment}
    (exec : list (list TaskNode) -> list vmap -> Z -> M World unit) (ctx : nat) (uuid : string)
    (groups : list (list TaskNode)) (g n : Z) (group : list TaskNode) (def : LoopDef)
    (o : vmap) (ups : list vmap) (w : World) :
  head (omap Loop group) = Some def -> skips o n -> 0 < n ->
  in64 (g + 1 + n) -> g + 1 + n < Z.of_nat (length groups) ->
  executeLoopGroup exec ctx uuid groups g (o :: ups) group w =
  (r ← runLoop ctx uuid groups g g def (o :: ups);
   match r with
   | (_, Some e) => fail_group uuid "循环任务组" g e
   | (outs, None) =>
       state ← wm_GetWorkflowState uuid;
       match state with
       | None => mret tt
       | Some _ => advanceToGroup exec ctx uuid groups (g + 1 + n) outs
       end
   end) w.
Proof.
  intros Hd (Ha & Hb & Hn) Hpos Hin Hlt. unfold executeLoopGroup. rewrite Hd.
  pose proof (loop_prefix ctx uuid groups g g def (Z.to_nat (MaxIterations def)) 0 (o :: ups) w) as Hp.
  unfold runLoop in *. unfold mbind, M_bind. unfold wlp in Hp.
  destruct (loop_iterations _ _ _ _ _ _ _ _ _ w) as [[[outs err] w1]| |]; [|done..].
  destruct Hp as [new Hnew]. cbn in Hnew. subst outs. destruct err as [e|]; [done|].
  unfold group_done, mbind, M_bind. destruct (wm_GetWorkflowState uuid w1) as [[[st|] w2]| |]; try done.
  unfold advanceWorkflow. cbn [advance_outputs app]. cbn zeta. rewrite Ha, Hb, Hn.
  change (bool_decide (("" : string) = "")) with true. cbn [negb].
  rewrite (proj2 (Z.ltb_lt 0 n)) by done. cbn zeta. rewrite wrap64_in by done.
  by rewrite (proj2 (Z.leb_gt _ _)) by lia.
Qed.

Definition ex_skip : vmap := {[Context.SkipGroupsKey := VInt 1]}.
Definition ex_loop_node : TaskNode := named_node "a" <| Loop := Some ex_loop |>.

Lemma loop_replays_skip_witness :
  exists r, executeLoopGroup (H := amd64) (fun _ _ _ => mret tt) 1 "demo"
    [[named_node "x"]; [ex_loop_node]; [named_node "y"]; [named_node "z"]] 1 [ex_skip]
    [ex_loop_node] ex_skipping = r.
Proof.
  eexists. apply (loop_replays_skip (H := amd64) (fun _ _ _ => mret tt) 1 "demo" _ 1 1 _ ex_loop ex_skip []).
  - reflexivity.
  - split; [reflexivity|]. split; [reflexivity|]. reflexivity.
  - reflexivity.
  - unfold in64. vm_compute. split; discriminate.
  - reflexivity.
Defined.

(** ** Sub-workflows *)

(** Nothing runs, or ever ran, under a UUID, and a context goes on. *)
Definition untouched (ctx : nat) (sub : string) (w : World) : Prop :=
  wm_locked w = false /\ runningEntries w !! sub = None /\ latest_id sub w = None /\
  historyStore w = None /\ is_cancelled ctx w = false.

Lemma poll_untouched ctx sub w : untouched ctx sub w -> poll_sub sub w = Ret (None, w).
Proof.
  intros (Hl & Hr & Hi & Hh & _).
  unfold poll_sub, wm_GetWorkflowState, LockEntry, GetHistory, loadHistoryFromMySQL, lock_wm, gets,
    mbind, M_bind. rewrite Hl, Hr. cbn. rewrite Hl, Hi. cbn. by rewrite Hh.
Qed.

Lemma Execute_absent `{GoPlatform} `{Naming} `{Environment} ctx sub ups i w :
  wm_locked w = false -> runningEntries w !! sub = None -> Execute ctx sub ups i w = Ret (tt, w).
Proof.
  intros Hl Hr. unfold Execute, wm_GetWorkflowState, LockEntry, lock_wm, gets, mbind, M_bind.
  by rewrite Hl, Hr.
Qed.

(** C38: nothing ever runs a sub-workflow.  Its goroutine executes a UUID that
    no run was submitted under, which does nothing, and polls for its end: with
    no run of that UUID in the history it waits as long as its context lives;
    with one, it takes the outputs, or the failure, of that old run. *)
Theorem sub_workflow_never_starts `{GoPlatform} `{Naming} `{Environment} (ctx : nat)
    (node : TaskNode) (subWf : Workflow) (ups : list vmap) (w : World) :
  wm_locked w = false -> runningEntries w !! UUID subWf = None ->
  Execute ctx (UUID subWf) (sub_upstream node subWf ups) 0 w = Ret (tt, w) /\
  ((forall w', untouched ctx (UUID subWf) w' ->
      wp others (fun _ => untouched ctx (UUID subWf)) w') ->
   untouched ctx (UUID subWf) w -> forall ticks,
     wp (executeAndTrackSubWorkflow ticks ctx node subWf ups) (fun r _ => r = None) w) /\
  (forall i hist, latest_id (UUID subWf) w = Some i -> workflowHistory w !! i = Some hist ->
     poll_sub (UUID subWf) w =
       Ret (Some (if decide (Status hist = WorkflowStatusCompleted)
                  then Ok (collectCompletedOutputs (CompletedTasks hist))
                  else Err (SubEnded (UUID subWf) (Status hist))), w)).
Proof.
  intros Hl Hr. pose proof (Execute_absent ctx (UUID subWf) (sub_upstream node subWf ups) 0 w Hl Hr) as Hx.
  split_and!; [done| |].
  - intros Hothers Hw ticks. unfold executeAndTrackSubWorkflow. apply wp_bind. unfold wp at 1.
    rewrite Hx. apply wp_bind. clear Hx Hl Hr. revert w Hw.
    induction ticks as [|ticks IH]; intros w Hw; cbn [poll_loop]; [by do 2 apply wp_ret|].
    apply wp_bind. eapply wp_mono; [by apply Hothers|]. intros x w1 Hw1. apply wp_bind, wp_gets.
    destruct Hw1 as (Hl1 & Hr1 & Hi1 & Hh1 & Hc1). rewrite Hc1.
    assert (Hpoll : wp (r ← poll_sub (UUID subWf);
      match r with Some r => mret (Some r) | None => poll_loop ticks ctx (UUID subWf) end)
      (fun r => wp match r with
        | Some _ => on_td (CleanupPerWfCounter (UUID subWf));; mret r
        | None => mret r end (fun r _ => r = None)) w1).
    { apply wp_bind. unfold wp at 1. rewrite (poll_untouched ctx) by done. by apply IH. }
    by destruct x.
  - intros i hist Hi Hh. unfold poll_sub, wm_GetWorkflowState, LockEntry, lock_wm, gets, mbind, M_bind.
    rewrite Hl, Hr. cbn. rewrite (GetHistory_found _ i hist) by done. cbn. by case_decide.
Qed.

(** ** Plain workflows *)

(** A node that the serial executor treats as a task and nothing else. *)
Definition plain_node (n : TaskNode) : Prop :=
  Loop n = None /\ Type_ n = "" /\ DelaySec n = 0.

Definition unmarked `{GoPlatform} (o : vmap) : Prop :=
  Context.GetApproval (Context.NewContextFromMap o) = "" /\
  Context.GetBranch (Context.NewContextFromMap o) = "" /\
  wrap64 (Context.GetSkipGroups (Context.NewContextFromMap o)) <= 0.

(** The reference: the groups one after the other, each given all outputs so
    far, until one fails or the run is gone. *)
Fixpoint run_in_order `{Naming} `{Environment} (ctx : nat) (uuid : string)
    (groups : list (list TaskNode)) (idx : Z) (ups : list vmap) : M World unit :=
  match groups with
  | [] => finishWorkflow uuid
  | g :: groups' =>
      st ← wm_GetWorkflowState uuid;
      r ← ExecuteWithOptions ctx uuid g ups (all_tasks (master_timeout st));
      match r with
      | Err e => fail_group uuid "任务组" idx e
      | Ok outs =>
          st ← wm_GetWorkflowState uuid;
          match st with
          | None => mret tt
          | Some _ => run_in_order ctx uuid groups' (idx + 1) (ups ++ outs)
          end
      end
  end.

Lemma plain_kind g : Forall plain_node g -> detectAdvancedNodes g = PlainGroup.
Proof.
  induction 1 as [|n g (Hl & Ht & _) _ IH]; [done|]. cbn. rewrite Hl. unfold GetTaskNodeType.
  by rewrite decide_True by done.
Qed.

Lemma plain_delay g : Forall plain_node g -> max_delay g = 0.
Proof.
  unfold max_delay. intros Hg. assert (Hgen : forall d, 0 <= d ->
    foldl (fun d n => if d <? DelaySec n then DelaySec n else d) d g = d); [|by apply Hgen].
  induction Hg as [|n g (_ & _ & Hd) _ IH]; intros d Hpos; cbn; [done|].
  rewrite Hd, (proj2 (Z.ltb_ge d 0)) by lia. by apply IH.
Qed.

Lemma advance_unmarked `{GoPlatform} `{Naming} `{Environment} exec ctx uuid st groups i outs1 outs2 other :
  Forall unmarked outs2 ->
  advance_outputs exec ctx uuid st groups i outs1 outs2 other = other.
Proof.
  induction 1 as [|o outs (Ha & Hb & Hs) _ IH]; [done|]. cbn [advance_outputs]. cbn zeta.
  rewrite Ha, Hb. change (bool_decide (("" : string) = "")) with true. cbn [negb].
  by rewrite (proj2 (Z.ltb_ge _ _)).
Qed.

(** ** What the channels deliver *)

(** Every payload that waits in a channel has the property [P]. *)
Definition delivering (P : TaskPayload -> Prop) (w : World) : Prop :=
  Forall (fun c => forall p, slot c = Some p -> P p) (tl_heap (taskListeners w)).

(** What the rest of the system puts into the channels has the property. *)
Class Delivers `{Environment} (P : TaskPayload -> Prop) : Prop := {
  pick_delivers n w : delivering P w -> wlp (pick n) (fun _ => delivering P) w;
  others_deliver w : delivering P w -> wlp others (fun _ => delivering P) w }.

Section delivering.
Context `{GoPlatform} `{Naming} `{EnvironmentLaws} (P : TaskPayload -> Prop) {HP : Delivers P}.

Lemma wlp_on_listeners_all {A : Type} (f : M Listeners A) (Q : A -> World -> Prop) w :
  wlp f (fun a tl => Q a (w <| taskListeners := tl |>)) (taskListeners w) ->
  wlp (on_listeners f) Q w.
Proof. unfold wlp, on_listeners. by destruct (f (taskListeners w)) as [[a tl]| |]. Qed.

Lemma await_delivers ctx stopped sec ch w : delivering P w ->
  wlp (await ctx stopped sec ch) (fun r w' => delivering P w' /\
    forall o, r = Ok o -> exists p, P p /\ o = Output p) w.
Proof.
  intros Hw. unfold await. apply wlp_bind. eapply wlp_mono; [by apply others_deliver|].
  intros x w1 Hw1. apply wlp_bind, wlp_gets, wlp_bind, wlp_gets.
  destruct (readable ch (taskListeners w1)) as [[p|]|] eqn:Hr;
    destruct x, (stopped || is_cancelled ctx w1); try (by apply wlp_ret).
  all: apply wlp_bind, wlp_modify, wlp_ret; split;
    [unfold delivering, take_payload; upd_simpl; apply Forall_alter; [done|by intros c _ _ q [=]]|].
  all: intros o; case_decide; intros [= <-]; exists p; split; [|done];
    unfold readable in Hr; destruct (tl_heap _ !! ch) as [c|] eqn:Hc; [|done];
    destruct (slot c) as [q|] eqn:Hs; [injection Hr as ->|by destruct (tc_closed c)];
    by eapply (proj1 (list.Forall_lookup _ _) Hw1).
Qed.

Lemma listen_delivers u t w : delivering P w ->
  wlp (on_listeners (listen u t)) (fun _ => delivering P) w.
Proof.
  intros Hw. apply wlp_on_listeners_all. unfold wlp, listen, make_chan. cbn.
  apply Forall_app. split; [exact Hw|]. constructor; [|constructor]. by intros p [=].
Qed.

Lemma unregister_delivers u t w : delivering P w ->
  wlp (on_listeners (unregisterTaskListener u t)) (fun _ => delivering P) w.
Proof.
  intros Hw. apply wlp_on_listeners_all. unfold unregisterTaskListener.
  apply wlp_bind, wlp_gets, wlp_bind, wlp_modify.
  assert (Hh : tl_heap (drop_listener u t (taskListeners w)) = tl_heap (taskListeners w))
    by (unfold drop_listener; by case_match).
  destruct (lookup_listener _ _ _) as [ch|]; [|apply wlp_ret; unfold delivering; upd_simpl; by rewrite Hh].
  unfold wlp, close_task_chan. rewrite Hh. destruct (_ !! ch) as [c|] eqn:Hc; [|done].
  destruct (tc_closed c); [done|]. unfold delivering. upd_simpl. rewrite Hh.
  apply Forall_insert; [exact Hw|]. upd_simpl. by eapply (proj1 (list.Forall_lookup _ _) Hw).
Qed.

Lemma task_step_delivers ctx uuid stopped j w : sane w -> delivering P w ->
  wlp (task_step ctx uuid stopped j) (fun r w' => delivering P w' /\
    forall o, r.2 = Some (Ok o) -> exists p, P p /\ o = Output p) w.
Proof.
  intros Hs Hw. unfold task_step. destruct (j_phase j) as [| |ch|]; [..|by apply wlp_ret].
  - apply wlp_bind. eapply wlp_mono; [by apply wp_wlp, PushTask_pushed|].
    intros r w' (td & e & fl & c & ->). apply wlp_ret. split; [exact Hw|]. by destruct r.
  - apply wlp_bind. eapply wlp_mono; [by apply listen_delivers|]. intros ch w' Hw'. by apply wlp_ret.
  - apply wlp_bind. eapply wlp_mono; [by apply await_delivers|]. intros r w' [Hw' Hr].
    apply wlp_bind. eapply wlp_mono; [by apply unregister_delivers|].
    intros ? w'' Hw''. apply wlp_ret. split; [done|]. cbn. intros o [= Ho]. by apply Hr.
Qed.

Lemma run_tasks_delivers ctx uuid strategy cap fuel : forall jobs rs w,
  sane w -> delivering P w -> Forall (fun o => exists p, P p /\ o = Output p) (succeeded rs.*2) ->
  wlp (run_tasks fuel ctx uuid strategy cap jobs rs) (fun rs' w' => delivering P w' /\
    Forall (fun o => exists p, P p /\ o = Output p) (succeeded rs'.*2)) w.
Proof.
  induction fuel as [|fuel IH]; intros jobs rs w Hs Hw Hrs; cbn [run_tasks]; [by apply wlp_ret|].
  destruct (runnable cap jobs) as [|i0 live]; [by apply wlp_ret|]. apply wlp_bind.
  eapply wlp_mono; [apply wlp_and; [by apply wp_wlp, pick_sane|by apply pick_delivers]|].
  intros k w1 [Hs1 Hw1]. cbn beta zeta. case_match eqn:Hj; [|by apply wlp_ret].
  set (stopped := _ && _). assert (Hf : j_phase j = Finished \/ j_phase j <> Finished)
    by (destruct (j_phase j); auto).
  destruct Hf as [Hf|Hf].
  - unfold task_step. rewrite Hf. apply wlp_bind, wlp_ret. cbn. by apply IH.
  - apply wlp_bind. eapply wlp_mono.
    { apply wlp_and; [by apply wp_wlp, task_step_ok|by apply task_step_delivers]. }
    intros [p x] w2 [(Hs2 & _) (Hw2 & Hx)]. cbn [fst snd] in *. apply IH; [done..|].
    destruct x as [[o|e]|]; [..|done]; rewrite fmap_app; unfold succeeded in *; rewrite omap_app;
      apply Forall_app; (split; [done|]); cbn; [|done].
    constructor; [by apply Hx|done].
Qed.

(** The outputs of a group are outputs that were delivered. *)
Lemma ExecuteWithOptions_delivers ctx uuid group ups opts w : sane w -> delivering P w ->
  wlp (ExecuteWithOptions ctx uuid group ups opts) (fun r w' => (sane w' /\ delivering P w') /\
    forall outs, r = Ok outs -> Forall (fun o => exists p, P p /\ Output p = Some o) outs) w.
Proof.
  intros Hs Hw. eapply wlp_mono; [apply wlp_and; [by apply wp_wlp, ExecuteWithOptions_sane|]|].
  - unfold ExecuteWithOptions. case_decide; [apply (wlp_ret _ (fun r w' => delivering P w' /\
      forall outs, r = Ok outs -> Forall (fun o => exists p, P p /\ Output p = Some o) outs));
      split; [done|]; by intros outs [= <-]|].
    apply wlp_bind. eapply wlp_mono; [by apply run_tasks_delivers|].
    intros rs w' [Hw' Hrs]. apply wlp_ret. split; [exact Hw'|]. intros outs. unfold group_outcome.
    repeat case_match; intros [= <-]; unfold present; apply list.Forall_forall;
      intros o (o' & Ho & [= ->])%list_elem_of_omap;
      destruct (proj1 (list.Forall_forall _ _) Hrs _ Ho) as (p & Hp & Hpo); by exists p.
  - naive_solver.
Qed.

End delivering.

Section in_order.
Context `{GoPlatform} `{Naming} `{EnvironmentLaws} {HD : Delivers (fun p => unmarked (default ∅ (Output p)))}.
Context (ctx : nat) (uuid : string) (groups : list (list TaskNode)).
Context (Hplain : Forall (Forall plain_node) groups).

Abbreviation quiet := (fun w => sane w /\ delivering (fun p => unmarked (default ∅ (Output p))) w).

Lemma get_state_same w st w' : wm_GetWorkflowState uuid w = Ret (st, w') -> w' = w.
Proof.
  unfold wm_GetWorkflowState, LockEntry, lock_wm, gets, mbind, M_bind.
  destruct (wm_locked w); cbn; [done|]. by intros [= _ <-].
Qed.

Lemma executeGroups_in_order stuck fuel : forall idx ups w,
  quiet w -> 0 <= idx -> (length groups - Z.to_nat idx < fuel)%nat ->
  executeGroups stuck fuel ctx uuid groups ups idx w =
  run_in_order ctx uuid (drop (Z.to_nat idx) groups) idx ups w.
Proof.
  induction fuel as [|fuel IH]; intros idx ups w Hw Hidx Hf; [lia|]. cbn [executeGroups]. cbn zeta.
  destruct (Z.leb_spec (Z.of_nat (length groups)) idx).
  { by rewrite drop_ge by lia. }
  destruct (lookup_lt_is_Some_2 groups (Z.to_nat idx)) as [g Hg]; [lia|].
  rewrite (drop_S _ _ _ Hg). cbn [run_in_order].
  unfold mbind at 1 3, M_bind. destruct (wm_GetWorkflowState uuid w) as [[st w1]| |] eqn:Hst; [|done..].
  apply get_state_same in Hst as ->.
  assert (Hat : group_at groups idx = Some g) by (unfold group_at; by rewrite (proj2 (Z.ltb_ge idx 0))).
  rewrite Hat. assert (Hin : g ∈ groups) by (by eapply list_elem_of_lookup_2).
  rewrite plain_kind by exact (proj1 (list.Forall_forall _ _) Hplain g Hin).
  pose proof (ExecuteWithOptions_delivers _ ctx uuid g ups (all_tasks (master_timeout st)) w
    (proj1 Hw) (proj2 Hw)) as Hr. unfold wlp in Hr.
  unfold mbind, M_bind. destruct (ExecuteWithOptions _ _ _ _ _ w) as [[[outs|e] w2]| |]; [|done..].
  destruct Hr as [Hw2 Houts]. unfold group_done, mbind, M_bind.
  destruct (wm_GetWorkflowState uuid w2) as [[[st2|] w3]| |] eqn:Hst2; [|done..].
  apply get_state_same in Hst2 as ->.
  unfold advanceWorkflow. rewrite advance_unmarked
    by (eapply Forall_impl; [by apply Houts|]; intros o (p & Hp & Ho); by rewrite Ho in Hp). cbn zeta.
  replace (S (Z.to_nat idx)) with (Z.to_nat (idx + 1)) by lia.
  destruct (Z.leb_spec (Z.of_nat (length groups)) (idx + 1)).
  - by rewrite drop_ge by lia.
  - unfold advanceToGroup. destruct (lookup_lt_is_Some_2 groups (Z.to_nat (idx + 1))) as [g' Hg']; [lia|].
    assert (Hat' : group_at groups (idx + 1) = Some g')
      by (unfold group_at; by rewrite (proj2 (Z.ltb_ge (idx + 1) 0)) by lia).
    rewrite Hat'. assert (Hin' : g' ∈ groups) by (by eapply list_elem_of_lookup_2).
    rewrite plain_delay by exact (proj1 (list.Forall_forall _ _) Hplain g' Hin'). cbn. apply IH; [done|lia|lia].
Qed.

End in_order.

(** C2: a workflow of plain tasks whose outputs carry no control marks is run
    as it reads: its groups in order, each given all outputs of those before,
    up to the first that fails. *)
Theorem Execute_in_order `{GoPlatform} `{Naming} `{EnvironmentLaws}
    `{!Delivers (fun p => unmarked (default ∅ (Output p)))} (ctx : nat)
    (uuid : string) (st : WorkflowState) (wf : Workflow) (ups : list vmap) (w : World) :
  Forall (Forall plain_node) (TaskGroups wf) ->
  sane w -> delivering (fun p => unmarked (default ∅ (Output p))) w ->
  running_state uuid w = Some st -> ws_Workflow st = Some wf ->
  Execute ctx uuid ups 0 w = run_in_order ctx uuid (TaskGroups wf) 0 ups w.
Proof.
  intros Hplain Hs Hd Hst Hwf. unfold Execute.
  assert (Hget : wm_GetWorkflowState uuid w = Ret (Some st, w)).
  { unfold wm_GetWorkflowState, LockEntry, lock_wm, gets, mbind, M_bind. rewrite (sane_lock _ Hs).
    unfold running_state in Hst. cbn. by rewrite Hst. }
  unfold mbind, M_bind. rewrite Hget, Hwf.
  apply (executeGroups_in_order ctx uuid (TaskGroups wf) Hplain); [done|lia|].
  unfold fuel_for. pose proof (length_weight (TaskGroups wf)). lia.
Qed.

(** ** Concrete runs *)

Definition ex_plain_wf : Workflow := skipping_wf <| TaskGroups := [[named_node "a"; named_node "b"]; [named_node "c"]] |>.
Definition ex_plain : World :=
  ex_world <| runningEntries := {["demo" := MkEntry (new_state ex_plain_wf 0) 1 false]} |>.

Lemma ex_plain_sane : sane ex_plain.
Proof.
  split; [done|apply noListeners_ok|]. intros u e. unfold ex_plain. upd_simpl.
  intros [<- <-]%lookup_singleton_Some. by eexists.
Qed.

#[export] Instance ex_delivers : Delivers (fun p => unmarked (H := amd64) (default ∅ (Output p))).
Proof.
  split; [intros n w Hw; exact Hw|]. intros w Hw. unfold wlp, delivering in *. cbn.
  upd_simpl. apply list.Forall_fmap. eapply Forall_impl; [exact Hw|]. intros c Hc p. cbn.
  unfold complete_chan. destruct (tc_closed c); [apply Hc|]. cbn. intros [= <-].
  split; [vm_compute; reflexivity|]. split; [vm_compute; reflexivity|]. vm_compute. discriminate.
Qed.

Lemma Execute_in_order_witness :
  returned (Execute (H := amd64) 1 "demo" [] 0) ex_plain = Some tt /\
  Execute (H := amd64) 1 "demo" [] 0 ex_plain =
    run_in_order 1 "demo" (TaskGroups ex_plain_wf) 0 [] ex_plain.
Proof.
  split; [vm_compute; reflexivity|].
  apply (Execute_in_order (H := amd64) 1 "demo" (new_state ex_plain_wf 0) ex_plain_wf [] ex_plain).
  - by repeat constructor.
  - exact ex_plain_sane.
  - constructor.
  - reflexivity.
  - reflexivity.
Defined.

Lemma executeGroups_terminates_witness :
  executeGroups (H := amd64) panic 100 1 "demo" (TaskGroups ex_plain_wf) [] 0 ex_plain =
  executeGroups (H := amd64) blocked (fuel_for (TaskGroups ex_plain_wf)) 1 "demo"
    (TaskGroups ex_plain_wf) [] 0 ex_plain.
Proof.
  apply (executeGroups_terminates (H := amd64)); [vm_compute; reflexivity|].
  vm_compute. repeat constructor.
Defined.

Lemma sub_workflow_never_starts_witness :
  runningEntries ex_plain !! ("sub" : string) = None /\
  Execute (H := amd64) 1 "sub" (sub_upstream (named_node "a") (ex_plain_wf <| UUID := "sub" |>) []) 0
    ex_plain = Ret (tt, ex_plain).
Proof.
  split; [reflexivity|].
  exact (proj1 (sub_workflow_never_starts (H := amd64) 1 (named_node "a")
    (ex_plain_wf <| UUID := "sub" |>) [] ex_plain eq_refl eq_refl)).
Defined.
