(* ===== verification/Effects.v ===== *)
(** * Programs as trees of effects

    A worker's code is written once, as a tree of the calls it makes; it runs
    alone on a state, or step by step among others.  The loops of that code
    are bounded, so the trees are finite. *)
From Stdlib Require Import ZArith Lia.
From stdpp Require Import base list relations.
From S2P Require Import Prelude.
Set Warnings "-register-all,-clear-no-such-hyp,-level-tolerance".
Local Open Scope list_scope.

Inductive io (E : Type -> Type) (A : Type) : Type :=
| Pure (a : A)
| Vis {X : Type} (e : E X) (k : X -> io E A).
Arguments Pure {E A} a.
Arguments Vis {E A X} e k.

#[export] Instance io_ret (E : Type -> Type) : MRet (io E) := fun _ a => Pure a.

#[export] Instance io_bind (E : Type -> Type) : MBind (io E) :=
  fun A B f => fix go (p : io E A) : io E B :=
    match p with
    | Pure a => f a
    | Vis e k => Vis e (fun x => go (k x))
    end.

Definition call {E : Type -> Type} {X : Type} (e : E X) : io E X := Vis e Pure.

(** What a call does to a state. *)
Definition handler (E : Type -> Type) (S : Type) : Type := forall X, E X -> M S X.

(** The program alone. *)
Fixpoint run {E : Type -> Type} {S A : Type} (h : handler E S) (p : io E A) : M S A :=
  match p with
  | Pure a => mret a
  | Vis e k => x ← h _ e; run h (k x)
  end.

(** ** A pool of programs on a shared state *)

Section pool.
Context {E : Type -> Type} {S A : Type} (h : handler E S) (outside : S -> S -> Prop).

(** One call of one program, or a step of somebody else. *)
Inductive pool_step : S * list (io E A) -> S * list (io E A) -> Prop :=
| step_call s s' pool i X (e : E X) k x :
    pool !! i = Some (Vis e k) -> h X e s = Ret (x, s') ->
    pool_step (s, pool) (s', <[i := k x]> pool)
| step_outside s s' pool :
    outside s s' -> pool_step (s, pool) (s', pool).

(** An invariant of the state, with a condition on every program in it. *)
Lemma pool_invariant (I : S -> list (io E A) -> Prop) x y :
  (forall s pool i X (e : E X) k a s', I s pool -> pool !! i = Some (Vis e k) ->
     h X e s = Ret (a, s') -> I s' (<[i := k a]> pool)) ->
  (forall s s' pool, I s pool -> outside s s' -> I s' pool) ->
  rtc pool_step x y -> I x.1 x.2 -> I y.1 y.2.
Proof.
  intros Hcall Hout. induction 1 as [x|x y z Hxy _ IH]; [done|]. intros Hx. apply IH.
  destruct Hxy; cbn in *; [by eapply Hcall|by eapply Hout].
Qed.

(** A run in which the programs take turns as listed. *)
Fixpoint schedule (turns : list nat) (x : S * list (io E A)) : option (S * list (io E A)) :=
  match turns with
  | [] => Some x
  | i :: turns' =>
      match x.2 !! i with
      | Some (Vis e k) =>
          match h _ e x.1 with
          | Ret (a, s') => schedule turns' (s', <[i := k a]> x.2)
          | _ => None
          end
      | _ => None
      end
  end.

Lemma schedule_reach turns : forall x y, schedule turns x = Some y -> rtc pool_step x y.
Proof.
  induction turns as [|i turns IH]; intros [s pool] y; cbn; [by intros [= <-]|].
  destruct (pool !! i) as [[a|X e k]|] eqn:Hi; [done| |done].
  destruct (h X e s) as [[a s']| |] eqn:Hh; [|done..]. intros Hs.
  eapply rtc_l; [by eapply step_call|by apply IH].
Qed.

End pool.

(** ** Lemmas *)

(** What one of several holds is exchanged for something else. *)
Lemma concat_fmap_insert {A B : Type} (f : A -> list B) (l : list A) (i : nat) x y : l !! i = Some x ->
  f x ++ concat (f <$> <[i := y]> l) ≡ₚ f y ++ concat (f <$> l).
Proof.
  revert i. induction l as [|z l IH]; intros [|i] Hi; simplify_eq/=.
  - rewrite !app_assoc. apply Permutation_app_tail, Permutation_app_comm.
  - specialize (IH i Hi). rewrite !app_assoc, (Permutation_app_comm (f x)),
      (Permutation_app_comm (f y)), <- !app_assoc. by rewrite IH.
Qed.

Lemma run_bind {E : Type -> Type} {S A B : Type} (h : handler E S) (p : io E A) (f : A -> io E B) s :
  run h (p ≫= f) s = (run h p ≫= fun a => run h (f a)) s.
Proof.
  revert s. induction p as [a|X e k IH]; intros s; [done|].
  change (run h (Vis e k ≫= f) s) with ((x ← h X e; run h (k x ≫= f)) s).
  change (run h (Vis e k)) with (x ← h X e; run h (k x)).
  unfold mbind, M_bind. destruct (h X e s) as [[x s']| |]; [|done..]. apply IH.
Qed.

Lemma wp_run_bind {E : Type -> Type} {S A B : Type} (h : handler E S) (p : io E A) (f : A -> io E B)
    (Q : B -> S -> Prop) s :
  wp (run h p) (fun a => wp (run h (f a)) Q) s -> wp (run h (p ≫= f)) Q s.
Proof. intros Hwp. unfold wp. rewrite run_bind. by apply wp_bind. Qed.

Lemma wp_run_call {E : Type -> Type} {S A X : Type} (h : handler E S) (e : E X) (k : X -> io E A)
    (Q : A -> S -> Prop) s :
  wp (h X e) (fun x => wp (run h (k x)) Q) s -> wp (run h (Vis e k)) Q s.
Proof. cbn. apply wp_bind. Qed.
