(* ===== verification/Slots.v ===== *)
(** * Slots under concurrency (infra/engine/scheduler/task_dispatcher.go)

    The dispatcher is called from many goroutines at once.  Its counters are
    atomic integers: the global one, and one per workflow behind a sync.Map
    that creates and deletes them; only the queue has a mutex.  Here each
    operation is a program that makes one atomic call at a time (Effects), and
    any number of them run together: what holds of the slots in every
    interleaving, and what does not. *)
From Stdlib Require Import ZArith Lia.
From stdpp Require Import base gmap gmultiset sets strings list relations.
From S2P Require Import Prelude GoVal Model Heap Dispatcher Effects.
Set Warnings "-register-all,-clear-no-such-hyp,-level-tolerance".
Local Open Scope Z_scope.
Local Open Scope list_scope.

(** ** State: counters live in cells, the table maps workflows to them *)

(** [in_flight]: the workflows of the tasks that are written and have not
    ended.  [alive]: the workflows that have a state; [clock] and [answers],
    the coming answers of the store, are the environment's. *)
Record Slots := MkSlots {
  s_global : Z;
  cells : gmap nat Z;
  table : gmap string nat;
  pq : list pendingTask;
  pq_locked : bool;
  in_flight : gmultiset string;
  alive : gset string;
  clock : Z;
  answers : list bool }.

#[export] Instance eta_Slots : Eta Slots := fun s =>
  MkSlots (s_global s) (cells s) (table s) (pq s) (pq_locked s) (in_flight s) (alive s)
    (clock s) (answers s).

(** ** Atomic calls *)

Inductive atom : Type -> Type :=
| GRead : atom Z
| GAdd (d : Z) : atom Z
| TLoad (u : string) : atom (option nat)
| TLoadOrStore (u : string) : atom nat
| TDelete (u : string) : atom unit
| CRead (c : nat) : atom Z
| CAdd (c : nat) (d : Z) : atom Z
| PqLock : atom unit
| PqUnlock : atom unit
| PqPush (pt : pendingTask) : atom unit
| PqHead : atom (option pendingTask)
| PqPop : atom unit
| PqLen : atom nat
| ANow : atom Z
| AAlive (u : string) : atom bool
| ASerialize : atom bool
| AWrite (u : string) : atom bool
| ABatch (l : list pendingTask) : atom bool
| AWait (sec : Z) : atom bool
| AFail (u : string) : atom unit
| AEnd (u : string) : atom unit.

Abbreviation prog := (io atom).

Definition answer : M Slots bool := fun s =>
  match answers s with
  | [] => Ret (true, s)
  | b :: l => Ret (b, s <| answers := l |>)
  end.

Definition write_tasks (us : gmultiset string) : M Slots bool :=
  ok ← answer;
  if ok : bool then modify (fun s => s <| in_flight ::= fun m => us ⊎ m |>);; mret true
  else mret false.

(** A lock that is held blocks; a task can end only when it is in flight; a
    workflow that fails ends, which deletes its counter.  A write that fails
    has written nothing. *)
Definition handle (X : Type) (e : atom X) : M Slots X :=
  match e in atom X return M Slots X with
  | GRead => gets s_global
  | GAdd d => fun s => let g := wrap64 (s_global s + d) in Ret (g, s <| s_global := g |>)
  | TLoad u => gets (fun s => table s !! u)
  | TLoadOrStore u => fun s =>
      match table s !! u with
      | Some c => Ret (c, s)
      | None => let c := fresh (dom (cells s)) in
                Ret (c, s <| cells ::= <[c := 0]> |> <| table ::= <[u := c]> |>)
      end
  | TDelete u => modify (fun s => s <| table ::= delete u |>)
  | CRead c => gets (fun s => default 0 (cells s !! c))
  | CAdd c d => fun s => let v := wrap64 (default 0 (cells s !! c) + d) in
                         Ret (v, s <| cells ::= <[c := v]> |>)
  | PqLock => fun s => if pq_locked s then Blocked else Ret (tt, s <| pq_locked := true |>)
  | PqUnlock => modify (fun s => s <| pq_locked := false |>)
  | PqPush pt => modify (fun s => s <| pq ::= Push pq_less pt |>)
  | PqHead => gets (fun s => head (pq s))
  | PqPop => modify (fun s => s <| pq ::= fun q => match Pop pq_less q with Some (_, q') => q' | None => q end |>)
  | PqLen => gets (fun s => length (pq s))
  | ANow => gets clock
  | AAlive u => gets (fun s => bool_decide (u ∈ alive s))
  | ASerialize => answer
  | AWait sec => answer
  | AWrite u => write_tasks {[+ u +]}
  | ABatch l => write_tasks (list_to_set_disj (workflowName <$> l))
  | AFail u => modify (fun s =>
      if decide (u ∈ alive s) then s <| alive ::= fun a => a ∖ {[u]} |> <| table ::= delete u |> else s)
  | AEnd u => fun s =>
      if decide (u ∈ in_flight s) then Ret (tt, s <| in_flight ::= fun m => m ∖ {[+ u +]} |>) else Blocked
  end.

(** ** The operations *)

Section operations.
Context (globalMax perWfMax timeout : Z).

Definition getOrCreatePerWfCounter (u : string) : prog nat :=
  c ← call (TLoad u); match c with Some c => mret c | None => call (TLoadOrStore u) end.

Definition loadPerWf (u : string) : prog Z :=
  c ← call (TLoad u); match c with Some c => call (CRead c) | None => mret 0 end.

Definition incPerWf_atomic (u : string) : prog Z :=
  c ← getOrCreatePerWfCounter u; call (CAdd c 1).

Definition decPerWf_atomic (u : string) : prog unit :=
  c ← getOrCreatePerWfCounter u;
  newVal ← call (CAdd c (-1));
  if newVal =? 0 then call (TDelete u) else mret tt.

Definition enqueue_atomic (u : string) (n : TaskNode) (ups : list vmap) (prio : Z) : prog unit :=
  call PqLock;; now ← call ANow;
  call (PqPush (MkPending u n ups prio now));; call PqUnlock.

(** Whether the task may be written now. *)
Definition reserve_atomic (u : string) (n : TaskNode) (ups : list vmap) (prio : Z) : prog bool :=
  full ← (if 0 <? perWfMax then curWf ← loadPerWf u; mret (perWfMax <=? curWf) else mret false);
  if full : bool then enqueue_atomic u n ups prio;; mret false
  else
  full ← (if 0 <? globalMax then curGlobal ← call GRead; mret (globalMax <=? curGlobal) else mret false);
  if full : bool then enqueue_atomic u n ups prio;; mret false
  else
  newWf ← incPerWf_atomic u;
  if (0 <? perWfMax) && (perWfMax <? newWf) then
    decPerWf_atomic u;; enqueue_atomic u n ups prio;; mret false
  else
  newGlobal ← call (GAdd 1);
  if (0 <? globalMax) && (globalMax <? newGlobal) then
    call (GAdd (-1));; decPerWf_atomic u;; enqueue_atomic u n ups prio;; mret false
  else mret true.

Definition giveGlobal : prog unit := if 0 <? globalMax then call (GAdd (-1));; mret tt else mret tt.

(** What the slots depend on: whether the workflow exists, the payload can be
    encoded, and the write succeeds. *)
Definition doPush_atomic (u : string) : prog bool :=
  found ← call (AAlive u);
  if found : bool then
    ok ← call ASerialize;
    if ok : bool then call (AWrite u) else mret false
  else mret false.

(** [prio]: the priority of the workflow, read first. *)
Definition PushTask_atomic (u : string) (n : TaskNode) (ups : list vmap) (prio : Z) : prog unit :=
  go ← (if (0 <? globalMax) || (0 <? perWfMax) then reserve_atomic u n ups prio else mret true);
  if go : bool then
    ok ← doPush_atomic u;
    if ok : bool then mret tt else giveGlobal;; decPerWf_atomic u
  else mret tt.

(** ** A dispatch round *)

Fixpoint evict_atomic (fuel : nat) (now : Z) : prog (list pendingTask) :=
  match fuel with
  | O => mret []
  | S fuel' =>
      pt ← call PqHead;
      match pt with
      | None => mret []
      | Some pt =>
          if now - enqueued pt <=? timeout then mret []
          else call PqPop;; rest ← evict_atomic fuel' now; mret (pt :: rest)
      end
  end.

Definition each {A : Type} (f : A -> prog unit) : list A -> prog unit :=
  fix go l := match l with [] => mret tt | a :: l' => f a;; go l' end.

(** The deferred tasks, and those taken. *)
Fixpoint select_atomic (fuel : nat) (blocked : gset string) : prog (list pendingTask * list pendingTask) :=
  match fuel with
  | O => mret ([], [])
  | S fuel' =>
      pt ← call PqHead;
      match pt with
      | None => mret ([], [])
      | Some pt =>
          full ← (if 0 <? globalMax then g ← call GRead; mret (globalMax <=? g) else mret false);
          if full : bool then mret ([], [])
          else
          fullWf ← (if 0 <? perWfMax then v ← loadPerWf (workflowName pt); mret (perWfMax <=? v) else mret false);
          if fullWf : bool then
            call PqPop;;
            r ← select_atomic fuel' ({[workflowName pt]} ∪ blocked); mret (pt :: r.1, r.2)
          else if decide (workflowName pt ∈ blocked) then
            call PqPop;; r ← select_atomic fuel' blocked; mret (pt :: r.1, r.2)
          else
            call PqPop;; call (GAdd 1);; incPerWf_atomic (workflowName pt);;
            r ← select_atomic fuel' blocked; mret (r.1, pt :: r.2)
      end
  end.

(** The tasks of the round; the deferred ones go back. *)
Definition select_pending_atomic : prog (list pendingTask) :=
  len ← call PqLen;
  r ← select_atomic len ∅;
  each (fun pt => call (PqPush pt)) r.1;;
  mret r.2.

Definition give_back (pt : pendingTask) : prog unit := giveGlobal;; decPerWf_atomic (workflowName pt).

(** The tasks that are in the batch; [known]: the workflows found already.  A
    task whose workflow has ended is left out. *)
Fixpoint batch_atomic (known : gset string) (tasks : list pendingTask) : prog (list pendingTask) :=
  match tasks with
  | [] => mret []
  | pt :: tasks' =>
      found ← (if decide (workflowName pt ∈ known) then mret true else call (AAlive (workflowName pt)));
      if found : bool then
        ok ← call ASerialize;
        if ok : bool then
          rest ← batch_atomic ({[workflowName pt]} ∪ known) tasks'; mret (pt :: rest)
        else give_back pt;; batch_atomic ({[workflowName pt]} ∪ known) tasks'
      else batch_atomic known tasks'
  end.

Definition batchPush_atomic (tasks : list pendingTask) : prog unit :=
  occupied ← batch_atomic ∅ tasks;
  if decide (occupied = []) then mret tt
  else
    ok ← call (ABatch occupied);
    if ok : bool then mret tt else each give_back occupied.

Definition tryDispatchPending_atomic : prog unit :=
  call PqLock;;
  len ← call PqLen;
  evicted ← (if (timeout <=? 0) || (len =? 0)%nat then mret [] else now ← call ANow; evict_atomic len now);
  each (fun pt => call (AFail (workflowName pt))) evicted;;
  toPush ← select_pending_atomic;
  call PqUnlock;;
  batchPush_atomic toPush.

Definition ReleaseSlotForWorkflow_atomic (u : string) : prog unit :=
  giveGlobal;; decPerWf_atomic u;; tryDispatchPending_atomic.

(** The wait is over, or the context is. *)
Definition RetryTask_atomic (u : string) (backoffSec : Z) : prog unit :=
  waited ← call (AWait backoffSec);
  if waited : bool then
    (if 0 <? globalMax then call (GAdd 1);; mret tt else mret tt);;
    (if (0 <? globalMax) || (0 <? perWfMax) then incPerWf_atomic u;; mret tt else mret tt);;
    ok ← call ASerialize;
    ok ← (if ok : bool then call (AWrite u) else mret false);
    if ok : bool then mret tt
    else call (AFail u);; giveGlobal;; decPerWf_atomic u;; tryDispatchPending_atomic
  else mret tt.

(** What the goroutines do: push a task; see a task of a workflow end; try a
    task again. *)
Inductive job : Type :=
| JPush (u : string) (n : TaskNode) (ups : list vmap) (prio : Z)
| JEnd (u : string)
| JRetry (u : string) (backoffSec : Z).

Definition job_prog (j : job) : prog unit :=
  match j with
  | JPush u n ups prio => PushTask_atomic u n ups prio
  | JEnd u => call (AEnd u);; ReleaseSlotForWorkflow_atomic u
  | JRetry u backoffSec => RetryTask_atomic u backoffSec
  end.

End operations.

(** ** How many slots a program has in hand *)

(** [Waiting]: it will take a slot, full or not; [Held n]: [n] slots, for tasks
    it has not written yet; [Over]: it has
    counted one too many and will take it back; [Ending]: its task has ended
    and is still counted; [Locked n]: inside the queue's lock; [Cleared n]: the
    same, after it has seen the global counter below the limit. *)
Inductive phase : Type := Waiting | Held (n : nat) | Over | Ending | Locked (n : nat) | Cleared (n : nat).

Definition granted (ph : phase) : Z :=
  match ph with Held n | Locked n | Cleared n => Z.of_nat n | _ => 0 end.
Definition excess (ph : phase) : Z := match ph with Over | Ending => 1 | _ => 0 end.
Definition locking (ph : phase) : Z := match ph with Locked _ | Cleared _ => 1 | _ => 0 end.
Definition tokens (ph : phase) : Z := match ph with Waiting => 1 | _ => 0 end.
Definition clear (ph : phase) : Z := match ph with Cleared _ => 1 | _ => 0 end.

Section discipline.
Context (globalMax : Z).

Definition permits (ph : phase) {X : Type} (e : atom X) : Prop :=
  match e with
  | GAdd d => match ph with
              | Waiting | Held O | Cleared _ => d = 1
              | Held (S _) | Over | Ending => d = -1
              | Locked _ => False
              end
  | PqLock => exists n, ph = Held n
  | PqUnlock => locking ph = 1
  | AWrite _ => exists n, ph = Held (S n)
  | ABatch l => exists n, ph = Held n /\ (length l <= n)%nat
  | AEnd _ => ph = Held 0
  | _ => True
  end.

Definition next (ph : phase) {X : Type} (e : atom X) : X -> phase :=
  match e in atom X return X -> phase with
  | GAdd d => fun v =>
      match ph with
      | Waiting => Held 1
      | Held O => if v <=? globalMax then Held 1 else Over
      | Held (S n) => Held n
      | Over | Ending => Held 0
      | Cleared n => Locked (S n)
      | Locked n => Locked n
      end
  | GRead => fun v =>
      match ph with
      | Locked n | Cleared n => if v <? globalMax then Cleared n else Locked n
      | _ => ph
      end
  | PqLock => fun _ => match ph with Held n => Locked n | _ => ph end
  | PqUnlock => fun _ => match ph with Locked n | Cleared n => Held n | _ => ph end
  | AWrite _ => fun ok => match ph with Held (S n) => if ok : bool then Held n else ph | _ => ph end
  | ABatch l => fun ok => match ph with Held n => if ok : bool then Held (n - length l) else ph | _ => ph end
  | AEnd _ => fun _ => Ending
  | _ => fun _ => ph
  end.

Fixpoint obeys {A : Type} (ph : phase) (p : prog A) (Q : phase -> A -> Prop) : Prop :=
  match p with
  | Pure a => Q ph a
  | Vis e k => permits ph e /\ forall x, obeys (next ph e x) (k x) Q
  end.

Lemma slots_mono {A : Type} (p : prog A) : forall ph (Q R : phase -> A -> Prop),
  obeys ph p Q -> (forall ph a, Q ph a -> R ph a) -> obeys ph p R.
Proof. induction p as [a|X e k IH]; intros ph Q R; cbn; [auto|]. naive_solver. Qed.

Lemma slots_bind {A B : Type} (p : prog A) (f : A -> prog B) : forall ph Q,
  obeys ph p (fun ph a => obeys ph (f a) Q) -> obeys ph (p ≫= f) Q.
Proof. induction p as [a|X e k IH]; intros ph Q; cbn; [done|]. naive_solver. Qed.

Lemma slots_seq {A B : Type} (p : prog A) (f : A -> prog B) ph ph' (R : A -> Prop) Q :
  obeys ph p (fun ph1 a => ph1 = ph' /\ R a) -> (forall a, R a -> obeys ph' (f a) Q) ->
  obeys ph (p ≫= f) Q.
Proof. intros Hp Hf. apply slots_bind. eapply slots_mono; [exact Hp|]. intros ? a [-> Ha]. auto. Qed.

Lemma slots_call {A X : Type} (e : atom X) (f : X -> prog A) ph Q :
  permits ph e -> (forall x, obeys (next ph e x) (f x) Q) -> obeys ph (call e ≫= f) Q.
Proof. by split. Qed.

(** A program that touches neither the global counter, the lock nor the tasks. *)
Definition neutral {A : Type} (p : prog A) : Prop := forall ph, obeys ph p (fun ph' _ => ph' = ph).

Lemma neutral_bind {A B : Type} (p : prog A) (f : A -> prog B) ph Q :
  neutral p -> (forall a, obeys ph (f a) Q) -> obeys ph (p ≫= f) Q.
Proof. intros Hp Hf. apply slots_bind. eapply slots_mono; [apply Hp|]. by intros ? a ->. Qed.

Lemma neutral_bind' {A B : Type} (p : prog A) (f : A -> prog B) :
  neutral p -> (forall a, neutral (f a)) -> neutral (p ≫= f).
Proof. intros Hp Hf ph. apply neutral_bind; [done|]. intros a. apply Hf. Qed.

(** ** The operations keep to it, when there is a global limit *)

Context (perWfMax timeout : Z) (Hlimit : 0 < globalMax).

Lemma neutral_ret {A : Type} (a : A) : neutral (mret a : prog A).
Proof. done. Qed.

Lemma loadPerWf_neutral u : neutral (loadPerWf u).
Proof. intros ph. unfold loadPerWf. apply slots_call; [done|]. by intros [c|]. Qed.

Lemma incPerWf_neutral u : neutral (incPerWf_atomic u).
Proof.
  intros ph. unfold incPerWf_atomic, getOrCreatePerWfCounter. apply slots_bind, slots_call; [done|].
  by intros [c|].
Qed.

Lemma decPerWf_neutral u : neutral (decPerWf_atomic u).
Proof.
  intros ph. unfold decPerWf_atomic, getOrCreatePerWfCounter. apply slots_bind, slots_call; [done|].
  assert (Hd : forall c : nat, obeys ph (newVal ← call (CAdd c (-1)); if newVal =? 0 then call (TDelete u) else mret tt)
    (fun ph' _ => ph' = ph)).
  { intros c. apply slots_call; [done|]. intros v. by destruct (v =? 0). }
  intros [c|]; [apply Hd|]. split; [done|]. intros c. apply Hd.
Qed.

Lemma each_neutral {A : Type} (f : A -> prog unit) l : (forall a, neutral (f a)) -> neutral (each f l).
Proof.
  intros Hf. induction l as [|a l IH]; intros ph; [done|]. cbn [each].
  apply neutral_bind; [apply Hf|]. intros _. apply IH.
Qed.

Lemma enqueue_obeys u n ups prio k :
  obeys (Held k) (enqueue_atomic u n ups prio) (fun ph _ => ph = Held k).
Proof.
  unfold enqueue_atomic. apply slots_call; [by exists k|]. intros ?. apply slots_call; [done|]. intros now.
  apply slots_call; [done|]. intros ?. by split.
Qed.

Lemma refuse_obeys u n ups prio :
  obeys (Held 0) (enqueue_atomic u n ups prio;; mret false) (fun ph b => ph = Held (if b : bool then 1 else 0)).
Proof. apply slots_bind. eapply slots_mono; [apply enqueue_obeys|]. by intros ? [] ->. Qed.

Lemma check_neutral (b : bool) (p : prog Z) (f : Z -> bool) :
  neutral p -> neutral (if b then v ← p; mret (f v) else mret false).
Proof. intros Hp ph. destruct b; [|done]. by apply neutral_bind. Qed.

(** The limit is compared outside the lock, and inside it. *)
Lemma check_global_outside n :
  obeys (Held n) (if 0 <? globalMax then g ← call GRead; mret (globalMax <=? g) else mret false)
    (fun ph _ => ph = Held n).
Proof. case_match; [|done]. split; [done|]. by intros v. Qed.

Lemma reserve_obeys u n ups prio :
  obeys (Held 0) (reserve_atomic globalMax perWfMax u n ups prio)
    (fun ph b => ph = Held (if b : bool then 1 else 0)).
Proof.
  unfold reserve_atomic. apply neutral_bind; [apply check_neutral, loadPerWf_neutral|].
  intros []; [apply refuse_obeys|]. apply slots_bind.
  eapply slots_mono; [apply check_global_outside|]. intros ? [] ->; [apply refuse_obeys|].
  apply neutral_bind; [apply incPerWf_neutral|]. intros newWf. case_match.
  { apply neutral_bind; [apply decPerWf_neutral|]. intros _. apply refuse_obeys. }
  apply slots_call; [done|]. intros v. cbn [next].
  replace (0 <? globalMax) with true by (symmetry; by apply Z.ltb_lt). cbn [andb].
  destruct (Z.leb_spec v globalMax); destruct (Z.ltb_spec globalMax v); try lia; [done|].
  apply slots_call; [done|]. intros v'. cbn [next].
  apply neutral_bind; [apply decPerWf_neutral|]. intros _. apply refuse_obeys.
Qed.

Lemma giveGlobal_obeys ph ph' :
  permits ph (GAdd (-1)) -> (forall v, next ph (GAdd (-1)) v = ph') ->
  obeys ph (giveGlobal globalMax) (fun ph1 _ => ph1 = ph').
Proof.
  intros Hp Hn. unfold giveGlobal. replace (0 <? globalMax) with true by (symmetry; by apply Z.ltb_lt).
  apply slots_call; [done|]. intros v. cbn. apply Hn.
Qed.

Lemma give_back_obeys pt n : obeys (Held (S n)) (give_back globalMax pt) (fun ph _ => ph = Held n).
Proof.
  unfold give_back. apply slots_bind. eapply slots_mono; [by apply (giveGlobal_obeys _ (Held n))|].
  intros ? [] ->. apply decPerWf_neutral.
Qed.

Lemma write_obeys u n :
  obeys (Held (S n)) (call (AWrite u)) (fun ph ok => ph = Held (if ok : bool then n else S n)).
Proof. split; [by exists n|]. by intros []. Qed.

Lemma doPush_obeys u :
  obeys (Held 1) (doPush_atomic u) (fun ph ok => ph = Held (if ok : bool then 0 else 1)).
Proof.
  unfold doPush_atomic. apply slots_call; [done|]. intros []; [|done].
  apply slots_call; [done|]. intros []; [apply write_obeys|done].
Qed.

Lemma PushTask_obeys u n ups prio :
  obeys (Held 0) (PushTask_atomic globalMax perWfMax u n ups prio) (fun ph _ => ph = Held 0).
Proof.
  unfold PushTask_atomic. apply slots_bind.
  replace (0 <? globalMax) with true by (symmetry; by apply Z.ltb_lt). cbn [orb].
  eapply slots_mono; [apply reserve_obeys|]. intros ph [] ->; [|done].
  apply slots_bind. eapply slots_mono; [apply doPush_obeys|]. intros ph [] ->; [done|].
  apply (give_back_obeys (MkPending u n ups prio 0)).
Qed.

Lemma evict_neutral fuel now : neutral (evict_atomic timeout fuel now).
Proof.
  induction fuel as [|fuel IH]; intros ph; [done|]. cbn [evict_atomic]. apply slots_call; [done|].
  intros [pt|]; [|done]. case_match; [done|]. apply slots_call; [done|]. intros ?.
  apply neutral_bind; [apply IH|]. done.
Qed.

(** Inside the lock, with [n] slots. *)
Definition inside (n : nat) (ph : phase) : Prop := ph = Locked n \/ ph = Cleared n.

Lemma select_obeys fuel : forall blocked n ph, inside n ph ->
  obeys ph (select_atomic globalMax perWfMax fuel blocked) (fun ph' r => inside (n + length r.2) ph').
Proof.
  induction fuel as [|fuel IH]; intros blocked n ph Hin; cbn [select_atomic].
  { cbn. by rewrite Nat.add_0_r. }
  apply slots_call; [done|]. cbn [next]. intros [pt|]; [|cbn; by rewrite Nat.add_0_r].
  replace (0 <? globalMax) with true by (symmetry; by apply Z.ltb_lt).
  apply slots_bind, slots_call; [done|]. intros g.
  assert (Hnext : next ph GRead g = if g <? globalMax then Cleared n else Locked n) by (by destruct Hin as [->| ->]).
  rewrite Hnext. clear ph Hin Hnext.
  destruct (Z.ltb_spec g globalMax); destruct (Z.leb_spec globalMax g); try lia.
  2:{ cbn. rewrite Nat.add_0_r. by left. }
  assert (Hdefer : forall bl, obeys (Cleared n)
    (call PqPop;; r ← select_atomic globalMax perWfMax fuel bl; mret (pt :: r.1, r.2))
    (fun ph' r => inside (n + length r.2) ph')).
  { intros bl. apply slots_call; [done|]. intros ?. apply slots_bind.
    eapply slots_mono; [apply (IH bl n); by right|]. by intros ph' [d t]. }
  apply neutral_bind; [apply check_neutral, loadPerWf_neutral|]. intros []; [apply Hdefer|].
  case_decide; [apply Hdefer|]. apply slots_call; [done|]. intros ?. apply slots_call; [done|]. intros v. cbn [next].
  apply neutral_bind; [apply incPerWf_neutral|]. intros _. apply slots_bind.
  eapply slots_mono; [apply (IH blocked (S n)); by left|]. intros ph' [d t]. cbn.
  by rewrite Nat.add_succ_r.
Qed.

Lemma select_pending_obeys :
  obeys (Locked 0) (select_pending_atomic globalMax perWfMax) (fun ph t => inside (length t) ph).
Proof.
  unfold select_pending_atomic. apply slots_call; [done|]. intros len. cbn [next]. apply slots_bind.
  eapply slots_mono; [apply (select_obeys len ∅ 0); by left|]. intros ph [d t] Hin. cbn [fst snd] in *.
  by apply neutral_bind; [apply each_neutral; by split|].
Qed.

Lemma batch_obeys tasks : forall known m,
  obeys (Held (m + length tasks)) (batch_atomic globalMax known tasks)
    (fun ph occ => exists k, ph = Held (m + k) /\ (length occ <= k)%nat).
Proof.
  induction tasks as [|pt tasks IH]; intros known m; cbn [batch_atomic length].
  { exists 0%nat. done. }
  apply neutral_bind.
  { intros ph. case_decide; [done|]. by split. }
  assert (Hs : (m + S (length tasks) = S (m + length tasks))%nat) by lia. intros [].
  - apply slots_call; [done|]. cbn [next]. intros [].
    + apply slots_bind. rewrite Hs. change (S (m + length tasks)) with (S m + length tasks)%nat.
      eapply slots_mono; [apply (IH _ (S m))|]. intros ph occ (k & -> & Hk). exists (S k). split; [f_equal; lia|cbn; lia].
    + rewrite Hs. apply slots_bind. eapply slots_mono; [apply give_back_obeys|]. intros ? [] ->. apply IH.
  - rewrite Hs. change (S (m + length tasks)) with (S m + length tasks)%nat.
    eapply slots_mono; [apply (IH _ (S m))|]. intros ph occ (k & -> & Hk). exists (S k). split; [f_equal; lia|lia].
Qed.

Lemma each_give_back_obeys l : forall n, (length l <= n)%nat ->
  obeys (Held n) (each (give_back globalMax) l) (fun ph _ => exists k, ph = Held k).
Proof.
  induction l as [|pt l IH]; intros n Hn; cbn [each]; [by exists n|]. cbn in Hn. destruct n as [|n]; [lia|].
  apply slots_bind. eapply slots_mono; [apply give_back_obeys|]. intros ? [] ->. apply IH. lia.
Qed.

Lemma batchPush_obeys tasks :
  obeys (Held (length tasks)) (batchPush_atomic globalMax tasks) (fun ph _ => exists k, ph = Held k).
Proof.
  unfold batchPush_atomic. apply slots_bind. eapply slots_mono; [apply (batch_obeys tasks ∅ 0)|].
  intros ph occ (k & -> & Hk). case_decide; [by eexists|]. apply slots_call; [by exists k|].
  cbn [next]. intros []; [by eexists|]. by apply each_give_back_obeys.
Qed.

Lemma tryDispatchPending_obeys :
  obeys (Held 0) (tryDispatchPending_atomic globalMax perWfMax timeout) (fun ph _ => exists k, ph = Held k).
Proof.
  unfold tryDispatchPending_atomic. apply slots_call; [by exists 0%nat|]. intros ?.
  apply slots_call; [done|]. intros len. cbn [next]. apply neutral_bind.
  { intros ph. case_match; [done|]. apply slots_call; [done|]. intros now. apply evict_neutral. }
  intros evicted. apply neutral_bind; [apply each_neutral; by split|]. intros _.
  apply slots_bind. eapply slots_mono; [apply select_pending_obeys|]. intros ph t Hin.
  apply slots_call; [by destruct Hin as [->| ->]|]. intros x1.
  replace (next ph PqUnlock x1) with (Held (length t)) by (by destruct Hin as [->| ->]).
  apply batchPush_obeys.
Qed.

Lemma RetryTask_obeys u backoffSec :
  obeys Waiting (RetryTask_atomic globalMax perWfMax timeout u backoffSec)
    (fun ph _ => ph = Waiting \/ exists k, ph = Held k).
Proof.
  unfold RetryTask_atomic. apply slots_call; [done|]. intros []; [|by left]. cbn [next].
  replace (0 <? globalMax) with true by (symmetry; by apply Z.ltb_lt). cbn [orb].
  apply slots_bind, slots_call; [done|]. intros v. cbn [next].
  apply neutral_bind. { apply (neutral_bind' _ _ (incPerWf_neutral u)). done. }
  intros _. apply slots_call; [done|]. intros ok. cbn [next]. apply slots_bind.
  apply slots_mono with (Q := fun ph (ok : bool) => ph = Held (if ok then 0 else 1)).
  { destruct ok; [apply write_obeys|done]. }
  intros ? [] ->; [by right; exists 0%nat|].
  apply slots_call; [done|]. intros ?. cbn [next]. apply slots_bind.
  eapply slots_mono; [by apply (giveGlobal_obeys _ (Held 0))|]. intros ? [] ->.
  apply neutral_bind; [apply decPerWf_neutral|]. intros _.
  eapply slots_mono; [apply tryDispatchPending_obeys|]. by right.
Qed.

Definition start (j : job) : phase := match j with JRetry _ _ => Waiting | _ => Held 0 end.

Lemma job_obeys j :
  obeys (start j) (job_prog globalMax perWfMax timeout j) (fun _ _ => True).
Proof.
  destruct j as [u n ups prio|u|u b]; cbn [job_prog start].
  - eapply slots_mono; [apply PushTask_obeys|]. done.
  - apply slots_call; [done|]. intros ?. cbn [next]. unfold ReleaseSlotForWorkflow_atomic. apply slots_bind.
    eapply slots_mono; [by apply (giveGlobal_obeys _ (Held 0))|]. intros ? [] ->.
    apply neutral_bind; [apply decPerWf_neutral|]. intros _.
    eapply slots_mono; [apply tryDispatchPending_obeys|]. done.
  - eapply slots_mono; [apply RetryTask_obeys|]. done.
Qed.

End discipline.

(** ** The slots of a pool *)

Section bound.
Context (globalMax perWfMax timeout : Z) (retries : Z).

Fixpoint total (f : phase -> Z) (phs : list phase) : Z :=
  match phs with [] => 0 | ph :: phs' => f ph + total f phs' end.

Definition held_slots (s : Slots) (phs : list phase) : Z := Z.of_nat (size (in_flight s)) + total granted phs.

(** The counter is the tasks in flight, the slots in hand and the ones counted
    too many; one program is inside the lock at most; the budget is not spent
    beyond one slot more than the limit, and a retry each. *)
Definition accounted (s : Slots) (phs : list phase) : Prop :=
  s_global s = held_slots s phs + total excess phs /\
  total locking phs = (if pq_locked s then 1 else 0) /\
  held_slots s phs + total tokens phs + total clear phs <= globalMax + 1 + retries /\
  total tokens phs <= retries.

(** What everybody else does to the state: workflows start and end, which
    deletes their counters; time goes by. *)
Definition elsewhere (s s' : Slots) : Prop :=
  s_global s' = s_global s /\ cells s' = cells s /\ table s' ⊆ table s /\ pq s' = pq s /\
  pq_locked s' = pq_locked s /\ in_flight s' = in_flight s.

Lemma total_insert f phs (i : nat) ph ph' : phs !! i = Some ph ->
  total f (<[i := ph']> phs) = total f phs - f ph + f ph'.
Proof.
  revert i. induction phs as [|x l IH]; intros [|i] Hi; simplify_eq/=; [lia|]. rewrite (IH i Hi). lia.
Qed.

Definition nonneg (f : phase -> Z) : Prop := forall ph, 0 <= f ph.

Lemma total_nonneg f phs : nonneg f -> 0 <= total f phs.
Proof. intros Hf. induction phs as [|x l IH]; cbn; [lia|]. specialize (Hf x). lia. Qed.

Lemma total_mono f g phs : (forall ph, f ph <= g ph) -> total f phs <= total g phs.
Proof. intros Hf. induction phs as [|x l IH]; cbn; [lia|]. specialize (Hf x). lia. Qed.

Lemma total_ge f phs (i : nat) ph : nonneg f -> phs !! i = Some ph -> f ph <= total f phs.
Proof.
  intros Hf. revert i. induction phs as [|x l IH]; intros [|i] Hi; simplify_eq/=.
  - pose proof (total_nonneg f l Hf). lia.
  - specialize (IH i Hi). specialize (Hf x). lia.
Qed.

Lemma total_length f phs : (forall ph, f ph <= 1) -> total f phs <= Z.of_nat (length phs).
Proof.
  intros Hf. induction phs as [|x l IH]; [done|]. cbn [length]. rewrite Nat2Z.inj_succ. cbn.
  specialize (Hf x). lia.
Qed.

Lemma granted_nonneg : nonneg granted.
Proof. intros []; cbn; lia. Qed.
Lemma excess_nonneg : nonneg excess.
Proof. intros []; cbn; lia. Qed.
Lemma locking_nonneg : nonneg locking.
Proof. intros []; cbn; lia. Qed.
Lemma tokens_nonneg : nonneg tokens.
Proof. intros []; cbn; lia. Qed.
Lemma clear_nonneg : nonneg clear.
Proof. intros []; cbn; lia. Qed.
Lemma clear_locking ph : clear ph <= locking ph.
Proof. destruct ph; cbn; lia. Qed.
Lemma excess_one ph : excess ph <= 1.
Proof. destruct ph; cbn; lia. Qed.

(** What the phases add up to, for one of them. *)
Lemma accounted_facts s phs (i : nat) ph : accounted s phs -> phs !! i = Some ph ->
  0 <= granted ph <= total granted phs /\ 0 <= excess ph <= total excess phs /\
  locking ph <= total locking phs /\ total clear phs <= total locking phs <= 1 /\
  tokens ph <= total tokens phs /\ clear ph <= total clear phs /\ 0 <= total clear phs /\
  total excess phs <= Z.of_nat (length phs).
Proof.
  intros (_ & Hl & _) Hi.
  pose proof (granted_nonneg ph). pose proof (excess_nonneg ph).
  pose proof (total_ge _ _ _ _ granted_nonneg Hi). pose proof (total_ge _ _ _ _ excess_nonneg Hi).
  pose proof (total_ge _ _ _ _ locking_nonneg Hi). pose proof (total_ge _ _ _ _ tokens_nonneg Hi).
  pose proof (total_ge _ _ _ _ clear_nonneg Hi). pose proof (total_mono _ _ phs clear_locking).
  pose proof (total_nonneg _ phs clear_nonneg). pose proof (total_length _ phs excess_one).
  destruct (pq_locked s); split_and!; lia.
Qed.

Lemma accounted_elsewhere s s' phs : accounted s phs -> elsewhere s s' -> accounted s' phs.
Proof.
  unfold accounted, held_slots. intros H (Hg & _ & _ & _ & Hl & Hf). by rewrite Hg, Hl, Hf.
Qed.

(** A step that leaves the counter, the lock and the tasks alone. *)
Lemma accounted_quiet s s' phs (i : nat) ph : accounted s phs -> phs !! i = Some ph ->
  s_global s' = s_global s -> pq_locked s' = pq_locked s -> in_flight s' = in_flight s ->
  accounted s' (<[i := ph]> phs).
Proof.
  unfold accounted, held_slots. intros H Hi Hg Hl Hf. rewrite list_insert_id by done. by rewrite Hg, Hl, Hf.
Qed.

Lemma answer_ret s b s' : answer s = Ret (b, s') ->
  s_global s' = s_global s /\ pq_locked s' = pq_locked s /\ in_flight s' = in_flight s.
Proof. unfold answer. by destruct (answers s); intros [= <- <-]. Qed.

Lemma write_ret us s b s' : write_tasks us s = Ret (b, s') ->
  s_global s' = s_global s /\ pq_locked s' = pq_locked s /\
  size (in_flight s') = ((if b then size us else 0) + size (in_flight s))%nat.
Proof.
  unfold write_tasks, mbind, M_bind. destruct (answer s) as [[[] s0]| |] eqn:Ha; [| |done..].
  all: apply answer_ret in Ha as (Hg & Hl & Hf); intros [= <- <-]; cbn; rewrite <- Hf; split_and!; try done.
  by rewrite gmultiset_size_disj_union.
Qed.

Lemma size_list_to_set_disj (l : list string) : size (list_to_set_disj l : gmultiset string) = length l.
Proof.
  induction l as [|u l IH]; [by rewrite list_to_set_disj_nil, gmultiset_size_empty|].
  by rewrite list_to_set_disj_cons, gmultiset_size_disj_union, gmultiset_size_singleton, IH.
Qed.

(** One program moves; the rest is arithmetic. *)
Ltac settle s phs i Hok Hi :=
  let Hf := fresh "Hfacts" in
  pose proof (accounted_facts s phs i _ Hok Hi) as Hf;
  destruct Hok as (? & ? & ? & ?); unfold accounted, held_slots in *; cbn in Hf;
  rewrite !(total_insert _ _ _ _ _ Hi); cbn;
  repeat match goal with H : pq_locked _ = _ |- _ => rewrite H in * end;
  repeat match goal with |- context [if pq_locked ?s then _ else _] => destruct (pq_locked s) end;
  split_and!; lia.

Lemma call_accounted s phs (i : nat) ph X (e : atom X) x s' :
  globalMax + 2 + retries + Z.of_nat (length phs) <= maxInt64 ->
  accounted s phs -> phs !! i = Some ph -> permits ph e -> handle X e s = Ret (x, s') ->
  accounted s' (<[i := next globalMax ph e x]> phs).
Proof.
  intros Hroom Hok Hi Hperm Hh. pose proof (accounted_facts s phs i ph Hok Hi) as Hfacts.
  destruct e; cbn [handle next permits] in *;
    try (unfold gets, modify in Hh; injection Hh as <- <-; by eapply accounted_quiet).
  - (* reading the counter *)
    injection Hh as <- <-. assert (Hquiet := accounted_quiet s s phs i ph Hok Hi eq_refl eq_refl eq_refl).
    destruct ph; try done; case_match; settle s phs i Hok Hi.
  - (* adding to the counter *)
    assert (Hr : in64 (s_global s + d)).
    { destruct Hok as (Hg & _ & Hb & _). pose proof (total_nonneg _ phs tokens_nonneg).
      unfold held_slots, in64, minInt64 in *. destruct ph as [|[]| | | |]; cbn in *; try lia; done. }
    injection Hh as <- <-. rewrite wrap64_in by done.
    destruct ph as [|[|n]| | | |]; try done; try rewrite Hperm; try case_match; settle s phs i Hok Hi.
  - destruct (table s !! u); injection Hh as <- <-; by eapply accounted_quiet.
  - (* the lock *)
    destruct (pq_locked s) eqn:Hl; [done|]. injection Hh as <- <-. destruct Hperm as [n ->].
    settle s phs i Hok Hi.
  - injection Hh as <- <-. destruct ph; cbn in Hperm; try done; settle s phs i Hok Hi.
  - apply answer_ret in Hh as (Hg & Hl & Hf). by eapply accounted_quiet.
  - (* one task written *)
    apply write_ret in Hh as (Hg & Hl & Hf). destruct Hperm as [n ->].
    rewrite gmultiset_size_singleton in Hf. destruct x; settle s phs i Hok Hi.
  - apply write_ret in Hh as (Hg & Hl & Hf). destruct Hperm as (n & -> & Hn).
    rewrite size_list_to_set_disj, length_fmap in Hf. destruct x; settle s phs i Hok Hi.
  - apply answer_ret in Hh as (Hg & Hl & Hf). by eapply accounted_quiet.
  - injection Hh as <- <-. case_decide; by eapply accounted_quiet.
  - (* a task ends *)
    case_decide as Hu; [|done]. injection Hh as <- <-. subst ph.
    assert (Hs : size (in_flight s) = S (size (in_flight s ∖ {[+ u +]}))).
    { rewrite (gmultiset_disj_union_difference' u (in_flight s)) at 1 by done.
      by rewrite gmultiset_size_disj_union, gmultiset_size_singleton. }
    settle s phs i Hok Hi.
Qed.

Definition keeps (phs : list phase) (pool : list (prog unit)) : Prop :=
  Forall2 (fun ph p => obeys globalMax ph p (fun _ _ => True)) phs pool.

Lemma pool_accounted s pool s' pool' phs :
  globalMax + 2 + retries + Z.of_nat (length pool) <= maxInt64 ->
  accounted s phs -> keeps phs pool ->
  rtc (pool_step handle elsewhere) (s, pool) (s', pool') ->
  exists phs', accounted s' phs' /\ keeps phs' pool'.
Proof.
  intros Hroom Hok Hk Hrun.
  pose (I := fun (s : Slots) (l : list (prog unit)) => length l = length pool /\
    exists phs, accounted s phs /\ keeps phs l).
  assert (HI : I s' pool').
  { refine (pool_invariant handle elsewhere I _ _ _ _ Hrun _); [| |split; [done|by exists phs]].
    - clear Hrun. intros s1 l i X e k a s2 (Hn & phs1 & Hok1 & Hk1) Hi Hh. split; [by rewrite length_insert|].
      destruct (Forall2_lookup_r _ _ _ _ _ Hk1 Hi) as (ph & Hph & Hp & Hnext).
      exists (<[i := next globalMax ph e a]> phs1). split.
      + eapply call_accounted; [|done..]. rewrite (Forall2_length _ _ _ Hk1), Hn. done.
      + apply Forall2_insert; [done|]. apply Hnext.
    - clear Hrun. intros s1 s2 l (Hn & phs1 & Hok1 & Hk1) Ho. split; [done|]. exists phs1.
      split; [by eapply accounted_elsewhere|done]. }
  apply HI.
Qed.

End bound.

Definition is_retry (j : job) : bool := match j with JRetry _ _ => true | _ => false end.
Definition retries_of (jobs : list job) : Z := Z.of_nat (length (filter (fun j => is_retry j) jobs)).

(** Nothing is being done, and every task in flight has its slot. *)
Definition settled_slots (globalMax : Z) (s : Slots) : Prop :=
  s_global s = Z.of_nat (size (in_flight s)) /\ s_global s <= globalMax /\ pq_locked s = false.

Lemma start_accounted globalMax s jobs : settled_slots globalMax s ->
  accounted globalMax (retries_of jobs) s (start <$> jobs).
Proof.
  intros (Hg & Hmax & Hl).
  assert (Hz : forall f, (forall j, f (start j) = 0) -> total f (start <$> jobs) = 0).
  { intros f Hf. clear -Hf. induction jobs as [|j jobs IH]; [done|].
    rewrite fmap_cons. cbn [total]. by rewrite IH, Hf. }
  assert (Ht : total tokens (start <$> jobs) = retries_of jobs).
  { clear. induction jobs as [|j jobs IH]; [done|]. rewrite fmap_cons. cbn [total].
    rewrite IH. unfold retries_of. rewrite filter_cons. destruct j; case_decide; cbn in *; try done; lia. }
  unfold accounted, held_slots. rewrite Ht, Hl, !Hz by (by intros []). lia.
Qed.

Lemma start_keeps globalMax perWfMax timeout jobs : 0 < globalMax ->
  keeps globalMax (start <$> jobs) (job_prog globalMax perWfMax timeout <$> jobs).
Proof.
  intros Hlimit. apply Forall2_fmap, Forall_Forall2_diag, list.Forall_forall. intros j _. by apply job_obeys.
Qed.

(** ** A counter that is full with nothing in flight *)

Section starving.
Context (globalMax perWfMax timeout : Z) (Hlimit : 0 < globalMax).

(** The calls that would change the counter or the tasks in flight, and the
    answers a full counter gives. *)
Definition calm {X : Type} (e : atom X) : Prop :=
  match e with GAdd _ | AWrite _ | ABatch _ => False | _ => True end.
Definition credible {X : Type} (e : atom X) : X -> Prop :=
  match e in atom X return X -> Prop with
  | GRead => fun v => globalMax <= v
  | AEnd _ => fun _ => False
  | _ => fun _ => True
  end.

Fixpoint starved {A : Type} (p : prog A) (Q : A -> Prop) : Prop :=
  match p with
  | Pure a => Q a
  | Vis e k => calm e /\ forall x, credible e x -> starved (k x) Q
  end.

Lemma starved_bind {A B : Type} (p : prog A) (f : A -> prog B) R Q :
  starved p R -> (forall a, R a -> starved (f a) Q) -> starved (p ≫= f) Q.
Proof.
  revert R. induction p as [a|X e k IH]; intros R; cbn; [auto|]. intros [Hc Hk] Hf. split; [done|].
  intros x Hx. by eapply IH; [apply Hk|].
Qed.

Lemma starved_call {A X : Type} (e : atom X) (f : X -> prog A) Q :
  calm e -> (forall x, credible e x -> starved (f x) Q) -> starved (call e ≫= f) Q.
Proof. by split. Qed.

Lemma loadPerWf_starved u : starved (loadPerWf u) (fun _ => True).
Proof. unfold loadPerWf. apply starved_call; [done|]. by intros [c|] _. Qed.

Lemma enqueue_starved u n ups prio :
  starved (enqueue_atomic u n ups prio;; mret false) (fun b => b = false).
Proof. unfold enqueue_atomic. cbn. naive_solver. Qed.

Lemma reserve_starved u n ups prio :
  starved (reserve_atomic globalMax perWfMax u n ups prio) (fun b => b = false).
Proof.
  unfold reserve_atomic. apply starved_bind with (R := fun _ => True).
  { case_match; [|done]. by eapply starved_bind; [apply loadPerWf_starved|]. }
  intros [] _; [apply enqueue_starved|].
  replace (0 <? globalMax) with true by (symmetry; by apply Z.ltb_lt).
  apply starved_bind with (R := fun b => b = true); [|intros ? ->; apply enqueue_starved].
  apply starved_call; [done|]. intros v Hv. by apply Z.leb_le.
Qed.

Lemma job_starved j : is_retry j = false ->
  starved (job_prog globalMax perWfMax timeout j) (fun _ => True).
Proof.
  destruct j as [u n ups prio|u|]; intros Hj; [| |done]; cbn [job_prog].
  - unfold PushTask_atomic.
    replace (0 <? globalMax) with true by (symmetry; by apply Z.ltb_lt). cbn [orb].
    eapply starved_bind; [apply reserve_starved|]. by intros ? ->.
  - by apply starved_call.
Qed.

Definition jammed (g : Z) (s : Slots) : Prop :=
  globalMax <= g /\ s_global s = g /\ in_flight s = ∅.

Lemma jammed_call g s X (e : atom X) x s' :
  jammed g s -> calm e -> handle X e s = Ret (x, s') -> credible e x /\ jammed g s'.
Proof.
  intros (Hle & Hg & Hf) Hc Hh.
  assert (Hans : forall b, answer s = Ret (b, s') -> jammed g s').
  { intros b Ha%answer_ret. unfold jammed. naive_solver congruence. }
  destruct e; cbn [calm handle credible] in *; try done;
    try (unfold gets, modify in Hh; injection Hh as <- <-; split; [try done; lia|done]).
  - destruct (table s !! u); injection Hh as <- <-; done.
  - destruct (pq_locked s); [done|]. by injection Hh as <- <-.
  - split; [done|]. by eapply Hans.
  - split; [done|]. by eapply Hans.
  - injection Hh as <- <-. split; [done|]. by case_decide.
  - case_decide as Hu; [|done]. rewrite Hf in Hu. multiset_solver.
Qed.

Lemma pool_jammed g s (pool : list (prog unit)) s' pool' :
  jammed g s -> Forall (fun p => starved p (fun _ => True)) pool ->
  rtc (pool_step handle elsewhere) (s, pool) (s', pool') -> jammed g s'.
Proof.
  intros Hj Hp Hrun.
  refine (proj1 (pool_invariant handle elsewhere
    (fun s pool => jammed g s /\ Forall (fun p => starved p (fun _ => True)) pool) _ _ _ _ Hrun (conj Hj Hp))).
  - clear -Hlimit. intros s pool i X e k a s' [Hj Hp] Hi Hh.
    destruct (list.Forall_lookup_1 _ _ _ _ Hp Hi) as [Hc Hk].
    destruct (jammed_call g s X e a s' Hj Hc Hh) as [Ha Hj']. split; [done|].
    apply Forall_insert; [done|]. by apply Hk.
  - clear. intros s s' pool [(Hle & Hg & Hf) Hp] (Hg' & _ & _ & _ & _ & Hf'). split; [|done].
    unfold jammed. by rewrite Hg', Hf'.
Qed.

End starving.

(** ** Runs the code allows *)

(** Three workflows; a limit of one task in flight. *)
Definition empty_slots : Slots := MkSlots 0 ∅ ∅ [] false ∅ {["a"; "b"; "c"]} 0 [].

Definition push_job (u : string) : job := JPush u (named_node "t") [] 0.
Definition race_pool : list (prog unit) :=
  job_prog 1 0 300 <$> [push_job "a"; push_job "b"; JEnd "a"; push_job "c"].

Definition finished (pool : list (prog unit)) : Prop := Forall (fun p => exists x, p = Pure x) pool.
Fixpoint finished_b (pool : list (prog unit)) : bool :=
  match pool with [] => true | Pure _ :: l => finished_b l | Vis _ _ :: _ => false end.

Lemma finished_b_ok pool : finished_b pool = true -> finished pool.
Proof.
  unfold finished. induction pool as [|[x|X e k] l IH]; cbn; [constructor| |done].
  intros Hl. constructor; [by exists x|auto].
Qed.

(** What is left when the programs take turns as listed. *)
Definition outcome_of (turns : list nat) (s : Slots) (pool : list (prog unit)) :
    option (Slots * bool) :=
  x ← schedule handle turns (s, pool); Some (x.1, finished_b x.2).

Lemma outcome_reach turns s pool s' b : outcome_of turns s pool = Some (s', b) ->
  exists pool', rtc (pool_step handle elsewhere) (s, pool) (s', pool') /\ (b = true -> finished pool').
Proof.
  unfold outcome_of. destruct (schedule handle turns (s, pool)) as [[s1 pool']|] eqn:Hs; [|done].
  intros [= <- <-]. exists pool'. split; [by eapply schedule_reach|]. apply finished_b_ok.
Qed.

(** ["a"] runs and ["b"] waits; ["a"] ends, and its round has found the counter
    below the limit when ["c"] is pushed. *)
Definition race_turns : list nat := 
  (repeat 0 8 ++ repeat 1 5 ++ repeat 2 12 ++ repeat 3 8 ++ repeat 2 9)%nat.
Definition lost_turns : list nat := (repeat 0 8 ++ [1] ++ repeat 2 9 ++ repeat 1 4)%nat.

Lemma race_run : exists s' pool',
  rtc (pool_step handle elsewhere) (empty_slots, race_pool) (s', pool') /\ finished pool' /\
  in_flight s' = {[+ "b"; "c" +]}.
Proof.
  destruct (outcome_of race_turns empty_slots race_pool) as [[s' b]|] eqn:E; [|by vm_compute in E].
  destruct (outcome_reach _ _ _ _ _ E) as (pool' & Hr & Hf). exists s', pool'.
  vm_compute in E. injection E as <- <-. split_and!; [done|by apply Hf|by vm_compute].
Qed.

(** ["a"] runs and ["b"] waits; ["b"] ends, and then ["a"]'s task. *)
Definition leak_turns_1 : list nat := (repeat 0 8 ++ repeat 1 5)%nat.
Definition leak_turns_2 : list nat := repeat 2%nat 19.
Definition end_b (s : Slots) : Slots := s <| alive ::= fun a => a ∖ {["b"]} |> <| table ::= delete "b" |>.

Lemma end_b_elsewhere s : elsewhere s (end_b s).
Proof. split_and!; [done..| |done|done|done]. apply delete_subseteq. Qed.

Definition leak_outcome : option (Slots * bool) :=
  x ← schedule handle leak_turns_1 (empty_slots, take 3 race_pool); outcome_of leak_turns_2 (end_b x.1) x.2.

Lemma leak_run : exists s pool,
  rtc (pool_step handle elsewhere) (empty_slots, take 3 race_pool) (s, pool) /\ finished pool /\
  in_flight s = ∅ /\ s_global s = 1 /\ pq s = [].
Proof.
  destruct leak_outcome as [[s b]|] eqn:E; [|by vm_compute in E].
  pose proof E as E'. unfold leak_outcome in E'.
  destruct (schedule handle leak_turns_1 (empty_slots, take 3 race_pool)) as [[s1 pool1]|] eqn:E1; [|done].
  apply outcome_reach in E' as (pool & Hr & Hf). exists s, pool.
  vm_compute in E. injection E as <- <-. split_and!; [|by apply Hf|done..].
  etrans; [by eapply schedule_reach|]. eapply rtc_l; [apply step_outside, end_b_elsewhere|exact Hr].
Qed.

(** One workflow, one task of it at a time; no global limit. *)
Definition one_pool : list (prog unit) :=
  job_prog 0 1 300 <$> [push_job "u"; JEnd "u"; push_job "u"; push_job "u"; JEnd "u"; JEnd "u"].
Definition one_slots : Slots := empty_slots <| alive := {["u"]} |>.
Definition one_turns : list nat := (repeat 0 8 ++ repeat 1 3 ++ repeat 2 8 ++ repeat 1 5 ++ repeat 3 8)%nat.
Definition last_turns : list nat := (repeat 4 8 ++ repeat 5 8)%nat.

Definition one_outcome : option (gmultiset string * (Slots * bool)) :=
  x ← schedule handle one_turns (one_slots, one_pool);
  y ← outcome_of last_turns x.1 x.2; Some (in_flight x.1, y).

Definition counter_of (s : Slots) (u : string) : option Z := c ← table s !! u; cells s !! c.

(** ** Properties *)

(** C6: However the goroutines that push tasks, see them end and retry them
    interleave (a dispatch round among them, at each of their atomic calls,
    while other workflows come and go), with a global limit the tasks in flight
    never exceed it by more than the one task a dispatch round takes without
    looking again, and the retries, which are written whatever the counter
    says; and the counter never counts fewer than are in flight. *)
Theorem in_flight_bound globalMax perWfMax timeout s jobs s' pool :
  0 < globalMax ->
  globalMax + 2 + retries_of jobs + Z.of_nat (length jobs) <= maxInt64 ->
  settled_slots globalMax s ->
  rtc (pool_step handle elsewhere) (s, job_prog globalMax perWfMax timeout <$> jobs) (s', pool) ->
  Z.of_nat (size (in_flight s')) <= s_global s' /\
  Z.of_nat (size (in_flight s')) <= globalMax + 1 + retries_of jobs.
Proof.
  intros Hlimit Hroom Hs Hrun.
  assert (Hroom' : globalMax + 2 + retries_of jobs +
    Z.of_nat (length (job_prog globalMax perWfMax timeout <$> jobs)) <= maxInt64) by (by rewrite length_fmap).
  destruct (pool_accounted globalMax _ _ _ _ _ (start <$> jobs) Hroom'
    (start_accounted _ _ _ Hs) (start_keeps _ _ _ _ Hlimit) Hrun) as (phs & (Hg & _ & Hb & _) & _).
  pose proof (total_nonneg _ phs granted_nonneg). pose proof (total_nonneg _ phs excess_nonneg).
  pose proof (total_nonneg _ phs tokens_nonneg). pose proof (total_nonneg _ phs clear_nonneg).
  unfold held_slots in *. lia.
Qed.

Lemma in_flight_bound_witness :
  exists s' pool',
    rtc (pool_step handle elsewhere) (empty_slots, race_pool) (s', pool') /\
    finished pool' /\ in_flight s' = {[+ "b"; "c" +]} /\
    Z.of_nat (size (in_flight s')) = 1 + 1 /\
    Z.of_nat (size (in_flight s')) <= 1 + 1 + retries_of [push_job "a"; push_job "b"; JEnd "a"; push_job "c"].
Proof.
  destruct race_run as (s' & pool' & Hr & Hf & Hfl). exists s', pool'. split_and!; [done..| |].
  - rewrite Hfl. by vm_compute.
  - refine (proj2 (in_flight_bound 1 0 300 empty_slots
      [push_job "a"; push_job "b"; JEnd "a"; push_job "c"] s' pool' _ _ _ Hr)).
    + lia.
    + vm_compute. discriminate.
    + unfold settled_slots. split_and!; [by vm_compute|cbn; lia|done].
Defined.

(** C14: A slot that is never given back is lost for good: when the counter has
    reached the limit with no task in flight, no further push, in any
    interleaving, writes a task, whatever happens to the workflows. *)
Theorem jammed_dispatcher globalMax perWfMax timeout s jobs s' pool :
  0 < globalMax -> globalMax <= s_global s -> in_flight s = ∅ ->
  Forall (fun j => is_retry j = false) jobs ->
  rtc (pool_step handle elsewhere) (s, job_prog globalMax perWfMax timeout <$> jobs) (s', pool) ->
  in_flight s' = ∅ /\ s_global s' = s_global s.
Proof.
  intros Hlimit Hfull Hnone Hjobs Hrun.
  assert (Hp : Forall (fun p => starved globalMax p (fun _ => True))
    (job_prog globalMax perWfMax timeout <$> jobs)).
  { apply list.Forall_fmap. eapply list.Forall_impl; [exact Hjobs|]. intros j Hj. by apply job_starved. }
  eapply pool_jammed in Hrun as (_ & Hg & Hf); [done|exact Hlimit| |exact Hp]. done.
Qed.


Lemma jammed_dispatcher_witness :
  exists s pool0,
    rtc (pool_step handle elsewhere) (empty_slots, take 3 race_pool) (s, pool0) /\ finished pool0 /\
    forall s' pool, rtc (pool_step handle elsewhere) (s, job_prog 1 0 300 <$> [push_job "a"]) (s', pool) ->
      in_flight s' = ∅.
Proof.
  destruct leak_run as (s & pool0 & Hr & Hf & Hnone & Hg & _). exists s, pool0. split_and!; [done..|].
  intros s' pool Hrun. refine (proj1 (jammed_dispatcher 1 0 300 s [push_job "a"] s' pool _ _ _ _ Hrun)).
  - done.
  - by rewrite Hg.
  - done.
  - by repeat constructor.
Defined.

(** A wake-up can be lost: a push that has seen the counter at the limit
    queues its task after the release that brings it below has found the queue
    empty; everybody is done, nothing is in flight, and the task stays in the
    queue though every slot is free. *)
Theorem lost_wakeup :
  exists s' pool',
    rtc (pool_step handle elsewhere) (empty_slots, take 3 race_pool) (s', pool') /\
    finished pool' /\ in_flight s' = ∅ /\ s_global s' = 0 /\ workflowName <$> pq s' = ["b"].
Proof.
  destruct (outcome_of lost_turns empty_slots (take 3 race_pool)) as [[s' b]|] eqn:E; [|by vm_compute in E].
  destruct (outcome_reach _ _ _ _ _ E) as (pool' & Hr & Hf). exists s', pool'.
  vm_compute in E. injection E as <- <-. split_and!; [done|by apply Hf|done..].
Qed.

(** The limit of a workflow can be passed, for good: between the decrement
    that brings its counter to zero and the deletion of the counter another
    push counts on it, and the next one starts a counter of its own; two tasks
    of the workflow are in flight under a limit of one, and when both have
    ended its counter stands at minus one. *)
Theorem workflow_limit_races :
  exists s1 pool1 s2 pool2,
    rtc (pool_step handle elsewhere) (one_slots, one_pool) (s1, pool1) /\
    in_flight s1 = {[+ "u"; "u" +]} /\
    rtc (pool_step handle elsewhere) (s1, pool1) (s2, pool2) /\ finished pool2 /\
    in_flight s2 = ∅ /\ counter_of s2 "u" = Some (-1).
Proof.
  destruct one_outcome as [[m [s2 b]]|] eqn:E; [|by vm_compute in E].
  pose proof E as E'. apply bind_Some in E' as ([s1 pool1] & E1 & E').
  apply bind_Some in E' as (x & E2 & [= Hm ->]). destruct (outcome_reach _ _ _ _ _ E2) as (pool2 & Hr & Hfin).
  exists s1, pool1, s2, pool2. rewrite Hm. vm_compute in E. injection E as <- <- <-.
  split_and!; [by eapply schedule_reach|by vm_compute|done|by apply Hfin|done..].
Qed.
