(* ===== verification/Sequential.v ===== *)
(** * The dispatcher's calls, one at a time

    The programs of Slots run without anybody else, on counters that live in
    cells behind a table, are the operations of Dispatcher, on a map of
    counters: the same answers, the same tasks taken, the same state. *)
From Stdlib Require Import ZArith Lia.
From stdpp Require Import base gmap gmultiset sets strings list.
From S2P Require Import Prelude GoVal Model Heap Dispatcher Effects Slots World Repository Watch.
Set Warnings "-register-all,-clear-no-such-hyp,-level-tolerance".
Local Open Scope Z_scope.
Local Open Scope list_scope.

(** ** The two states *)

(** Two workflows never share a counter, and the table points to cells. *)
Record agrees (s : Slots) (td : TaskDispatcher) : Prop := {
  ag_global : s_global s = globalActive td;
  ag_count u : perWfActive td !! u = (c ← table s !! u; cells s !! c);
  ag_cell u c : table s !! u = Some c -> is_Some (cells s !! c);
  ag_own u v c : table s !! u = Some c -> table s !! v = Some c -> u = v;
  ag_queue : pq s = pendingPQ td }.

(** What the operations that write no task leave alone. *)
Definition same_rest (s s' : Slots) : Prop :=
  clock s' = clock s /\ pq_locked s' = pq_locked s /\ alive s' = alive s /\
  in_flight s' = in_flight s /\ answers s' = answers s.

#[export] Instance same_rest_preorder : PreOrder same_rest.
Proof.
  split; [by intros s|]. intros s1 s2 s3 (? & ? & ? & ? & ?) (? & ? & ? & ? & ?). split_and!; congruence.
Qed.

(** [p] gives [a], and does to the state what [td'] is to [td]. *)
Definition does {A : Type} (p : prog A) (s : Slots) (a : A) (td' : TaskDispatcher) : Prop :=
  exists s', run handle p s = Ret (a, s') /\ agrees s' td' /\ same_rest s s'.

Lemma does_ret {A : Type} (a : A) s td : agrees s td -> does (mret a) s a td.
Proof. intros Ha. by exists s. Qed.

Lemma does_same {A : Type} (a : A) s td td' : agrees s td -> td' = td -> does (mret a) s a td'.
Proof. intros Ha ->. by apply does_ret. Qed.

Lemma does_bind {A B : Type} (p : prog A) (f : A -> prog B) s a td' b td'' :
  does p s a td' -> (forall s', agrees s' td' -> same_rest s s' -> does (f a) s' b td'') ->
  does (p ≫= f) s b td''.
Proof.
  intros (s' & Hp & Ha & Hs) Hf. destruct (Hf s' Ha Hs) as (s'' & Hq & Ha' & Hs').
  exists s''. split_and!; [|done|by etrans]. rewrite run_bind. unfold mbind, M_bind. by rewrite Hp.
Qed.

Lemma does_run {A B : Type} (p : prog A) (f : A -> prog B) s a s1 b td'' :
  run handle p s = Ret (a, s1) -> same_rest s s1 -> does (f a) s1 b td'' -> does (p ≫= f) s b td''.
Proof.
  intros Hp Hs (s' & Hq & Ha & Hs'). exists s'. split_and!; [|done|by etrans].
  rewrite run_bind. unfold mbind, M_bind. by rewrite Hp.
Qed.

Lemma does_call {A X : Type} (e : atom X) (f : X -> prog A) s x s1 b td'' :
  handle X e s = Ret (x, s1) -> same_rest s s1 -> does (f x) s1 b td'' -> does (call e ≫= f) s b td''.
Proof.
  intros He Hs (s' & Hp & Ha & Hs'). exists s'. split_and!; [|done|by etrans].
  cbn. unfold mbind, M_bind. by rewrite He.
Qed.

Lemma does_assoc {A B C : Type} (p : prog A) (f : A -> prog B) (g : B -> prog C) s c td' :
  does ((p ≫= f) ≫= g) s c td' -> does (p ≫= fun a => f a ≫= g) s c td'.
Proof.
  intros (s' & Hr & H). exists s'. split; [|done]. rewrite <- Hr, !run_bind.
  change ((run handle (p ≫= f) ≫= fun b => run handle (g b)) s) with
    (match run handle (p ≫= f) s with
     | Ret (b, s1) => run handle (g b) s1 | Panic => Panic | Blocked => Blocked end).
  rewrite (run_bind handle p f). unfold mbind at 1 3, M_bind.
  destruct (run handle p s) as [[a s1]| |]; [|done..]. apply run_bind.
Qed.

(** ** The counter of a workflow *)

Lemma agrees_load s td u : agrees s td ->
  loadPerWfActive u td = match table s !! u with Some c => default 0 (cells s !! c) | None => 0 end.
Proof. intros Ha. unfold loadPerWfActive. rewrite (ag_count _ _ Ha). by destruct (table s !! u). Qed.

Lemma loadPerWf_alone s td u : agrees s td -> does (loadPerWf u) s (loadPerWfActive u td) td.
Proof.
  intros Ha. exists s. rewrite (agrees_load s td u Ha). split_and!; [|done..].
  unfold loadPerWf. cbn. unfold mbind, M_bind, gets. by destruct (table s !! u).
Qed.

(** Writing a counter through the table. *)
Lemma agrees_set s td u c v : agrees s td -> table s !! u = Some c ->
  agrees (s <| cells ::= <[c := v]> |>) (td <| perWfActive ::= <[u := v]> |>).
Proof.
  intros Ha Hc. split; cbn; try apply Ha.
  - intros w. destruct (decide (w = u)) as [->|Hne].
    + rewrite lookup_insert_eq, Hc. cbn. by rewrite lookup_insert_eq.
    + rewrite lookup_insert_ne, (ag_count _ _ Ha) by done. destruct (table s !! w) as [c'|] eqn:Hw; [|done].
      cbn. rewrite lookup_insert_ne; [done|]. intros <-. apply Hne. by eapply ag_own.
  - intros w c' Hw. destruct (decide (c' = c)) as [->|Hne]; [by rewrite lookup_insert_eq|].
    rewrite lookup_insert_ne by done. by eapply ag_cell.
Qed.

Lemma agrees_create s td u : agrees s td -> table s !! u = None ->
  agrees (s <| cells ::= <[fresh (dom (cells s)) := 0]> |> <| table ::= <[u := fresh (dom (cells s))]> |>)
    (td <| perWfActive ::= <[u := 0]> |>).
Proof.
  intros Ha Hu. pose proof (is_fresh (dom (cells s))) as Hf. set (c := fresh (dom (cells s))) in *.
  assert (Hnew : forall w c', table s !! w = Some c' -> c' <> c).
  { intros w c' Hw ->. destruct (ag_cell _ _ Ha w c Hw) as [v Hv]. apply Hf. by apply elem_of_dom_2 in Hv. }
  split; cbn; try apply Ha.
  - intros w. destruct (decide (w = u)) as [->|Hne].
    + rewrite !lookup_insert_eq. cbn. by rewrite lookup_insert_eq.
    + rewrite !lookup_insert_ne, (ag_count _ _ Ha) by done.
      destruct (table s !! w) as [c'|] eqn:Hw; [|done]. cbn.
      rewrite lookup_insert_ne; [done|]. intros E. by apply (Hnew w c').
  - intros w c'. destruct (decide (w = u)) as [->|Hne].
    + rewrite lookup_insert_eq. intros [= <-]. by rewrite lookup_insert_eq.
    + rewrite lookup_insert_ne by done. intros Hw. rewrite lookup_insert_ne; [by eapply ag_cell|].
      intros E. by apply (Hnew w c').
  - intros w w' c' Hw Hw'. rewrite lookup_insert_Some in Hw, Hw'.
    destruct Hw as [[<- <-]|[_ Hw]], Hw' as [[<- Hc]|[_ Hw']]; try done.
    + by apply Hnew in Hw'.
    + subst. by apply Hnew in Hw.
    + by eapply ag_own.
Qed.

(** The counter there is, or a new one at zero, and then [d] is added to it. *)
Lemma counter_alone s td u d : agrees s td ->
  let v := wrap64 (loadPerWfActive u td + d) in
  does (c ← getOrCreatePerWfCounter u; call (CAdd c d)) s v (td <| perWfActive ::= <[u := v]> |>).
Proof.
  intros Ha v. unfold v. rewrite (agrees_load s td u Ha).
  unfold getOrCreatePerWfCounter. destruct (table s !! u) as [c|] eqn:Hc.
  - eexists. split_and!; [cbn; unfold mbind, M_bind, gets; rewrite Hc; reflexivity|by apply agrees_set|done].
  - pose proof (agrees_set _ _ u (fresh (dom (cells s))) (wrap64 (0 + d)) (agrees_create s td u Ha Hc)
      (lookup_insert_eq _ _ _)) as Hs.
    eexists. split_and!.
    + cbn. unfold mbind, M_bind, gets. rewrite Hc. cbn. unfold mbind, M_bind. rewrite Hc. cbn. rewrite lookup_insert_eq. reflexivity.
    + cbn in Hs |- *. rewrite !insert_insert_eq in Hs. rewrite insert_insert_eq. exact Hs.
    + done.
Qed.

Lemma incPerWf_alone s td u : agrees s td ->
  does (incPerWf_atomic u) s (incPerWfActive u td).1 (incPerWfActive u td).2.
Proof. apply (counter_alone s td u 1). Qed.

Lemma decPerWf_alone s td u : agrees s td -> does (decPerWf_atomic u) s tt (decPerWfActive u td).
Proof.
  intros Ha. unfold decPerWf_atomic, decPerWfActive. apply does_assoc.
  eapply does_bind; [apply (counter_alone s td u (-1) Ha)|]. intros s' Ha' _.
  change (loadPerWfActive u td - 1) with (loadPerWfActive u td + -1).
  set (v := wrap64 (loadPerWfActive u td + -1)) in *. cbn zeta.
  destruct (Z.eqb_spec v 0); [|by apply does_ret].
  exists (s' <| table ::= delete u |>). split_and!; [done| |done].
  destruct Ha' as [Hg Hc Hcell Hown Hq]. split; cbn in *; try done.
  - intros w. destruct (decide (w = u)) as [->|Hne].
    + rewrite !lookup_delete_eq. done.
    + rewrite !lookup_delete_ne, <- Hc, lookup_insert_ne by done. done.
  - intros w c Hw. apply lookup_delete_Some in Hw as [_ Hw]. by eapply Hcell.
  - intros w w' c Hw Hw'. apply lookup_delete_Some in Hw as [_ Hw], Hw' as [_ Hw']. by eapply Hown.
Qed.

(** ** Taking a slot *)

Lemma enqueue_alone s td u n ups prio : agrees s td -> pq_locked s = false ->
  does (enqueue_atomic u n ups prio) s tt
    (td <| pendingPQ ::= Push pq_less (MkPending u n ups prio (clock s)) |>).
Proof.
  intros Ha Hl. eexists. split_and!.
  - cbn. unfold mbind, M_bind, gets, modify. rewrite Hl. reflexivity.
  - destruct Ha as [Hg Hc Hcell Hown Hq]. split; cbn in *; try done. by rewrite Hq.
  - done.
Qed.

Lemma check_wf_alone perWfMax s td u : agrees s td ->
  does (if 0 <? perWfMax then v ← loadPerWf u; mret (perWfMax <=? v) else mret false) s
    ((0 <? perWfMax) && (perWfMax <=? loadPerWfActive u td)) td.
Proof.
  intros Ha. case_match; [|by apply does_ret].
  eapply does_bind; [by apply loadPerWf_alone|]. intros s' Ha' _. by apply does_ret.
Qed.

Lemma check_global_alone globalMax s td : agrees s td ->
  does (if 0 <? globalMax then g ← call GRead; mret (globalMax <=? g) else mret false) s
    ((0 <? globalMax) && (globalMax <=? globalActive td)) td.
Proof.
  intros Ha. case_match; [|by apply does_ret]. eapply does_call; [reflexivity|done|].
  rewrite (ag_global _ _ Ha). by apply does_ret.
Qed.

Lemma addGlobal_alone s td d : agrees s td ->
  does (call (GAdd d)) s (globalActive (addGlobal d td)) (addGlobal d td).
Proof.
  intros [Hg Hc Hcell Hown Hq]. exists (s <| s_global := wrap64 (s_global s + d) |>).
  split_and!; [cbn; unfold mbind, M_bind; by rewrite Hg|split; cbn; try done; by rewrite Hg|done].
Qed.

(** ** Side by side with a host *)

Section lockstep.
Context {W : Type} `{DispatcherLaws W} (cfg : DispConfig).

Definition in_step (w : W) (s : Slots) : Prop :=
  agrees s (host_td w) /\ clock s = host_now w /\ pq_locked s = false /\ host_config w = cfg.

(** The same answer, and the states stay in step. *)
Definition same_as {A : Type} (m : M W A) (w : W) (p : prog A) (s : Slots) : Prop :=
  exists a w' s', m w = Ret (a, w') /\ run handle p s = Ret (a, s') /\ in_step w' s' /\ same_rest s s'.

Lemma same_ret {A : Type} (a : A) w s : in_step w s -> same_as (mret a) w (mret a) s.
Proof. intros Hs. by exists a, w, s. Qed.

Lemma same_bind {A B : Type} (m : M W A) (f : A -> M W B) w (p : prog A) (g : A -> prog B) s :
  same_as m w p s -> (forall a w' s', in_step w' s' -> same_as (f a) w' (g a) s') ->
  same_as (m ≫= f) w (p ≫= g) s.
Proof.
  intros (a & w' & s' & Hm & Hp & Hs & Hrest) Hf. destruct (Hf a w' s' Hs) as (b & w2 & s2 & Hm2 & Hp2 & Hs2 & Hr2).
  exists b, w2, s2. split_and!; [| |done|by etrans].
  - unfold mbind, M_bind. by rewrite Hm.
  - rewrite run_bind. unfold mbind, M_bind. by rewrite Hp.
Qed.

(** A read of the host, and a part of the program that answers it. *)
Lemma same_gets {A B : Type} (x : W -> A) (f : A -> M W B) w (p : prog B) s :
  same_as (f (x w)) w p s -> same_as (gets x ≫= f) w p s.
Proof. done. Qed.

Lemma same_reads {A B : Type} (m : M W B) w (p : prog A) (g : A -> prog B) s a :
  in_step w s -> does p s a (host_td w) -> (forall s', in_step w s' -> same_as m w (g a) s') ->
  same_as m w (p ≫= g) s.
Proof.
  intros (_ & Hn & Hl & Hcfg) (s' & Hp & Ha & Hr) Hm.
  assert (Hs' : in_step w s') by (destruct Hr as (? & ? & _); split_and!; congruence).
  destruct (Hm s' Hs') as (b & w2 & s2 & Hm2 & Hp2 & Hs2 & Hr2). exists b, w2, s2.
  split_and!; [done| |done|by etrans]. rewrite run_bind. unfold mbind, M_bind. by rewrite Hp.
Qed.

(** An update of the dispatcher. *)
Lemma same_update {A : Type} (m : M W A) w (p : prog A) s a td' :
  in_step w s -> m w = Ret (a, host_set_td td' w) -> does p s a td' -> same_as m w p s.
Proof.
  intros (_ & Hn & Hl & Hcfg) Hm (s' & Hp & Ha & Hr). exists a, (host_set_td td' w), s'.
  split_and!; [done..| |done]. destruct Hr as (? & ? & _).
  split_and!; rewrite ?td_set, ?now_set, ?config_set; congruence.
Qed.

Lemma same_enqueue w s u n ups prio : in_step w s ->
  same_as (enqueuePending u n ups prio) w (enqueue_atomic u n ups prio) s.
Proof.
  intros Hs. destruct Hs as (Ha & Hn & Hl & Hcfg).
  eapply same_update; [done|reflexivity|]. rewrite <- Hn. by apply enqueue_alone.
Qed.

Lemma same_refuse w s u n ups prio : in_step w s ->
  same_as (enqueuePending u n ups prio;; mret false) w (enqueue_atomic u n ups prio;; mret false) s.
Proof. intros Hs. apply same_bind; [by apply same_enqueue|]. intros a w' s' Hs'. by apply same_ret. Qed.

Lemma same_dec w s u : in_step w s -> same_as (on_td (decPerWfActive u)) w (decPerWf_atomic u) s.
Proof. intros Hs. eapply same_update; [done|reflexivity|]. apply decPerWf_alone, Hs. Qed.

Lemma same_inc w s u : in_step w s -> same_as (incPerWf u) w (incPerWf_atomic u) s.
Proof.
  intros Hs. eapply same_update; [done| |apply incPerWf_alone, Hs].
  unfold incPerWf. by destruct (incPerWfActive u (host_td w)).
Qed.

Lemma same_addGlobal w s d : in_step w s -> same_as (addGlobalActive d) w (call (GAdd d)) s.
Proof. intros Hs. eapply same_update; [done|reflexivity|]. apply addGlobal_alone, Hs. Qed.

Lemma same_reserve w s u n ups prio : in_step w s ->
  same_as (reserve u n ups prio) w
    (reserve_atomic (MaxConcurrentTasks cfg) (PerWorkflowMaxConcurrency cfg) u n ups prio) s.
Proof.
  intros Hs. unfold reserve, reserve_atomic. apply same_gets, same_gets.
  assert (Hcfg : host_config w = cfg) by apply Hs. rewrite Hcfg.
  eapply same_reads; [done|apply check_wf_alone, Hs|]. intros s1 Hs1. cbv beta.
  case_match; [by apply same_refuse|]. apply same_gets.
  eapply same_reads; [done|apply check_global_alone, Hs1|]. intros s2 Hs2. cbv beta.
  case_match; [by apply same_refuse|].
  apply same_bind; [by apply same_inc|]. intros newWf w3 s3 Hs3. case_match.
  { apply same_bind; [by apply same_dec|]. intros _ w4 s4 Hs4. by apply same_refuse. }
  apply same_bind; [by apply same_addGlobal|]. intros newGlobal w4 s4 Hs4. case_match; [|by apply same_ret].
  apply same_bind; [by apply same_addGlobal|]. intros _ w5 s5 Hs5.
  apply same_bind; [by apply same_dec|]. intros _ w6 s6 Hs6. by apply same_refuse.
Qed.

End lockstep.

(** ** A round *)

Lemma head_alone {A : Type} (f : option pendingTask -> prog A) s td b td' : agrees s td ->
  does (f (head (pendingPQ td))) s b td' -> does (pt ← call PqHead; f pt) s b td'.
Proof. intros Ha Hf. eapply does_call; [reflexivity|done|]. by rewrite (ag_queue _ _ Ha). Qed.

Lemma pop_alone s td pt rest : agrees s td -> Pop pq_less (pendingPQ td) = Some (pt, rest) ->
  does (call PqPop) s tt (td <| pendingPQ := rest |>).
Proof.
  intros [Hg Hc Hcell Hown Hq] Hpop. exists (s <| pq := rest |>). split_and!; [|by split|done].
  cbn. unfold mbind, M_bind, modify. by rewrite Hq, Hpop.
Qed.

Lemma push_alone s td pt : agrees s td ->
  does (call (PqPush pt)) s tt (td <| pendingPQ ::= Push pq_less pt |>).
Proof.
  intros [Hg Hc Hcell Hown Hq]. exists (s <| pq ::= Push pq_less pt |>).
  split_and!; [done| |done]. split; cbn; try done. by rewrite Hq.
Qed.

Lemma evict_alone timeout now fuel : forall s td, agrees s td ->
  does (evict_atomic timeout fuel now) s (evict_loop fuel now timeout (pendingPQ td)).1
    (td <| pendingPQ := (evict_loop fuel now timeout (pendingPQ td)).2 |>).
Proof.
  induction fuel as [|fuel IH]; intros s td Ha; cbn [evict_atomic evict_loop].
  { apply (does_same _ s td); [done|by destruct td]. }
  eapply head_alone; [done|]. destruct (pendingPQ td) as [|pt l] eqn:Hq; cbn [head].
  { apply (does_same _ s td); [done|]. destruct td; cbn in *. by subst. }
  pose proof (Pop_cons pq_less pt l) as Hpop. rewrite Hpop. rewrite <- Hq in Hpop at 1.
  cbv iota beta. set (rest := removelast _) in *. clearbody rest.
  destruct (now - enqueued pt <=? timeout).
  { apply (does_same _ s td); [done|]. destruct td; cbn in *. by subst. }
  eapply does_bind; [by eapply pop_alone|]. intros s1 Ha1 _.
  specialize (IH s1 _ Ha1). cbn in IH. destruct (evict_loop fuel now timeout rest) as [ev q]. cbn in IH |- *.
  eapply does_bind; [exact IH|]. intros s2 Ha2 _. by apply does_ret.
Qed.

(** The selection goes on as the program does. *)
Definition selects (globalMax perWfMax : Z) (fuel : nat) (p : prog (list pendingTask * list pendingTask))
    (s : Slots) (d0 t0 : list pendingTask) (sel : selection) : Prop :=
  let sel' := select_loop fuel globalMax perWfMax sel in
  exists d t, does p s (d, t) (sel_td sel') /\ deferred sel' = d0 ++ d /\ toPush sel' = t0 ++ t.

Lemma selects_run {A : Type} globalMax perWfMax fuel (p : prog A) f s a s1 d0 t0 sel :
  run handle p s = Ret (a, s1) -> same_rest s s1 ->
  selects globalMax perWfMax fuel (f a) s1 d0 t0 sel -> selects globalMax perWfMax fuel (p ≫= f) s d0 t0 sel.
Proof. intros Hp Hr (d & t & Hd & H). exists d, t. split; [by eapply does_run|done]. Qed.

Section selecting.
Context (globalMax perWfMax : Z) (fuel : nat).
Context (IH : forall s sel, agrees s (sel_td sel) ->
  selects globalMax perWfMax fuel (select_atomic globalMax perWfMax fuel (blockedWf sel)) s
    (deferred sel) (toPush sel) sel).

Lemma select_defer s sel pt rest bl :
  agrees s (sel_td sel) -> Pop pq_less (pendingPQ (sel_td sel)) = Some (pt, rest) ->
  selects globalMax perWfMax fuel
    (call PqPop;; r ← select_atomic globalMax perWfMax fuel bl; mret (pt :: r.1, r.2)) s
    (deferred sel) (toPush sel)
    (MkSelection (sel_td sel <| pendingPQ := rest |>) (deferred sel ++ [pt]) bl (toPush sel)).
Proof.
  intros Ha Hpop. destruct (pop_alone _ _ _ _ Ha Hpop) as (s1 & Hr1 & Ha1 & Hrest1).
  destruct (IH s1 (MkSelection _ (deferred sel ++ [pt]) bl (toPush sel)) Ha1) as (d & t & Hd & Hdef & Hpush).
  cbn [deferred toPush blockedWf sel_td] in Hd, Hdef, Hpush. exists (pt :: d), t. rewrite Hdef, Hpush, <- app_assoc. split_and!; try done.
  eapply does_run; [exact Hr1|exact Hrest1|].
  eapply does_bind; [exact Hd|]. intros s2 Ha2 _. by apply does_ret.
Qed.

Lemma select_take s sel pt rest :
  agrees s (sel_td sel) -> Pop pq_less (pendingPQ (sel_td sel)) = Some (pt, rest) ->
  selects globalMax perWfMax fuel
    (call PqPop;; call (GAdd 1);; incPerWf_atomic (workflowName pt);;
     r ← select_atomic globalMax perWfMax fuel (blockedWf sel); mret (r.1, pt :: r.2)) s
    (deferred sel) (toPush sel)
    (MkSelection (incPerWfActive (workflowName pt) (addGlobal 1 (sel_td sel <| pendingPQ := rest |>))).2
      (deferred sel) (blockedWf sel) (toPush sel ++ [pt])).
Proof.
  intros Ha Hpop. destruct (pop_alone _ _ _ _ Ha Hpop) as (s1 & Hr1 & Ha1 & Hrest1).
  eapply selects_run; [exact Hr1|exact Hrest1|].
  destruct (addGlobal_alone s1 _ 1 Ha1) as (s2 & Hr2 & Ha2 & Hrest2).
  eapply selects_run; [exact Hr2|exact Hrest2|].
  destruct (incPerWf_alone s2 _ (workflowName pt) Ha2) as (s3 & Hr3 & Ha3 & Hrest3).
  eapply selects_run; [exact Hr3|exact Hrest3|].
  destruct (IH s3 (MkSelection _ (deferred sel) (blockedWf sel) (toPush sel ++ [pt])) Ha3)
    as (d & t & Hd & Hdef & Hpush).
  cbn [deferred toPush blockedWf sel_td] in Hd, Hdef, Hpush. exists d, (pt :: t). rewrite Hdef, Hpush, <- app_assoc. split_and!; try done.
  eapply does_bind; [exact Hd|]. intros s4 Ha4 _. by apply does_ret.
Qed.

Lemma select_turn s sel pt rest :
  agrees s (sel_td sel) -> Pop pq_less (pendingPQ (sel_td sel)) = Some (pt, rest) ->
  selects globalMax perWfMax fuel
    (fullWf ← (if 0 <? perWfMax then v ← loadPerWf (workflowName pt); mret (perWfMax <=? v) else mret false);
     if fullWf : bool then
       call PqPop;;
       r ← select_atomic globalMax perWfMax fuel ({[workflowName pt]} ∪ blockedWf sel); mret (pt :: r.1, r.2)
     else if decide (workflowName pt ∈ blockedWf sel) then
       call PqPop;; r ← select_atomic globalMax perWfMax fuel (blockedWf sel); mret (pt :: r.1, r.2)
     else
       call PqPop;; call (GAdd 1);; incPerWf_atomic (workflowName pt);;
       r ← select_atomic globalMax perWfMax fuel (blockedWf sel); mret (r.1, pt :: r.2)) s
    (deferred sel) (toPush sel) (select_head perWfMax pt rest sel).
Proof.
  intros Ha Hpop. destruct (check_wf_alone perWfMax s _ (workflowName pt) Ha) as (s1 & Hr1 & Ha1 & Hrest1).
  eapply selects_run; [exact Hr1|exact Hrest1|]. unfold select_head.
  change (loadPerWfActive (workflowName pt) (sel_td sel <| pendingPQ := rest |>)) with
    (loadPerWfActive (workflowName pt) (sel_td sel)).
  destruct ((0 <? perWfMax) && (perWfMax <=? loadPerWfActive (workflowName pt) (sel_td sel)));
    [by apply select_defer|].
  case_decide; [rewrite bool_decide_true by done; by apply select_defer|].
  rewrite bool_decide_false by done. by apply select_take.
Qed.

End selecting.

Lemma select_alone globalMax perWfMax fuel : forall s sel, agrees s (sel_td sel) ->
  selects globalMax perWfMax fuel (select_atomic globalMax perWfMax fuel (blockedWf sel)) s
    (deferred sel) (toPush sel) sel.
Proof.
  induction fuel as [|fuel IH]; intros s sel Ha; unfold selects; cbn [select_atomic select_loop].
  { exists [], []. rewrite !app_nil_r. split_and!; try done. by apply does_ret. }
  destruct (pendingPQ (sel_td sel)) as [|pt l] eqn:Hq.
  { exists [], []. rewrite !app_nil_r. split_and!; try done.
    eapply head_alone; [done|]. rewrite Hq. by apply does_ret. }
  pose proof (Pop_cons pq_less pt l) as Hpop. rewrite Hpop. rewrite <- Hq in Hpop at 1.
  cbv iota beta. set (rest := removelast _) in *. clearbody rest.
  destruct (check_global_alone globalMax s _ Ha) as (s1 & Hr1 & Ha1 & Hrest1).
  destruct ((0 <? globalMax) && (globalMax <=? globalActive (sel_td sel))).
  - exists [], []. rewrite !app_nil_r. split_and!; try done.
    eapply head_alone; [done|]. rewrite Hq. cbn [head]. eapply does_run; [exact Hr1|done|]. by apply does_ret.
  - destruct (select_turn globalMax perWfMax fuel IH s1 sel pt rest Ha1 Hpop) as (d & t & Hd & Hdef & Hpush).
    exists d, t. split_and!; [|done..]. eapply head_alone; [done|]. rewrite Hq. cbn [head].
    by eapply does_run.
Qed.

Lemma push_back_alone l : forall s td, agrees s td ->
  does (each (fun pt => call (PqPush pt)) l) s tt
    (td <| pendingPQ := foldl (fun pq pt => Push pq_less pt pq) (pendingPQ td) l |>).
Proof.
  induction l as [|pt l IH]; intros s td Ha; cbn [each].
  { apply (does_same _ s td); [done|by destruct td]. }
  eapply does_bind; [by apply push_alone|]. intros s1 Ha1 _. apply (IH s1 _ Ha1).
Qed.

(** ** Properties *)

(** Without anybody else, a task takes its slot in the code's atomic calls
    exactly as it does in one go: the same answer, and the counters, the queue
    and the clock stay in step. *)
Theorem reserve_alone {W : Type} `{DispatcherLaws W} (cfg : DispConfig) (w : W) s u n ups prio :
  in_step cfg w s ->
  exists b w' s',
    reserve u n ups prio w = Ret (b, w') /\
    run handle (reserve_atomic (MaxConcurrentTasks cfg) (PerWorkflowMaxConcurrency cfg) u n ups prio) s =
      Ret (b, s') /\
    in_step cfg w' s' /\ same_rest s s'.
Proof. apply same_reserve. Qed.

(** And a round selects exactly the tasks, and leaves exactly the counters
    and the queue, that the selection on the whole dispatcher does. *)
Theorem select_pending_alone globalMax perWfMax s td : agrees s td ->
  exists s',
    run handle (select_pending_atomic globalMax perWfMax) s =
      Ret ((select_pending globalMax perWfMax td).1, s') /\
    agrees s' (select_pending globalMax perWfMax td).2 /\ same_rest s s'.
Proof.
  intros Ha. unfold select_pending_atomic, select_pending. eapply does_call; [reflexivity|done|].
  rewrite (ag_queue _ _ Ha).
  destruct (select_alone globalMax perWfMax (length (pendingPQ td)) s (MkSelection td [] ∅ []) Ha)
    as (d & t & Hd & Hdef & Hpush). cbn [sel_td deferred blockedWf toPush app fst snd] in *.
  eapply does_bind; [exact Hd|]. intros s1 Ha1 _. cbn [fst snd]. rewrite Hdef, Hpush.
  eapply does_bind; [by apply push_back_alone|]. intros s2 Ha2 _. by apply does_ret.
Qed.

Lemma empty_agrees g now : agrees (MkSlots g ∅ ∅ [] false ∅ ∅ now []) (MkDispatcher g ∅ []).
Proof. split; cbn; try done. Qed.

#[local] Existing Instance ex_naming.

Lemma reserve_alone_witness :
  exists b w' s',
    reserve "demo" (named_node "a") [] 0 ex_running = Ret (b, w') /\
    run handle (reserve_atomic (MaxConcurrentTasks (host_config ex_running))
      (PerWorkflowMaxConcurrency (host_config ex_running)) "demo" (named_node "a") [] 0)
      (MkSlots 0 ∅ ∅ [] false ∅ ∅ (host_now ex_running) []) = Ret (b, s') /\ b = true.
Proof.
  destruct (reserve_alone (host_config ex_running) ex_running
    (MkSlots 0 ∅ ∅ [] false ∅ ∅ (host_now ex_running) []) "demo" (named_node "a") [] 0) as (b & w' & s' & Hr & Hp & _).
  - split_and!; [apply empty_agrees|done..].
  - exists b, w', s'. split_and!; [done..|]. vm_compute in Hr. by injection Hr as <- _.
Defined.

Lemma select_pending_alone_witness :
  exists s', run handle (select_pending_atomic 1 0) (empty_slots <| pq := [MkPending "b" (named_node "t") [] 0 0] |>) =
      Ret ([MkPending "b" (named_node "t") [] 0 0], s') /\ s_global s' = 1.
Proof.
  destruct (select_pending_alone 1 0 (empty_slots <| pq := [MkPending "b" (named_node "t") [] 0 0] |>)
    (MkDispatcher 0 ∅ [MkPending "b" (named_node "t") [] 0 0])) as (s' & Hr & Ha & _).
  - split; cbn; done.
  - exists s'. split; [exact Hr|]. rewrite (ag_global _ _ Ha). reflexivity.
Defined.
