(* ===== verification/Wire.v ===== *)
(** * Values across the wire (infra/store/model.go, domain/model/context.go)

    Parameters, inputs and outputs go to etcd as JSON and come back as [any].
    What a task reads through the getters of its context after that: the types
    there are, what stays as it was, and how far integers are kept. *)
From Stdlib Require Import ZArith Lia SpecFloat Ascii String.
From stdpp Require Import base gmap strings list.
From S2P Require Import Prelude GoVal Payload.
Set Warnings "-register-all,-clear-no-such-hyp,-level-tolerance".
Import Context.
Local Open Scope Z_scope.
Local Open Scope list_scope.

(** ** Integers as floats *)

Lemma digits2_lower p : 2 ^ (Zpos (digits2_pos p) - 1) <= Zpos p.
Proof.
  induction p as [p IH|p IH|]; cbn [digits2_pos]; [| |done].
  - rewrite Pos2Z.inj_succ. replace (Z.succ (Zpos (digits2_pos p)) - 1) with (Z.succ (Zpos (digits2_pos p) - 1)) by lia.
    rewrite Z.pow_succ_r by lia. lia.
  - rewrite Pos2Z.inj_succ. replace (Z.succ (Zpos (digits2_pos p)) - 1) with (Z.succ (Zpos (digits2_pos p) - 1)) by lia.
    rewrite Z.pow_succ_r by lia. lia.
Qed.

Lemma digits2_small p : Zpos p < 2 ^ 53 -> Zpos (digits2_pos p) <= 53.
Proof.
  intros Hp. pose proof (digits2_lower p). apply Znot_gt_le. intros Hd.
  assert (2 ^ 53 <= 2 ^ (Zpos (digits2_pos p) - 1)) by (apply Z.pow_le_mono_r; lia). lia.
Qed.

Lemma iter_xO_value p k : Zpos (Pos.iter xO p k) = Zpos p * 2 ^ Zpos k.
Proof.
  induction k as [|k IH] using Pos.peano_ind.
  - cbn. lia.
  - rewrite Pos.iter_succ, Pos2Z.inj_succ, Z.pow_succ_r by lia.
    change (Zpos (xO (Pos.iter xO p k))) with (2 * Zpos (Pos.iter xO p k)). lia.
Qed.

Lemma iter_xO_digits p k : digits2_pos (Pos.iter xO p k) = (digits2_pos p + k)%positive.
Proof.
  induction k as [|k IH] using Pos.peano_ind.
  - cbn. lia.
  - rewrite Pos.iter_succ. cbn [digits2_pos]. lia.
Qed.

(** A mantissa of 53 digits is kept as it is. *)
Lemma round_53 s m e : Zpos (digits2_pos m) = 53 -> -52 <= e <= 0 ->
  binary_round_aux 53 1024 s (Zpos m) e loc_Exact = S754_finite s m e.
Proof.
  intros Hd He. assert (Hs : shr_fexp 53 1024 (Zpos m) e loc_Exact = (shr_record_of_loc (Zpos m) loc_Exact, e)).
  { unfold shr_fexp, fexp, emin. cbn [Zdigits2]. rewrite Hd.
    replace (Z.max (53 + e - 53) (3 - 1024 - 53) - e) with 0 by lia. done. }
  unfold binary_round_aux. rewrite Hs. cbn [shr_record_of_loc shr_m loc_of_shr_record round_nearest_even].
  rewrite Hs. cbn [shr_record_of_loc shr_m]. by replace (e <=? 1024 - 53) with true by (symmetry; apply Z.leb_le; lia).
Qed.

Lemma round_small s p : Zpos p < 2 ^ 53 ->
  exists m e, binary_round 53 1024 s p 0 = S754_finite s m e /\ -52 <= e <= 0 /\ Zpos m = Zpos p * 2 ^ (- e).
Proof.
  intros Hp. pose proof (digits2_small p Hp) as Hd. unfold binary_round, shl_align, fexp, emin.
  replace (Z.max (Zpos (digits2_pos p) + 0 - 53) (3 - 1024 - 53) - 0) with (Zpos (digits2_pos p) - 53) by lia.
  destruct (Zpos (digits2_pos p) - 53) as [|k|k] eqn:Hk; [|lia|].
  - exists p, 0. rewrite round_53 by lia. split_and!; [done|lia..].
  - replace (Z.max (Zpos (digits2_pos p) + 0 - 53) (3 - 1024 - 53)) with (Zneg k) by lia.
    exists (Pos.iter xO p k), (Zneg k). rewrite round_53; [|rewrite iter_xO_digits; lia|lia].
    split_and!; [done|lia..|]. by rewrite iter_xO_value.
Qed.

Lemma small_trunc s m e p : -52 <= e <= 0 -> Zpos m = Zpos p * 2 ^ (- e) ->
  float_trunc (S754_finite s m e) = Some (if s then - Zpos p else Zpos p).
Proof.
  intros He Hm. unfold float_trunc. rewrite Hm.
  assert (Ha : (if 0 <=? e then Zpos p * 2 ^ (- e) * 2 ^ e else Zpos p * 2 ^ (- e) / 2 ^ (- e)) = Zpos p).
  { destruct (Z.leb_spec 0 e); [by replace e with 0 by lia; rewrite !Z.mul_1_r|].
    apply Z.div_mul. apply Z.pow_nonzero; lia. }
  cbv zeta. by rewrite Ha.
Qed.

Lemma float_of_int_trunc n : Z.abs n < 2 ^ 53 -> float_trunc (float_of_int n) = Some n.
Proof.
  intros Hn. unfold float_of_int, binary_normalize. destruct n as [|p|p]; [done|..].
  - destruct (round_small false p) as (m & e & -> & He & Hm); [lia|]. by rewrite (small_trunc _ _ _ p).
  - destruct (round_small true p) as (m & e & -> & He & Hm); [lia|]. by rewrite (small_trunc _ _ _ p).
Qed.

Lemma int_survives `{GoPlatform} n : Z.abs n < 2 ^ 53 -> float_to_int (float_of_int n) = n.
Proof.
  intros Hn. unfold float_to_int. rewrite float_of_int_trunc by done.
  replace ((minInt64 <=? n) && (n <=? maxInt64)) with true; [done|]. symmetry.
  unfold minInt64, maxInt64. apply andb_true_iff. rewrite !Z.leb_le. lia.
Qed.

(** ** The types of what is read back *)

(** What [json.Unmarshal] puts into an [any]. *)
Fixpoint json_typed (v : val) : bool :=
  match v with
  | VNil | VBool _ | VFloat64 _ => true
  | VString s => bool_decide (utf8 s)
  | VList l => forallb json_typed l
  | VMap m => map_fold (fun k v b => bool_decide (utf8 k) && json_typed v && b) true m
  | VNilRef _ | VInt _ | VInt64 _ | VFloat32 _ | VNumber _ | VStrs _ | VMaps _ => false
  end.

Fixpoint val_size (v : val) : nat :=
  match v with
  | VList l => S (foldr (fun v n => val_size v + n) 0 l)
  | VMap m => S (map_fold (fun _ v n => val_size v + n) 0 m)
  | VMaps l => S (foldr (fun m n => S (map_fold (fun _ v n => val_size v + n) 0 m) + n) 0 l)
  | _ => 1
  end%nat.

Definition map_size (m : vmap) : nat := map_fold (fun _ v n => val_size v + n)%nat 0%nat m.

Lemma map_size_lookup m k v : m !! k = Some v -> (val_size v <= map_size m)%nat.
Proof.
  intros Hk. unfold map_size. rewrite <- (insert_delete_id m k v Hk).
  rewrite map_fold_insert_L; [|intros; lia|apply lookup_delete_eq]. lia.
Qed.

Lemma sum_size_elem {A : Type} (f : A -> nat) l x : x ∈ l -> (f x <= foldr (fun v n => f v + n) 0 l)%nat.
Proof. induction 1; cbn; lia. Qed.

Lemma map_fold_and (P : string -> val -> bool) (m : vmap) :
  map_fold (fun k v b => P k v && b) true m = true <-> map_Forall (fun k v => P k v = true) m.
Proof.
  induction m as [|k v m Hk IH] using map_ind.
  - split; [intros _; apply map_Forall_empty|done].
  - rewrite map_fold_insert_L; [|intros; by rewrite !andb_assoc, (andb_comm (P _ _))|done].
    rewrite map_Forall_insert, andb_true_iff, IH by done. done.
Qed.

Lemma typed_map (m : vmap) : json_typed (VMap m) = true <-> utf8_keys m /\ map_Forall (fun _ v => json_typed v = true) m.
Proof.
  cbn. rewrite (map_fold_and (fun k v => bool_decide (utf8 k) && json_typed v)). split.
  - intros Hm. split; intros k v Hv; by apply Hm, andb_true_iff in Hv as [?%bool_decide_eq_true ?].
  - intros [Hk Ht] k v Hv. apply andb_true_iff. split; [apply bool_decide_eq_true; by eapply Hk|by eapply Ht].
Qed.

Lemma typed_string s : json_typed (VString (json_string s)) = true.
Proof. apply bool_decide_eq_true, json_string_utf8. Qed.

Lemma typed_list {A : Type} (f : A -> val) (l : list A) :
  (forall x, x ∈ l -> json_typed (f x) = true) -> json_typed (VList (f <$> l)) = true.
Proof.
  intros Hf. cbn. induction l as [|x l IH]; [done|]. cbn. rewrite Hf by (by left). apply IH.
  intros y Hy. apply Hf. by right.
Qed.

Lemma json_value_typed v : json_typed (json_value v) = true.
Proof.
  remember (val_size v) as n eqn:Hn. revert v Hn.
  induction (lt_wf n) as [n _ IH]. intros v ->.
  assert (Hmap : forall m : vmap, (map_size m < val_size v)%nat -> json_typed (VMap (json_map m)) = true).
  { intros m Hm. apply typed_map, json_keys_spec, map_Forall_fmap. intros k w Hw. cbn.
    pose proof (map_size_lookup m k w Hw). by eapply IH; [|reflexivity]; lia. }
  destruct v as [|t| | | | | |s|s|l|l|m|l]; cbn [json_value]; try done.
  - by destruct (parse_float64 s).
  - apply typed_string.
  - apply typed_list. intros w Hw. eapply IH; [|reflexivity]. pose proof (sum_size_elem val_size l w Hw). cbn. lia.
  - apply typed_list. intros s _. apply typed_string.
  - apply Hmap. cbn. unfold map_size. lia.
  - apply typed_list. intros m Hm. apply Hmap.
    pose proof (sum_size_elem (fun m => S (map_size m)) l m Hm) as Hle. cbn in Hle |- *. unfold map_size in *. lia.
Qed.

(** Reading back a second time changes nothing. *)
Lemma json_value_idem v : json_typed v = true -> json_value v = v.
Proof.
  remember (val_size v) as n eqn:Hn. revert v Hn.
  induction (lt_wf n) as [n _ IH]. intros v ->.
  destruct v as [|t| | | | | |s|s|l|l|m|l]; cbn [json_value]; try done; intros Ht.
  - f_equal. exact (proj1 (bool_decide_eq_true (utf8 s)) Ht).
  - f_equal. cbn in Ht. transitivity (id <$> l); [|apply list_fmap_id]. apply list_fmap_ext. intros i w Hw.
    apply list_elem_of_lookup_2 in Hw.
    eapply IH; [|reflexivity|]; [pose proof (sum_size_elem val_size l w Hw); cbn; lia|].
    rewrite forallb_forall in Ht. apply Ht. by apply list_elem_of_In.
  - f_equal. apply typed_map in Ht as [Hk Ht]. change (json_keys (json_value <$> m)) with (json_map m).
    rewrite json_map_id by done. apply map_eq. intros k. rewrite lookup_fmap.
    destruct (m !! k) as [w|] eqn:Hw; [|done]. cbn. f_equal.
    eapply IH; [|reflexivity|by apply (Ht k)]. pose proof (map_size_lookup m k w Hw). cbn. unfold map_size in *. lia.
Qed.

(** ** What a task reads *)

(** The parameters, the input or the output of a payload. *)
Inductive part : Type := PParams | PInput | POutput.
Definition part_of (w : part) (p : TaskPayload) : vmap :=
  match w with PParams => pl_Params p | PInput => Input p | POutput => default ∅ (Output p) end.

Definition read_back (w : part) (p : TaskPayload) : Context := NewContextFromMap (part_of w (Deserialize p)).
Definition written_as (w : part) (p : TaskPayload) : Context := NewContextFromMap (part_of w p).

Lemma part_back w p : part_of w (Deserialize p) = json_map (part_of w p).
Proof. destruct w; [done..|]. cbn. by destruct (Output p). Qed.

Lemma read_back_Get w p k : utf8_keys (part_of w p) ->
  Get (read_back w p) k = json_value <$> Get (written_as w p) k.
Proof.
  intros Hk. unfold read_back, written_as, NewContextFromMap, Get. cbn.
  by rewrite part_back, json_map_id, lookup_fmap.
Qed.

Lemma strings_of_json (l : list val) : strings_of (json_value <$> l) = option_map (fmap json_string) (strings_of l).
Proof.
  induction l as [|v l IH]; [done|]. destruct v; cbn; try done.
  - by destruct (parse_float64 s).
  - rewrite IH. by destruct (strings_of l).
Qed.

Lemma strings_of_strings (l : list string) : strings_of ((fun s => VString (json_string s)) <$> l) = Some (json_string <$> l : list string).
Proof. induction l as [|s l IH]; [done|]. rewrite fmap_cons. cbn [strings_of]. by rewrite IH. Qed.

(** A slice of strings, or a map, that the task can read though it is nil. *)
Definition nil_ref (v : option val) : bool := match v with Some (VNilRef _) => true | _ => false end.

(** C35: What a task gets back from etcd has the types of JSON, wherever it
    looks and however deep, all strings and keys valid UTF-8, and crossing again
    changes nothing.  Where the keys written are valid: a string reads with every byte
    that is not UTF-8 replaced, a valid one as it was; booleans read the same;
    slices of strings and maps that are not nil are there with
    their elements so changed (an empty slice of maps becomes one of strings);
    a nil slice or map, which reads as an empty one before, is not there any
    more; and an integer below 2^53 in absolute value reads as the same integer,
    though it has become a float. *)
Theorem wire_types `{GoPlatform} (w : part) (p : TaskPayload) (k : string) :
  (forall v, Get (read_back w p) k = Some v -> json_typed v = true /\ json_value v = v) /\
  (utf8_keys (part_of w p) ->
   GetString (read_back w p) k = json_string <$> GetString (written_as w p) k /\
   (forall s, GetString (written_as w p) k = Some s -> utf8 s -> GetString (read_back w p) k = Some s) /\
   GetBool (read_back w p) k = GetBool (written_as w p) k /\
   (if nil_ref (Get (written_as w p) k)
    then Get (read_back w p) k = Some VNil /\
         GetStringSlice (read_back w p) k = None /\ GetMap (read_back w p) k = None
    else (Get (written_as w p) k <> Some (VMaps []) ->
          GetStringSlice (read_back w p) k = option_map (fmap json_string) (GetStringSlice (written_as w p) k)) /\
         GetMap (read_back w p) k = json_map <$> GetMap (written_as w p) k) /\
   (forall n, Z.abs n < 2 ^ 53 -> Get (written_as w p) k = Some (VInt n) \/ Get (written_as w p) k = Some (VInt64 n) ->
     GetInt (read_back w p) k = Some n /\ GetInt64 (read_back w p) k = Some n)).
Proof.
  split.
  - intros v. unfold read_back, Get. cbn. rewrite part_back. intros Hv.
    assert (Ht : json_typed v = true); [|split; [done|by apply json_value_idem]].
    assert (Hall : map_Forall (fun _ v => json_typed v = true) (json_map (part_of w p)));
      [|exact (Hall k v Hv)].
    apply json_keys_spec, map_Forall_fmap. intros k' v' _. apply json_value_typed.
  - intros Hk. unfold GetString, GetBool, GetStringSlice, GetMap, GetInt, GetInt64. rewrite read_back_Get by done.
    set (v := Get (written_as w p) k). clearbody v.
    assert (Hs : match json_value <$> v with Some (VString s) => Some s | _ => None end =
                 json_string <$> match v with Some (VString s) => Some s | _ => None end).
    { destruct v as [[| | | | | | |s| | | | |]|]; try done. cbn. by destruct (parse_float64 s). }
    split_and!.
    + exact Hs.
    + intros s Hv Hu. rewrite Hs, Hv. cbn. by rewrite Hu.
    + destruct v as [[| | | | | | |s| | | | |]|]; try done. cbn. by destruct (parse_float64 s).
    + destruct v as [[|t| | | | | |s| |l|l|m|[|m l]]|]; cbn; try done.
      * split; [|by destruct (parse_float64 s)]. intros _. by destruct (parse_float64 s).
      * split; [|done]. intros _. apply strings_of_json.
      * split; [|done]. intros _. apply strings_of_strings.
    + intros n Hn [-> | ->]; cbn; by rewrite int_survives.
Qed.

(** From 2^53 on it need not: the next integer comes back one less. *)
Theorem large_integers_change `{GoPlatform} (p : TaskPayload) (k : string) :
  utf8_keys (pl_Params p) -> pl_Params p !! k = Some (VInt (2 ^ 53 + 1)) ->
  GetInt (written_as PParams p) k = Some (2 ^ 53 + 1) /\ GetInt (read_back PParams p) k = Some (2 ^ 53).
Proof.
  intros Hu Hk. unfold GetInt. rewrite read_back_Get by done. unfold written_as, Get. cbn. rewrite Hk.
  split; [done|]. vm_compute. done.
Qed.

(** ** Witnesses *)

(** [é] in Latin-1 is no UTF-8. *)
Definition ex_latin1 : string := String (ascii_of_nat 233) "".

Definition ex_wire : TaskPayload :=
  zero_payload <| pl_Params := {["n" := VInt 42; "l" := VStrs ["a"; "b"]; "big" := VInt (2 ^ 53 + 1);
    "none" := VNilRef TMap; "s" := VString ex_latin1]} |>.

Lemma ex_wire_keys : utf8_keys (pl_Params ex_wire).
Proof. apply (bool_decide_unpack _). vm_compute. exact I. Qed.

Lemma large_integers_change_witness :
  GetInt (H := amd64) (written_as PParams ex_wire) "big" = Some (2 ^ 53 + 1) /\
  GetInt (H := amd64) (read_back PParams ex_wire) "big" = Some (2 ^ 53).
Proof. apply large_integers_change; [exact ex_wire_keys|vm_compute; reflexivity]. Defined.

Lemma wire_types_witness :
  GetInt (H := amd64) (read_back PParams ex_wire) "n" = Some 42 /\
  GetStringSlice (read_back PParams ex_wire) "l" = Some ["a"; "b"] /\
  (GetMap (written_as PParams ex_wire) "none" = Some ∅ /\ GetMap (read_back PParams ex_wire) "none" = None) /\
  GetString (read_back PParams ex_wire) "s" = Some (replacement "").
Proof.
  destruct (proj2 (wire_types (H := amd64) PParams ex_wire "n") ex_wire_keys) as (_ & _ & _ & _ & Hn).
  destruct (proj2 (wire_types (H := amd64) PParams ex_wire "l") ex_wire_keys) as (_ & _ & _ & (Hl & _) & _).
  destruct (proj2 (wire_types (H := amd64) PParams ex_wire "none") ex_wire_keys) as (_ & _ & _ & (_ & _ & Hm) & _).
  destruct (proj2 (wire_types (H := amd64) PParams ex_wire "s") ex_wire_keys) as (Hs & _).
  split_and!; [apply (Hn 42); [lia|left; vm_compute; reflexivity]| |vm_compute; reflexivity|exact Hm|].
  - rewrite Hl; [vm_compute; reflexivity|vm_compute; discriminate].
  - rewrite Hs. vm_compute. reflexivity.
Defined.
