(* ===== verification/Requests.v ===== *)
(** * Requests that overlap (infra/engine/scheduler/workflow_manager.go)

    The API serves each request in a goroutine of its own.  An operation of the
    manager takes a lock, lets it go and takes it again: here it is a program of
    such sections (Effects), and requests interleave between them.  What a
    section does, and what is done without the lock between two of them, is one
    step. *)
From Stdlib Require Import ZArith Lia.
From stdpp Require Import base gmap sets strings list relations.
From S2P Require Import Prelude GoVal Model Validate Payload Dispatcher World Copy Manager Repository Watch Effects.
Set Warnings "-register-all,-clear-no-such-hyp,-level-tolerance".
Local Open Scope Z_scope.
Local Open Scope list_scope.

Inductive section_of : Type -> Type :=
| Section_ {X : Type} (m : M World X) : section_of X.
Definition do_section : handler section_of World := fun X e => match e in section_of X return M World X with Section_ m => m end.

Abbreviation request := (io section_of).
Definition locked {X : Type} (m : M World X) : request X := call (Section_ m).

(** ** The operations, section by section *)

Section requests.
Context `{Naming} `{Coordinator}.

(** [RunWorkflow] looks for the definition, then for a run of it, then
    submits. *)
Definition run_request (uuid : string) : request (res wm_error unit) :=
  wf ← locked (GetRegisteredWorkflow uuid);
  match wf with
  | None => mret (Err NotRegistered)
  | Some wf =>
      running ← locked (wm_GetWorkflowState uuid);
      match running with
      | Some _ => mret (Err AlreadyRunning)
      | None =>
          match DeepCopy wf with
          | None => mret (Err CopyFailed)
          | Some wfCopy => locked (SubmitWorkflow wfCopy)
          end
      end
  end.

(** The entry's state, while it is paused. *)
Definition paused_state (uuid : string) : M World (res wm_error WorkflowState) :=
  entry ← LockEntry uuid;
  mret match entry with
       | None => Err NotFound
       | Some entry =>
           if decide (Status (we_state entry) = WorkflowStatusPaused) then Ok (we_state entry)
           else Err (NotPaused (Status (we_state entry)))
       end.

Definition approve_lock (uuid : string) : M World (res wm_error WorkflowState) :=
  entry ← LockEntry uuid;
  match entry with
  | None => mret (Err NotFound)
  | Some entry =>
      if decide (Status (we_state entry) = WorkflowStatusPaused) then
        modify (update_entry uuid (fun st => st <| Status := WorkflowStatusRunning |>));;
        mret (Ok (we_state entry))
      else mret (Err (NotPaused (Status (we_state entry))))
  end.

(** The last group was approved: the run is over, if it still runs. *)
Definition approve_complete (uuid : string) : M World unit :=
  entry2 ← LockEntry uuid;
  match entry2 with
  | Some entry2 =>
      PersistWorkflowLocked uuid (we_state entry2 <| Status := WorkflowStatusCompleted |>) entry2
  | None => mret tt
  end.

Definition approve_request (uuid : string) : request (res wm_error unit) :=
  st ← locked (approve_lock uuid);
  match st with
  | Err e => mret (Err e)
  | Ok state =>
      match ws_Workflow state with
      | None => locked panic
      | Some wf =>
          let last := wrap64 (Z.of_nat (length (TaskGroups wf)) - 1) in
          let pausedGroupIdx := PausedGroupIdx state in
          locked (emit uuid "workflow_approved"
            (DataMap {["workflow" := uuid; "task" := PausedTaskName state]}));;
          (if (0 <=? pausedGroupIdx) && (pausedGroupIdx <? last) then
             locked (spawn (GExecuteWorkflow RootContext uuid [clean_output (PausedTaskOutput state)]
                       (wrap64 (pausedGroupIdx + 1))))
           else if pausedGroupIdx =? last then
             locked (approve_complete uuid);; locked (emit uuid "workflow_completed" (DataUUID uuid))
           else mret tt);;
          mret (Ok tt)
      end
  end.

Definition reject_payload (uuid reason traceID : string) (state : WorkflowState) : TaskPayload :=
  zero_payload <| WorkflowID := uuid |> <| TaskName := PausedTaskName state |>
    <| TraceID := traceID |> <| pl_Status := StatusFailed |> <| Result := reason |>.

(** Between the check and the failure the lock is free.  The state is shared:
    what it is by then counts, while the run is there. *)
Definition reject_fail (uuid : string) (state : WorkflowState) (payload : TaskPayload) : M World unit :=
  fun w => HandleTaskFailed RootContext uuid (default state (running_state uuid w)) payload w.

Definition reject_request (uuid reason : string) : request (res wm_error unit) :=
  st ← locked (paused_state uuid);
  match st with
  | Err e => mret (Err e)
  | Ok state =>
      let reason := if decide (reason = "") then "审批被驳回" else reason in
      locked (emit uuid "workflow_rejected"
        (DataMap {["workflow" := uuid; "task" := PausedTaskName state; "reason" := reason]}));;
      traceID ← locked new_trace_id;
      locked (reject_fail uuid state (reject_payload uuid reason traceID state));;
      mret (Ok tt)
  end.

(** An entry is shared: who has found it, and then waits for its lock, gets it
    as it is by then, in the place of the run or, if that is over, with the
    state that went to the history. *)
Definition current_entry (uuid : string) (entry : workflowEntry) (w : World) : workflowEntry :=
  match runningEntries w !! uuid with
  | Some e => if decide (we_ctx e = we_ctx entry) then e else entry
  | None => entry <| we_state ::= fun st => default st (workflowHistory w !! ExecutionID st) |>
  end.

(** [CancelWorkflow], from the moment it holds the lock of the entry. *)
Definition cancel_held (uuid : string) (entry : workflowEntry)
  : M World (res wm_error (WorkflowState * string)) :=
  entry ← gets (current_entry uuid entry);
  let state := we_state entry in
  if decide (Status state = WorkflowStatusRunning \/ Status state = WorkflowStatusPaused) then
    let wasPaused := bool_decide (Status state = WorkflowStatusPaused) in
    let taskName := if wasPaused && negb (bool_decide (PausedTaskName state = ""))
                    then PausedTaskName state else "__cancelled__" in
    let state := state <| ws_Error := "用户已取消" |> in
    PersistWorkflowLocked uuid state entry;;
    mret (Ok (state, taskName))
  else mret (Err NotRunning).

Definition cancel_request (uuid : string) : request (res wm_error unit) :=
  entry ← locked (LockEntry uuid);
  match entry with
  | None => mret (Err NotFound)
  | Some entry =>
      r ← locked (cancel_held uuid entry);
      match r with
      | Err e => mret (Err e)
      | Ok (state, taskName) =>
          locked (emit uuid "workflow_cancelled" (DataUUID uuid));;
          traceID ← locked new_trace_id;
          locked (StartSagaRollback uuid state
            (zero_payload <| WorkflowID := uuid |> <| TaskName := taskName |>
              <| TraceID := traceID |> <| Result := "用户已取消" |>));;
          mret (Ok tt)
      end
  end.

(** ** Alone, they are the operations of the manager *)

(** The program does what the operation does. *)
Definition does_as {A : Type} (p : request A) (m : M World A) : Prop := forall w, run do_section p w = m w.

Lemma does_as_ret {A : Type} (a : A) : does_as (mret a) (mret a).
Proof. done. Qed.

Lemma does_as_locked {A : Type} (m : M World A) : does_as (locked m) m.
Proof. intros w. cbn. unfold mbind, M_bind. by destruct (m w) as [[]| |]. Qed.

Lemma does_as_bind {A B : Type} (p : request A) m (k : A -> request B) f :
  does_as p m -> (forall a, does_as (k a) (f a)) -> does_as (p ≫= k) (m ≫= f).
Proof.
  intros Hp Hk w. rewrite run_bind. unfold mbind, M_bind. rewrite Hp. destruct (m w) as [[a w']| |]; [|done..].
  apply Hk.
Qed.

Lemma does_as_assoc {A B C : Type} (m : M World A) (f : A -> M World B) (k : B -> request C) g :
  (forall a, does_as (locked (f a) ≫= k) (g a)) -> does_as (locked (m ≫= f) ≫= k) (m ≫= g).
Proof.
  intros Hf w. cbn. unfold mbind, M_bind. destruct (m w) as [[a w']| |]; [|done..].
  rewrite <- (Hf a w'). done.
Qed.

Lemma does_at_bind {A B : Type} (m : M World A) (k : A -> request B) f w :
  (forall a w', m w = Ret (a, w') -> run do_section (k a) w' = f a w') ->
  run do_section (locked m ≫= k) w = (m ≫= f) w.
Proof.
  intros Hk. rewrite run_bind. unfold mbind, M_bind. rewrite (does_as_locked m w).
  destruct (m w) as [[a w']| |]; [|done..]. by apply Hk.
Qed.

Lemma does_as_eq {A B : Type} (m : M World A) a (k : A -> request B) f :
  (forall w, m w = Ret (a, w)) -> does_as (k a) f -> does_as (locked m ≫= k) f.
Proof. intros Hm Hk w. cbn. unfold mbind, M_bind. rewrite Hm. apply Hk. Qed.

Lemma does_as_unlock {A B C : Type} (p : request C) (m : M World A) (f : A -> M World B) (g : B -> M World C) :
  does_as p ((m ≫= f) ≫= g) -> does_as p (m ≫= fun a => f a ≫= g).
Proof.
  intros Hp w. rewrite Hp. unfold mbind, M_bind. by destruct (m w) as [[a w']| |].
Qed.

Lemma run_request_alone uuid : does_as (run_request uuid) (RunWorkflow uuid).
Proof.
  apply does_as_bind; [apply does_as_locked|]. intros [wf|]; [|apply does_as_ret].
  apply does_as_bind; [apply does_as_locked|]. intros [st|]; [apply does_as_ret|].
  destruct (DeepCopy wf) as [c|]; [apply does_as_locked|apply does_as_ret].
Qed.

Lemma approve_request_alone uuid : does_as (approve_request uuid) (ApproveWorkflow uuid).
Proof.
  unfold approve_request, ApproveWorkflow, approve_lock. apply does_as_assoc. intros [e|]; [|by intros w].
  cbv zeta. case_decide; [|by intros w]. apply does_as_assoc. intros _. apply (does_as_eq _ (Ok (we_state e))); [done|].
  destruct (ws_Workflow (we_state e)) as [wf|]; [|apply does_as_locked].
  apply does_as_bind; [apply does_as_locked|]. intros _.
  apply does_as_bind; [|intros _; apply does_as_ret]. case_match; [apply does_as_locked|].
  case_match; [|apply does_as_ret]. apply does_as_unlock.
  apply does_as_bind; [apply does_as_locked|]. intros _. apply does_as_locked.
Qed.

Lemma paused_state_inv uuid state w w' : paused_state uuid w = Ret (Ok state, w') ->
  w' = w /\ running_state uuid w = Some state.
Proof.
  unfold paused_state, running_state, LockEntry, lock_wm, gets, mbind, M_bind. destruct (wm_locked w); [done|].
  destruct (runningEntries w !! uuid) as [e|]; cbn; [|done]. case_decide; [|done]. by intros [= <- <-].
Qed.

(** A rejection in one go, after the check. *)
Definition rejected (uuid reason : string) (st : res wm_error WorkflowState) : M World (res wm_error unit) :=
  match st with
  | Err e => mret (Err e)
  | Ok state =>
      let reason := if decide (reason = "") then "审批被驳回" else reason in
      emit uuid "workflow_rejected"
        (DataMap {["workflow" := uuid; "task" := PausedTaskName state; "reason" := reason]});;
      traceID ← new_trace_id;
      HandleTaskFailed RootContext uuid state (reject_payload uuid reason traceID state);;
      mret (Ok tt)
  end.

Lemma reject_request_alone uuid reason : does_as (reject_request uuid reason) (RejectWorkflow uuid reason).
Proof.
  intros w. transitivity ((paused_state uuid ≫= rejected uuid reason) w).
  - apply does_at_bind. intros [state|e] w1 Hps; [|done]. pose proof (paused_state_inv _ _ _ _ Hps) as [-> Hst].
    cbv zeta. apply does_at_bind. intros [] w2 Hw2. apply does_at_bind. intros traceID w3 Hw3.
    assert (Hst3 : running_state uuid w3 = Some state).
    { unfold emit, modify in Hw2. injection Hw2 as <-. unfold new_trace_id, fresh_id, mbind, M_bind in Hw3.
      injection Hw3 as <- <-. exact Hst. }
    assert (Hrf : forall p, reject_fail uuid state p w3 = HandleTaskFailed RootContext uuid state p w3).
    { intros p. unfold reject_fail. by rewrite Hst3. }
    rewrite run_bind. unfold mbind, M_bind. rewrite (does_as_locked (reject_fail _ _ _) w3), Hrf.
    by destruct (HandleTaskFailed _ _ _ _ w3) as [[]| |].
  - unfold RejectWorkflow, paused_state, mbind, M_bind. destruct (LockEntry uuid w) as [[[e|] w1]| |]; [|done..].
    cbn. by destruct (decide (Status (we_state e) = WorkflowStatusPaused)).
Qed.

Lemma LockEntry_inv uuid w e w' : LockEntry uuid w = Ret (e, w') -> w' = w /\ e = runningEntries w !! uuid.
Proof.
  unfold LockEntry, lock_wm, gets, mbind, M_bind. destruct (wm_locked w); [done|]. by intros [= <- <-].
Qed.

Lemma cancel_request_alone uuid : does_as (cancel_request uuid) (CancelWorkflow uuid).
Proof.
  intros w. apply does_at_bind. intros [e|] w1 [-> He]%LockEntry_inv; [|done].
  assert (Hcur : current_entry uuid e w = e) by (unfold current_entry; rewrite <- He; by rewrite decide_True).
  rewrite run_bind. unfold mbind at 1, M_bind at 1. rewrite (does_as_locked (cancel_held uuid e) w).
  unfold cancel_held, gets, mbind at 1, M_bind at 1. rewrite Hcur. cbn zeta. destruct (decide _); [|done].
  unfold mbind, M_bind. destruct (PersistWorkflowLocked _ _ _ w) as [[[] w2]| |]; [|done..]. cbn [run].
  symmetry. cbn. unfold mbind, M_bind. cbn. destruct (new_trace_id _) as [[t w3]| |]; [|done..]. cbn.
  by destruct (StartSagaRollback _ _ _ w3) as [[[] w4]| |].
Qed.

(** ** Requests that take turns *)

Definition nobody (w w' : World) : Prop := False.

Lemma turn pool (i : nat) X (m : M World X) (k : X -> request (res wm_error unit)) x w w' y :
  pool !! i = Some (Vis (Section_ m) k) -> m w = Ret (x, w') ->
  rtc (pool_step do_section nobody) (w', <[i := k x]> pool) y ->
  rtc (pool_step do_section nobody) (w, pool) y.
Proof. intros Hi Hm Hr. eapply rtc_l; [by eapply step_call|exact Hr]. Qed.

Lemma free_LockEntry uuid w : wm_locked w = false -> LockEntry uuid w = Ret (runningEntries w !! uuid, w).
Proof. intros Hl. unfold LockEntry, lock_wm, gets, mbind, M_bind. by rewrite Hl. Qed.

Lemma free_state uuid w : wm_locked w = false ->
  wm_GetWorkflowState uuid w = Ret (we_state <$> runningEntries w !! uuid, w).
Proof. intros Hl. unfold wm_GetWorkflowState, mbind, M_bind. by rewrite free_LockEntry. Qed.

Lemma free_registered uuid w : wm_locked w = false ->
  GetRegisteredWorkflow uuid w = Ret (registeredWorkflows w !! uuid, w).
Proof. intros Hl. unfold GetRegisteredWorkflow, lock_wm, gets, mbind, M_bind. by rewrite Hl. Qed.

(** C27: Two requests to run a workflow, one after the other, give one run: the
    second is refused.  When they overlap, both can be accepted: each has found
    no run before the other submits, the second entry takes the place of the
    first, and the goroutines of two runs work on one workflow. *)
Theorem run_requests_race uuid wf c w :
  wm_locked w = false -> registeredWorkflows w !! uuid = Some wf -> runningEntries w !! uuid = None ->
  DeepCopy wf = Some c -> accepted c -> UUID c = uuid ->
  (exists w', run do_section (run_request uuid) w = Ret (Ok tt, w') /\
     run do_section (run_request uuid) w' = Ret (Err AlreadyRunning, w')) /\
  exists w',
    rtc (pool_step do_section nobody) (w, [run_request uuid; run_request uuid]) (w', [Pure (Ok tt); Pure (Ok tt)]) /\
    runningEntries w' !! uuid = Some (MkEntry (new_state c (now w)) (S (nextCtx w)) false) /\
    spawned w' = spawned w ++ started (nextCtx w) c w ++ started (S (nextCtx w)) c w.
Proof.
  intros Hl Hw Hr Hc Ha Hu. split.
  - exists (submitted c w). rewrite !run_request_alone. unfold RunWorkflow, mbind, M_bind.
    rewrite free_registered, Hw, free_state, Hr by done. cbn. rewrite Hc, submit_accepted by done. split; [done|].
    rewrite free_registered by done. cbn. rewrite Hw, free_state by done. cbn. by rewrite Hu, lookup_insert_eq.
  - exists (submitted c (submitted c w)). split_and!.
    + assert (Hreg := free_registered uuid w Hl). rewrite Hw in Hreg.
      assert (Hst := free_state uuid w Hl). rewrite Hr in Hst.
      eapply (turn _ 0); [reflexivity|exact Hreg|]. eapply (turn _ 0); [reflexivity|exact Hst|]. cbn.
      eapply (turn _ 1); [reflexivity|exact Hreg|]. eapply (turn _ 1); [reflexivity|exact Hst|]. cbn.
      rewrite Hc. eapply (turn _ 0); [reflexivity|by apply submit_accepted|].
      eapply (turn _ 1); [reflexivity|by apply submit_accepted|]. apply rtc_refl.
    + cbn. by rewrite Hu, lookup_insert_eq.
    + cbn. by rewrite <- app_assoc.
Qed.

End requests.

(** ** Approval and rejection *)

Section decisions.
Context `{Naming}.

Lemma rejection_not_retried uuid reason traceID st state :
  let payload := reject_payload uuid reason traceID st in
  (if unskippable state payload then defaultAction payload
   else ResolveErrorPolicy (Some state) payload) <> ErrorActionRetry.
Proof.
  intros payload. assert (Hd : defaultAction payload <> ErrorActionRetry) by done.
  unfold unskippable, ResolveErrorPolicy. cbn -[payload GetTaskErrorPolicy IsSkippable].
  destruct (policy_of state) as [ep|]; [|by case_match]. clearbody payload.
  destruct (bool_decide _) eqn:E1; cbn [andb].
  - apply bool_decide_eq_true in E1. destruct (IsSkippable _ _); cbn [negb]; [|done].
    by rewrite E1, decide_False, decide_True by done.
  - apply bool_decide_eq_false in E1. repeat case_decide; done.
Qed.

(** The world the approval leaves. *)
Definition approved (uuid : string) (e : workflowEntry) (output : vmap) (idx : Z) (w : World) : World :=
  w <| runningEntries ::= <[uuid := e <| we_state ::= fun st => st <| Status := WorkflowStatusRunning |> |>]> |>
    <| events ::= fun l => l ++ [MkEvent uuid "workflow_approved"
         (DataMap {["workflow" := uuid; "task" := PausedTaskName (we_state e)]})] |>
    <| spawned ::= fun l => l ++ [GExecuteWorkflow RootContext uuid [output] idx] |>.

Lemma approve_lock_paused uuid e w :
  wm_locked w = false -> runningEntries w !! uuid = Some e -> Status (we_state e) = WorkflowStatusPaused ->
  approve_lock uuid w = Ret (Ok (we_state e), w <| runningEntries ::=
    <[uuid := e <| we_state ::= fun st => st <| Status := WorkflowStatusRunning |> |>]> |>).
Proof.
  intros Hl He Hp. unfold approve_lock, mbind, M_bind. rewrite free_LockEntry, He, decide_True by done.
  cbn. unfold update_entry. by rewrite He.
Qed.

Lemma paused_state_paused uuid e w :
  wm_locked w = false -> runningEntries w !! uuid = Some e -> Status (we_state e) = WorkflowStatusPaused ->
  paused_state uuid w = Ret (Ok (we_state e), w).
Proof.
  intros Hl He Hp. unfold paused_state, mbind, M_bind. by rewrite free_LockEntry, He, decide_True.
Qed.

(** Approving and rejecting a paused workflow can both be answered with
    success: the approval comes between the check of the rejection and the
    failure it reports.  The group after the paused one is started, and then
    the workflow fails and its run is over. *)
Theorem approve_and_reject uuid reason e wf w :
  sane w -> runningEntries w !! uuid = Some e -> ws_Workflow (we_state e) = Some wf ->
  TaskGroupIndex (we_state e) = BuildTaskGroupIndex wf -> in64 (Z.of_nat (length (TaskGroups wf))) ->
  Status (we_state e) = WorkflowStatusPaused ->
  0 <= PausedGroupIdx (we_state e) < Z.of_nat (length (TaskGroups wf)) - 1 ->
  exists w1 pool1 w2,
    rtc (pool_step do_section nobody) (w, [approve_request uuid; reject_request uuid reason]) (w1, pool1) /\
    spawned w1 = spawned w ++ [GExecuteWorkflow RootContext uuid [clean_output (PausedTaskOutput (we_state e))]
      (PausedGroupIdx (we_state e) + 1)] /\
    rtc (pool_step do_section nobody) (w1, pool1) (w2, [Pure (Ok tt); Pure (Ok tt)]) /\
    runningEntries w2 !! uuid = None.
Proof.
  intros Hs He Hwf Hidx Hlen Hp Hb. pose proof (sane_lock _ Hs) as Hl.
  set (idx := PausedGroupIdx (we_state e)) in *. set (out := clean_output (PausedTaskOutput (we_state e))).
  set (last := Z.of_nat (length (TaskGroups wf)) - 1) in *.
  set (w1 := approved uuid e out (idx + 1) w).
  set (ev := MkEvent uuid "workflow_rejected" (DataMap {["workflow" := uuid;
    "task" := PausedTaskName (we_state e); "reason" := if decide (reason = "") then "审批被驳回" else reason]})).
  set (w1' := w1 <| events ::= fun l => l ++ [ev] |>).
  destruct (new_trace_id w1') as [[traceID w2]| |] eqn:Ht; [|done..].
  assert (H2 : sane w2 /\ exists e', runningEntries w2 !! uuid = Some e' /\ ws_Workflow (we_state e') = Some wf /\
    TaskGroupIndex (we_state e') = BuildTaskGroupIndex wf /\ Status (we_state e') = WorkflowStatusRunning).
  { unfold new_trace_id, fresh_id, mbind, M_bind in Ht. injection Ht as _ <-. split.
    - split; [exact Hl|exact (sane_listeners _ Hs)|]. intros u x. cbn. rewrite lookup_insert_Some.
      intros [[<- <-]|[_ Hx]]; [by exists wf|by eapply sane_entries].
    - eexists. cbn. rewrite lookup_insert_eq. split_and!; [reflexivity|done..]. }
  destruct H2 as (Hs2 & e' & He' & Hwf' & Hidx' & Hst').
  set (payload := reject_payload uuid (if decide (reason = "") then "审批被驳回" else reason) traceID (we_state e)).
  destruct (wp_run _ _ _ (failure_ends RootContext uuid (default (we_state e) (running_state uuid w2)) payload e' wf w2
    Hs2 He' eq_refl Hwf' Hidx' (or_introl Hst') (rejection_not_retried _ _ _ _ _))) as ([] & w3 & Hf & Hs3 & Hr3).
  assert (Hgo : (0 <=? idx) && (idx <? wrap64 last) = true).
  { rewrite wrap64_in by (unfold last, in64, minInt64, maxInt64 in *; lia).
    apply andb_true_iff. rewrite Z.leb_le, Z.ltb_lt. lia. }
  eexists w1, _, w3. split_and!; [| | |exact Hr3].
  - eapply (turn _ 1); [reflexivity|by apply paused_state_paused|].
    eapply (turn _ 0); [reflexivity|by apply approve_lock_paused|].
    cbn [list_insert insert]. rewrite Hwf. fold idx last. cbv zeta. rewrite Hgo.
    eapply (turn _ 0); [reflexivity|reflexivity|].
    eapply (turn _ 0); [reflexivity|reflexivity|].
    rewrite wrap64_in by (unfold last, in64, minInt64, maxInt64 in *; lia). apply rtc_refl.
  - done.
  - eapply (turn _ 1); [reflexivity|reflexivity|]. eapply (turn _ 1); [reflexivity|exact Ht|].
    eapply (turn _ 1); [reflexivity|exact Hf|]. apply rtc_refl.
Qed.

End decisions.

(** ** Witnesses *)

#[local] Existing Instance ex_naming.

Definition ex_demo : Workflow := ex_wf <| UUID := "demo" |>.
Definition ex_registered : World := ex_world <| registeredWorkflows := {["demo" := ex_demo]} |>.

Lemma run_requests_race_witness :
  exists w',
    rtc (pool_step do_section nobody) (ex_registered, [run_request "demo"; run_request "demo"])
      (w', [Pure (Ok tt); Pure (Ok tt)]) /\ length (spawned w') = 4%nat.
Proof.
  destruct (DeepCopy ex_demo) as [c|] eqn:Hc; [|by vm_compute in Hc].
  destruct (run_requests_race "demo" ex_demo c ex_registered) as (_ & w' & Hr & _ & Hs).
  - reflexivity.
  - reflexivity.
  - reflexivity.
  - exact Hc.
  - vm_compute in Hc. injection Hc as <-. split_and!; vm_compute; [reflexivity|discriminate|reflexivity].
  - vm_compute in Hc. injection Hc as <-. reflexivity.
  - exists w'. split; [exact Hr|]. rewrite Hs. vm_compute in Hc. injection Hc as <-. vm_compute. reflexivity.
Defined.

Lemma approve_and_reject_witness :
  exists w1 pool1 w2,
    rtc (pool_step do_section nobody) (ex_paused, [approve_request "demo"; reject_request "demo" ""]) (w1, pool1) /\
    length (spawned w1) = 1%nat /\
    rtc (pool_step do_section nobody) (w1, pool1) (w2, [Pure (Ok tt); Pure (Ok tt)]) /\
    runningEntries w2 !! "demo" = None.
Proof.
  destruct (approve_and_reject "demo" "" (MkEntry (ex_state <| Status := WorkflowStatusPaused |>
    <| PausedTaskOutput := {["approval" := VNil; "x" := VInt 1]} |>) 1 false) ex_wf ex_paused)
    as (w1 & pool1 & w2 & Hr1 & Hs & Hr2 & Hn).
  - split; [reflexivity| |].
    + by vm_compute.
    + intros u e. cbn. rewrite lookup_singleton_Some. intros [_ <-]. by eexists.
  - reflexivity.
  - reflexivity.
  - reflexivity.
  - vm_compute. split; discriminate.
  - reflexivity.
  - vm_compute. split; [discriminate|reflexivity].
  - exists w1, pool1, w2. split_and!; [exact Hr1|by rewrite Hs|exact Hr2|exact Hn].
Defined.

(** Cancelling a run twice can succeed twice: the second request has found the
    entry before the first takes it away, and the status, which it checks once
    it holds the lock, is still RUNNING, as a cancellation does not change it.
    The run is in the order of eviction and in the list of its workflow twice. *)
Definition cancel_turns : list nat := [0; 1; 0; 0; 0; 0; 1; 1; 1; 1]%nat.

Theorem cancel_twice :
  exists w,
    rtc (pool_step do_section nobody) (ex_running, [cancel_request "demo"; cancel_request "demo"])
      (w, [Pure (Ok tt); Pure (Ok tt)]) /\
    historyOrder w = [7; 7] /\ workflowHistoryByUUID w !! "demo" = Some [7; 7] /\
    length (events w) = 2%nat.
Proof.
  destruct (schedule do_section cancel_turns (ex_running, [cancel_request "demo"; cancel_request "demo"]))
    as [[w pool]|] eqn:E; [|by vm_compute in E].
  exists w. assert (Hr := schedule_reach do_section nobody _ _ _ E). vm_compute in E.
  injection E as <- <-. split_and!; [exact Hr|reflexivity..].
Qed.
