(* ===== verification/Etcd.v ===== *)
(** * The etcd store (infra/store/etcd/store.go, infra/store/store.go)

    [EtcdClient] is the etcd client library: its calls, on an abstract state
    of the cluster, and in [EtcdLaws] what its documentation says of them: one
    revision counter for all keys, the revision of its last write with every
    key, a history that watches replay in order, and calls that may fail
    without telling whether their effect took place.  The methods of
    [EtcdStore] are written on top. *)
From Stdlib Require Import ZArith Lia String.
From stdpp Require Import base gmap strings list.
From S2P Require Import Prelude GoVal Model Payload.
Set Warnings "-register-all,-clear-no-such-hyp,-level-tolerance".
Local Open Scope Z_scope.
Local Open Scope list_scope.

(** The answer of the transaction of [CASPut]: the revision of its write, or
    what its read found. *)
Inductive cas_answer : Type :=
| CasDone (revision : Z)
| CasLost (found : option (TaskPayload * Z)).

(** Values are payloads: the text of one is kept as the payload it encodes. *)
Class EtcdClient (C : Type) := {
  c_kvs : C -> gmap string (TaskPayload * Z);
  c_rev : C -> Z;
  c_history : C -> list (string * TaskPayload);
  c_get : string -> M C (res string (option (TaskPayload * Z)));
  c_get_prefix : string -> M C (res string (list (string * TaskPayload)));
  c_put : string -> TaskPayload -> option Z -> M C (res string unit);
  c_delete : string -> M C (res string unit);
  c_grant : Z -> M C (res string Z);
  c_revoke : Z -> M C (res string unit);
  c_puts : list (string * TaskPayload) -> Z -> M C (res string unit);
  c_cas : string -> Z -> TaskPayload -> M C (res string cas_answer);
  c_lock : string -> M C (res string unit);
  c_unlock : string -> M C (res string unit) }.

Section views.
Context {C : Type} `{EtcdClient C}.

Definition unchanged (c c' : C) : Prop :=
  c_kvs c' = c_kvs c /\ c_rev c' = c_rev c /\ c_history c' = c_history c.

Definition written (k : string) (v : TaskPayload) (c c' : C) : Prop :=
  c_rev c' = c_rev c + 1 /\ c_kvs c' = <[k := (v, c_rev c')]> (c_kvs c) /\
  c_history c' = c_history c ++ [(k, v)].

(** The revision of a key; 0 when there is none. *)
Definition mod_revision (k : string) (c : C) : Z :=
  match c_kvs c !! k with Some (_, r) => r | None => 0 end.

(** Revisions start at 1, and no key is newer than the store. *)
Definition revisions_ok (c : C) : Prop :=
  0 <= c_rev c /\ forall k v r, c_kvs c !! k = Some (v, r) -> 0 < r <= c_rev c.

Lemma unchanged_ok c c' : unchanged c c' -> revisions_ok c -> revisions_ok c'.
Proof. intros (Hk & Hr & _) Hok. unfold revisions_ok. by rewrite Hk, Hr. Qed.

Lemma written_ok k v c c' : written k v c c' -> revisions_ok c -> revisions_ok c'.
Proof.
  intros (Hr & Hk & _) [H0 Hok]. split; [lia|]. intros k' v' r. rewrite Hk.
  intros [[<- [= <- <-]]|[_ Hl]]%lookup_insert_Some; [lia|].
  specialize (Hok _ _ _ Hl). lia.
Qed.

End views.

Class EtcdLaws (C : Type) `{EtcdClient C} : Prop := {
  get_law k c : wp (c_get k) (fun r c' => unchanged c c' /\
    match r with Ok x => x = c_kvs c !! k | Err _ => True end) c;
  put_law k v l c : wp (c_put k v l) (fun r c' => match r with
    | Ok _ => written k v c c'
    | Err _ => unchanged c c' \/ written k v c c' end) c;
  cas_law k rev v c : wp (c_cas k rev v) (fun r c' => match r with
    | Ok (CasDone r') => mod_revision k c = rev /\ written k v c c' /\ r' = c_rev c'
    | Ok (CasLost found) => mod_revision k c <> rev /\ unchanged c c' /\ found = c_kvs c !! k
    | Err _ => unchanged c c' \/ (mod_revision k c = rev /\ written k v c c') end) c;
  lock_law k c : wp (c_lock k) (fun _ c' => unchanged c c') c;
  unlock_law k c : wp (c_unlock k) (fun _ c' => unchanged c c') c }.

(** ** EtcdStore *)

Section store.
Context {C : Type} `{EtcdClient C}.

Definition taskTTL : Z := 86400.
Definition watchEventChanBuf : nat := 2048.

Definition Put (key : string) (value : TaskPayload) : M C (res string unit) := c_put key value None.

Definition Delete (key : string) : M C (res string unit) := c_delete key.

(** A missing key reads as the empty string: [None]. *)
Definition Get (key : string) : M C (res string (option TaskPayload)) :=
  r ← c_get key;
  mret match r with Err e => Err e | Ok x => Ok (fst <$> x) end.

Definition ttl_or_default (ttlSec : Z) : Z := if ttlSec <=? 0 then taskTTL else ttlSec.

Definition PutWithTTL (key : string) (value : TaskPayload) (ttlSec : Z) : M C (res string unit) :=
  lease ← c_grant (ttl_or_default ttlSec);
  match lease with
  | Err e => mret (Err e)
  | Ok lease =>
      r ← c_put key value (Some lease);
      match r with
      | Err e => c_revoke lease;; mret (Err e)
      | Ok _ => mret (Ok tt)
      end
  end.

Definition BatchPutWithTTL (kvs : list (string * TaskPayload)) (ttlSec : Z)
  : M C (res string unit) :=
  match kvs with
  | [] => mret (Ok tt)
  | _ =>
      lease ← c_grant (ttl_or_default ttlSec);
      match lease with
      | Err e => mret (Err ("grant lease for batch put: " +:+ e))
      | Ok lease =>
          r ← c_puts kvs lease;
          match r with
          | Err e => c_revoke lease;; mret (Err ("batch put txn: " +:+ e))
          | Ok _ => mret (Ok tt)
          end
      end
  end.

Definition List_ (prefix : string) : M C (res string (list (string * TaskPayload))) :=
  c_get_prefix prefix.

(** [Lock]: what it returns unlocks [key]. *)
Definition Lock (key : string) : M C (res string (M C (res string unit))) :=
  r ← c_lock key;
  mret match r with Err e => Err e | Ok _ => Ok (c_unlock key) end.

Definition GetWithRevision (key : string) : M C (res string (option TaskPayload * Z)) :=
  r ← c_get key;
  mret match r with
       | Err e => Err e
       | Ok None => Ok (None, 0)
       | Ok (Some (v, rev)) => Ok (Some v, rev)
       end.

Definition CASPut (key : string) (value : TaskPayload) (expectedRevision : Z)
  : M C (res string (bool * Z)) :=
  r ← c_cas key expectedRevision value;
  mret match r with
       | Err e => Err e
       | Ok (CasDone rev) => Ok (true, rev)
       | Ok (CasLost (Some (_, rev))) => Ok (false, rev)
       | Ok (CasLost None) => Ok (false, 0)
       end.

End store.

(** ** Watches *)

(** An event: its text, and the payload the text encodes, if it does. *)
Record Event := MkEvent_ {
  ev_Put : bool;
  ev_Key : string;
  ev_Value : string;
  ev_decoded : option TaskPayload;
  ev_Payload : option TaskPayload }.

#[export] Instance eta_Event : Eta Event := fun e =>
  MkEvent_ (ev_Put e) (ev_Key e) (ev_Value e) (ev_decoded e) (ev_Payload e).

(** The filter may leave a payload in the event it lets through.  An event for
    which the channel has no room is dropped, and counted. *)
Definition watch_deliver (filter : Event -> option Event) (capacity : nat)
    (st : list Event * Z) (event : Event) : list Event * Z :=
  let '(eventChan, dropped) := st in
  match filter event with
  | None => st
  | Some event =>
      if decide (length eventChan < capacity)%nat then (eventChan ++ [event], dropped)
      else (eventChan, wrap64 (dropped + 1))
  end.

Definition watchInternal (filter : option (Event -> option Event)) (events : list Event)
    (eventChan : list Event) (dropped : Z) : list Event * Z :=
  foldl (watch_deliver (default Some filter) watchEventChanBuf) (eventChan, dropped) events.

Definition Watch (events : list Event) (eventChan : list Event) (dropped : Z) : list Event * Z :=
  watchInternal None events eventChan dropped.

Definition WatchWithFilter (filter : Event -> option Event) (events : list Event)
    (eventChan : list Event) (dropped : Z) : list Event * Z :=
  watchInternal (Some filter) events eventChan dropped.

(** ** A client that never fails, for concrete runs *)

Record Kv := MkKv {
  kv_map : gmap string (TaskPayload * Z); kv_rev : Z; kv_log : list (string * TaskPayload) }.

Definition kv_write (k : string) (v : TaskPayload) (c : Kv) : Kv :=
  MkKv (<[k := (v, kv_rev c + 1)]> (kv_map c)) (kv_rev c + 1) (kv_log c ++ [(k, v)]).

Definition kv_client : EtcdClient Kv := {|
  c_kvs := kv_map; c_rev := kv_rev; c_history := kv_log;
  c_get := fun k => gets (fun c => Ok (kv_map c !! k));
  c_get_prefix := fun p => gets (fun c => Ok (filter (fun kv => String.prefix p kv.1 = true)
    ((fun kv => (kv.1, kv.2.1)) <$> map_to_list (kv_map c))));
  c_put := fun k v _ => modify (kv_write k v);; mret (Ok tt);
  c_delete := fun k => modify (fun c => MkKv (delete k (kv_map c)) (kv_rev c + 1) (kv_log c));; mret (Ok tt);
  c_grant := fun _ => mret (Ok 1);
  c_revoke := fun _ => mret (Ok tt);
  c_puts := fun kvs _ => modify (fun c => foldl (fun c kv => kv_write kv.1 kv.2 c) c kvs);; mret (Ok tt);
  c_cas := fun k rev v c =>
    let found := kv_map c !! k in
    if decide (match found with Some (_, r) => r | None => 0 end = rev)
    then Ret (Ok (CasDone (kv_rev c + 1)), kv_write k v c) else Ret (Ok (CasLost found), c);
  c_lock := fun _ => mret (Ok tt);
  c_unlock := fun _ => mret (Ok tt) |}.

Lemma kv_laws : @EtcdLaws Kv kv_client.
Proof.
  split.
  - intros k c. done.
  - intros k v l c. done.
  - intros k rev v c. unfold wp, c_cas, kv_client, mod_revision. cbn.
    by destruct (decide (match kv_map c !! k with Some (_, r) => r | None => 0 end = rev)).
  - intros k c. done.
  - intros k c. done.
Qed.

#[export] Instance ex_client : EtcdClient Kv := kv_client.
#[export] Instance ex_client_laws : @EtcdLaws Kv ex_client := kv_laws.

(** ** Lemmas: what is in a channel of a watch *)

Lemma watch_deliver_all (filter : Event -> option Event) events eventChan dropped :
  (length eventChan + length (omap filter events) <= watchEventChanBuf)%nat ->
  watchInternal (Some filter) events eventChan dropped = (eventChan ++ omap filter events, dropped).
Proof.
  unfold watchInternal. cbn [default]. revert eventChan.
  induction events as [|e l IH]; intros ch Hlen; cbn; [by rewrite app_nil_r|].
  cbn in Hlen. destruct (filter e) as [e'|]; cbn in *.
  - rewrite decide_True by (cbn in Hlen; lia). rewrite IH.
    + by rewrite <- app_assoc.
    + rewrite length_app. cbn in *. lia.
  - by apply IH.
Qed.
