(* ===== verification/Fanout.v ===== *)
(** * From etcd's events to the workflows' channels (infra/engine/scheduler/watch.go:
    globalTaskWatcher)

    One goroutine watches all tasks: it connects, waits longer after each
    failure, scans what it may have missed, and hands the events to a pool of
    workers through a channel that it never waits for.  Part one is that
    goroutine; part two the pool, whose workers take turns in any order. *)
From Stdlib Require Import ZArith Lia.
From stdpp Require Import base gmap sets strings list relations.
From S2P Require Import Prelude GoVal Payload Etcd Effects.
Set Warnings "-register-all,-clear-no-such-hyp,-level-tolerance".
Local Open Scope Z_scope.
Local Open Scope list_scope.

Definition fanOutWorkers : nat := 8.
Definition fanOutChanBuf : nat := Z.to_nat 8192.
#[global] Arguments fanOutChanBuf : simpl never.
Definition initialBackoff : Z := 2 * 1000000000.
Definition maxBackoff : Z := 30 * 1000000000.

Record fanOutTask := MkFanOutTask {
  ft_workflowUUID : string;
  ft_key : string;
  ft_value : string;
  ft_decoded : option TaskPayload }.

(** The identifier of the event's workflow: the payload's, or what a scan of
    the text finds. *)
Definition event_workflow (event : Event) : string :=
  match ev_Payload event with
  | Some p => WorkflowID p
  | None => ExtractWorkflowUUID (ev_Value event)
  end.

Definition event_task (event : Event) : option fanOutTask :=
  let workflowUUID := event_workflow event in
  if decide (workflowUUID = "") then None
  else Some (MkFanOutTask workflowUUID (ev_Key event) (ev_Value event) (ev_decoded event)).

(** ** The goroutine that watches *)

(** [WWatch]: whether the store opened a channel.  [WNext]: the next event of
    the open channel, [None] when it is closed.  [WNil]: receiving from a nil
    channel.  [WSleep]: [true] when the timer fires before the context ends. *)
Inductive weff : Type -> Type :=
| WCtxErr : weff bool
| WWatch : weff bool
| WSleep (d : Z) : weff bool
| WRescan : weff unit
| WNext : weff (option Event)
| WNil : weff (option Event)
| WSend (t : fanOutTask) : weff bool
| WClose : weff unit.

Abbreviation wprog := (io weff).

Definition forward_event (event : Event) : wprog unit :=
  match event_task event with
  | None => mret tt
  | Some task => call (WSend task);; mret tt
  end.

(** [for event := range eventChan], [opened] unless the channel is nil. *)
Fixpoint consume (fuel : nat) (opened : bool) : wprog unit :=
  match fuel with
  | O => mret tt
  | S fuel' =>
      event ← call (if opened then WNext else WNil);
      match event with
      | None => mret tt
      | Some event => forward_event event;; consume fuel' opened
      end
  end.

(** After a connection, or a wait that the end of the context has cut short:
    the [break] of that case leaves the [select] only, and what follows runs on
    the nil channel of the failed call. *)
Definition connected (fuel : nat) (opened : bool) : wprog unit := call WRescan;; consume fuel opened.

Inductive turn : Type := Again (backoff : Z) | Break.

Definition watch_turn (fuel : nat) (backoff : Z) : wprog turn :=
  done ← call WCtxErr;
  if done : bool then mret Break
  else
    ok ← call WWatch;
    retry ← (if ok : bool then mret None
             else
               done ← call WCtxErr;
               if done : bool then mret (Some Break)
               else
                 fired ← call (WSleep backoff);
                 mret (if fired : bool then Some (Again (Z.min (wrap64 (backoff * 2)) maxBackoff)) else None));
    match retry with
    | Some t => mret t
    | None =>
        connected fuel ok;;
        done ← call WCtxErr;
        mret (if done : bool then Break else Again initialBackoff)
    end.

Fixpoint watch_loop (turns : nat) (fuel : nat) (backoff : Z) : wprog bool :=
  match turns with
  | O => mret false
  | S turns' =>
      t ← watch_turn fuel backoff;
      match t with
      | Break => call WClose;; mret true
      | Again backoff' => watch_loop turns' fuel backoff'
      end
  end.

(** [true]: the loop has ended and the channel of the pool is closed. *)
Definition globalTaskWatcher (turns fuel : nat) : wprog bool := watch_loop turns fuel initialBackoff.

(** Its surroundings: the answers of the store, in turn, and when the context
    ends; what the goroutine has done. *)
Record Net := MkNet {
  net_watch : list bool;
  net_events : list (option Event);
  net_ends : list bool;
  net_waits : list bool;
  net_done : bool;
  net_full : list bool;
  net_slept : list Z;
  net_rescans : Z;
  net_sent : list fanOutTask;
  net_closed : bool }.

#[export] Instance eta_Net : Eta Net := fun n =>
  MkNet (net_watch n) (net_events n) (net_ends n) (net_waits n) (net_done n) (net_full n) (net_slept n)
    (net_rescans n) (net_sent n) (net_closed n).

Definition next_of {A : Type} (l : list A) (d : A) : A * list A :=
  match l with [] => (d, []) | a :: l' => (a, l') end.

(** A wait that does not see its timer sees the context end; a channel closes
    with the context or without; a receive from nil never returns. *)
Definition net_handle (X : Type) (e : weff X) : M Net X :=
  match e in weff X return M Net X with
  | WCtxErr => gets net_done
  | WWatch => fun n => let '(ok, l) := next_of (net_watch n) true in Ret (ok, n <| net_watch := l |>)
  | WSleep d => fun n =>
      let '(fired, l) := next_of (net_waits n) true in
      Ret (fired, n <| net_waits := l |> <| net_slept ::= fun s => s ++ [d] |>
                    <| net_done ::= fun b => b || negb fired |>)
  | WRescan => modify (fun n => n <| net_rescans ::= Z.add 1 |>)
  | WNext => fun n =>
      let '(ev, l) := next_of (net_events n) None in
      let n := n <| net_events := l |> in
      match ev with
      | Some _ => Ret (ev, n)
      | None =>
          let '(ends, l) := next_of (net_ends n) false in
          Ret (ev, n <| net_ends := l |> <| net_done ::= fun b => b || ends |>)
      end
  | WNil => blocked
  | WSend t => fun n =>
      let '(full, l) := next_of (net_full n) false in
      Ret (negb full, n <| net_full := l |> <| net_sent ::= fun s => if full : bool then s else s ++ [t] |>)
  | WClose => modify (fun n => n <| net_closed := true |>)
  end.

(** ** The waits *)

Definition backoff_after (failures : nat) : Z := Z.min (2 ^ (Z.of_nat failures + 1)) 30 * 1000000000.

Lemma backoff_next i : Z.min (wrap64 (backoff_after i * 2)) maxBackoff = backoff_after (S i).
Proof.
  unfold backoff_after, maxBackoff. pose proof (Z.pow_pos_nonneg 2 (Z.of_nat i + 1)).
  rewrite wrap64_in by (unfold in64, minInt64, maxInt64; lia).
  replace (Z.of_nat (S i) + 1) with (Z.succ (Z.of_nat i + 1)) by lia. rewrite Z.pow_succ_r by lia. lia.
Qed.

Lemma backoff_range i : initialBackoff <= backoff_after i <= maxBackoff.
Proof.
  unfold backoff_after, initialBackoff, maxBackoff.
  assert (2 ^ 1 <= 2 ^ (Z.of_nat i + 1)) by (apply Z.pow_le_mono_r; lia). lia.
Qed.

Lemma run_loop turns fuel b n t n' : run net_handle (watch_turn fuel b) n = Ret (t, n') ->
  run net_handle (watch_loop (S turns) fuel b) n =
  match t with
  | Break => Ret (true, n' <| net_closed := true |>)
  | Again b' => run net_handle (watch_loop turns fuel b') n'
  end.
Proof.
  intros Ht. cbn [watch_loop]. rewrite run_bind. unfold mbind at 1, M_bind. rewrite Ht. by destruct t.
Qed.

(** A turn in which the store refuses, and the timer fires or does not. *)
Lemma refused_turn fuel b n l l' : net_done n = false -> net_watch n = false :: l -> net_waits n = true :: l' ->
  run net_handle (watch_turn fuel b) n =
  Ret (Again (Z.min (wrap64 (b * 2)) maxBackoff),
       n <| net_watch := l |> <| net_waits := l' |> <| net_slept ::= fun s => s ++ [b] |>).
Proof.
  intros Hd Hw Ht. destruct n. cbn in *. subst. cbn. unfold mbind, M_bind, gets. cbn. reflexivity.
Qed.

Lemma cancelled_turn fuel b n l l' : net_done n = false -> net_watch n = false :: l -> net_waits n = false :: l' ->
  run net_handle (watch_turn (S fuel) b) n = Blocked.
Proof.
  intros Hd Hw Ht. destruct n. cbn in *. subst. cbn. unfold mbind, M_bind, gets. cbn. reflexivity.
Qed.

Lemma run_call {A X : Type} (e : weff X) (f : X -> wprog A) n x n' : net_handle X e n = Ret (x, n') ->
  run net_handle (call e ≫= f) n = run net_handle (f x) n'.
Proof. intros He. cbn. unfold mbind, M_bind. by rewrite He. Qed.

(** The tasks that find room in the channel, when [full] says which do not;
    the [default] of the [select] drops the others. *)
Fixpoint let_in (full : list bool) (ts : list fanOutTask) {struct ts} : list fanOutTask :=
  match ts, full with
  | [], _ => []
  | _, [] => ts
  | t :: ts', refused :: full' => if refused then let_in full' ts' else t :: let_in full' ts'
  end.

Lemma let_in_room ts : let_in [] ts = ts.
Proof. by destruct ts. Qed.

Lemma let_in_app ts ts' : forall full, let_in full (ts ++ ts') = let_in full ts ++ let_in (drop (length ts) full) ts'.
Proof.
  induction ts as [|t ts IH]; intros full; [done|].
  destruct full as [|[] full]; cbn; [by rewrite let_in_room| |]; by rewrite IH.
Qed.

(** The events that name a workflow and find room go on, in order. *)
Lemma consume_sends evs : forall fuel n l ends l', (length evs < fuel)%nat ->
  net_events n = (Some <$> evs) ++ None :: l -> net_ends n = ends :: l' ->
  run net_handle (consume fuel true) n =
  Ret (tt, n <| net_events := l |> <| net_ends := l' |> <| net_done ::= fun b => b || ends |>
             <| net_full ::= drop (length (omap event_task evs)) |>
             <| net_sent ::= fun s => s ++ let_in (net_full n) (omap event_task evs) |>).
Proof.
  induction evs as [|ev evs IH]; intros [|fuel] n l ends l' Hf Hev He; cbn in Hf; try lia.
  - destruct n. cbn in *. subst. cbn. unfold mbind, M_bind. cbn. by rewrite app_nil_r.
  - change (consume (S fuel) true) with (call WNext ≫= fun event : option Event =>
      match event with None => mret tt | Some event => forward_event event;; consume fuel true end).
    rewrite run_bind. unfold mbind at 1, M_bind.
    replace (run net_handle (call WNext) n) with
      (Ret (Some ev, n <| net_events := (Some <$> evs) ++ None :: l |>) : out (option Event * Net))
      by (destruct n; cbn in *; subst; done).
    set (n1 := n <| net_events := _ |>). rewrite run_bind. unfold mbind at 1, M_bind.
    assert (Hfw : run net_handle (forward_event ev) n1 =
      Ret (tt, n1 <| net_full ::= drop (length (omap event_task [ev])) |>
                  <| net_sent ::= fun s => s ++ let_in (net_full n) (omap event_task [ev]) |>)).
    { unfold forward_event. cbn [omap list_omap].
      destruct (event_task ev); destruct n as [? ? ? ? ? full ? ? ? ?]; cbn in *; subst; cbn; unfold mbind, M_bind;
        cbn; [destruct full as [|[] full]; cbn|]; by rewrite ?app_nil_r. }
    rewrite Hfw. rewrite (IH _ _ l ends l'); [|lia|done..].
    change (omap event_task (ev :: evs)) with (omap event_task ([ev] ++ evs)). rewrite omap_app, let_in_app.
    f_equal. f_equal. unfold n1. cbn. rewrite length_app, <- drop_drop, <- app_assoc. reflexivity.
Qed.

Lemma session_turn evs fuel b n l l2 ends l3 : (length evs < fuel)%nat ->
  net_done n = false -> net_watch n = true :: l ->
  net_events n = (Some <$> evs) ++ None :: l2 -> net_ends n = ends :: l3 ->
  run net_handle (watch_turn fuel b) n =
  Ret (if ends : bool then Break else Again initialBackoff,
       n <| net_watch := l |> <| net_events := l2 |> <| net_ends := l3 |> <| net_done := ends |>
         <| net_rescans ::= Z.add 1 |> <| net_full ::= drop (length (omap event_task evs)) |>
         <| net_sent ::= fun s => s ++ let_in (net_full n) (omap event_task evs) |>).
Proof.
  intros Hf Hd Hw Hev He. set (n1 := n <| net_watch := l |> <| net_rescans ::= Z.add 1 |>).
  pose proof (consume_sends evs fuel n1 l2 ends l3 Hf Hev He) as Hc.
  unfold watch_turn. rewrite (run_call _ _ _ false n) by (cbn; by rewrite <- Hd).
  rewrite (run_call _ _ _ true (n <| net_watch := l |>)) by (cbn; by rewrite Hw).
  change (mret None ≫= ?f) with (f (None : option turn)). cbv beta iota. unfold connected.
  rewrite run_bind. unfold mbind at 1, M_bind.
  rewrite (run_call _ _ _ tt n1) by done. rewrite Hc.
  rewrite (run_call _ _ _ ends (n1 <| net_events := l2 |> <| net_ends := l3 |> <| net_done := ends |>
    <| net_full ::= drop (length (omap event_task evs)) |>
    <| net_sent ::= fun s => s ++ let_in (net_full n) (omap event_task evs) |>)).
  - destruct n; cbn in *; by destruct ends.
  - destruct n; cbn in *. subst. by destruct ends.
Qed.

Lemma refused_turns k : forall i turns fuel n l l',
  net_done n = false -> net_watch n = replicate k false ++ l -> net_waits n = replicate k true ++ l' ->
  run net_handle (watch_loop (k + turns) fuel (backoff_after i)) n =
  run net_handle (watch_loop turns fuel (backoff_after (i + k)))
    (n <| net_watch := l |> <| net_waits := l' |> <| net_slept ::= fun s => s ++ (backoff_after <$> seq i k) |>).
Proof.
  induction k as [|k IH]; intros i turns fuel n l l' Hd Hw Ht.
  - destruct n. cbn in *. subst. by rewrite Nat.add_0_r, app_nil_r.
  - cbn [Nat.add]. rewrite (run_loop _ _ _ _ _ _ (refused_turn fuel _ n _ _ Hd Hw Ht)), backoff_next.
    rewrite (IH (S i) turns fuel _ l l') by done. rewrite <- Nat.add_succ_comm. f_equal.
    destruct n. cbn. by rewrite <- app_assoc.
Qed.

(** ** Properties of the goroutine that watches *)

(** While the store refuses, the goroutine waits 2, 4, 8, 16 seconds and
    then 30 each time, whatever the number of failures; it neither scans nor
    hands on anything meanwhile. *)
Theorem watcher_backs_off k turns fuel n l l' :
  net_done n = false -> net_watch n = replicate k false ++ l -> net_waits n = replicate k true ++ l' ->
  run net_handle (globalTaskWatcher (k + turns) fuel) n =
    run net_handle (watch_loop turns fuel (backoff_after k))
      (n <| net_watch := l |> <| net_waits := l' |> <| net_slept ::= fun s => s ++ (backoff_after <$> seq 0 k) |>) /\
  forall i, initialBackoff <= backoff_after i <= maxBackoff.
Proof. intros Hd Hw Ht. split; [by apply (refused_turns k 0)|apply backoff_range]. Qed.

(** C17: When the context ends while the goroutine watches, it stops: it has
    scanned once and handed on, in order, the events that name a workflow, those
    dropped that find the channel of the pool full (all of them, then, if it
    never is), and the channel is closed.  When it ends while the goroutine waits
    to connect again, it never returns: it goes on to receive from the channel
    that the failed call did not make. *)
Theorem watcher_stops_unless_waiting k turns fuel n evs l l' l2 l3 :
  net_done n = false -> (length evs < fuel)%nat ->
  net_watch n = replicate k false ++ l -> net_waits n = replicate k true ++ l' ->
  net_events n = (Some <$> evs) ++ None :: l2 -> net_ends n = true :: l3 ->
  (forall l0, l = true :: l0 -> exists n',
     run net_handle (globalTaskWatcher (k + S turns) fuel) n = Ret (true, n') /\
     net_sent n' = net_sent n ++ let_in (net_full n) (omap event_task evs) /\
     (net_full n = [] -> net_sent n' = net_sent n ++ omap event_task evs) /\ net_rescans n' = 1 + net_rescans n /\ net_closed n' = true) /\
  (forall l0 l1, l = false :: l0 -> l' = false :: l1 ->
     run net_handle (globalTaskWatcher (k + S turns) fuel) n = Blocked).
Proof.
  intros Hd Hf Hw Ht Hev He. unfold globalTaskWatcher. change initialBackoff with (backoff_after 0).
  rewrite (refused_turns k 0 _ _ n l l' Hd Hw Ht).
  set (n1 := n <| net_watch := l |> <| net_waits := l' |> <| net_slept ::= _ |>). cbn [Nat.add]. split.
  - intros l0 ->. rewrite (run_loop _ _ _ _ _ _ (session_turn evs fuel _ n1 l0 l2 true l3 Hf Hd eq_refl Hev He)).
    eexists. split_and!; [reflexivity..| |reflexivity|reflexivity].
    intros Hroom. cbn. by rewrite Hroom, let_in_room.
  - intros l0 l1 -> ->. destruct fuel as [|fuel]; [lia|]. cbn [watch_loop]. rewrite run_bind.
    unfold mbind at 1, M_bind. by rewrite (cancelled_turn fuel _ n1 l0 l1).
Qed.

(** A watch that is opened and closed again without the context's end is
    opened again at once: every turn scans, none waits. *)
Theorem reconnects_without_waiting turns fuel n l :
  (0 < fuel)%nat -> net_done n = false ->
  net_watch n = replicate turns true ++ l -> net_events n = replicate turns None -> net_ends n = replicate turns false ->
  exists n', run net_handle (globalTaskWatcher turns fuel) n = Ret (false, n') /\
    net_rescans n' = Z.of_nat turns + net_rescans n /\ net_slept n' = net_slept n.
Proof.
  intros Hf. unfold globalTaskWatcher. revert n.
  induction turns as [|turns IH]; intros n Hd Hw Hev He; [by exists n|].
  rewrite (run_loop _ _ _ _ _ _ (session_turn [] fuel _ n _ _ false _ Hf Hd Hw Hev He)).
  destruct (IH (n <| net_watch := replicate turns true ++ l |> <| net_events := replicate turns None |>
    <| net_ends := replicate turns false |> <| net_done := false |> <| net_rescans ::= Z.add 1 |>
    <| net_full ::= drop 0 |> <| net_sent ::= fun s => s ++ let_in (net_full n) [] |>)) as (n' & Hr & Hn & Hs); [done..|].
  exists n'. split_and!; [exact Hr| |exact Hs]. rewrite Hn. cbn [net_rescans]. cbn. lia.
Qed.

(** ** The pool *)

(** [p_accepted], [p_taken] and [p_delivered] remember what was put into the
    channel, taken out of it, and given to [dispatch]; [p_picks] says which case
    a [select] with several ready ones takes. *)
Record Pipe := MkPipe {
  fanOutCh : list fanOutTask;
  p_done : bool;
  p_picks : list bool;
  p_accepted : list fanOutTask;
  p_dropped : list fanOutTask;
  p_taken : list fanOutTask;
  p_delivered : list (string * TaskPayload) }.

#[export] Instance eta_Pipe : Eta Pipe := fun s =>
  MkPipe (fanOutCh s) (p_done s) (p_picks s) (p_accepted s) (p_dropped s) (p_taken s) (p_delivered s).

Inductive peff : Type -> Type :=
| PSend (t : fanOutTask) : peff bool
| PRecv : peff (option fanOutTask)
| PDispatch (workflowUUID : string) (payload : TaskPayload) : peff unit.

Abbreviation pprog := (io peff).

(** [PRecv]: [None] when the worker sees the context's end. *)
Definition pipe_handle (X : Type) (e : peff X) : M Pipe X :=
  match e in peff X return M Pipe X with
  | PSend t => fun s =>
      if decide (length (fanOutCh s) < fanOutChanBuf)%nat then
        Ret (true, s <| fanOutCh ::= fun l => l ++ [t] |> <| p_accepted ::= fun l => l ++ [t] |>)
      else Ret (false, s <| p_dropped ::= fun l => l ++ [t] |>)
  | PRecv => fun s =>
      let '(pick, picks) := next_of (p_picks s) false in
      match fanOutCh s with
      | t :: l =>
          if p_done s && pick then Ret (None, s <| p_picks := picks |>)
          else Ret (Some t, s <| p_picks := picks |> <| fanOutCh := l |> <| p_taken ::= fun l => l ++ [t] |>)
      | [] => if p_done s then Ret (None, s) else Blocked
      end
  | PDispatch u p => modify (fun s => s <| p_delivered ::= fun l => l ++ [(u, p)] |>)
  end.

Fixpoint producer (events : list Event) : pprog unit :=
  match events with
  | [] => mret tt
  | event :: events' =>
      match event_task event with
      | None => producer events'
      | Some task => call (PSend task);; producer events'
      end
  end.

(** What a worker makes of a task that it can decode. *)
Definition delivery (t : fanOutTask) : option (string * TaskPayload) :=
  v ← ft_decoded t;
  let payload := Deserialize v <| EtcdKey := ft_key t |> in
  Some (WorkflowID payload, payload).

Fixpoint fan_out_worker (fuel : nat) : pprog unit :=
  match fuel with
  | O => mret tt
  | S fuel' =>
      t ← call PRecv;
      match t with
      | None => mret tt
      | Some task =>
          match delivery task with
          | None => fan_out_worker fuel'
          | Some (workflowUUID, payload) => call (PDispatch workflowUUID payload);; fan_out_worker fuel'
          end
      end
  end.

Definition cancel (s s' : Pipe) : Prop := s' = s <| p_done := true |>.

(** ** What a goroutine has in its hands *)

(** A worker holds a task, or none; the producer the tasks it has yet to send. *)
Inductive hand : Type := Worker (t : option fanOutTask) | Producer (l : list fanOutTask).

Definition in_hand (h : hand) : option (string * TaskPayload) :=
  match h with Worker t => t ≫= delivery | Producer _ => None end.
Definition unsent (h : hand) : list fanOutTask := match h with Worker _ => [] | Producer l => l end.

Definition may (h : hand) {X : Type} (e : peff X) : Prop :=
  match e with
  | PSend t => exists l, h = Producer (t :: l)
  | PRecv => in_hand h = None /\ unsent h = []
  | PDispatch u p => in_hand h = Some (u, p)
  end.

Definition then_ (h : hand) {X : Type} (e : peff X) : X -> hand :=
  match e in peff X return X -> hand with
  | PSend _ => fun _ => Producer (tail (unsent h))
  | PRecv => fun t => Worker t
  | PDispatch _ _ => fun _ => Worker None
  end.

Fixpoint keeps (h : hand) (p : pprog unit) : Prop :=
  match p with
  | Pure _ => in_hand h = None /\ unsent h = []
  | Vis e k => may h e /\ forall x, keeps (then_ h e x) (k x)
  end.

Lemma producer_keeps events : keeps (Producer (omap event_task events)) (producer events).
Proof.
  induction events as [|ev l IH]; cbn; [done|]. destruct (event_task ev) as [t|]; [|done].
  split; [by eexists|]. intros ?. exact IH.
Qed.

Lemma worker_keeps fuel : forall t, in_hand (Worker t) = None -> keeps (Worker t) (fan_out_worker fuel).
Proof.
  induction fuel as [|fuel IH]; intros t0 Hh; [done|]. split; [done|]. intros [t|]; [|done].
  change (keeps (Worker (Some t)) (match delivery t with
    | None => fan_out_worker fuel
    | Some (u, p) => call (PDispatch u p);; fan_out_worker fuel end)).
  destruct (delivery t) as [[u p]|] eqn:Ht; [|by apply IH]. split; [done|]. intros ?. by apply IH.
Qed.

Definition held (hs : list hand) : list (string * TaskPayload) := omap in_hand hs.
Definition to_send (hs : list hand) : list fanOutTask := concat (unsent <$> hs).

Lemma held_insert hs (i : nat) h h' : hs !! i = Some h ->
  option_list (in_hand h) ++ held (<[i := h']> hs) ≡ₚ option_list (in_hand h') ++ held hs.
Proof.
  revert i. induction hs as [|x hs IH]; intros [|i] Hi; simplify_eq/=.
  - unfold held. cbn. destruct (in_hand h), (in_hand h'); cbn; try done. constructor.
  - specialize (IH i Hi). unfold held in *. cbn. destruct (in_hand x) as [y|]; [|done].
    rewrite <- !Permutation_middle. by constructor.
Qed.

Lemma to_send_insert hs (i : nat) h h' : hs !! i = Some h ->
  unsent h ++ to_send (<[i := h']> hs) ≡ₚ unsent h' ++ to_send hs.
Proof. apply concat_fmap_insert. Qed.

(** Nothing is lost or made up on the way, but what a full channel refuses. *)
Definition conserved (all : list fanOutTask) (s : Pipe) (hs : list hand) : Prop :=
  p_accepted s ++ p_dropped s ++ to_send hs ≡ₚ all /\
  p_accepted s = p_taken s ++ fanOutCh s /\ (length (fanOutCh s) <= fanOutChanBuf)%nat /\
  p_delivered s ++ held hs ≡ₚ omap delivery (p_taken s).

Lemma pipe_send all s hs (i : nat) h t x s' :
  conserved all s hs -> hs !! i = Some h -> may h (PSend t) -> pipe_handle _ (PSend t) s = Ret (x, s') ->
  conserved all s' (<[i := then_ h (PSend t) x]> hs).
Proof.
  intros (Hs & Ha & Hl & Hp) Hi [l ->] Hh. cbn [then_ unsent tail pipe_handle] in *.
  pose proof (held_insert hs i _ (Producer l) Hi) as Hheld. cbn in Hheld.
  pose proof (to_send_insert hs i _ (Producer l) Hi) as Hsend. cbn in Hsend.
  assert (Hsend' : to_send hs ≡ₚ t :: to_send (<[i := Producer l]> hs)).
  { apply (Permutation_app_inv_l l). rewrite <- Hsend. apply Permutation_middle. }
  case_decide; injection Hh as <- <-; split_and!; cbn; try done; try (by rewrite Hheld).
  - rewrite <- Hs, Hsend', <- (app_assoc (p_accepted s)). cbn. apply Permutation_app_head.
    rewrite !app_comm_cons. rewrite <- Permutation_middle. done.
  - by rewrite Ha, app_assoc.
  - rewrite length_app. cbn. lia.
  - rewrite <- Hs, Hsend', <- (app_assoc (p_dropped s)). done.
Qed.

Lemma pipe_recv all s hs (i : nat) h x s' :
  conserved all s hs -> hs !! i = Some h -> may h PRecv -> pipe_handle _ PRecv s = Ret (x, s') ->
  conserved all s' (<[i := then_ h PRecv x]> hs).
Proof.
  intros (Hs & Ha & Hl & Hp) Hi [Hin Hun] Hh. cbn [then_ pipe_handle] in *.
  pose proof (held_insert hs i h (Worker x) Hi) as Hheld. rewrite Hin in Hheld. cbn [option_list app] in Hheld.
  pose proof (to_send_insert hs i h (Worker x) Hi) as Hsend. rewrite Hun in Hsend. cbn [unsent app] in Hsend.
  assert (Hall : p_accepted s ++ p_dropped s ++ to_send (<[i:=Worker x]> hs) ≡ₚ all) by (by rewrite Hsend).
  destruct (next_of (p_picks s) false) as [pick picks]. destruct (fanOutCh s) as [|t l] eqn:Hch.
  { destruct (p_done s); [|done]. injection Hh as <- <-.
    split_and!; [done|by rewrite Hch|by rewrite Hch|]. by rewrite Hheld. }
  destruct (p_done s && pick); injection Hh as <- <-.
  - split_and!; cbn; [done|by rewrite Hch|by rewrite Hch|by rewrite Hheld].
  - split_and!; cbn; [done|by rewrite Ha, <- app_assoc|cbn in Hl; lia|].
    rewrite Hheld, omap_app, <- Hp. cbn. destruct (delivery t); cbn; [|by rewrite app_nil_r].
    rewrite <- app_assoc. apply Permutation_app_head. symmetry. apply Permutation_app_comm.
Qed.

Lemma pipe_call all s hs (i : nat) h X (e : peff X) x s' :
  conserved all s hs -> hs !! i = Some h -> may h e -> pipe_handle X e s = Ret (x, s') ->
  conserved all s' (<[i := then_ h e x]> hs).
Proof.
  intros Hc Hi Hm Hh. destruct e as [t| |u p]; [by eapply pipe_send|by eapply pipe_recv|].
  destruct Hc as (Hs & Ha & Hl & Hp). cbn [then_ may pipe_handle] in *.
  pose proof (held_insert hs i h (Worker None) Hi) as Hheld. rewrite Hm in Hheld. cbn in Hheld.
  pose proof (to_send_insert hs i h (Worker None) Hi) as Hsend. cbn in Hsend.
  assert (Hun : unsent h = []) by (by destruct h). rewrite Hun in Hsend. cbn in Hsend.
  injection Hh as <- <-. split_and!; cbn; [by rewrite Hsend|done..|].
  by rewrite <- Hp, <- Hheld, <- app_assoc.
Qed.

(** ** The pool, in any interleaving *)

Definition keep_all (hs : list hand) (pool : list (pprog unit)) : Prop := Forall2 keeps hs pool.

Lemma pool_conserved all s pool s' pool' hs :
  conserved all s hs -> keep_all hs pool -> rtc (pool_step pipe_handle cancel) (s, pool) (s', pool') ->
  exists hs', conserved all s' hs' /\ keep_all hs' pool'.
Proof.
  intros Hc Hk Hrun.
  pose (I := fun (s : Pipe) (l : list (pprog unit)) => exists hs, conserved all s hs /\ keep_all hs l).
  refine (pool_invariant pipe_handle cancel I _ _ _ _ Hrun _); [| |by exists hs].
  - clear. intros s l i X e k a s' (hs & Hc & Hk) Hi Hh.
    destruct (Forall2_lookup_r _ _ _ _ _ Hk Hi) as (h & Hhi & Hm & Hnext).
    exists (<[i := then_ h e a]> hs). split; [by eapply pipe_call|]. apply Forall2_insert; [done|]. apply Hnext.
  - clear. intros s s' l (hs & (Hs & Ha & Hl & Hp) & Hk) ->. by exists hs.
Qed.

Definition new_pipe (picks : list bool) : Pipe := MkPipe [] false picks [] [] [] [].

Definition pipe_pool (events : list Event) (fuels : list nat) : list (pprog unit) :=
  producer events :: (fan_out_worker <$> fuels).

Lemma held_length hs : (length (held hs) <= length hs)%nat.
Proof. unfold held. induction hs as [|h hs IH]; cbn; [lia|]. destruct (in_hand h); cbn; lia. Qed.

Lemma pool_length s (pool : list (pprog unit)) s' pool' :
  rtc (pool_step pipe_handle cancel) (s, pool) (s', pool') -> length pool' = length pool.
Proof.
  intros Hrun. refine (pool_invariant pipe_handle cancel (fun _ l => length l = length pool) _ _ _ _ Hrun eq_refl).
  - intros s1 l i X e k a s2 Hn _ _. by rewrite length_insert.
  - done.
Qed.

Definition idle_hands (events : list Event) (fuels : list nat) : list hand :=
  Producer (omap event_task events) :: ((fun _ => Worker None) <$> fuels).

Lemma new_conserved events fuels picks :
  conserved (omap event_task events) (new_pipe picks) (idle_hands events fuels).
Proof.
  assert (H : to_send ((fun _ => Worker None) <$> fuels) = [] /\ held ((fun _ => Worker None) <$> fuels) = []).
  { unfold to_send, held. by induction fuels. }
  destruct H as [Hs Hh]. unfold conserved, idle_hands, new_pipe, to_send, held in *. cbn in *.
  rewrite Hs, Hh, app_nil_r. split_and!; [done..|lia|done].
Qed.

Lemma pool_keeps events fuels : keep_all (idle_hands events fuels) (pipe_pool events fuels).
Proof.
  constructor; [apply producer_keeps|]. apply Forall2_fmap, Forall_Forall2_diag, list.Forall_forall.
  intros n _. by apply worker_keeps.
Qed.

(** C16: Whatever the order in which the producer and the workers take turns,
    and whenever the context ends: every event that names a workflow is sent
    once, and then taken from the channel or still in it, in order, or dropped,
    which only a full channel does; what the workers have taken and could
    decode has been dispatched or is in their hands, each event once and one to
    a goroutine.  When all have finished, nothing is in their hands. *)
Theorem fan_out_conserves events fuels picks s pool :
  rtc (pool_step pipe_handle cancel) (new_pipe picks, pipe_pool events fuels) (s, pool) ->
  exists unsent in_hands,
    p_accepted s ++ p_dropped s ++ unsent ≡ₚ omap event_task events /\
    p_accepted s = p_taken s ++ fanOutCh s /\ (length (fanOutCh s) <= fanOutChanBuf)%nat /\
    p_delivered s ++ in_hands ≡ₚ omap delivery (p_taken s) /\
    (length in_hands <= S (length fuels))%nat /\
    (Forall (fun p => exists x, p = Pure x) pool -> unsent = [] /\ in_hands = []).
Proof.
  intros Hrun.
  destruct (pool_conserved _ _ _ _ _ _ (new_conserved events fuels picks) (pool_keeps events fuels) Hrun)
    as (hs & (Hs & Ha & Hl & Hp) & Hk).
  exists (to_send hs), (held hs). split_and!; try done.
  { etrans; [apply held_length|]. rewrite (Forall2_length _ _ _ Hk), (pool_length _ _ _ _ Hrun).
    unfold pipe_pool. cbn. by rewrite length_fmap. }
  clear -Hk. intros Hfin.
  unfold to_send, held. induction Hk as [|h p hs pool Hh Hk IH]; [done|].
  apply list.Forall_cons in Hfin as [[x ->] Hfin]. destruct Hh as [Hin Hun]. destruct (IH Hfin) as [IH1 IH2].
  cbn. by rewrite Hun, Hin, IH1, IH2.
Qed.

(** ** Witnesses *)

Definition ex_event (task : string) : Event :=
  let p := zero_payload <| WorkflowID := "u" |> <| TaskName := task |> in MkEvent_ true task "" (Some p) (Some p).

Definition ex_net : Net :=
  MkNet [false; false; true] [Some (ex_event "a"); None] [true] [true; true] false [] [] 0 [] false.

Lemma watcher_backs_off_witness :
  net_slept <$> (match run net_handle (globalTaskWatcher 2 5) ex_net with Ret (_, n) => Some n | _ => None end) =
    Some [2 * 1000000000; 4 * 1000000000].
Proof.
  destruct (watcher_backs_off 2 0 5 ex_net [true] [] eq_refl eq_refl eq_refl) as [Hr _].
  change (2 + 0)%nat with 2%nat in Hr. rewrite Hr. vm_compute. reflexivity.
Defined.

Lemma watcher_stops_unless_waiting_witness :
  (exists n', run net_handle (globalTaskWatcher 3 5) ex_net = Ret (true, n') /\ length (net_sent n') = 1%nat) /\
  run net_handle (globalTaskWatcher 2 5) (ex_net <| net_waits := [true; false] |>) = Blocked.
Proof.
  split.
  - destruct (watcher_stops_unless_waiting 2 0 5 ex_net [ex_event "a"] [true] [] [] []) as [H _]; try reflexivity.
    { cbn. lia. }
    destruct (H [] eq_refl) as (n' & Hr & Hs & _). exists n'. split; [exact Hr|]. rewrite Hs. reflexivity.
  - refine (proj2 (watcher_stops_unless_waiting 1 0 5 (ex_net <| net_waits := [true; false] |>)
      [ex_event "a"] [false; true] [false] [] [] _ _ _ _ _ _) [true] [] eq_refl eq_refl); try reflexivity. cbn. lia.
Defined.

Lemma reconnects_without_waiting_witness :
  exists n', run net_handle (globalTaskWatcher 3 1)
    (ex_net <| net_watch := [true; true; true] |> <| net_events := [None; None; None] |>
       <| net_ends := [false; false; false] |>) = Ret (false, n') /\ net_rescans n' = 3 /\ net_slept n' = [].
Proof.
  destruct (reconnects_without_waiting 3 1 (ex_net <| net_watch := [true; true; true] |>
    <| net_events := [None; None; None] |> <| net_ends := [false; false; false] |>) []) as (n' & Hr & Hn & Hs);
    [lia|reflexivity..|].
  exists n'. split_and!; [exact Hr|exact Hn|exact Hs].
Defined.

(** Two events of one workflow, two workers: the second event can be the first
    to be dispatched. *)
Lemma fan_out_conserves_witness :
  exists s pool,
    rtc (pool_step pipe_handle cancel) (new_pipe [], pipe_pool [ex_event "a"; ex_event "b"] [1; 1]%nat) (s, pool) /\
    (TaskName <$> (p_delivered s).*2) = ["b"; "a"] /\
    exists unsent in_hands, p_accepted s ++ p_dropped s ++ unsent ≡ₚ omap event_task [ex_event "a"; ex_event "b"] /\
      p_delivered s ++ in_hands ≡ₚ omap delivery (p_taken s).
Proof.
  destruct (schedule pipe_handle [0; 0; 1; 2; 2; 1]%nat (new_pipe [], pipe_pool [ex_event "a"; ex_event "b"] [1; 1]%nat))
    as [[s pool]|] eqn:E; [|by vm_compute in E].
  pose proof (schedule_reach pipe_handle cancel _ _ _ E) as Hr. exists s, pool. split_and!.
  - exact Hr.
  - vm_compute in E. injection E as <- _. reflexivity.
  - destruct (fan_out_conserves [ex_event "a"; ex_event "b"] [1; 1]%nat [] s pool Hr) as (un & hs & Hs & _ & _ & Hp & _).
    by exists un, hs.
Defined.
