(* ===== verification/PersistPool.v ===== *)
(** * The persistence pool (infra/engine/scheduler/repository.go:
    persistWorkerPool, persistToMySQL, persistToMySQLInternal)

    The runs that end hand their last state to a channel of 128 jobs, from
    which 32 goroutines write to MySQL.  Repository.v runs a job as one step of
    the scheduler; here senders and workers take turns in any order, and the
    same programs, run alone on the scheduler's state, are those of
    Repository.v. *)
From Stdlib Require Import ZArith Lia.
From stdpp Require Import base gmap strings list relations.
From S2P Require Import Prelude GoVal Model Dispatcher Circuit World Manager Repository Effects.
Set Warnings "-register-all,-clear-no-such-hyp,-level-tolerance".
Local Open Scope Z_scope.
Local Open Scope list_scope.

Definition persistWorkerPoolSize : nat := 32.
Definition persistEnqueueTimeout : Z := 5 * Second.

(** ** The programs *)

(** [JTrySend] is the [select] with a [default]; [JSend] the one that waits for
    room, the timer or the context, [false] in the last two cases; [JRecv]
    answers [None] when the worker sees the context's end; [JWrite] whether the
    store reports no error.  [JExit] is the deferred [wg.Done]. *)
Inductive jeff : Type -> Type :=
| JTrySend (job : persistJob) : jeff bool
| JSend (job : persistJob) : jeff bool
| JRecv : jeff (option persistJob)
| JAllow : jeff bool
| JSuccess : jeff unit
| JFailure : jeff unit
| JWrite (wr : db_write) : jeff bool
| JSleep (attempt : Z) : jeff unit
| JExit : jeff unit
| JClose : jeff unit
| JWait : jeff unit.

Abbreviation jprog := (io jeff).

Definition submit (job : persistJob) : jprog bool :=
  sent ← call (JTrySend job);
  if sent : bool then mret true else call (JSend job).

(** A job that is not taken is skipped, with a warning in the log. *)
Definition persistToMySQL (job : persistJob) : jprog unit := submit job;; mret tt.

Fixpoint write_attempts (fuel : nat) (i : Z) (wr : db_write) : jprog bool :=
  match fuel with
  | O => mret false
  | S fuel' =>
      ok ← call (JWrite wr);
      if ok : bool then mret true
      else
        match fuel' with
        | O => mret false
        | _ => call (JSleep i);; write_attempts fuel' (i + 1) wr
        end
  end.

Definition status_write (job : persistJob) : db_write :=
  WUpdateWorkflowStatus (job_workflowID job) (status_string (job_status job)).

Definition exec_write (job : persistJob) : db_write :=
  WUpdateExecution (job_execID job) (job_val job) (status_string (job_status job)) (job_errMsg job).

Definition persistToMySQLInternal (job : persistJob) : jprog unit :=
  allowed ← call JAllow;
  if negb allowed then mret tt
  else
    statusOk ← write_attempts 3 0 (status_write job);
    (if statusOk : bool then mret tt else call JFailure);;
    execOk ← write_attempts 3 0 (exec_write job);
    if execOk : bool then call JSuccess else call JFailure.

Fixpoint worker (fuel : nat) : jprog unit :=
  match fuel with
  | O => mret tt
  | S fuel' =>
      job ← call JRecv;
      match job with
      | None => call JExit
      | Some job => persistToMySQLInternal job;; worker fuel'
      end
  end.

Definition shutdown : jprog unit := call JClose;; call JWait.

(** ** The pool they share *)

Section store.

(** The history store: given whether the context of the call is done, a write
    and what it holds, whether it reports success and what it holds then.  A
    call whose context is done fails and writes nothing.  [zeroJob] is what a
    receive from a closed channel gives. *)
Context {DB : Type} (store : bool -> db_write -> DB -> bool * DB) (zeroJob : persistJob).

(** [q_accepted], [q_refused] and [q_taken] remember the jobs sent, given up
    and received, [q_written] the writes that succeeded.  [q_pick] and [q_timer] say
    which ready case a [select] takes and whether the sender's five seconds are over. *)
Record Pool := MkPool {
  q_jobs : list persistJob;
  q_closed : bool;
  q_done : bool;
  q_wg : Z;
  q_breaker : Breaker;
  q_now : Z;
  q_db : DB;
  q_pick : bool;
  q_timer : bool;
  q_accepted : list persistJob;
  q_refused : list persistJob;
  q_taken : list persistJob;
  q_written : list db_write }.

#[global] Instance eta_Pool : Eta Pool := fun s =>
  MkPool (q_jobs s) (q_closed s) (q_done s) (q_wg s) (q_breaker s) (q_now s) (q_db s) (q_pick s) (q_timer s)
    (q_accepted s) (q_refused s) (q_taken s) (q_written s).

Definition pool_send (job : persistJob) (s : Pool) : Pool :=
  s <| q_jobs ::= fun l => l ++ [job] |> <| q_accepted ::= fun l => l ++ [job] |>.

Definition has_room (s : Pool) : bool := bool_decide (length (q_jobs s) < persistQueueSize)%nat.

(** A send on the closed channel panics; a receive from it gives what is left
    and then zero values. *)
Definition pool_handle (X : Type) (e : jeff X) : M Pool X :=
  match e in jeff X return M Pool X with
  | JTrySend job => fun s =>
      if q_closed s then Panic
      else if has_room s then Ret (true, pool_send job s) else Ret (false, s)
  | JSend job => fun s =>
      let gives_up := q_timer s || q_done s in
      if (q_closed s || has_room s) && negb (gives_up && q_pick s) then
        (if q_closed s then Panic else Ret (true, pool_send job s))
      else if gives_up then Ret (false, s <| q_refused ::= fun l => l ++ [job] |>)
      else Blocked
  | JRecv => fun s =>
      if q_done s && q_pick s then Ret (None, s)
      else
        match q_jobs s with
        | job :: l => Ret (Some job, s <| q_jobs := l |> <| q_taken ::= fun l => l ++ [job] |>)
        | [] =>
            if q_closed s then Ret (Some zeroJob, s)
            else if q_done s then Ret (None, s) else Blocked
        end
  | JAllow => fun s => let '(ok, b) := Allow (q_now s) (q_breaker s) in Ret (ok, s <| q_breaker := b |>)
  | JSuccess => modify (fun s => s <| q_breaker ::= Success (q_now s) |>)
  | JFailure => modify (fun s => s <| q_breaker ::= Failure (q_now s) |>)
  | JWrite wr => fun s =>
      let '(ok, db) := store (q_done s) wr (q_db s) in
      Ret (ok, s <| q_db := db |> <| q_written ::= fun l => if ok : bool then l ++ [wr] else l |>)
  | JSleep _ => mret tt
  | JExit => modify (fun s => s <| q_wg ::= Z.pred |>)
  | JClose => fun s => if q_closed s then Panic else Ret (tt, s <| q_closed := true |>)
  | JWait => fun s => if q_wg s =? 0 then Ret (tt, s) else Blocked
  end.

(** What the rest of the program does to it: time passes, timers fire, other
    calls use the breaker and the database, the context may end, for good. *)
Definition pool_others (s s' : Pool) : Prop :=
  (q_done s = true -> q_done s' = true) /\
  q_jobs s' = q_jobs s /\ q_closed s' = q_closed s /\ q_wg s' = q_wg s /\
  q_accepted s' = q_accepted s /\ q_refused s' = q_refused s /\ q_taken s' = q_taken s /\
  q_written s' = q_written s.

Definition newPersistWorkerPool (size : nat) (b : Breaker) (now : Z) (db : DB) : Pool :=
  MkPool [] false false (Z.of_nat size) b now db false false [] [] [] [].

(** The runs that end, and the workers, each with the turns it gets. *)
Definition persist_pool (submitted : list persistJob) (fuels : list nat) : list (jprog unit) :=
  (persistToMySQL <$> submitted) ++ (worker <$> fuels).

(** ** What a goroutine has in its hands *)

(** A sender holds a job, or none; a worker the writes that are still to be
    made, then nothing once it has seen the context's end; [Closer] runs
    [shutdown]. *)
Inductive jhand : Type :=
| Sender (job : option persistJob)
| Writer (st ex : option db_write)
| Leaving
| Gone
| Closer.

Definition holds (h : jhand) : list persistJob := match h with Sender (Some job) => [job] | _ => [] end.
Definition to_write (h : jhand) : list db_write :=
  match h with Writer st ex => option_list st ++ option_list ex | _ => [] end.

Definition hand_may (h : jhand) {X : Type} (e : jeff X) : Prop :=
  match e with
  | JTrySend job | JSend job => h = Sender (Some job)
  | JRecv | JAllow | JSuccess | JFailure | JSleep _ => exists st ex, h = Writer st ex
  | JWrite wr =>
      exists st ex, h = Writer st ex /\
        ((st = Some wr /\ exists n v, wr = WUpdateWorkflowStatus n v) \/
         (ex = Some wr /\ exists n v x m, wr = WUpdateExecution n v x m))
  | JExit => h = Leaving
  | JClose | JWait => h = Closer
  end.

Definition written_off (h : jhand) (wr : db_write) : jhand :=
  match h, wr with
  | Writer st ex, WUpdateWorkflowStatus _ _ => Writer None ex
  | Writer st ex, WUpdateExecution _ _ _ _ => Writer st None
  | _, _ => h
  end.

Definition hand_then (h : jhand) {X : Type} (e : jeff X) : X -> jhand :=
  match e in jeff X return X -> jhand with
  | JTrySend _ => fun ok => if ok : bool then Sender None else h
  | JSend _ => fun _ => Sender None
  | JRecv => fun job =>
      match job with Some job => Writer (Some (status_write job)) (Some (exec_write job)) | None => Leaving end
  | JWrite wr => fun ok => if ok : bool then written_off h wr else h
  | JExit => fun _ => Gone
  | JWait => fun _ => Gone
  | _ => fun _ => h
  end.

Definition finished (h : jhand) : Prop :=
  match h with Sender (Some _) | Leaving | Closer => False | _ => True end.

(** A program that, holding [h], makes only the calls [h] allows, and for each
    answer goes on the same way. *)
Fixpoint abides (h : jhand) {A : Type} (Q : jhand -> A -> Prop) (p : jprog A) : Prop :=
  match p with
  | Pure a => Q h a
  | Vis e k => hand_may h e /\ forall x, abides (hand_then h e x) Q (k x)
  end.

Lemma abides_bind {A B : Type} (p : jprog A) (f : A -> jprog B) h Q R :
  abides h Q p -> (forall h' a, Q h' a -> abides h' R (f a)) -> abides h R (p ≫= f).
Proof.
  revert h. induction p as [a|X e k IH]; intros h Hp Hf; [by apply Hf|].
  destruct Hp as [Hm Hk]. split; [done|]. intros x. by apply IH.
Qed.

Lemma abides_impl {A : Type} (p : jprog A) h Q R :
  abides h Q p -> (forall h' a, Q h' a -> R h' a) -> abides h R p.
Proof.
  revert h. induction p as [a|X e k IH]; intros h Hp HQ; [by apply HQ|].
  destruct Hp as [Hm Hk]. split; [done|]. intros x. by apply IH.
Qed.

Definition ends {A : Type} (h : jhand) (_ : A) : Prop := finished h.

Lemma sender_abides job : abides (Sender (Some job)) ends (persistToMySQL job).
Proof.
  unfold persistToMySQL, submit, ends. cbn. split; [done|]. intros [|]; [done|]. cbn.
  split; [done|]. by intros ?.
Qed.

Lemma status_attempts_abide fuel n v : forall i ex,
  abides (Writer (Some (WUpdateWorkflowStatus n v)) ex) (fun h _ => exists st, h = Writer st ex)
    (write_attempts fuel i (WUpdateWorkflowStatus n v)).
Proof.
  induction fuel as [|fuel IH]; intros i ex; [by eexists|]. cbn [write_attempts].
  split; [by eexists _, _; split; [done|left; split; [done|by eexists _, _]]|].
  intros [|]; cbn; [by eexists|]. destruct fuel as [|fuel]; [by eexists|]. split; [by eexists _, _|].
  intros ?. apply (IH (i + 1) ex).
Qed.

Lemma exec_attempts_abide fuel n v x m : forall i st,
  abides (Writer st (Some (WUpdateExecution n v x m))) (fun h _ => exists st ex, h = Writer st ex)
    (write_attempts fuel i (WUpdateExecution n v x m)).
Proof.
  induction fuel as [|fuel IH]; intros i st; [by eexists _, _|]. cbn [write_attempts].
  split; [by eexists _, _; split; [done|right; split; [done|by eexists _, _, _, _]]|].
  intros [|]; cbn; [by eexists _, _|]. destruct fuel as [|fuel]; [by eexists _, _|]. split; [by eexists _, _|].
  intros ?. apply (IH (i + 1) st).
Qed.

Definition at_work {A : Type} (h : jhand) (_ : A) : Prop := exists st ex, h = Writer st ex.

Lemma process_abides job :
  abides (Writer (Some (status_write job)) (Some (exec_write job))) at_work (persistToMySQLInternal job).
Proof.
  unfold persistToMySQLInternal. split; [by eexists _, _|]. intros [|]; cbn [negb]; [|by eexists _, _].
  eapply abides_bind; [apply status_attempts_abide|]. intros h ok [st ->].
  eapply (abides_bind _ _ _ (fun h (_ : unit) => h = Writer st (Some (exec_write job)))).
  { destruct ok; [done|]. split; [by eexists _, _|]. done. }
  intros h _ ->. eapply abides_bind; [apply exec_attempts_abide|]. intros h' ok' (st' & ex' & ->).
  destruct ok'; (split; [by eexists _, _|]; intros ?; by eexists _, _).
Qed.

Lemma worker_abides fuel : forall st ex, abides (Writer st ex) ends (worker fuel).
Proof.
  induction fuel as [|fuel IH]; intros st ex; [done|]. split; [by eexists _, _|]. intros [job|].
  - change (abides (Writer (Some (status_write job)) (Some (exec_write job))) ends
      (persistToMySQLInternal job;; worker fuel)).
    eapply abides_bind; [apply process_abides|]. intros h _ (st' & ex' & ->). apply IH.
  - cbn. split; [done|]. by intros ?.
Qed.

Lemma shutdown_abides : abides Closer ends shutdown.
Proof. cbn. split; [done|]. intros ?. split; [done|]. by intros ?. Qed.

(** ** The jobs and the writes are conserved *)

Definition unsent_jobs (hs : list jhand) : list persistJob := concat (holds <$> hs).
Definition unmade_writes (hs : list jhand) : list db_write := concat (to_write <$> hs).
Definition job_writes (job : persistJob) : list db_write := [status_write job; exec_write job].

(** No hand is [shutdown]'s, and the channel is open. *)
Record accounts (all : list persistJob) (s : Pool) (hs : list jhand) : Prop := Accounts {
  acc_open : q_closed s = false;
  acc_hands : Forall (fun h => h <> Closer) hs;
  acc_jobs : q_accepted s ++ q_refused s ++ unsent_jobs hs ≡ₚ all;
  acc_fifo : q_accepted s = q_taken s ++ q_jobs s;
  acc_room : (length (q_jobs s) <= persistQueueSize)%nat;
  acc_writes : exists lost, q_written s ++ lost ++ unmade_writes hs ≡ₚ concat (job_writes <$> q_taken s) }.

(** A call that moves no job and no write. *)
Lemma accounts_same all s s' hs (i : nat) h h' :
  accounts all s hs -> hs !! i = Some h -> h' <> Closer -> holds h' = holds h -> to_write h' = to_write h ->
  q_closed s' = q_closed s -> q_accepted s' = q_accepted s -> q_refused s' = q_refused s ->
  q_taken s' = q_taken s -> q_jobs s' = q_jobs s -> q_written s' = q_written s ->
  accounts all s' (<[i := h']> hs).
Proof.
  intros [Ho Hh Hj Hf Hl Hw] Hi Hc Eh Ew E1 E2 E3 E4 E5 E6.
  pose proof (concat_fmap_insert holds hs i h h' Hi) as H1. rewrite Eh in H1. apply Permutation_app_inv_l in H1.
  pose proof (concat_fmap_insert to_write hs i h h' Hi) as H2. rewrite Ew in H2. apply Permutation_app_inv_l in H2.
  split; rewrite ?E1, ?E2, ?E3, ?E4, ?E5, ?E6; try done.
  - by apply Forall_insert.
  - unfold unsent_jobs. by rewrite H1.
  - destruct Hw as [lost Hw]. exists lost. unfold unmade_writes. by rewrite H2.
Qed.

Lemma accounts_outside all s s' hs : accounts all s hs -> pool_others s s' -> accounts all s' hs.
Proof.
  intros [Ho Hh Hj Hf Hl Hw] (_ & E1 & E2 & _ & E3 & E4 & E5 & E6). split; by rewrite ?E1, ?E2, ?E3, ?E4, ?E5, ?E6.
Qed.

(** A sender's job goes to the channel, or is given up. *)
Lemma unsent_sent hs (i : nat) job : hs !! i = Some (Sender (Some job)) ->
  job :: unsent_jobs (<[i := Sender None]> hs) ≡ₚ unsent_jobs hs /\
  unmade_writes (<[i := Sender None]> hs) ≡ₚ unmade_writes hs.
Proof.
  intros Hi. split; [exact (concat_fmap_insert holds hs i _ (Sender None) Hi)|].
  exact (concat_fmap_insert to_write hs i _ (Sender None) Hi).
Qed.

Lemma accounts_sent all s hs (i : nat) job : accounts all s hs -> hs !! i = Some (Sender (Some job)) ->
  has_room s = true -> accounts all (pool_send job s) (<[i := Sender None]> hs).
Proof.
  intros [Ho Hh Hj Hf Hl [lost Hw]] Hi Hr. destruct (unsent_sent hs i job Hi) as [Hu Hm].
  apply bool_decide_eq_true in Hr. split; cbn; try done.
  - by apply Forall_insert.
  - rewrite <- Hj, <- Hu, <- (app_assoc (q_accepted s)). cbn. apply Permutation_app_head, Permutation_middle.
  - by rewrite Hf, app_assoc.
  - rewrite length_app. cbn. lia.
  - exists lost. by rewrite Hm.
Qed.

Lemma accounts_refused all s hs (i : nat) job : accounts all s hs -> hs !! i = Some (Sender (Some job)) ->
  accounts all (s <| q_refused ::= fun l => l ++ [job] |>) (<[i := Sender None]> hs).
Proof.
  intros [Ho Hh Hj Hf Hl [lost Hw]] Hi. destruct (unsent_sent hs i job Hi) as [Hu Hm]. split; cbn; try done.
  - by apply Forall_insert.
  - rewrite <- Hj, <- Hu, <- (app_assoc (q_refused s)). done.
  - exists lost. by rewrite Hm.
Qed.

Lemma accounts_taken all s hs (i : nat) st ex job l : accounts all s hs -> hs !! i = Some (Writer st ex) ->
  q_jobs s = job :: l ->
  accounts all (s <| q_jobs := l |> <| q_taken ::= fun l => l ++ [job] |>)
    (<[i := Writer (Some (status_write job)) (Some (exec_write job))]> hs).
Proof.
  intros [Ho Hh Hj Hf Hl [lost Hw]] Hi Eq. set (h' := Writer _ _).
  pose proof (concat_fmap_insert holds hs i _ h' Hi) as H1. cbn in H1.
  pose proof (concat_fmap_insert to_write hs i _ h' Hi) as H2.
  rewrite Eq in Hf, Hl. split; cbn; try done.
  - by apply Forall_insert.
  - unfold unsent_jobs. by rewrite H1.
  - by rewrite Hf, <- app_assoc.
  - cbn in Hl. lia.
  - exists (lost ++ to_write (Writer st ex)). rewrite fmap_app, concat_app, <- Hw. unfold unmade_writes.
    rewrite <- (app_assoc lost), H2. cbn. rewrite <- !app_assoc. do 2 apply Permutation_app_head.
    exact (Permutation_app_comm [status_write job; exec_write job] _).
Qed.

Lemma accounts_written all s hs (i : nat) h wr db : accounts all s hs -> hs !! i = Some h ->
  hand_may h (JWrite wr) ->
  accounts all (s <| q_db := db |> <| q_written ::= fun l => l ++ [wr] |>) (<[i := written_off h wr]> hs).
Proof.
  intros [Ho Hh Hj Hf Hl [lost Hw]] Hi (st & ex & -> & Hcase).
  pose proof (concat_fmap_insert holds hs i _ (written_off (Writer st ex) wr) Hi) as H1.
  pose proof (concat_fmap_insert to_write hs i _ (written_off (Writer st ex) wr) Hi) as H2.
  assert (Hx : wr :: unmade_writes (<[i := written_off (Writer st ex) wr]> hs) ≡ₚ unmade_writes hs /\
    written_off (Writer st ex) wr <> Closer /\ holds (written_off (Writer st ex) wr) = []).
  { destruct Hcase as [[-> (n & v & ->)]|[-> (n & v & x & m & ->)]]; cbn in *; split_and!; try done.
    - apply (Permutation_app_inv_l (option_list ex)). rewrite <- H2. symmetry. apply Permutation_middle.
    - apply (Permutation_app_inv_l (option_list st)). rewrite app_nil_r, <- app_assoc in H2. exact H2. }
  destruct Hx as (Hm & Hc & E). rewrite E in H1. cbn in H1. split; cbn; try done.
  - by apply Forall_insert.
  - unfold unsent_jobs. by rewrite H1.
  - exists lost. rewrite <- Hw, <- app_assoc. apply Permutation_app_head. cbn.
    rewrite (Permutation_middle lost), Hm. done.
Qed.

Lemma accounts_left all s hs (i : nat) st ex : accounts all s hs -> hs !! i = Some (Writer st ex) ->
  accounts all s (<[i := Leaving]> hs).
Proof.
  intros [Ho Hh Hj Hf Hl [lost Hw]] Hi.
  pose proof (concat_fmap_insert holds hs i _ Leaving Hi) as H1. cbn in H1.
  pose proof (concat_fmap_insert to_write hs i _ Leaving Hi) as H2. split; try done.
  - by apply Forall_insert.
  - unfold unsent_jobs. by rewrite H1.
  - exists (lost ++ to_write (Writer st ex)). rewrite <- Hw. unfold unmade_writes. rewrite <- (app_assoc lost), H2.
    done.
Qed.

Lemma accounts_send all s hs (i : nat) h job x s' : accounts all s hs -> hs !! i = Some h ->
  hand_may h (JSend job) -> pool_handle _ (JSend job) s = Ret (x, s') ->
  accounts all s' (<[i := hand_then h (JSend job) x]> hs).
Proof.
  intros Ha Hi -> Hh. cbn [pool_handle hand_then] in *. rewrite (acc_open _ _ _ Ha) in Hh. cbn [orb] in Hh.
  destruct (has_room s) eqn:Hr, (q_timer s || q_done s), (q_pick s); cbn [andb negb] in Hh; try done;
    injection Hh as <- <-; by (apply accounts_sent || apply accounts_refused).
Qed.

Lemma accounts_recv all s hs (i : nat) h x s' : accounts all s hs -> hs !! i = Some h ->
  hand_may h JRecv -> pool_handle _ JRecv s = Ret (x, s') -> accounts all s' (<[i := hand_then h JRecv x]> hs).
Proof.
  intros Ha Hi (st & ex & ->) Hh. cbn [pool_handle hand_then] in *. rewrite (acc_open _ _ _ Ha) in Hh.
  destruct (q_done s && q_pick s); [injection Hh as <- <-; by eapply accounts_left|].
  destruct (q_jobs s) as [|job l] eqn:Eq.
  - destruct (q_done s); [|done]. injection Hh as <- <-. by eapply accounts_left.
  - injection Hh as <- <-. by eapply accounts_taken.
Qed.

Lemma accounts_call all s hs (i : nat) h X (e : jeff X) x s' : accounts all s hs -> hs !! i = Some h ->
  hand_may h e -> pool_handle X e s = Ret (x, s') -> accounts all s' (<[i := hand_then h e x]> hs).
Proof.
  intros Ha Hi Hm Hh. pose proof (acc_hands _ _ _ Ha) as Hc. apply (Forall_lookup_1 _ _ _ _ Hc) in Hi as Hn.
  destruct e as [job|job| | | | |wr|a| | |];
    [|by eapply accounts_send|by eapply accounts_recv| | | | | | |by rewrite Hm in Hn|by rewrite Hm in Hn].
  - cbn in Hm, Hh. subst h. rewrite (acc_open _ _ _ Ha) in Hh. destruct (has_room s) eqn:Hr; injection Hh as <- <-.
    + by apply accounts_sent.
    + by eapply accounts_same.
  - cbn in Hh. destruct (Allow _ _). injection Hh as <- <-. by eapply accounts_same.
  - injection Hh as <- <-. by eapply accounts_same.
  - injection Hh as <- <-. by eapply accounts_same.
  - cbn [pool_handle] in Hh. destruct (store _ _ _) as [ok db]. injection Hh as <- <-. cbn [hand_then].
    destruct ok; [by eapply accounts_written|by eapply accounts_same].
  - injection Hh as <- <-. by eapply accounts_same.
  - injection Hh as <- <-. cbn in Hm. subst h. by eapply accounts_same.
Qed.

(** ** In any interleaving *)

Definition abide_all (hs : list jhand) (pool : list (jprog unit)) : Prop :=
  Forall2 (fun h p => abides h ends p) hs pool.

(** An invariant of the state and the hands holds along every run of programs
    that abide by their hands. *)
Lemma hands_invariant (I : Pool -> list jhand -> Prop) (out : Pool -> Pool -> Prop) s pool s' pool' hs :
  (forall s hs (i : nat) h X (e : jeff X) x s', I s hs -> hs !! i = Some h -> hand_may h e ->
     pool_handle X e s = Ret (x, s') -> I s' (<[i := hand_then h e x]> hs)) ->
  (forall s s' hs, I s hs -> out s s' -> I s' hs) ->
  I s hs -> abide_all hs pool -> rtc (pool_step pool_handle out) (s, pool) (s', pool') ->
  exists hs', I s' hs' /\ abide_all hs' pool'.
Proof.
  intros Hcall Hout Hi Hk Hrun.
  pose (J := fun (s : Pool) (l : list (jprog unit)) => exists hs, I s hs /\ abide_all hs l).
  refine (pool_invariant pool_handle out J _ _ _ _ Hrun _); [| |by exists hs].
  - clear -Hcall. intros s l i X e k a s' (hs & Hc & Hk) Hi Hh.
    destruct (Forall2_lookup_r _ _ _ _ _ Hk Hi) as (h & Hhi & Hm & Hnext).
    exists (<[i := hand_then h e a]> hs). split; [by eapply Hcall|]. apply Forall2_insert; [done|]. apply Hnext.
  - clear -Hout. intros s s' l (hs & Hc & Hk) Ho. exists hs. split; [by eapply Hout|done].
Qed.

Definition first_hands (submitted : list persistJob) (fuels : list nat) : list jhand :=
  ((fun job => Sender (Some job)) <$> submitted) ++ ((fun _ => Writer None None) <$> fuels).

Lemma first_hands_hold submitted fuels :
  unsent_jobs (first_hands submitted fuels) = submitted /\ unmade_writes (first_hands submitted fuels) = [].
Proof.
  unfold unsent_jobs, unmade_writes, first_hands. rewrite !fmap_app, !concat_app, <- !list_fmap_compose.
  assert (H : concat (holds ∘ (fun _ : nat => Writer None None) <$> fuels) = [] /\
    concat (to_write ∘ (fun _ : nat => Writer None None) <$> fuels) = []).
  { by induction fuels. }
  destruct H as [-> ->]. rewrite !app_nil_r. induction submitted as [|job l [IH1 IH2]]; [done|]. cbn.
  split; [by f_equal|done].
Qed.

Lemma workers_abide fuels : abide_all ((fun _ => Writer None None) <$> fuels) (worker <$> fuels).
Proof. apply Forall2_fmap, Forall_Forall2_diag, list.Forall_forall. intros n _. apply worker_abides. Qed.

Lemma first_hands_abide submitted fuels :
  abide_all (first_hands submitted fuels) (persist_pool submitted fuels).
Proof.
  apply Forall2_app; [|apply workers_abide].
  apply Forall2_fmap, Forall_Forall2_diag, list.Forall_forall. intros job _. apply sender_abides.
Qed.

Lemma new_accounts submitted fuels b t db :
  accounts submitted (newPersistWorkerPool (length fuels) b t db) (first_hands submitted fuels).
Proof.
  destruct (first_hands_hold submitted fuels) as [Hu Hm]. split; cbn; try done.
  - apply Forall_app. split; apply Forall_fmap, Forall_true; done.
  - by rewrite Hu.
  - lia.
  - exists []. by rewrite Hm.
Qed.

(** Once the context is done nothing more is written. *)
Lemma done_call X (e : jeff X) s x s' : (forall wr db, (store true wr db).1 = false) ->
  pool_handle X e s = Ret (x, s') -> q_done s = true -> q_done s' = true /\ q_written s' = q_written s.
Proof.
  intros Hst Hh Hd. destruct e as [job|job| | | | |wr|a| | |]; cbn [pool_handle] in Hh.
  - destruct (q_closed s); [done|]. destruct (has_room s); by injection Hh as <- <-.
  - destruct (_ && _); [destruct (q_closed s); [done|]|destruct (_ || _); [|done]]; by injection Hh as <- <-.
  - destruct (_ && _); [by injection Hh as <- <-|]. destruct (q_jobs s); [|by injection Hh as <- <-].
    destruct (q_closed s); [by injection Hh as <- <-|]. rewrite Hd in Hh. by injection Hh as <- <-.
  - destruct (Allow _ _). by injection Hh as <- <-.
  - by injection Hh as <- <-.
  - by injection Hh as <- <-.
  - rewrite Hd in Hh. specialize (Hst wr (q_db s)). destruct (store _ _ _) as [ok db].
    cbn in Hst. subst ok. by injection Hh as <- <-.
  - by injection Hh as <- <-.
  - by injection Hh as <- <-.
  - destruct (q_closed s); [done|]. by injection Hh as <- <-.
  - destruct (_ =? _); [|done]. by injection Hh as <- <-.
Qed.

Lemma done_writes_nothing s (pool : list (jprog unit)) s' pool' : (forall wr db, (store true wr db).1 = false) ->
  rtc (pool_step pool_handle pool_others) (s, pool) (s', pool') -> q_done s = true ->
  q_done s' = true /\ q_written s' = q_written s.
Proof.
  intros Hst Hrun Hd.
  refine (pool_invariant pool_handle pool_others (fun x _ => q_done x = true /\ q_written x = q_written s)
    _ _ _ _ Hrun (conj Hd eq_refl)).
  - intros x l i X e k a x' [Hd1 Hw1] _ Hh.
    destruct (done_call X e x a x' Hst Hh Hd1) as [Hd2 Hw2]. split; [done|congruence].
  - intros x x' l [Hd1 Hw1] (Hd2 & _ & _ & _ & _ & _ & _ & Hw2). split; [by apply Hd2|congruence].
Qed.

(** C25: Whatever the order in which the runs that end and the workers take
    turns, and whenever the context ends: every submitted job is sent once, or
    given up, or still with its sender; the jobs received are the ones sent, in
    order, and at most 128 wait; every write that succeeds is one of the two of
    a job received, each made at most once.  From the moment the context is
    done nothing is written any more, though jobs may still be sent: those
    waiting then, and those received and not written, never are. *)
Theorem persist_pool_conserves submitted fuels b t db s pool :
  (forall wr db, (store true wr db).1 = false) ->
  rtc (pool_step pool_handle pool_others) (newPersistWorkerPool (length fuels) b t db, persist_pool submitted fuels)
    (s, pool) ->
  exists unsent unwritten,
    q_accepted s ++ q_refused s ++ unsent ≡ₚ submitted /\
    q_accepted s = q_taken s ++ q_jobs s /\ (length (q_jobs s) <= persistQueueSize)%nat /\
    q_written s ++ unwritten ≡ₚ concat (job_writes <$> q_taken s) /\
    (Forall (fun p => exists x, p = Pure x) pool -> unsent = []) /\
    (q_done s = true -> forall s' pool', rtc (pool_step pool_handle pool_others) (s, pool) (s', pool') ->
       exists lost, q_written s' = q_written s /\ q_written s' ++ lost ≡ₚ concat (job_writes <$> q_accepted s')).
Proof.
  intros Hst Hrun. set (s0 := newPersistWorkerPool _ _ _ _) in Hrun.
  assert (Hinv : forall s pool, rtc (pool_step pool_handle pool_others) (s0, persist_pool submitted fuels) (s, pool) ->
    exists hs, accounts submitted s hs /\ abide_all hs pool).
  { intros x l Hx. refine (hands_invariant _ _ _ _ _ _ _ _ _ (new_accounts submitted fuels b t db)
      (first_hands_abide submitted fuels) Hx); [apply accounts_call|by apply accounts_outside]. }
  destruct (Hinv _ _ Hrun) as (hs & [Ho Hh Hj Hf Hl [lost Hw]] & Hk).
  exists (unsent_jobs hs), (lost ++ unmade_writes hs). split_and!; try done.
  - clear -Hk. intros Hfin. unfold unsent_jobs. induction Hk as [|h p hs pool Hh Hk IH]; [done|].
    apply list.Forall_cons in Hfin as [[x ->] Hfin]. cbn. rewrite (IH Hfin), app_nil_r.
    by destruct h as [[|]| | | |].
  - intros Hd s' pool' Hrun'. destruct (done_writes_nothing _ _ _ _ Hst Hrun' Hd) as [_ Hw'].
    destruct (Hinv s' pool') as (hs' & [_ _ _ Hf' _ [lost' Hl']] & _); [by etrans|].
    exists (lost' ++ unmade_writes hs' ++ concat (job_writes <$> q_jobs s')). split; [done|].
    rewrite Hf', fmap_app, concat_app, <- Hl', <- !app_assoc. done.
Qed.

(** ** Closing the pool *)

(** Others, while the scheduler's context lives. *)
Definition pool_others_alive (s s' : Pool) : Prop := pool_others s s' /\ q_done s' = q_done s.

Definition unclosed (n : Z) (s : Pool) (hs : list jhand) : Prop :=
  q_done s = false /\ q_wg s = n /\ hs !! 0%nat = Some Closer /\ Forall (fun h => h <> Leaving) hs.

Lemma unclosed_call n s hs (i : nat) h X (e : jeff X) x s' : n <> 0 -> unclosed n s hs -> hs !! i = Some h ->
  hand_may h e -> pool_handle X e s = Ret (x, s') -> unclosed n s' (<[i := hand_then h e x]> hs).
Proof.
  intros Hn (Hd & Hw & Hc & Hl) Hi Hm Hh. pose proof (Forall_lookup_1 _ _ _ _ Hl Hi) as Hh1.
  assert (Hgoal : forall h', q_done s' = false -> q_wg s' = n -> h' <> Leaving -> (h = Closer -> h' = Closer) ->
    unclosed n s' (<[i := h']> hs)).
  { intros h' H1 H2 H3 H4. split_and!; [done|done| |by apply Forall_insert]. destruct i as [|i].
    - rewrite Hc in Hi. injection Hi as <-. rewrite list_lookup_insert_eq; [by rewrite H4|].
      by eapply lookup_lt_Some.
    - by rewrite list_lookup_insert_ne. }
  destruct e as [job|job| | | | |wr|a| | |]; cbn [pool_handle] in Hh.
  - cbn in Hm. subst h. destruct (q_closed s); [done|]. destruct (has_room s); injection Hh as <- <-; by apply Hgoal.
  - cbn in Hm. subst h. destruct (_ && _); [destruct (q_closed s); [done|]|destruct (_ || _); [|done]];
      injection Hh as <- <-; by apply Hgoal.
  - destruct Hm as (st & ex & ->). rewrite Hd in Hh. cbn [andb] in Hh.
    destruct (q_jobs s); [destruct (q_closed s); [|done]|]; injection Hh as <- <-; by apply Hgoal.
  - destruct Hm as (st & ex & ->). destruct (Allow _ _). injection Hh as <- <-. by apply Hgoal.
  - destruct Hm as (st & ex & ->). injection Hh as <- <-. by apply Hgoal.
  - destruct Hm as (st & ex & ->). injection Hh as <- <-. by apply Hgoal.
  - destruct Hm as (st & ex & -> & _). destruct (store _ _ _) as [ok db]. injection Hh as <- <-.
    apply Hgoal; [done|done| |done]. by destruct ok, wr.
  - destruct Hm as (st & ex & ->). injection Hh as <- <-. by apply Hgoal.
  - done.
  - cbn in Hm. subst h. destruct (q_closed s); [done|]. injection Hh as <- <-. by apply Hgoal.
  - destruct (q_wg s =? 0) eqn:E; [lia|done].
Qed.

Lemma unclosed_outside n s s' hs : unclosed n s hs -> pool_others_alive s s' -> unclosed n s' hs.
Proof. intros (H1 & H2 & H3 & H4) [(_ & _ & _ & E & _) E']. split_and!; [by rewrite E'|by rewrite E|done..]. Qed.

(** Closing the pool does not end its workers: a receive from the closed
    channel gives a zero job, which they write, over and over; until the
    context ends [shutdown] waits for them. *)
Theorem shutdown_never_returns fuels s s' pool :
  fuels <> [] -> q_done s = false -> q_wg s = Z.of_nat (length fuels) ->
  rtc (pool_step pool_handle pool_others_alive) (s, shutdown :: (worker <$> fuels)) (s', pool) ->
  q_wg s' = q_wg s /\ forall x, pool !! 0%nat <> Some (Pure x).
Proof.
  intros Hne Hd Hw Hrun.
  assert (Hn : q_wg s <> 0) by (destruct fuels; cbn in Hw; [done|lia]).
  assert (Hk : abide_all (Closer :: ((fun _ => Writer None None) <$> fuels)) (shutdown :: (worker <$> fuels)))
    by (constructor; [apply shutdown_abides|apply workers_abide]).
  assert (Hu : unclosed (q_wg s) s (Closer :: ((fun _ => Writer None None) <$> fuels))).
  { split_and!; [done..|]. constructor; [done|]. apply Forall_fmap, Forall_true. done. }
  destruct (hands_invariant (unclosed (q_wg s)) pool_others_alive s _ s' pool _
    (fun x hs i h X e a x' => unclosed_call (q_wg s) x hs i h X e a x' Hn)
    (unclosed_outside (q_wg s)) Hu Hk Hrun) as (hs & (_ & Hw' & Hc & _) & Hk').
  split; [done|]. intros x Hx. destruct (Forall2_lookup_lr _ _ _ _ _ _ Hk' Hc Hx).
Qed.

End store.

(** ** Alone, the programs are those of the sequential model *)

(** The scheduler's state as the pool's: the channel is its list of jobs,
    from which nobody takes while a sender waits, so that its timer fires. *)
Definition write_answer (hs : HistoryStore) (wr : db_write) (n : nat) : res string unit :=
  match wr with
  | WUpdateWorkflowStatus id status => UpdateWorkflowStatus hs n id status
  | WUpdateExecution id val status msg => UpdateExecution hs n id val status msg
  | _ => Ok tt
  end.

Section world.
Context `{Naming} (hs : HistoryStore).

Definition world_handle (X : Type) (e : jeff X) : M World X :=
  match e in jeff X return M World X with
  | JTrySend job => fun w =>
      if (length (jobs w) <? persistQueueSize)%nat then Ret (true, w <| jobs ::= fun l => l ++ [job] |>)
      else Ret (false, w)
  | JSend _ => mret false
  | JRecv => fun w =>
      match jobs w with [] => Blocked | job :: l => Ret (Some job, w <| jobs := l |>) end
  | JAllow => breaker_allow
  | JSuccess => breaker_success
  | JFailure => breaker_failure
  | JWrite wr => r ← db_write_call wr (write_answer hs wr); mret (is_ok r)
  | JSleep i => rnd ← draw_u64; sleep (backoffWithJitter i persistBaseBackoff persistMaxBackoff rnd)
  | JExit | JClose | JWait => blocked
  end.

Lemma attempts_alone fuel wr f : (forall n, write_answer hs wr n = f n) -> forall i w,
  run world_handle (write_attempts fuel i wr) w = attempts fuel i (db_write_call wr f) w.
Proof.
  intros Hf. induction fuel as [|fuel IH]; intros i w; [done|].
  cbn [write_attempts attempts]. rewrite run_bind. unfold mbind at 1, M_bind.
  cbn. unfold mbind, M_bind, db_write_call. rewrite Hf. cbn.
  destruct (f (dbCalls w)) as [u|err]; cbn; [done|]. destruct fuel as [|fuel]; [done|].
  cbn [run]. unfold mbind, M_bind. cbn. apply IH.
Qed.

Lemma run_then {A B : Type} (p : jprog A) (f : A -> jprog B) (m : M World A) (g : A -> M World B) w :
  run world_handle p w = m w ->
  (forall a w', m w = Ret (a, w') -> run world_handle (f a) w' = g a w') ->
  run world_handle (p ≫= f) w = (m ≫= g) w.
Proof.
  intros Hp Hf. rewrite run_bind. unfold mbind, M_bind. rewrite Hp.
  destruct (m w) as [[a w']| |]; [by apply Hf|done..].
Qed.

Lemma run_one {X : Type} (e : jeff X) w : run world_handle (call e) w = world_handle X e w.
Proof. cbn. unfold mbind, M_bind. by destruct (world_handle X e w) as [[x w']| |]. Qed.

Lemma process_alone job w : historyStore w = Some hs ->
  run world_handle (persistToMySQLInternal job) w = Repository.persistToMySQLInternal job w.
Proof.
  intros Hs. apply run_then; [apply run_one|]. intros ok w1 Ha. destruct ok; cbn [negb]; [|done].
  assert (Hs1 : historyStore w1 = Some hs).
  { unfold breaker_allow in Ha. destruct (Allow _ _). by injection Ha as _ <-. }
  unfold mbind at 4, M_bind, gets. rewrite Hs1. fold (@M_bind World).
  apply run_then; [by apply attempts_alone|]. intros statusOk w2 _.
  apply run_then; [destruct statusOk; [done|apply run_one]|]. intros _ w3 _.
  apply run_then; [by apply attempts_alone|]. intros [|] w4 _; apply run_one.
Qed.

(** With a store, and nobody else at work, the programs of the pool do to the
    scheduler's state what the sequential model says: a submission appends the
    job unless the channel is full, and a worker's turn takes the first job and
    writes it with the same attempts, waits and reports to the breaker. *)
Theorem pool_alone_is_sequential job w : historyStore w = Some hs ->
  run world_handle (persistToMySQL job) w = Ret (tt, w <| jobs ::= submit_job job |>) /\
  run world_handle (persistToMySQLInternal job) w = Repository.persistToMySQLInternal job w /\
  (jobs w <> [] -> run world_handle (worker 1) w = pool_worker w).
Proof.
  intros Hs. split_and!; [|by apply process_alone|].
  - change (w <| jobs ::= submit_job job |>) with (w <| jobs := submit_job job (jobs w) |>). unfold submit_job.
    unfold persistToMySQL, submit. rewrite run_bind. unfold mbind at 1, M_bind.
    rewrite run_bind. unfold mbind at 1, M_bind. rewrite run_one. unfold world_handle at 1.
    destruct (length (jobs w) <? persistQueueSize)%nat; [done|]. by destruct w.
  - intros Hj. destruct (jobs w) as [|j l] eqn:E; [done|]. unfold pool_worker.
    unfold mbind at 1, M_bind, gets. rewrite E. cbn [worker]. rewrite run_bind. unfold mbind at 1, M_bind.
    rewrite run_one. unfold world_handle at 1. rewrite E.
    change (run world_handle (persistToMySQLInternal j;; mret tt) (w <| jobs := l |>) =
      Repository.persistToMySQLInternal j (w <| jobs := l |>)).
    rewrite run_bind. unfold mbind, M_bind. rewrite process_alone by done.
    by destruct (Repository.persistToMySQLInternal _ _) as [[[] w']| |].
Qed.

End world.

(** ** Witnesses *)

Definition ex_job (uuid : string) (st : WorkflowStatus) (execID : Z) : persistJob :=
  MkJob uuid 7 execID st "" (ex_state <| Status := st |>).

(** A store that holds what was written, unless the context is done. *)
Definition ex_store (ended : bool) (wr : db_write) (db : list db_write) : bool * list db_write :=
  if ended then (false, db) else (true, db ++ [wr]).

Definition ex_pool (n : nat) : Pool := newPersistWorkerPool n (NewBreaker "mysql" 5 (30 * Second) 0) 0 ([] : list db_write).

(** Two runs of one workflow end one after the other; two workers take their
    jobs in that order, and write them in the other: the row of the workflow
    keeps the status of the run that ended first. *)
Theorem statuses_can_swap j1 j2 :
  exists s pool,
    rtc (pool_step (pool_handle ex_store j1) pool_others) (ex_pool 2, persist_pool [j1; j2] [1; 1]%nat) (s, pool) /\
    q_accepted s = [j1; j2] /\ q_db s = job_writes j2 ++ job_writes j1.
Proof.
  destruct (schedule (pool_handle ex_store j1) [0; 1; 2; 3; 3; 3; 3; 3; 2; 2; 2; 2]%nat
    (ex_pool 2, persist_pool [j1; j2] [1; 1]%nat)) as [[s pool]|] eqn:E; [|vm_compute in E; discriminate].
  exists s, pool. split; [by eapply schedule_reach|]. vm_compute in E. injection E as <- _. split; reflexivity.
Qed.

(** The context ends while one job waits and another is in the worker's hands:
    neither is ever written. *)
Definition ex_cancel (s : Pool) : Pool (DB := list db_write) := s <| q_done := true |>.

Lemma persist_pool_conserves_witness :
  let j1 := ex_job "a" WorkflowStatusCompleted 1 in
  let j2 := ex_job "b" WorkflowStatusFailed 2 in
  exists s pool,
    rtc (pool_step (pool_handle ex_store j1) pool_others) (ex_pool 1, persist_pool [j1; j2] [2%nat]) (s, pool) /\
    q_accepted s = [j1; j2] /\ q_jobs s = [j2] /\
    forall s' pool', rtc (pool_step (pool_handle ex_store j1) pool_others) (s, pool) (s', pool') -> q_written s' = [].
Proof.
  intros j1 j2.
  destruct (schedule (pool_handle ex_store j1) [0; 1; 2]%nat (ex_pool 1, persist_pool [j1; j2] [2%nat]))
    as [[s pool]|] eqn:E; [|vm_compute in E; discriminate].
  assert (Hacc : q_accepted s = [j1; j2] /\ q_jobs s = [j2] /\ q_written s = []).
  { vm_compute in E. injection E as <- _. done. }
  destruct Hacc as (Ha & Hj & Hw).
  assert (Hrun : rtc (pool_step (pool_handle ex_store j1) pool_others) (ex_pool 1, persist_pool [j1; j2] [2%nat])
    (ex_cancel s, pool)).
  { eapply rtc_r; [by eapply schedule_reach|]. apply step_outside. by repeat split. }
  exists (ex_cancel s), pool. split_and!; [exact Hrun|exact Ha|exact Hj|].
  destruct (persist_pool_conserves ex_store j1 [j1; j2] [2%nat] (NewBreaker "mysql" 5 (30 * Second) 0) 0 []
    (ex_cancel s) pool) as (u & l & _ & _ & _ & _ & _ & H); [done|exact Hrun|].
  intros s' pool' Hrun'. destruct (H eq_refl s' pool' Hrun') as (lost & H1 & _). rewrite H1. exact Hw.
Defined.

(** One worker of a closed pool: each turn writes a zero job. *)
Lemma shutdown_never_returns_witness :
  let zero := MkJob "" 0 0 WorkflowStatusPending "" ex_state in
  exists s pool,
    rtc (pool_step (pool_handle ex_store zero) pool_others_alive) (ex_pool 1, shutdown :: (worker <$> [9%nat])) (s, pool) /\
    q_db s = job_writes zero ++ job_writes zero /\ q_wg s = 1.
Proof.
  intros zero.
  destruct (schedule (pool_handle ex_store zero) [0; 1; 1; 1; 1; 1; 1; 1; 1; 1; 1]%nat
    (ex_pool 1, shutdown :: (worker <$> [9%nat]))) as [[s pool]|] eqn:E; [|vm_compute in E; discriminate].
  assert (Hrun : rtc (pool_step (pool_handle ex_store zero) pool_others_alive) (ex_pool 1, shutdown :: (worker <$> [9%nat]))
    (s, pool)) by (by eapply schedule_reach).
  exists s, pool. split_and!; [exact Hrun| |].
  - vm_compute in E. injection E as <- _. reflexivity.
  - exact (proj1 (shutdown_never_returns ex_store zero [9%nat] (ex_pool 1) s pool ltac:(discriminate)
      eq_refl eq_refl Hrun)).
Defined.

Lemma pool_alone_is_sequential_witness :
  let w := ex_db_world <| jobs := [ex_job "a" WorkflowStatusCompleted 1] |> in
  run (world_handle ex_hs) (worker 1) w = pool_worker w /\
  length (match pool_worker w with Ret (_, w') => dbLog w' | _ => [] end) = 2%nat.
Proof.
  intros w. split; [|vm_compute; reflexivity].
  refine (proj2 (proj2 (pool_alone_is_sequential ex_hs (ex_job "a" WorkflowStatusCompleted 1) w eq_refl)) _).
  discriminate.
Defined.
