(* ===== verification/Runtime.v ===== *)
(** * The worker's side (infra/engine/runtime)

    The task registry, the status reporter, the lock of a task by
    compare-and-set and the two ways to execute a task, as trees of the calls
    they make: on etcd, on the circuit breaker, on the clock and its timers, on
    the source of randomness and on the user's task code. *)
From Stdlib Require Import ZArith Lia String.
From stdpp Require Import base gmap strings list pretty.
From S2P Require Import Prelude GoVal Model Circuit Payload Effects Etcd.
Set Warnings "-register-all,-clear-no-such-hyp,-level-tolerance".
Local Open Scope Z_scope.
Local Open Scope list_scope.

Definition Millisecond : Z := 1000000.

(** ** Task registry (registry.go) *)

(** A [model.Task]: its name, its parameters, and whether it is a
    [model.Rollbackable] too.  Its code is a call. *)
Record Task := MkUserTask { task_name : string; task_params : list Param; rollbackable : bool }.

Inductive registry_error : Type :=
| NameEmpty
| ParamsInvalid (p : Param)
| AlreadyRegistered (name : string).

Definition TaskRegistry : Type := gmap string Task.

Definition NewTaskRegistry : TaskRegistry := ∅.

Definition Register (task : Task) (r : TaskRegistry) : res registry_error TaskRegistry :=
  let name := task_name task in
  if decide (name = "") then Err NameEmpty
  else match ValidateTaskParams (task_params task) with
  | Err p => Err (ParamsInvalid p)
  | Ok _ =>
      match r !! name with
      | Some _ => Err (AlreadyRegistered name)
      | None => Ok (<[name := task]> r)
      end
  end.

Definition Get_task (name : string) (r : TaskRegistry) : option Task := r !! name.

(** The slices follow the iteration order of the map: some order. *)
Definition namesLocked (r : TaskRegistry) : list string := (map_to_list r).*1.

Definition typesLocked (r : TaskRegistry) : list TaskType :=
  (fun kv => MkTaskType (task_name kv.2) "" (task_params kv.2)) <$> map_to_list r.

Definition Registered (r : TaskRegistry) : list string := namesLocked r.
Definition RegisteredTypes (r : TaskRegistry) : list TaskType := typesLocked r.
Definition NamesAndTypes (r : TaskRegistry) : list string * list TaskType :=
  (namesLocked r, typesLocked r).

(** ** The calls of a worker *)

(** What the user's code does: the task context it leaves, an error (that
    wraps [model.ErrNoRetry] or not), or a panic. *)
Inductive run_result : Type :=
| RunOk (taskCtx : Context.Context)
| RunErr (msg : string) (noRetry : bool)
| RunPanic (msg : string).

Inductive eff : Type -> Type :=
| EGetWithRevision (key : string) : eff (res string (option TaskPayload * Z))
| ECASPut (key : string) (value : TaskPayload) (revision : Z) : eff (res string (bool * Z))
| EPut (key : string) (value : TaskPayload) : eff (res string unit)
| ELock (key : string) (timeout : Z) : eff (res string unit)
| EUnlock (key : string) : eff (res string unit)
| EAllow : eff bool
| ESuccess : eff unit
| EFailure : eff unit
| ECtxErr : eff bool                (* whether the context is done *)
| ESleep (d : Z) : eff bool         (* whether it was done before the timer *)
| ERand : eff (option Z)            (* eight random bytes, if they are there *)
| ENow : eff Z
| ERun (task : Task) (rollback : bool) (timeout : option Z) (paramCtx taskCtx : Context.Context)
  : eff run_result.

Abbreviation prog := (io eff).

(** ** Status reporter (reporter.go) *)

Definition reportMaxRetries : nat := 3.
Definition reportBaseBackoff : Z := 500 * Millisecond.
Definition reportMaxBackoff : Z := 5000 * Millisecond.

(** The remainder of a signed number: its sign is that of the random one. *)
Definition cryptoRandInt63n (n : Z) : prog Z :=
  if n <=? 0 then mret 0
  else
    b ← call ERand;
    match b with
    | None => t ← call ENow; mret (Z.rem t n)
    | Some u => mret (Z.rem (wrap64 u) n)
    end.

(** [float64] is exact on the few values this takes. *)
Definition report_backoff (attempt : nat) : Z :=
  Z.min (reportBaseBackoff * 2 ^ Z.of_nat attempt) reportMaxBackoff.

Fixpoint report_attempts (left attempt : nat) (key : string) (val : TaskPayload) : prog bool :=
  match left with
  | O => mret false
  | S left' =>
      dead ← call ECtxErr;
      if dead : bool then mret false
      else
        r ← call (EPut key val);
        match r with
        | Ok _ => call ESuccess;; mret true
        | Err _ =>
            if decide (left' = 0%nat) then call EFailure;; report_attempts left' (S attempt) key val
            else
              let backoff := report_backoff attempt in
              jitter ← cryptoRandInt63n (backoff `quot` 2);
              dead ← call (ESleep (backoff + jitter));
              if dead : bool then mret false else report_attempts left' (S attempt) key val
        end
  end.

Definition Report (key : string) (payload : TaskPayload) : prog bool :=
  match Serialize payload with
  | None => mret false
  | Some val =>
      allowed ← call EAllow;
      if allowed : bool then report_attempts reportMaxRetries 0 key val else mret false
  end.

(** ** The lock by compare-and-set (cas_lock.go) *)

Definition casMaxRetries : nat := 3.

Fixpoint acquire_attempts (left attempt : nat) (taskKey : string) : prog (option TaskPayload) :=
  match left with
  | O => mret None
  | S left' =>
      r ← call (EGetWithRevision taskKey);
      match r with
      | Err _ | Ok (None, _) => mret None
      | Ok (Some val, revision) =>
          let payload := Deserialize val in
          if decide (pl_Status payload = StatusPending) then
            match Serialize (payload <| pl_Status := StatusRunning |>) with
            | None => mret None
            | Some newVal =>
                r ← call (ECASPut taskKey newVal revision);
                match r with
                | Err _ => mret None
                | Ok (true, newRevision) =>
                    mret (Some (payload <| pl_Status := StatusRunning |>
                                        <| EtcdModRevision := newRevision |>))
                | Ok (false, _) =>
                    if decide (left' = 0%nat) then mret None
                    else
                      dead ← call (ESleep ((10 + Z.of_nat attempt * 20) * Millisecond));
                      if dead : bool then mret None else acquire_attempts left' (S attempt) taskKey
                end
            end
          else mret None
      end
  end.

Definition tryAcquire (taskKey : string) : prog (option TaskPayload) :=
  acquire_attempts casMaxRetries 0 taskKey.

Definition updateStatus (taskKey : string) (payload : TaskPayload) : prog bool :=
  match Serialize payload with
  | None => mret false
  | Some val =>
      if EtcdModRevision payload =? 0 then mret false
      else
        r ← call (ECASPut taskKey val (EtcdModRevision payload));
        match r with
        | Err _ => mret false
        | Ok (true, _) => mret true
        | Ok (false, _) =>
            r ← call (EGetWithRevision taskKey);
            match r with
            | Err _ | Ok (None, _) => mret false
            | Ok (Some latest, _) =>
                let status := pl_Status (Deserialize latest) in
                mret (bool_decide (status = StatusCompleted \/ status = StatusFailed))
            end
        end
  end.

(** ** Task executor (executor.go) *)

Definition defaultLockTimeout : Z := 30000 * Millisecond.

Inductive LockMode : Type := LockModeMutex | LockModeCAS.

Record TaskExecutor := MkExecutor {
  ex_prefix : string; ex_registry : TaskRegistry; lockTimeout : Z; lockMode : LockMode }.

#[export] Instance eta_TaskExecutor : Eta TaskExecutor := fun e =>
  MkExecutor (ex_prefix e) (ex_registry e) (lockTimeout e) (lockMode e).

Definition NewTaskExecutor (prefix : string) (reg : TaskRegistry) : TaskExecutor :=
  MkExecutor prefix reg defaultLockTimeout LockModeMutex.

Definition SetLockTimeout (d : Z) (e : TaskExecutor) : TaskExecutor :=
  if 0 <? d then e <| lockTimeout := d |> else e.

Definition SetLockMode (mode : LockMode) (e : TaskExecutor) : TaskExecutor :=
  e <| lockMode := mode |>.

Definition taskLockKey (prefix key : string) : string :=
  let relativeKey := if String.prefix prefix key
                     then String.substring (String.length prefix) (String.length key) key else key in
  prefix +:+ "lock/" +:+ relativeKey.

(** [run]: the error, and whether it wraps [model.ErrNoRetry]. *)
Definition run_task (reg : TaskRegistry) (payload : TaskPayload) (taskCtx : Context.Context)
  : prog (res (string * bool) Context.Context) :=
  match Get_task (TaskName payload) reg with
  | None => mret (Err ("未注册的任务处理器: " +:+ TaskName payload, false))
  | Some task =>
      let timeout := if 0 <? pl_TimeoutSec payload
                     then Some (wrap64 (pl_TimeoutSec payload * 1000 * Millisecond)) else None in
      if Rollback payload && negb (rollbackable task) then
        mret (Err ("任务 " +:+ TaskName payload +:+ " 不支持补偿回滚", false))
      else
        r ← call (ERun task (Rollback payload) timeout (Context.NewContextWith (pl_Params payload)) taskCtx);
        mret match r with
             | RunOk out => Ok out
             | RunErr msg noRetry => Err (msg, noRetry)
             | RunPanic msg => Err ("任务 " +:+ TaskName payload +:+ " 发生 panic: " +:+ msg, false)
             end
  end.

(** The variables of the task: its inputs, set one by one. *)
Definition task_context (payload : TaskPayload) : Context.Context :=
  map_fold (fun k v c => Context.Set_ c k v) Context.NewContext (Input payload).

Definition outcome (payload : TaskPayload) (r : res (string * bool) Context.Context) : TaskPayload :=
  match r with
  | Err (msg, noRetry) =>
      payload <| pl_Status := StatusFailed |> <| Result := msg |>
              <| NoRetry ::= fun b => b || noRetry |>
  | Ok out =>
      payload <| pl_Status := StatusCompleted |> <| Result := "ok" |>
              <| Output := Some (Context.GetAll out) |>
  end.

(** The end of [executeWithCAS]: the outcome goes back by compare-and-set, or
    else by a report. *)
Definition write_back (taskKey : string) (payload : TaskPayload) : prog unit :=
  updated ← updateStatus taskKey payload;
  if updated : bool then mret tt else Report taskKey payload;; mret tt.

Definition executeWithCAS (e : TaskExecutor) (taskKey : string) : prog unit :=
  acquired ← tryAcquire taskKey;
  match acquired with
  | None => mret tt
  | Some payload =>
      r ← run_task (ex_registry e) payload (task_context payload);
      write_back taskKey (outcome payload r)
  end.

Definition executeWithMutex (e : TaskExecutor) (taskKey lockKey : string) (payload : TaskPayload)
  : prog unit :=
  unlock ← call (ELock lockKey (lockTimeout e));
  match unlock with
  | Err _ => mret tt
  | Ok _ =>
      let payload := payload <| pl_Status := StatusRunning |> in
      reported ← Report taskKey payload;
      (if reported : bool then
         r ← run_task (ex_registry e) payload (task_context payload);
         Report taskKey (outcome payload r);; mret tt
       else mret tt);;
      call (EUnlock lockKey);;
      mret tt
  end.

(** A text that does not parse is dropped. *)
Definition event_payload (event : Event) : option TaskPayload :=
  match ev_Payload event with Some p => Some p | None => Deserialize <$> ev_decoded event end.

Definition Execute_event (e : TaskExecutor) (event : Event) : prog unit :=
  match event_payload event with
  | None => mret tt
  | Some payload =>
      match lockMode e with
      | LockModeCAS => executeWithCAS e (ev_Key event)
      | LockModeMutex =>
          executeWithMutex e (ev_Key event) (taskLockKey (ex_prefix e) (ev_Key event)) payload
      end
  end.

(** ** A worker process, and its calls on it *)

Record Node (C : Type) := MkNode {
  n_etcd : C;
  n_breaker : Breaker;
  n_now : Z;
  n_draws : nat;
  n_runs : list (Task * Context.Context) }.
Arguments MkNode {C} _ _ _ _ _.
Arguments n_etcd {C} _.
Arguments n_breaker {C} _.
Arguments n_now {C} _.
Arguments n_draws {C} _.
Arguments n_runs {C} _.

#[export] Instance eta_Node (C : Type) : Eta (Node C) := fun n =>
  MkNode (n_etcd n) (n_breaker n) (n_now n) (n_draws n) (n_runs n).

(** The answers of everything that is neither etcd nor the breaker, numbered in
    the order they are asked for. *)
Class WorkerEnv := {
  ctx_done : nat -> bool;
  random_u64 : nat -> option Z;
  user_code : nat -> Task -> bool -> Context.Context -> Context.Context -> run_result }.

Section handler.
Context {C : Type} `{EtcdClient C} `{WorkerEnv}.

Definition on_etcd {A : Type} (m : M C A) : M (Node C) A := fun n =>
  match m (n_etcd n) with
  | Ret (a, c) => Ret (a, n <| n_etcd := c |>)
  | Panic => Panic
  | Blocked => Blocked
  end.

Definition draw {A : Type} (f : nat -> A) : M (Node C) A := fun n =>
  Ret (f (n_draws n), n <| n_draws ::= S |>).

Definition handle : handler eff (Node C) := fun X e =>
  match e in eff X return M (Node C) X with
  | EGetWithRevision key => on_etcd (GetWithRevision key)
  | ECASPut key value revision => on_etcd (CASPut key value revision)
  | EPut key value => on_etcd (Put key value)
  | ELock key _ =>
      on_etcd (r ← Lock key; mret match r with Ok _ => Ok tt | Err e => Err e end)
  | EUnlock key => on_etcd (c_unlock key)
  | EAllow => fun n => let '(ok, b) := Allow (n_now n) (n_breaker n) in
                       Ret (ok, n <| n_breaker := b |>)
  | ESuccess => modify (fun n => n <| n_breaker ::= Success (n_now n) |>)
  | EFailure => modify (fun n => n <| n_breaker ::= Failure (n_now n) |>)
  | ECtxErr => draw ctx_done
  | ESleep d =>
      dead ← draw ctx_done;
      (if dead : bool then mret tt else modify (fun n => n <| n_now ::= Z.add (Z.max 0 d) |>));;
      mret dead
  | ERand => draw random_u64
  | ENow => gets n_now
  | ERun task rollback _ paramCtx taskCtx =>
      modify (fun n => n <| n_runs ::= fun l => l ++ [(task, taskCtx)] |>);;
      draw (fun i => user_code i task rollback paramCtx taskCtx)
  end.

End handler.
