(* ===== verification/Exclusion.v ===== *)
(** * At most one execution per task (infra/engine/runtime/cas_lock.go)

    The workers of a cluster, each a program that makes one call at a time on
    the same etcd: among those that execute one task key in the
    compare-and-set mode, the task's code runs at most once. *)
From Stdlib Require Import ZArith Lia String.
From stdpp Require Import base gmap strings list relations.
From S2P Require Import Prelude GoVal Model Circuit Payload Effects Etcd Runtime.
Set Warnings "-register-all,-clear-no-such-hyp,-level-tolerance".
Local Open Scope Z_scope.
Local Open Scope list_scope.

(** ** What an execution may call, by how far it is *)

Inductive stage : Type := Hunting | Owner | Ran.

#[export] Instance stage_eq_dec : EqDecision stage.
Proof. solve_decision. Defined.

Section discipline.
Context (k : string) (r0 : Z).

(** Nobody writes PENDING back, a hunter only swaps against revision [r0], and
    only an owner runs the task. *)
Definition permits (st : stage) {X : Type} (e : eff X) : Prop :=
  match e with
  | ECASPut key v rev => key = k -> pl_Status v <> StatusPending /\ (st = Hunting -> rev = r0)
  | EPut key v => key = k -> pl_Status v <> StatusPending
  | ERun _ _ _ _ _ => st = Owner
  | _ => True
  end.

Definition next (st : stage) {X : Type} (e : eff X) : X -> stage :=
  match e in eff X return X -> stage with
  | ECASPut key v rev => fun r =>
      match st, r with
      | Hunting, Ok (true, _) => if decide (key = k) then Owner else Hunting
      | _, _ => st
      end
  | ERun _ _ _ _ _ => fun _ => Ran
  | _ => fun _ => st
  end.

(** A PENDING value is only ever read with revision [r0]. *)
Definition plausible {X : Type} (e : eff X) : X -> Prop :=
  match e in eff X return X -> Prop with
  | EGetWithRevision key => fun r => key = k ->
      forall v rev, r = Ok (Some v, rev) -> pl_Status v = StatusPending -> rev = r0
  | _ => fun _ => True
  end.

Fixpoint obeys {A : Type} (st : stage) (p : prog A) (Q : stage -> A -> Prop) : Prop :=
  match p with
  | Pure a => Q st a
  | Vis e kont => permits st e /\ forall x, plausible e x -> obeys (next st e x) (kont x) Q
  end.

Lemma obeys_mono {A : Type} (p : prog A) : forall st (Q R : stage -> A -> Prop),
  obeys st p Q -> (forall st a, Q st a -> R st a) -> obeys st p R.
Proof. induction p as [a|X e kont IH]; intros st Q R; cbn; [auto|]. naive_solver. Qed.

Lemma obeys_bind {A B : Type} (p : prog A) (f : A -> prog B) : forall st Q,
  obeys st p (fun st a => obeys st (f a) Q) -> obeys st (p ≫= f) Q.
Proof. induction p as [a|X e kont IH]; intros st Q; cbn; [done|]. naive_solver. Qed.

(** A call that is neither on the task's key nor its run. *)
Lemma obeys_call {A X : Type} (e : eff X) (f : X -> prog A) st Q :
  permits st e -> (forall x, plausible e x -> obeys (next st e x) (f x) Q) ->
  obeys st (call e ≫= f) Q.
Proof. by split. Qed.

Lemma obeys_ret {A : Type} (a : A) st (Q : stage -> A -> Prop) : Q st a -> obeys st (mret a) Q.
Proof. done. Qed.

(** ** The code keeps to it *)

Lemma rand_obeys st n : obeys st (cryptoRandInt63n n) (fun st' _ => st' = st).
Proof.
  unfold cryptoRandInt63n. case_match; [done|]. apply obeys_call; [done|].
  intros [u|] _; [done|]. by apply obeys_call.
Qed.

Lemma report_attempts_obeys key val : (key = k -> pl_Status val <> StatusPending) ->
  forall left attempt st, obeys st (report_attempts left attempt key val) (fun st' _ => st' = st).
Proof.
  intros Hv. induction left as [|left IH]; intros attempt st; cbn [report_attempts]; [done|].
  apply obeys_call; [done|]. intros [] _; [done|]. apply obeys_call; [exact Hv|].
  intros [u|e] _; [by apply obeys_call|]. cbn [next]. case_decide.
  - apply obeys_call; [done|]. intros x _. apply IH.
  - apply obeys_bind. eapply obeys_mono; [apply rand_obeys|]. intros ? j ->.
    apply obeys_call; [done|]. intros [] _; [done|]. apply IH.
Qed.

Lemma Serialize_same p v : Serialize p = Some v -> v = p.
Proof. unfold Serialize. case_match; congruence. Qed.

Lemma Report_obeys st key p : (key = k -> pl_Status p <> StatusPending) ->
  obeys st (Report key p) (fun st' _ => st' = st).
Proof.
  intros Hp. unfold Report. destruct (Serialize p) as [v|] eqn:Hv; [|done].
  apply Serialize_same in Hv as ->. apply obeys_call; [done|]. intros [] _; [|done].
  by apply report_attempts_obeys.
Qed.

Lemma acquire_obeys left : forall attempt,
  obeys Hunting (acquire_attempts left attempt k) (fun st r =>
    st = if r is Some p then Owner else Hunting).
Proof.
  induction left as [|left IH]; intros attempt; cbn [acquire_attempts]; [done|].
  apply obeys_call; [done|]. intros [[[v|] rev]|e] Hr; [|done..]. cbn [next]. cbn zeta.
  case_decide as Hs; [|done]. destruct (Serialize _) as [v'|] eqn:Hv; [|done].
  apply Serialize_same in Hv as ->. apply obeys_call.
  { intros _. split; [done|]. intros _. by apply (Hr eq_refl v rev eq_refl). }
  intros [[[] rev']|e] _; cbn [next].
  - by rewrite decide_True.
  - case_decide; [done|]. apply obeys_call; [done|]. intros [] _; [done|]. apply IH.
  - done.
Qed.

Lemma run_task_obeys reg p ctx : obeys Owner (run_task reg p ctx) (fun st _ => st <> Hunting).
Proof.
  unfold run_task. destruct (Get_task _ _) as [t|]; [|done]. cbn zeta. case_match; [done|].
  by apply obeys_call.
Qed.

Lemma updateStatus_obeys st p : st <> Hunting -> pl_Status p <> StatusPending ->
  obeys st (updateStatus k p) (fun st' _ => st' = st).
Proof.
  intros Hst Hp. unfold updateStatus. destruct (Serialize p) as [v|] eqn:Hv; [|done].
  apply Serialize_same in Hv as ->. case_match; [done|]. apply obeys_call; [done|].
  assert (Hn : forall x, next st (ECASPut k p (EtcdModRevision p)) x = st) by (by destruct st).
  intros [[[] rev]|e] _; rewrite Hn; [done| |done].
  apply obeys_call; [done|]. intros [[[v|] rev']|e] _; done.
Qed.

Lemma outcome_not_pending p r : pl_Status (outcome p r) <> StatusPending.
Proof. by destruct r as [?|[? ?]]. Qed.

Lemma executeWithCAS_obeys e : obeys Hunting (executeWithCAS e k) (fun _ _ => True).
Proof.
  unfold executeWithCAS, tryAcquire. apply obeys_bind. eapply obeys_mono; [apply acquire_obeys|].
  intros st [p|] ->; [|done]. apply obeys_bind. eapply obeys_mono; [apply run_task_obeys|].
  intros st r Hst. cbn zeta. apply obeys_bind.
  eapply obeys_mono; [apply updateStatus_obeys; [done|apply outcome_not_pending]|].
  intros st' [] ->; [done|]. apply obeys_bind.
  eapply obeys_mono; [apply Report_obeys; intros _; apply outcome_not_pending|]. done.
Qed.

End discipline.

(** ** The cluster *)

Section cluster.
Context {C : Type} `{EtcdLaws C} `{WorkerEnv} (k : string) (r0 : Z) (Hr0 : 0 < r0).

Definition cell_pending (c : C) : Prop :=
  exists v, c_kvs c !! k = Some (v, r0) /\ pl_Status v = StatusPending.

(** The task is no longer up for grabs, for good. *)
Definition settled (c : C) : Prop :=
  forall v r, c_kvs c !! k = Some (v, r) -> r <> r0 /\ pl_Status v <> StatusPending.

(** What everybody else does: anything, but no PENDING is written under the
    key, the key's own revisions go up, and the task's code is not run. *)
Definition outside (n n' : Node C) : Prop :=
  n_runs n' = n_runs n /\ c_rev (n_etcd n) <= c_rev (n_etcd n') /\
  (c_kvs (n_etcd n') !! k = c_kvs (n_etcd n) !! k \/
   forall v r, c_kvs (n_etcd n') !! k = Some (v, r) ->
     c_rev (n_etcd n) < r /\ pl_Status v <> StatusPending).

Definition hunting (stages : list stage) : Prop := Forall (fun st => st = Hunting) stages.

Definition past_hunting (stages : list stage) : nat := length (filter (fun st => st <> Hunting) stages).
Definition runs_of (stages : list stage) : nat := length (filter (fun st => st = Ran) stages).

Definition cluster_ok (n : Node C) (stages : list stage) : Prop :=
  r0 <= c_rev (n_etcd n) /\ length (n_runs n) = runs_of stages /\
  ((cell_pending (n_etcd n) /\ hunting stages) \/
   (settled (n_etcd n) /\ (past_hunting stages <= 1)%nat)).

Definition keeps (pool : list (prog unit)) (stages : list stage) : Prop :=
  Forall2 (fun st p => obeys k r0 st p (fun _ _ => True)) stages pool.

Lemma unchanged_settled c c' : unchanged c c' -> settled c -> settled c'.
Proof. intros (Hk & _) Hs. unfold settled. by rewrite Hk. Qed.

Lemma unchanged_pending c c' : unchanged c c' -> cell_pending c -> cell_pending c'.
Proof. intros (Hk & _) Hs. unfold cell_pending. by rewrite Hk. Qed.

(** A write that is not PENDING settles the key, or leaves it alone. *)
Lemma written_cell key v c c' : (key = k -> pl_Status v <> StatusPending) -> r0 <= c_rev c ->
  written key v c c' ->
  (settled c -> settled c') /\ (cell_pending c -> if decide (key = k) then settled c' else cell_pending c').
Proof.
  intros Hv Hrev (Hr & Hk & _). destruct (decide (key = k)) as [->|Hne].
  - assert (Hs : settled c').
    { intros v' r. rewrite Hk, lookup_insert_eq. intros [= <- <-]. split; [lia|auto]. }
    by split.
  - unfold settled, cell_pending. rewrite Hk, lookup_insert_ne by done. done.
Qed.

Lemma past_hunting_0 stages : hunting stages -> past_hunting stages = 0%nat.
Proof.
  unfold past_hunting. induction 1 as [|st l -> Hl IH]; [done|].
  rewrite filter_cons_False by naive_solver. done.
Qed.

Lemma runs_le stages : (runs_of stages <= past_hunting stages)%nat.
Proof.
  unfold runs_of, past_hunting. induction stages as [|[] l IH]; [done|..].
  - rewrite !filter_cons_False by naive_solver. done.
  - rewrite filter_cons_False, filter_cons_True by naive_solver. cbn. lia.
  - rewrite !filter_cons_True by naive_solver. cbn. lia.
Qed.

Lemma count_insert (P : stage -> Prop) `{forall st, Decision (P st)} stages i st st' :
  stages !! i = Some st ->
  (length (filter P (<[i := st']> stages)) + (if decide (P st) then 1 else 0))%nat =
  (length (filter P stages) + (if decide (P st') then 1 else 0))%nat.
Proof.
  revert i. induction stages as [|x l IH]; intros [|i] Hi; simplify_eq/=.
  - rewrite !filter_cons. repeat case_decide; cbn; lia.
  - rewrite !filter_cons. specialize (IH i Hi). repeat case_decide; cbn; lia.
Qed.

Lemma on_etcd_ret {A : Type} (m : M C A) n a n' : on_etcd m n = Ret (a, n') ->
  exists c', m (n_etcd n) = Ret (a, c') /\ n' = n <| n_etcd := c' |>.
Proof.
  unfold on_etcd. destruct (m (n_etcd n)) as [[a0 c']| |]; intros [= <- <-]. by exists c'.
Qed.

Lemma wp_ret_inv {S A : Type} (m : M S A) Q s a s' : wp m Q s -> m s = Ret (a, s') -> Q a s'.
Proof. unfold wp. intros Hwp Hm. by rewrite Hm in Hwp. Qed.

Lemma ok_quiet n n' stages : cluster_ok n stages -> n_runs n' = n_runs n ->
  unchanged (n_etcd n) (n_etcd n') -> cluster_ok n' stages.
Proof.
  intros (Hrev & Hruns & Hcell) Hr Hu. split_and!.
  - destruct Hu as (_ & -> & _). done.
  - by rewrite Hr.
  - destruct Hcell as [[Hp Hh]|[Hs Hc]]; [left|right]; (split; [|done]);
      [by eapply unchanged_pending|by eapply unchanged_settled].
Qed.

Lemma ok_write n n' stages key v : cluster_ok n stages -> n_runs n' = n_runs n ->
  (key = k -> pl_Status v <> StatusPending) -> written key v (n_etcd n) (n_etcd n') ->
  cluster_ok n' stages.
Proof.
  intros (Hrev & Hruns & Hcell) Hr Hv Hw.
  destruct (written_cell key v _ _ Hv Hrev Hw) as [Hs Hp]. split_and!.
  - destruct Hw as (-> & _). lia.
  - by rewrite Hr.
  - destruct Hcell as [[Hc Hh]|[Hc Hle]]; [|right; auto].
    specialize (Hp Hc). case_decide; [right|left; done]. split; [done|].
    rewrite past_hunting_0 by done. lia.
Qed.

Lemma stage_same (stages : list stage) (i : nat) (st : stage) : stages !! i = Some st -> <[i := st]> stages = stages.
Proof. apply list_insert_id. Qed.

(** The swap that makes a hunter the owner. *)
Lemma ok_acquire n n' stages (i : nat) v : cluster_ok n stages -> n_runs n' = n_runs n ->
  stages !! i = Some Hunting -> pl_Status v <> StatusPending ->
  mod_revision k (n_etcd n) = r0 -> written k v (n_etcd n) (n_etcd n') ->
  cluster_ok n' (<[i := Owner]> stages).
Proof.
  intros (Hrev & Hruns & Hcell) Hr Hi Hv Hm Hw.
  destruct (written_cell k v _ _ (fun _ => Hv) Hrev Hw) as [_ Hp]. rewrite decide_True in Hp by done.
  destruct Hcell as [[Hc Hh]|[Hc _]].
  - split_and!.
    + destruct Hw as (-> & _). lia.
    + rewrite Hr, Hruns. pose proof (count_insert (fun st => st = Ran) stages i Hunting Owner Hi) as Hn.
      unfold runs_of. rewrite !decide_False in Hn by done. lia.
    + right. split; [by apply Hp|].
      pose proof (count_insert (fun st => st <> Hunting) stages i Hunting Owner Hi) as Hn.
      fold (past_hunting stages) in Hn. rewrite past_hunting_0 in Hn by done. unfold past_hunting.
      rewrite decide_False, decide_True in Hn by naive_solver. lia.
  - exfalso. unfold mod_revision in Hm. destruct (c_kvs (n_etcd n) !! k) as [[v' r]|] eqn:Hk; [|lia].
    destruct (Hc _ _ Hk) as [Hne _]. done.
Qed.

Lemma call_keeps n stages (i : nat) st X (e : eff X) x n' :
  cluster_ok n stages -> stages !! i = Some st -> permits k r0 st e ->
  handle X e n = Ret (x, n') ->
  plausible k r0 e x /\ cluster_ok n' (<[i := next k st e x]> stages).
Proof.
  intros Hok Hi Hperm Hh.
  assert (Hsame : forall n', n_runs n' = n_runs n -> n_etcd n' = n_etcd n -> cluster_ok n' stages).
  { intros n2 Hr He. apply (ok_quiet n); [done..|]. by rewrite He. }
  destruct e; cbn [next plausible permits] in *;
    try (split; [done|]; rewrite stage_same by done).
  - (* reading *)
    apply on_etcd_ret in Hh as (c' & Hc & ->). unfold GetWithRevision, mbind, M_bind in Hc.
    pose proof (get_law key (n_etcd n)) as Hg. unfold wp in Hg.
    destruct (c_get key (n_etcd n)) as [[r c1]| |]; [|done..]. destruct Hg as [Hu Hr].
    injection Hc as <- <-. split.
    + intros -> v rev Hx Hp. destruct r as [[[v' r']|]|e]; [|done..]. injection Hx as -> ->.
      destruct Hok as (_ & _ & [[(v0 & Hv0 & _) _]|[Hs _]]); [congruence|].
      destruct (Hs _ _ (eq_sym Hr)) as [_ Hn]. done.
    + rewrite stage_same by done. by apply (ok_quiet n).
  - (* swapping *)
    apply on_etcd_ret in Hh as (c' & Hc & ->). unfold CASPut, mbind, M_bind in Hc.
    pose proof (cas_law key revision value (n_etcd n)) as Hl. unfold wp in Hl.
    destruct (c_cas key revision value (n_etcd n)) as [[r c1]| |]; [|done..].
    injection Hc as <- <-. split; [done|]. destruct r as [[rev'|[[v r]|]]|er]; cbn.
    + destruct Hl as (Hm & Hw & _). destruct st; [|rewrite stage_same by done..].
      * destruct (decide (key = k)) as [->|Hne].
        -- destruct (Hperm eq_refl) as [Hv Hrev]. rewrite Hrev in Hm by done.
           by apply (ok_acquire n _ _ _ value).
        -- rewrite stage_same by done. by apply (ok_write n _ _ key value).
      * apply (ok_write n _ _ key value); [done..| |done]. intros Hk. by apply Hperm.
      * apply (ok_write n _ _ key value); [done..| |done]. intros Hk. by apply Hperm.
    + destruct Hl as (_ & Hu & _). replace (match st with Hunting => _ | _ => _ end) with st by (by destruct st).
      rewrite stage_same by done. by apply (ok_quiet n).
    + destruct Hl as (_ & Hu & _). replace (match st with Hunting => _ | _ => _ end) with st by (by destruct st).
      rewrite stage_same by done. by apply (ok_quiet n).
    + replace (match st with Hunting => _ | _ => _ end) with st by (by destruct st).
      rewrite stage_same by done. destruct Hl as [Hu|[_ Hw]]; [by apply (ok_quiet n)|].
      apply (ok_write n _ _ key value); [done..| |done]. intros Hk. by apply Hperm.
  - (* writing *)
    apply on_etcd_ret in Hh as (c' & Hc & ->). unfold Put in Hc.
    pose proof (wp_ret_inv _ _ _ _ _ (put_law key value None (n_etcd n)) Hc) as Hl. cbn in Hl.
    destruct x; [|destruct Hl as [Hu|Hl]; [by apply (ok_quiet n)|]]; by apply (ok_write n _ _ key value).
  - apply on_etcd_ret in Hh as (c' & Hc & ->). unfold Lock, mbind, M_bind in Hc.
    pose proof (lock_law key (n_etcd n)) as Hl. unfold wp in Hl.
    destruct (c_lock key (n_etcd n)) as [[r c1]| |]; [|done..]. apply (ok_quiet n); [done..|].
    destruct r; by injection Hc as <- <-.
  - apply on_etcd_ret in Hh as (c' & Hc & ->). apply (ok_quiet n); [done..|].
    exact (wp_ret_inv _ _ _ _ _ (unlock_law key (n_etcd n)) Hc).
  - unfold handle in Hh. destruct (Allow _ _) as [ok b]. injection Hh as <- <-. by apply Hsame.
  - injection Hh as <- <-. by apply Hsame.
  - injection Hh as <- <-. by apply Hsame.
  - injection Hh as <- <-. by apply Hsame.
  - unfold handle, draw, mbind, M_bind in Hh. destruct (ctx_done _); injection Hh as <- <-; by apply Hsame.
  - injection Hh as <- <-. by apply Hsame.
  - injection Hh as <- <-. by apply Hsame.
  - subst st. split; [done|]. unfold handle, draw, mbind, M_bind in Hh. injection Hh as _ <-.
    destruct Hok as (Hrev & Hruns & Hcell). split_and!; [done| |].
    + upd_simpl. rewrite length_app, Hruns. cbn.
      pose proof (count_insert (fun st => st = Ran) stages i Owner Ran Hi) as Hn.
      rewrite decide_False, decide_True in Hn by done. unfold runs_of. lia.
    + right. destruct Hcell as [[_ Hhu]|[Hs Hle]].
      { eapply list.Forall_lookup in Hhu; [|exact Hi]. done. }
      split; [done|]. pose proof (count_insert (fun st => st <> Hunting) stages i Owner Ran Hi) as Hn.
      rewrite !decide_True in Hn by done. unfold past_hunting in *. lia.
Qed.

Lemma outside_keeps n n' stages : cluster_ok n stages -> outside n n' -> cluster_ok n' stages.
Proof.
  intros (Hrev & Hruns & Hcell) (Hr & Hle & Hc). split_and!; [lia|by rewrite Hr|].
  destruct Hc as [Hc|Hc].
  - unfold cell_pending, settled in *. by rewrite Hc.
  - right. split.
    + intros v r Hk. destruct (Hc _ _ Hk). split; [lia|done].
    + destruct Hcell as [[_ Hh]|[_ ?]]; [rewrite past_hunting_0 by done; lia|done].
Qed.

End cluster.

(** C4: of any number of workers that execute one task key by compare-and-set,
    with their calls interleaved in any way, with calls to etcd that fail with
    or without effect, and whatever others do short of putting the task back
    to PENDING, at most one runs the task's code, and at most once. *)
Theorem cas_runs_once {C : Type} `{EtcdLaws C} `{WorkerEnv} (k : string) (v : TaskPayload) (r0 : Z)
    (workers : list TaskExecutor) (n n' : Node C) (pool' : list (prog unit)) :
  revisions_ok (n_etcd n) -> c_kvs (n_etcd n) !! k = Some (v, r0) ->
  pl_Status v = StatusPending -> n_runs n = [] ->
  rtc (pool_step handle (outside k)) (n, (fun e => executeWithCAS e k) <$> workers) (n', pool') ->
  (length (n_runs n') <= 1)%nat.
Proof.
  intros Hrevs Hk Hpend Hruns Hsteps. destruct Hrevs as [_ Hrevs]. specialize (Hrevs _ _ _ Hk).
  assert (Hr0 : 0 < r0) by lia.
  set (I := fun (n : Node C) pool => exists stages, cluster_ok k r0 n stages /\ keeps k r0 pool stages).
  assert (HI : I n' pool').
  { apply (pool_invariant handle (outside k) I _ _) with (3 := Hsteps); cbn.
    - intros s pool i X e kont x s' (stages & Hok & Hkeep) Hi Hh.
      destruct (Forall2_lookup_r _ _ _ _ _ Hkeep Hi) as (st & Hst & Hperm & Hnext).
      destruct (call_keeps k r0 Hr0 _ _ _ _ _ _ _ _ Hok Hst Hperm Hh) as [Hp Hok'].
      exists (<[i := next k st e x]> stages). split; [done|]. apply Forall2_insert; [done|auto].
    - intros s s' pool (stages & Hok & Hkeep) Hout. exists stages. split; [|done].
      by eapply outside_keeps.
    - exists ((fun _ => Hunting) <$> workers). split.
      + split_and!; [lia| |].
        * rewrite Hruns. cbn. pose proof (runs_le ((fun _ => Hunting) <$> workers)) as Hle.
          rewrite past_hunting_0 in Hle by (by apply list.Forall_fmap, Forall_true). lia.
        * left. split; [by exists v|]. by apply list.Forall_fmap, Forall_true.
      + apply Forall2_fmap_2, Forall_Forall2_diag, Forall_true. intros e. apply executeWithCAS_obeys. }
  destruct HI as (stages & (_ & -> & Hcell) & _). pose proof (runs_le stages).
  destruct Hcell as [[_ Hh%past_hunting_0]|[_ Hle]]; lia.
Qed.

(** ** A concrete cluster *)

Definition ex_user_task : Task := MkUserTask "a" [] false.
Definition ex_worker_env : WorkerEnv := {|
  ctx_done := fun _ => false; random_u64 := fun _ => Some 7;
  user_code := fun _ _ _ _ c => RunOk c |}.
Definition ex_executor : TaskExecutor :=
  SetLockMode LockModeCAS (NewTaskExecutor "/tasks/" {["a" := ex_user_task]}).
Definition ex_pending : TaskPayload :=
  zero_payload <| WorkflowID := "demo" |> <| TaskName := "a" |> <| pl_Status := StatusPending |>.
Definition ex_node : Node Kv :=
  MkNode (kv_write "k" ex_pending (MkKv ∅ 0 [])) (NewBreaker "etcd" 5 1000 0) 0 0 [].

(** Two workers read the task; the second swaps first and runs it. *)
Definition ex_turns : list nat := [0; 1; 1; 0; 1; 0; 0]%nat.

Lemma cas_runs_once_witness :
  option_map (fun x => length (n_runs x.1))
    (schedule (handle (H0 := ex_worker_env)) ex_turns
      (ex_node, (fun e => executeWithCAS e "k") <$> [ex_executor; ex_executor])) = Some 1%nat /\
  forall n' pool', schedule (handle (H0 := ex_worker_env)) ex_turns
      (ex_node, (fun e => executeWithCAS e "k") <$> [ex_executor; ex_executor]) = Some (n', pool') ->
    (length (n_runs n') <= 1)%nat.
Proof.
  split; [vm_compute; reflexivity|]. intros n' pool' Hs.
  apply (cas_runs_once (H1 := ex_worker_env) "k" ex_pending 1 [ex_executor; ex_executor] ex_node n' pool').
  - split; [done|]. intros k v r. cbn. intros [[_ [= _ <-]]|[_ Hn]]%lookup_insert_Some; [lia|].
    by rewrite lookup_empty in Hn.
  - reflexivity.
  - reflexivity.
  - reflexivity.
  - exact (schedule_reach _ _ ex_turns _ _ Hs).
Defined.
