(* ===== verification/Worker.v ===== *)
(** * The worker process (infra/engine/runtime/worker.go, heartbeat.go)

    A worker watches the PENDING tasks of the cluster, queues the events of
    tasks it knows, and executes them under a semaphore; a second goroutine
    reports its heartbeat. *)
From Stdlib Require Import ZArith Lia String.
From stdpp Require Import base gmap strings list.
From S2P Require Import Prelude GoVal Model Circuit Payload Heap Queues Effects Etcd Runtime.
Set Warnings "-register-all,-clear-no-such-hyp,-level-tolerance".
Local Open Scope Z_scope.
Local Open Scope list_scope.

Definition taskAcquireTimeout : Z := 15000 * Millisecond.
Definition defaultMaxTaskConcurrency : Z := 100.
Definition workerEtcdMaxFailures : Z := 5.
Definition workerEtcdCooldown : Z := 15000 * Millisecond.
Definition maxReenqueueBackoff : Z := 300000 * Millisecond.

(** [taskSem] holds the free permits of the semaphore. *)
Record Worker := MkWorker {
  wk_executor : TaskExecutor;
  taskPQ : @priorityTaskQueue Event;
  taskSem : Z;
  reenqueueAttempts : gmap string Z;
  running : bool }.

#[export] Instance eta_Worker : Eta Worker := fun w =>
  MkWorker (wk_executor w) (taskPQ w) (taskSem w) (reenqueueAttempts w) (running w).

Definition NewWorker (prefix : string) (maxTaskConcurrency : Z) : Worker :=
  let maxConcurrency :=
    if maxTaskConcurrency <=? 0 then defaultMaxTaskConcurrency else maxTaskConcurrency in
  MkWorker (NewTaskExecutor prefix NewTaskRegistry) newPriorityTaskQueue maxConcurrency ∅ false.

(** A task that cannot be registered ends the process: a panic here. *)
Definition RegisterTask (task : Task) : M Worker unit := fun w =>
  match Register task (ex_registry (wk_executor w)) with
  | Ok r => Ret (tt, w <| wk_executor ::= fun e => e <| ex_registry := r |> |>)
  | Err _ => Panic
  end.

Definition RegisteredTasks (w : Worker) : list string := Registered (ex_registry (wk_executor w)).

(** [Start] runs once at a time. *)
Definition start (w : Worker) : bool * Worker :=
  if running w then (false, w) else (true, w <| running := true |>).

Definition pendingPrefix (prefix : string) : string := prefix +:+ StatusPending +:+ "/".

(** The filter of the watch: the task is known, and the text parses. *)
Definition task_filter (reg : TaskRegistry) (event : Event) : option Event :=
  let taskName := ExtractTaskName (ev_Value event) in
  if decide (taskName = "") then None
  else match Get_task taskName reg with
  | None => None
  | Some _ =>
      match ev_decoded event with
      | None => None
      | Some text => Some (event <| ev_Payload := Some (Deserialize text) |>)
      end
  end.

Definition event_priority (event : Event) : Z :=
  match ev_Payload event with Some p => pl_Priority p | None => 0 end.

(** The loop of [Start], one event. *)
Definition on_event (w : Worker) (event : Event) : Worker :=
  if ev_Put event then w <| taskPQ ::= Enqueue event (event_priority event) |> else w.

Definition recordReenqueueAttempt (taskKey : string) (w : Worker) : Z * Worker :=
  let n := wrap64 (default 0 (reenqueueAttempts w !! taskKey) + 1) in
  (n, w <| reenqueueAttempts ::= <[taskKey := n]> |>).

Definition clearReenqueueAttempt (taskKey : string) (w : Worker) : Worker :=
  w <| reenqueueAttempts ::= delete taskKey |>.

(** [taskAcquireTimeout * (1 << attempt)], cut at five minutes. *)
Definition reenqueue_backoff (attempt : Z) : Z :=
  let backoff := wrap64 (taskAcquireTimeout * shl64 1 attempt) in
  if maxReenqueueBackoff <? backoff then maxReenqueueBackoff else backoff.

(** One turn of [consumeFromPriorityQueue], until it waits, leaves, sleeps
    before it queues the event again, or starts the goroutine of a task. *)
Inductive consumed : Type :=
| Waits
| Leaves
| BacksOff (d : Z) (event : Event)
| Starts (execution : prog unit).

Definition consume (w : Worker) : consumed * Worker :=
  let '(r, q) := Dequeue_pass (taskPQ w) in
  let w := w <| taskPQ := q |> in
  match r with
  | DeqClosed => (Leaves, w)
  | DeqWait => (Waits, w)
  | DeqEvent event =>
      if 0 <? taskSem w then
        (Starts (Execute_event (wk_executor w) event),
         clearReenqueueAttempt (ev_Key event) w <| taskSem ::= fun n => n - 1 |>)
      else
        let '(attempt, w) := recordReenqueueAttempt (ev_Key event) w in
        (BacksOff (reenqueue_backoff attempt) event, w)
  end.

(** After the backoff; a closed queue takes nothing. *)
Definition requeue (event : Event) (w : Worker) : Worker :=
  if closed (taskPQ w) then w else w <| taskPQ ::= Enqueue event (event_priority event) |>.

(** The end of the task's goroutine. *)
Definition task_done (w : Worker) : Worker := w <| taskSem ::= fun n => n + 1 |>.

Definition stop (w : Worker) : Worker := w <| taskPQ ::= Close |> <| running := false |>.

(** ** A worker at work

    [sv_seen] counts the writes of the etcd history that the watch has
    delivered.  [text] is the JSON text of a payload. *)
Record Serving (C : Type) := MkServing { sv_worker : Worker; sv_node : Node C; sv_seen : nat }.
Arguments MkServing {C} _ _ _.
Arguments sv_worker {C} _.
Arguments sv_node {C} _.
Arguments sv_seen {C} _.

#[export] Instance eta_Serving (C : Type) : Eta (Serving C) := fun s =>
  MkServing (sv_worker s) (sv_node s) (sv_seen s).

Section serving.
Context {C : Type} `{EtcdClient C} `{WorkerEnv} (text : TaskPayload -> string).

Definition write_event (kv : string * TaskPayload) : Event :=
  MkEvent_ true kv.1 (text kv.2) (Some kv.2) None.

(** The watch of the PENDING prefix delivers what was written since. *)
Definition deliver (s : Serving C) : Serving C :=
  let history := c_history (n_etcd (sv_node s)) in
  let e := wk_executor (sv_worker s) in
  let events := write_event <$>
    filter (fun kv => String.prefix (pendingPrefix (ex_prefix e)) kv.1 = true)
      (drop (sv_seen s) history) in
  let '(eventChan, _) := WatchWithFilter (task_filter (ex_registry e)) events [] 0 in
  s <| sv_worker ::= fun w => foldl on_event w eventChan |> <| sv_seen := length history |>.

(** A task's goroutine, to its end. *)
Definition execute (p : prog unit) : M (Serving C) unit := fun s =>
  match run handle p (sv_node s) with
  | Ret (_, n) => Ret (tt, s <| sv_node := n |> <| sv_worker ::= task_done |>)
  | Panic => Panic
  | Blocked => Blocked
  end.

(** A round: deliver, take one event, execute it. *)
Definition round : M (Serving C) unit := fun s =>
  let s := deliver s in
  let '(r, w) := consume (sv_worker s) in
  let s := s <| sv_worker := w |> in
  match r with
  | Starts p => execute p s
  | _ => Ret (tt, s)
  end.

Fixpoint rounds (n : nat) : M (Serving C) unit :=
  match n with
  | O => mret tt
  | S n' => round;; rounds n'
  end.

End serving.
