(* ===== verification/Heartbeat.v ===== *)
(** * Heartbeats (infra/engine/runtime/heartbeat.go)

    A worker writes its heartbeat under its own key, with its task types the
    first time and when their hash changes, and with their names only
    otherwise. *)
From Stdlib Require Import ZArith Lia String.
From stdpp Require Import base gmap strings list.
From S2P Require Import Prelude GoVal Model Circuit Payload Effects Etcd Runtime.
Set Warnings "-register-all,-clear-no-such-hyp,-level-tolerance".
Local Open Scope Z_scope.
Local Open Scope list_scope.

Definition heartbeatMaxRetries : nat := 3.
Definition heartbeatRetryBackoff : Z := 1000 * Millisecond.
Definition heartbeatTTLFactor : Z := 3.

Record HeartbeatSender := MkHeartbeatSender {
  hs_workerID : string;
  hs_interval : Z;
  hs_prefix : string;
  lastFullHash : string }.

#[export] Instance eta_HeartbeatSender : Eta HeartbeatSender := fun h =>
  MkHeartbeatSender (hs_workerID h) (hs_interval h) (hs_prefix h) (lastFullHash h).

Definition NewHeartbeatSender (workerID : string) (interval : Z) (prefix : string)
  : HeartbeatSender := MkHeartbeatSender workerID interval prefix "".

(** The calls of a heartbeat.  [HTypesHash] is the digest of the types in the
    order the map gives them. *)
Inductive hb_eff : Type -> Type :=
| HAllow : hb_eff bool
| HSuccess : hb_eff unit
| HFailure : hb_eff unit
| HTypesHash : hb_eff string
| HTaskNames : hb_eff (list string)
| HNamesAndTypes : hb_eff (list string * list TaskType)
| HNow : hb_eff Z
| HSerializes (p : HeartbeatPayload) : hb_eff bool
| HCtxErr : hb_eff bool
| HPut (key : string) (p : HeartbeatPayload) (ttl : Z) : hb_eff (res string unit)
| HSleep (d : Z) : hb_eff bool
| HDelete (key : string) : hb_eff (res string unit).

Definition heartbeat_key (h : HeartbeatSender) : string := hs_prefix h +:+ hs_workerID h.

Definition heartbeat_ttl (h : HeartbeatSender) : Z :=
  wrap64 (Z.quot (hs_interval h) 1000000000 * heartbeatTTLFactor).

Fixpoint heartbeat_attempts (left attempt : nat) (key : string) (payload : HeartbeatPayload)
    (ttl : Z) : io hb_eff bool :=
  match left with
  | O => mret false
  | S left' =>
      dead ← call HCtxErr;
      if dead : bool then mret false
      else
        r ← call (HPut key payload ttl);
        match r with
        | Ok _ => call HSuccess;; mret true
        | Err _ =>
            if decide (left' = 0%nat) then
              call HFailure;; heartbeat_attempts left' (S attempt) key payload ttl
            else
              dead ← call (HSleep (heartbeatRetryBackoff * 2 ^ Z.of_nat attempt));
              if dead : bool then mret false
              else heartbeat_attempts left' (S attempt) key payload ttl
        end
  end.

(** [report]; the sender it leaves remembers the hash it meant to send. *)
Definition report (key : string) (startedAt : Z) (forceFull : bool) (h : HeartbeatSender)
  : io hb_eff HeartbeatSender :=
  allowed ← call HAllow;
  if negb allowed then mret h
  else
    currentHash ← call HTypesHash;
    let needFull := forceFull ||
      (negb (bool_decide (currentHash = "")) && negb (bool_decide (currentHash = lastFullHash h))) in
    '(names, taskTypes) ← (if needFull then call HNamesAndTypes
                           else names ← call HTaskNames; mret (names, []));
    let h := if needFull then h <| lastFullHash := currentHash |> else h in
    aliveAt ← call HNow;
    let payload := MkHeartbeatPayload (hs_workerID h) names taskTypes currentHash startedAt aliveAt in
    writes ← call (HSerializes payload);
    if negb writes then mret h
    else
      heartbeat_attempts heartbeatMaxRetries 0 key payload (heartbeat_ttl h);;
      mret h.

(** [Start]: a full heartbeat, then one per tick, and at the end the key is
    deleted. *)
Fixpoint heartbeats (ticks : nat) (key : string) (startedAt : Z) (h : HeartbeatSender)
  : io hb_eff HeartbeatSender :=
  match ticks with
  | O => mret h
  | S ticks' => h ← report key startedAt false h; heartbeats ticks' key startedAt h
  end.

Definition beats (ticks : nat) (startedAt : Z) (h : HeartbeatSender) : io hb_eff HeartbeatSender :=
  let key := heartbeat_key h in
  h ← report key startedAt true h;
  heartbeats ticks key startedAt h.

Definition cleanup (key : string) : io hb_eff unit := call (HDelete key);; mret tt.

Definition heartbeat_start (ticks : nat) (startedAt : Z) (h : HeartbeatSender) : io hb_eff unit :=
  let key := heartbeat_key h in
  beats ticks startedAt h;; cleanup key.

(** ** A worker and the key of its heartbeat *)

(** What a write does: it succeeds, fails at once, or fails when the time of
    the whole report is over. *)
Inductive put_answer : Type := PutOk | PutFails | PutTimesOut.

(** [hw_puts] are the answers the writes will get; then they succeed.
    [hw_late]: the time of the report is over. *)
Record HbWorld := MkHbWorld {
  hw_stored : gmap string HeartbeatPayload;
  hw_registry : TaskRegistry;
  hw_breaker : Breaker;
  hw_now : Z;
  hw_late : bool;
  hw_puts : list put_answer }.

#[export] Instance eta_HbWorld : Eta HbWorld := fun w =>
  MkHbWorld (hw_stored w) (hw_registry w) (hw_breaker w) (hw_now w) (hw_late w) (hw_puts w).

Definition hb_put (key : string) (p : HeartbeatPayload) : M HbWorld (res string unit) := fun w =>
  match hw_puts w with
  | PutFails :: l => Ret (Err "unavailable", w <| hw_puts := l |>)
  | PutTimesOut :: l =>
      Ret (Err "context deadline exceeded", w <| hw_puts := l |> <| hw_late := true |>)
  | PutOk :: l => Ret (Ok tt, w <| hw_puts := l |> <| hw_stored ::= <[key := p]> |>)
  | [] => Ret (Ok tt, w <| hw_stored ::= <[key := p]> |>)
  end.

Section heartbeat_handler.
Context (hash : TaskRegistry -> string).

Definition hb_handle : handler hb_eff HbWorld := fun X e =>
  match e in hb_eff X return M HbWorld X with
  | HAllow => fun w => let '(ok, b) := Allow (hw_now w) (hw_breaker w) in
                       Ret (ok, w <| hw_breaker := b |> <| hw_late := false |>)
  | HSuccess => modify (fun w => w <| hw_breaker ::= Success (hw_now w) |>)
  | HFailure => modify (fun w => w <| hw_breaker ::= Failure (hw_now w) |>)
  | HTypesHash => gets (fun w => hash (hw_registry w))
  | HTaskNames => gets (fun w => Registered (hw_registry w))
  | HNamesAndTypes => gets (fun w => NamesAndTypes (hw_registry w))
  | HNow => gets hw_now
  | HSerializes _ => mret true
  | HCtxErr => gets hw_late
  | HPut key p _ => hb_put key p
  | HSleep d =>
      late ← gets hw_late;
      if late : bool then mret true
      else modify (fun w => w <| hw_now ::= Z.add (Z.max 0 d) |>);; mret false
  | HDelete key => modify (fun w => w <| hw_stored ::= delete key |>);; mret (Ok tt)
  end.

(** What a heartbeat leaves in etcd when its first write succeeds, or when all
    of them fail. *)
Lemma attempts_store key p ttl left attempt w :
  hw_puts w = [] -> hw_late w = false -> (0 < left)%nat ->
  wp (run hb_handle (heartbeat_attempts left attempt key p ttl)) (fun ok w' =>
    ok = true /\ hw_stored w' = <[key := p]> (hw_stored w) /\ hw_registry w' = hw_registry w /\
    hw_puts w' = [] /\ hw_breaker w' = Success (hw_now w) (hw_breaker w) /\ hw_now w' = hw_now w) w.
Proof.
  intros Hp Hlate Hl. destruct left as [|left]; [lia|]. destruct w as [st reg b now late puts].
  cbn in Hp, Hlate. by subst puts late.
Qed.

Lemma failing_attempts key p ttl w :
  hw_puts w = [PutFails; PutFails; PutFails] -> hw_late w = false ->
  wp (run hb_handle (heartbeat_attempts heartbeatMaxRetries 0 key p ttl)) (fun ok w' =>
    ok = false /\ hw_stored w' = hw_stored w /\ hw_registry w' = hw_registry w /\
    hw_puts w' = [] /\ exists t, hw_breaker w' = Failure t (hw_breaker w) /\ hw_now w' = t) w.
Proof.
  intros Hp Hlate. destruct w as [st reg b now late puts]. cbn in Hp, Hlate. subst puts late.
  split_and!; [done..|]. by eexists.
Qed.

#[local] Arguments heartbeat_attempts : simpl never.

(** A heartbeat that the breaker lets through comes down to its attempts. *)
Lemma report_allowed key startedAt full h w b (Q : HeartbeatSender -> HbWorld -> Prop) :
  Allow (hw_now w) (hw_breaker w) = (true, b) ->
  let reg := hw_registry w in
  let need := full || (negb (bool_decide (hash reg = "")) &&
    negb (bool_decide (hash reg = lastFullHash h))) in
  let h' := if need then h <| lastFullHash := hash reg |> else h in
  wp (run hb_handle (heartbeat_attempts heartbeatMaxRetries 0 key
        (MkHeartbeatPayload (hs_workerID h') (Registered reg)
          (if need then RegisteredTypes reg else []) (hash reg) startedAt (hw_now w))
        (heartbeat_ttl h')))
    (fun _ => Q h') (w <| hw_breaker := b |> <| hw_late := false |>) ->
  wp (run hb_handle (report key startedAt full h)) Q w.
Proof.
  intros Hallow reg need h' Hwp. unfold report, call. cbn [mbind io_bind].
  apply wp_run_call. unfold wp at 1. cbn [hb_handle]. rewrite Hallow. cbn [negb].
  apply wp_run_call, wp_gets.
  change (hash (hw_registry _)) with (hash reg). fold need.
  destruct need; cbn [mbind io_bind mret io_ret];
    do 2 (apply wp_run_call, wp_gets; cbn [mbind io_bind mret io_ret]);
    apply wp_run_call, wp_ret; apply wp_run_bind; eapply wp_mono; try exact Hwp;
    intros ok w' HQ; by apply wp_ret.
Qed.

Lemma report_denied key startedAt full h w b (Q : HeartbeatSender -> HbWorld -> Prop) :
  Allow (hw_now w) (hw_breaker w) = (false, b) ->
  Q h (w <| hw_breaker := b |> <| hw_late := false |>) ->
  wp (run hb_handle (report key startedAt full h)) Q w.
Proof.
  intros Hallow HQ. unfold report, call. cbn [mbind io_bind].
  apply wp_run_call. unfold wp at 1. cbn [hb_handle]. rewrite Hallow. by apply wp_ret.
Qed.

Lemma closed_allows t b : state b = StateClosed -> Allow t b = (true, b).
Proof. intros Hb. unfold Allow. by rewrite Hb. Qed.

Lemma heartbeats_denied ticks : forall key startedAt h w,
  state (hw_breaker w) = StateHalfOpen ->
  wp (run hb_handle (heartbeats ticks key startedAt h)) (fun _ w' => hw_stored w' = hw_stored w) w.
Proof.
  induction ticks as [|ticks IH]; intros key startedAt h w Hh; [done|]. cbn [heartbeats].
  apply wp_run_bind. eapply report_denied; [unfold Allow; by rewrite Hh|].
  eapply wp_mono; [by apply IH|]. done.
Qed.

End heartbeat_handler.

(** ** Properties *)

(** The task types of a worker whose first heartbeat succeeds or fails are
    gone from etcd with the next heartbeat: the sender sends them again only
    when their hash changes, even when it never managed to send them, and
    every heartbeat replaces the whole record. *)
Theorem task_types_vanish (hash : TaskRegistry -> string) (h : HeartbeatSender) (startedAt : Z)
    (w : HbWorld) :
  hw_puts w = [] \/ hw_puts w = [PutFails; PutFails; PutFails] ->
  state (hw_breaker w) = StateClosed ->
  consecutiveFails (hw_breaker w) = 0 -> 1 < maxFailures (hw_breaker w) ->
  wp (run (hb_handle hash) (beats 1 startedAt h)) (fun _ w' =>
    exists p, hw_stored w' !! heartbeat_key h = Some p /\ TaskTypes p = [] /\
      hb_Tasks p = Registered (hw_registry w)) w.
Proof.
  intros Hputs Hc Hf Hm. unfold beats. apply wp_run_bind.
  eapply report_allowed; [by apply closed_allows|]. cbn [orb].
  set (h' := h <| lastFullHash := hash (hw_registry w) |>).
  assert (Hnext : forall w', hw_registry w' = hw_registry w -> hw_puts w' = [] ->
    state (hw_breaker w') = StateClosed ->
    wp (run (hb_handle hash) (heartbeats 1 (heartbeat_key h) startedAt h')) (fun _ w' =>
      exists p, hw_stored w' !! heartbeat_key h = Some p /\ TaskTypes p = [] /\
        hb_Tasks p = Registered (hw_registry w)) w').
  { intros w' Hreg Hp Hcl. cbn [heartbeats]. apply wp_run_bind.
    eapply report_allowed; [by apply closed_allows|].
    rewrite (bool_decide_eq_true_2 (hash (hw_registry w') = lastFullHash h')) by (by rewrite Hreg).
    rewrite andb_false_r. cbn [orb]. eapply wp_mono.
    - apply attempts_store; [done|done|unfold heartbeatMaxRetries; lia].
    - intros ok w2 (_ & Hst & _). apply wp_ret. rewrite Hst, lookup_insert_eq.
      eexists. split; [done|]. cbn. by rewrite Hreg. }
  destruct Hputs as [Hp|Hp].
  - eapply wp_mono; [apply attempts_store; [done|done|unfold heartbeatMaxRetries; lia]|].
    intros ok w' (_ & _ & Hr & Hp' & Hb & _). apply Hnext; [done..|].
    rewrite Hb. unfold Success. cbn. by case_decide.
  - eapply wp_mono; [by apply failing_attempts|].
    intros ok w' (_ & _ & Hr & Hp' & t & Hb & _). apply Hnext; [done..|].
    rewrite Hb. unfold Failure. cbn. upd_simpl. rewrite Hc, Hf. case_decide; [done|].
    rewrite wrap64_in by (unfold in64, minInt64, maxInt64; lia).
    by rewrite (proj2 (Z.leb_gt _ _)) by lia.
Qed.

Lemma task_types_vanish_witness :
  let reg : TaskRegistry := {["a" := MkUserTask "a" [] false]} in
  let h := NewHeartbeatSender "w1" 10000000000 "/heartbeats/" in
  wp (run (hb_handle (fun _ => "h1")) (beats 1 0 h)) (fun _ w' =>
    exists p, hw_stored w' !! heartbeat_key h = Some p /\ TaskTypes p = [] /\
      hb_Tasks p = Registered reg)
    (MkHbWorld ∅ reg (NewBreaker "worker-etcd" 5 15 0) 0 false [PutFails; PutFails; PutFails]).
Proof. intros reg h. by apply task_types_vanish; [right|..]. Defined.

(** A probe of etcd whose time runs out is never accounted for: when the
    one heartbeat that a cooled-down breaker lets through meets a write that
    times out, the breaker stays half open, and none of the heartbeats that
    follow, however many, is written. *)
Theorem timed_out_probe_stops_heartbeats (hash : TaskRegistry -> string) (h : HeartbeatSender)
    (key : string) (startedAt : Z) (w : HbWorld) (l : list put_answer) (ticks : nat) :
  state (hw_breaker w) = StateOpen ->
  cooldownInterval (hw_breaker w) <= hw_now w - lastStateChange (hw_breaker w) ->
  hw_puts w = PutTimesOut :: l ->
  wp (run (hb_handle hash) (heartbeats (S ticks) key startedAt h)) (fun _ w' =>
    hw_stored w' = hw_stored w) w.
Proof.
  intros Ho Hcool Hp. cbn [heartbeats]. apply wp_run_bind. eapply report_allowed.
  { unfold Allow. rewrite Ho, (proj2 (Z.leb_le _ _)) by done. done. }
  destruct w as [st reg b now late puts]. cbn in Hp. subst puts.
  unfold heartbeat_attempts, heartbeatMaxRetries, wp at 1. cbn.
  apply heartbeats_denied. done.
Qed.

Lemma timed_out_probe_stops_heartbeats_witness :
  let h := NewHeartbeatSender "w1" 10000000000 "/heartbeats/" in
  let b := Failure 0 (NewBreaker "worker-etcd" 1 15 0) in
  let w := MkHbWorld ∅ ∅ b 20 false [PutTimesOut] in
  wp (run (hb_handle (fun _ => "h1")) (heartbeats (S 9) "/heartbeats/w1" 0 h))
    (fun _ w' => hw_stored w' = hw_stored w) w.
Proof.
  intros h b w. apply (timed_out_probe_stops_heartbeats (fun _ => "h1") h "/heartbeats/w1" 0 w [] 9);
    [reflexivity|vm_compute; discriminate|reflexivity].
Defined.
