(* ===== verification/Redelivery.v ===== *)
(** * What a worker's reports do (infra/engine/runtime)

    The reports of a task, on a client whose calls succeed; then what a worker
    that takes tasks under the lock makes of the events of its own reports,
    what the two modes of execution do to a key, and the wait of a task that
    finds no free place. *)
From Stdlib Require Import ZArith Lia String.
From stdpp Require Import base gmap strings list.
From S2P Require Import Prelude GoVal Model Circuit Payload Heap Queues Effects Etcd Runtime Worker.
Set Warnings "-register-all,-clear-no-such-hyp,-level-tolerance".
Local Open Scope Z_scope.
Local Open Scope list_scope.

(** ** A client whose calls succeed, a context that stays open *)

Class EtcdReliable (C : Type) `{EtcdClient C} : Prop := {
  get_ok k c : wp (c_get k) (fun r _ => exists x, r = Ok x) c;
  put_ok k v l c : wp (c_put k v l) (fun r _ => r = Ok tt) c;
  cas_ok k rev v c : wp (c_cas k rev v) (fun r _ => exists x, r = Ok x) c;
  lock_ok k c : wp (c_lock k) (fun r _ => r = Ok tt) c }.

#[export] Instance ex_client_reliable : @EtcdReliable Kv ex_client.
Proof.
  split; [by eexists|done| |done]. intros k rev v c. unfold wp. cbn.
  destruct (decide _); by eexists.
Qed.

Class OpenContext `{WorkerEnv} : Prop := ctx_open i : ctx_done i = false.

(** The maps of a payload are as JSON gives them back. *)
Definition settled_map (m : vmap) : Prop := encodable_map m = true /\ json_map m = m.

Record settled (p : TaskPayload) : Prop := {
  settled_params : settled_map (pl_Params p);
  settled_input : settled_map (Input p);
  settled_output : settled_map (default ∅ (Output p)) }.

Lemma settled_serializes p : settled p -> Serialize p = Some p.
Proof. intros [[H1 _] [H2 _] [H3 _]]. unfold Serialize. by rewrite H1, H2, H3. Qed.

Lemma settled_status st p : settled p -> settled (p <| pl_Status := st |>).
Proof. by intros []. Qed.

Lemma settled_json m : settled_map m -> settled_map (json_map m).
Proof. intros [H1 H2]. by rewrite H2. Qed.

Lemma settled_deserialize p : settled p -> settled (Deserialize p).
Proof.
  intros [H1 H2 H3]. split; [by apply settled_json..|]. cbn. destruct (Output p); [by apply settled_json|done].
Qed.

(** The breaker lets everything through, and goes on to while all succeeds. *)
Definition quiet {C : Type} (n : Node C) : Prop := state (n_breaker n) = StateClosed.

Section reports.
Context {C : Type} `{EtcdLaws C, !EtcdReliable C} `{OpenContext}.

Lemma put_written k v l c : wp (c_put k v l) (fun r c' => r = Ok tt /\ written k v c c') c.
Proof.
  pose proof (put_law k v l c) as Hl. pose proof (put_ok k v l c) as Ho. unfold wp in *.
  destruct (c_put k v l c) as [[r c']| |]; [|done..]. by subst r.
Qed.

(** A report on a reliable client writes the payload once. *)
Lemma Report_writes k p (n : Node C) :
  quiet n -> Serialize p = Some p ->
  wp (run handle (Report k p)) (fun ok n' =>
    ok = true /\ quiet n' /\ written k p (n_etcd n) (n_etcd n') /\ n_runs n' = n_runs n) n.
Proof.
  intros Hq Hs. unfold Report. rewrite Hs. unfold call. cbn [mbind io_bind].
  apply wp_run_call. unfold wp at 1. cbn [handle]. unfold Allow. rewrite Hq.
  unfold reportMaxRetries. cbn [report_attempts mbind io_bind call].
  apply wp_run_call. unfold wp at 1. cbn [handle draw]. rewrite ctx_open.
  apply wp_run_call. unfold wp at 1. cbn [handle]. unfold on_etcd, Put. upd_simpl.
  pose proof (put_written k p None (n_etcd n)) as Hw. unfold wp in Hw.
  destruct (c_put k p None (n_etcd n)) as [[r c']| |]; [|done..]. destruct Hw as [-> Hw].
  apply wp_run_call, wp_modify, wp_ret. split_and!; [done| |done..].
  unfold quiet, Success. upd_simpl. by case_decide.
Qed.

Lemma get_read k c :
  wp (c_get k) (fun r c' => unchanged c c' /\ r = Ok (c_kvs c !! k)) c.
Proof.
  pose proof (get_law k c) as Hl. pose proof (get_ok k c) as Ho. unfold wp in *.
  destruct (c_get k c) as [[r c']| |]; [|done..]. destruct Ho as [x ->]. by destruct Hl as [? ->].
Qed.

Lemma cas_swap k rev v c :
  wp (c_cas k rev v) (fun r c' =>
    if decide (mod_revision k c = rev)
    then r = Ok (CasDone (c_rev c')) /\ written k v c c'
    else r = Ok (CasLost (c_kvs c !! k)) /\ unchanged c c') c.
Proof.
  pose proof (cas_law k rev v c) as Hl. pose proof (cas_ok k rev v c) as Ho. unfold wp in *.
  destruct (c_cas k rev v c) as [[r c']| |]; [|done..]. destruct Ho as [x ->].
  destruct x; case_decide; naive_solver.
Qed.

Lemma CASPut_swap k p rev c :
  wp (CASPut k p rev) (fun x c' =>
    if decide (mod_revision k c = rev) then (exists r, x = Ok (true, r)) /\ written k p c c'
    else (exists r, x = Ok (false, r)) /\ unchanged c c') c.
Proof.
  unfold CASPut. apply wp_bind. eapply wp_mono; [apply cas_swap|]. intros r c' Hr. apply wp_ret.
  case_decide; destruct Hr as [-> Hr]; (split; [|done]); [by eexists|].
  destruct (_ !! k) as [[]|]; by eexists.
Qed.

Lemma GetWithRevision_read k c :
  wp (GetWithRevision k) (fun x c' =>
    unchanged c c' /\ exists rev, x = Ok (fst <$> c_kvs c !! k, rev)) c.
Proof.
  unfold GetWithRevision. apply wp_bind. eapply wp_mono; [apply get_read|].
  intros r c' [Hu ->]. apply wp_ret. split; [done|]. destruct (_ !! k) as [[]|]; by eexists.
Qed.

Lemma unchanged_written k v c c1 c2 : unchanged c c1 -> written k v c1 c2 -> written k v c c2.
Proof. unfold written. by intros (-> & -> & ->). Qed.

Lemma quiet_step {A : Type} (m : M C A) (Q : A -> C -> Prop) (n : Node C) :
  quiet n -> wp m Q (n_etcd n) ->
  wp (on_etcd m) (fun a n' => quiet n' /\ n_runs n' = n_runs n /\ Q a (n_etcd n')) n.
Proof.
  unfold wp, on_etcd. intros Hq. by destruct (m (n_etcd n)) as [[a c]| |].
Qed.

(** COMPLETED and FAILED are not written over. *)
Definition ended (found : option (TaskPayload * Z)) : bool :=
  match found with
  | Some (v, _) => bool_decide (pl_Status v = StatusCompleted \/ pl_Status v = StatusFailed)
  | None => false
  end.

(** What [updateStatus] answers: a swap, or a key that ended meanwhile. *)
Lemma updateStatus_spec k p (n : Node C) :
  quiet n -> Serialize p = Some p ->
  wp (run handle (updateStatus k p)) (fun ok n' =>
    quiet n' /\ n_runs n' = n_runs n /\
    if decide (EtcdModRevision p <> 0 /\ mod_revision k (n_etcd n) = EtcdModRevision p)
    then ok = true /\ written k p (n_etcd n) (n_etcd n')
    else unchanged (n_etcd n) (n_etcd n') /\
      ok = negb (EtcdModRevision p =? 0) && ended (c_kvs (n_etcd n) !! k)) n.
Proof.
  intros Hq Hs. unfold updateStatus. rewrite Hs. destruct (Z.eqb_spec (EtcdModRevision p) 0) as [Hz|Hz].
  { apply wp_ret. rewrite decide_False by tauto. done. }
  unfold call. cbn [mbind io_bind]. apply wp_run_call. cbn [handle].
  eapply wp_mono; [eapply quiet_step; [done|apply CASPut_swap]|].
  intros x n1 (Hq1 & Hr1 & Hx).
  destruct (decide (mod_revision k (n_etcd n) = EtcdModRevision p)) as [Hm|Hm];
    destruct Hx as [[rev ->] Hx].
  { apply wp_ret. by rewrite decide_True by done. }
  destruct (decide (EtcdModRevision p <> 0 /\ _)) as [[_ ?]|_]; [done|]. apply wp_run_call. cbn [handle].
  eapply wp_mono; [eapply quiet_step; [done|apply GetWithRevision_read]|].
  intros y n2 (Hq2 & Hr2 & Hu2 & rev' & ->). cbn [negb andb].
  rewrite (proj1 Hx). assert (Hu : unchanged (n_etcd n) (n_etcd n2)).
  { destruct Hx as (? & ? & ?), Hu2 as (? & ? & ?). split_and!; congruence. }
  destruct (c_kvs (n_etcd n) !! k) as [[v r]|]; cbn; apply wp_ret; split_and!; congruence || done.
Qed.

End reports.

(** ** A worker fed by its own reports *)

Section feeding.
Context {C : Type} `{EtcdLaws C, !EtcdReliable C} `{OpenContext}.
Context (text : TaskPayload -> string) (e : TaskExecutor) (task : Task) (name : string).
Context (Hname : name <> "") (Htask : ex_registry e !! name = Some task)
  (Hmode : lockMode e = LockModeMutex)
  (Htext : forall p, TaskName p = name -> ExtractTaskName (text p) = name)
  (Hcode : forall i pc tc out, user_code i task false pc tc = RunOk out ->
     settled_map (Context.GetAll out)).

Definition feeds (p : TaskPayload) : Prop := TaskName p = name /\ Rollback p = false /\ settled p.

Lemma feeds_status st p : feeds p -> feeds (p <| pl_Status := st |>).
Proof. by intros (? & ? & []). Qed.

Lemma feeds_deserialize p : feeds p -> feeds (Deserialize p).
Proof. intros (? & ? & Hs). split_and!; [done..|by apply settled_deserialize]. Qed.

Lemma feeds_outcome p r :
  feeds p -> (forall out, r = Ok out -> settled_map (Context.GetAll out)) -> feeds (outcome p r).
Proof.
  intros (Hn & Hr & [Hp Hi Ho]) Hout. destruct r as [out|[msg b]]; [|done].
  split_and!; [done..|]. split; [done..|]. by apply Hout.
Qed.

(** The code runs, whatever it answers. *)
Lemma run_task_runs p (n : Node C) :
  feeds p -> quiet n ->
  wp (run handle (run_task (ex_registry e) p (task_context p))) (fun r n' =>
    (forall out, r = Ok out -> settled_map (Context.GetAll out)) /\ quiet n' /\
    n_etcd n' = n_etcd n /\ length (n_runs n') = S (length (n_runs n))) n.
Proof.
  intros (Hn & Hr & _) Hq. unfold run_task, Get_task. rewrite Hn, Htask, Hr. cbn [andb].
  unfold call. cbn [mbind io_bind]. apply wp_run_call. unfold wp at 1.
  cbn [handle]. unfold mbind, M_bind, modify, draw. upd_simpl.
  destruct (user_code _ _ _ _ _) eqn:Hu; (apply wp_ret; split_and!;
    [|done|done|rewrite length_app; cbn; lia]); [|done..].
  intros out [= <-]. by eapply Hcode.
Qed.

Lemma lock_taken k c : wp (c_lock k) (fun r c' => r = Ok tt /\ c_history c' = c_history c) c.
Proof.
  pose proof (lock_law k c) as Hl. pose proof (lock_ok k c) as Ho. unfold wp in *.
  destruct (c_lock k c) as [[r c']| |]; [|done..]. split; [done|apply Hl].
Qed.

(** An execution under the lock: one run, and the two reports in the history. *)
Lemma executeWithMutex_feeds k lk p (n : Node C) :
  feeds p -> quiet n ->
  wp (run handle (executeWithMutex e k lk p)) (fun _ n' =>
    quiet n' /\ length (n_runs n') = S (length (n_runs n)) /\
    exists p1 p2, feeds p1 /\ feeds p2 /\
      c_history (n_etcd n') = c_history (n_etcd n) ++ [(k, p1); (k, p2)]) n.
Proof.
  intros Hp Hq. unfold executeWithMutex, call. cbn [mbind io_bind].
  apply wp_run_call. cbn [handle]. eapply wp_mono.
  { apply (quiet_step _ (fun r c => r = Ok tt /\ c_history c = c_history (n_etcd n))); [done|].
    unfold Lock. repeat apply wp_bind. eapply wp_mono; [apply lock_taken|].
    intros r c [-> Hc]. by do 2 apply wp_ret. }
  intros r n1 (Hq1 & Hr1 & -> & Hh1).
  set (p1 := p <| pl_Status := StatusRunning |>).
  assert (Hp1 : feeds p1) by by apply feeds_status.
  apply wp_run_bind. eapply wp_mono.
  { apply Report_writes; [done|]. apply settled_serializes, Hp1. }
  intros ok n2 (-> & Hq2 & Hw2 & Hr2). apply wp_run_bind.
  apply wp_run_bind. eapply wp_mono; [by apply run_task_runs|].
  intros r n3 (Hout & Hq3 & He3 & Hr3).
  assert (Hp2 : feeds (outcome p1 r)) by by apply feeds_outcome.
  apply wp_run_bind. eapply wp_mono.
  { apply Report_writes; [done|]. apply settled_serializes, Hp2. }
  intros ok n4 (_ & Hq4 & Hw4 & Hr4). apply wp_ret.
  apply wp_run_call. cbn [handle]. eapply wp_mono.
  { apply (quiet_step _ (fun _ c => c_history c = c_history (n_etcd n4))); [done|].
    eapply wp_mono; [apply unlock_law|]. intros ?? Hu. apply Hu. }
  intros ? n5 (Hq5 & Hr5 & Hh5). apply wp_ret. split_and!; [done|congruence|].
  exists p1, (outcome p1 r). split_and!; [done..|].
  destruct Hw2 as (_ & _ & Hh2). destruct Hw4 as (_ & _ & Hh4).
  rewrite Hh5, Hh4, He3, Hh2, Hh1, <- app_assoc. done.
Qed.

(** *** The queue and the watch of the worker *)

Definition pending_key (key : string) : Prop := String.prefix (pendingPrefix (ex_prefix e)) key = true.

Definition good_event (ev : Event) : Prop :=
  pending_key (ev_Key ev) /\ exists p, ev_Payload ev = Some p /\ feeds p.

Definition good_write (kv : string * TaskPayload) : Prop := pending_key kv.1 /\ feeds kv.2.

(** A worker with a free place and an open queue of such events. *)
Record ready (w : Worker) : Prop := {
  ready_executor : wk_executor w = e;
  ready_sem : 0 < taskSem w;
  ready_open : closed (taskPQ w) = false;
  ready_heap : heap Less (items (taskPQ w));
  ready_items : Forall (fun t => good_event (event t)) (items (taskPQ w)) }.

Record fed (s : Serving C) : Prop := {
  fed_ready : ready (sv_worker s);
  fed_quiet : quiet (sv_node s);
  fed_seen : (sv_seen s <= length (c_history (n_etcd (sv_node s))))%nat;
  fed_unseen : Forall good_write (drop (sv_seen s) (c_history (n_etcd (sv_node s))));
  fed_few : (length (drop (sv_seen s) (c_history (n_etcd (sv_node s)))) <= watchEventChanBuf)%nat;
  fed_some : items (taskPQ (sv_worker s)) <> [] \/
    drop (sv_seen s) (c_history (n_etcd (sv_node s))) <> [] }.

Lemma on_event_ready w ev :
  ready w -> ev_Put ev = true -> good_event ev ->
  ready (on_event w ev) /\ items (taskPQ (on_event w ev)) <> [].
Proof.
  intros [He Hs Ho Hh Hi] Hput Hev. unfold on_event. rewrite Hput. upd_simpl.
  assert (Hperm := Push_perm Less (MkPrioritized ev (event_priority ev)
    (wrap64 (nextIndex (taskPQ w) + 1))) (items (taskPQ w))).
  split.
  - split; cbn; [done|done| | |]; unfold Enqueue; rewrite Ho; cbn [closed items]; [done| |].
    + apply Push_heap; [apply _|done].
    + rewrite Hperm. by constructor.
  - unfold Enqueue. rewrite Ho. cbn [items]. intros Hnil. rewrite Hnil in Hperm.
    by apply Permutation_nil in Hperm.
Qed.

Lemma on_events_ready evs : forall w,
  ready w -> Forall (fun ev => ev_Put ev = true /\ good_event ev) evs ->
  ready (foldl on_event w evs) /\
  (items (taskPQ w) <> [] \/ evs <> [] -> items (taskPQ (foldl on_event w evs)) <> []).
Proof.
  induction evs as [|ev evs IH]; intros w Hw Hevs; [cbn; split; [done|naive_solver]|].
  apply list.Forall_cons in Hevs as [[Hput Hev] Hevs].
  destruct (on_event_ready w ev Hw Hput Hev) as [Hw' Hne]. cbn [foldl].
  destruct (IH _ Hw' Hevs) as [Hr Hi]. split; [done|]. intros _. apply Hi. by left.
Qed.

(** The worker's filter lets its own reports through. *)
Lemma filter_good kv :
  good_write kv ->
  exists ev, task_filter (ex_registry e) (write_event text kv) = Some ev /\
    ev_Put ev = true /\ good_event ev.
Proof.
  intros (Hk & Hn & Hr & Hs). unfold task_filter, write_event, Get_task. cbn [ev_Value ev_decoded].
  rewrite (Htext _ Hn), decide_False by done. rewrite Htask. eexists. split; [done|].
  split; [done|]. split; [done|]. exists (Deserialize kv.2). split; [done|].
  by apply feeds_deserialize.
Qed.

Lemma deliver_events l :
  Forall good_write l -> exists evs,
    omap (task_filter (ex_registry e)) (write_event text <$>
      filter (fun kv => String.prefix (pendingPrefix (ex_prefix e)) kv.1 = true) l) = evs /\
    length evs = length l /\ Forall (fun ev => ev_Put ev = true /\ good_event ev) evs.
Proof.
  intros Hl. induction Hl as [|kv l Hkv _ (evs & Heq & Hlen & Hall)]; [by eexists|].
  rewrite filter_cons_True by apply Hkv. cbn.
  destruct (filter_good kv Hkv) as (ev & -> & Hput & Hev). rewrite Heq.
  exists (ev :: evs). split_and!; [done|cbn; lia|by constructor].
Qed.

Lemma deliver_fed s :
  fed s -> let s' := deliver text s in
  ready (sv_worker s') /\ sv_node s' = sv_node s /\
  sv_seen s' = length (c_history (n_etcd (sv_node s))) /\ items (taskPQ (sv_worker s')) <> [].
Proof.
  intros [Hw Hq Hseen Hun Hfew Hsome]. unfold deliver. rewrite (ready_executor _ Hw).
  destruct (deliver_events _ Hun) as (evs & Heq & Hlen & Hall).
  unfold WatchWithFilter. rewrite watch_deliver_all.
  2:{ rewrite Heq. cbn. lia. }
  rewrite Heq, app_nil_l. upd_simpl.
  destruct (on_events_ready evs _ Hw Hall) as [Hr Hi]. split_and!; [done..|]. apply Hi.
  destruct Hsome as [?|Hs]; [by left|]. right. intros ->. by destruct (drop _ _).
Qed.

(** A round runs the task's code once, and leaves the worker fed. *)
Lemma round_fed s :
  fed s -> wp (round text) (fun _ s' => fed s' /\
    length (n_runs (sv_node s')) = S (length (n_runs (sv_node s)))) s.
Proof.
  intros Hf. pose proof (deliver_fed s Hf) as Hd. cbn zeta in Hd. unfold wp, round.
  set (s1 := deliver text s) in *. clearbody s1. destruct Hd as ([He Hs Ho Hh Hi] & Hn & Hseen & Hne).
  unfold consume, Dequeue_pass. rewrite Ho. cbn [andb].
  destruct (Pop_Some Less (items (taskPQ (sv_worker s1))) Hne) as (item & rest & Hpop).
  rewrite Hpop. destruct (Pop_spec Less _ _ _ Hh Hpop) as (Hperm & Hheap & _).
  rewrite Hperm in Hi. apply list.Forall_cons in Hi as [(Hk & p & Hp & Hfeeds) Hi].
  pose proof (executeWithMutex_feeds (ev_Key (event item))
    (taskLockKey (ex_prefix e) (ev_Key (event item))) p (sv_node s1) Hfeeds) as Hx.
  assert (Hexec : Execute_event e (event item) = executeWithMutex e (ev_Key (event item))
    (taskLockKey (ex_prefix e) (ev_Key (event item))) p)
    by (unfold Execute_event, event_payload; by rewrite Hp, Hmode).
  rewrite <- Hexec, Hn in Hx. specialize (Hx (fed_quiet _ Hf)). unfold wp in Hx. clear Hexec.
  unfold upd. cbn [taskSem wk_executor]. rewrite (proj2 (Z.ltb_lt _ _) Hs), He.
  set (ps := Execute_event e (event item)) in *. clearbody ps. unfold execute. upd_simpl. rewrite Hn.
  destruct (run handle ps (sv_node s)) as [[[] n']| |]; [|done..].
  destruct Hx as (Hq & Hruns & p1 & p2 & Hp1 & Hp2 & Hhist). upd_simpl.
  split; [|done]. split; upd_simpl; rewrite ?Hseen, ?Hhist.
  - split; upd_simpl; [done|lia|done..].
  - done.
  - rewrite length_app. lia.
  - rewrite drop_app_length. constructor; [by split|]. constructor; [by split|constructor].
  - rewrite drop_app_length. unfold watchEventChanBuf. cbn. lia.
  - right. by rewrite drop_app_length.
Qed.

End feeding.

(** C10: a worker in the lock mode executes a task again and again: its own
    reports, RUNNING and then the outcome, are writes under the watched prefix
    of pending tasks, and neither the filter nor the execution looks at the
    status they carry.  In each of [n] rounds of a worker alone, the code runs
    once more. *)
Theorem worker_feeds_itself {C : Type} `{EtcdLaws C, !EtcdReliable C} `{OpenContext}
    (text : TaskPayload -> string) (task : Task) (v : TaskPayload) (k : string)
    (s : Serving C) (n : nat) :
  let w := sv_worker s in let e := wk_executor w in
  TaskName v <> "" -> ex_registry e !! TaskName v = Some task -> lockMode e = LockModeMutex ->
  (forall p, TaskName p = TaskName v -> ExtractTaskName (text p) = TaskName v) ->
  (forall i pc tc out, user_code i task false pc tc = RunOk out ->
     settled_map (Context.GetAll out)) ->
  settled v -> Rollback v = false ->
  String.prefix (pendingPrefix (ex_prefix e)) k = true ->
  drop (sv_seen s) (c_history (n_etcd (sv_node s))) = [(k, v)] ->
  0 < taskSem w -> taskPQ w = newPriorityTaskQueue -> state (n_breaker (sv_node s)) = StateClosed ->
  wp (rounds text n) (fun _ s' =>
    length (n_runs (sv_node s')) = (length (n_runs (sv_node s)) + n)%nat) s.
Proof.
  intros w e Hname Htask Hmode Htext Hcode Hv Hr Hk Hun Hsem Hpq Hb.
  assert (Hfed : fed e (TaskName v) s).
  { split; rewrite ?Hun; [|done| | |unfold watchEventChanBuf; cbn; lia|by right].
    - split; [done|done| | |]; fold w; rewrite Hpq; [done|apply heap_nil|constructor].
    - apply (f_equal length) in Hun. rewrite length_drop in Hun. cbn in Hun. lia.
    - by constructor. }
  clear Hun Hpq Hb Hsem. clearbody e w. revert s Hfed.
  induction n as [|n IH]; intros s Hfed; [apply wp_ret; lia|]. cbn [rounds]. apply wp_bind.
  eapply wp_mono; [by apply (round_fed text e task (TaskName v))|].
  intros ? s' [Hfed' Hlen]. eapply wp_mono; [by apply IH|]. cbn. intros. lia.
Qed.

Definition ex_empty_env : WorkerEnv := {|
  ctx_done := fun _ => false; random_u64 := fun _ => Some 7;
  user_code := fun _ _ _ _ _ => RunOk Context.NewContext |}.

Definition ex_task : Task := MkUserTask "a" [] false.
Definition ex_key : string := "/tasks/PENDING/demo/a/1-00".
Definition ex_payload : TaskPayload :=
  zero_payload <| WorkflowID := "demo" |> <| TaskName := "a" |> <| pl_Status := StatusPending |>.
Definition ex_text (p : TaskPayload) : string := serialized "demo" (TaskName p) ",0}".

(** A new worker with one task, and etcd with one PENDING key. *)
Definition ex_serving : Serving Kv :=
  MkServing
    (NewWorker "/tasks/" 0 <| wk_executor := NewTaskExecutor "/tasks/" {["a" := ex_task]} |>)
    (MkNode (kv_write ex_key ex_payload (MkKv ∅ 0 []))
       (NewBreaker "etcd" workerEtcdMaxFailures workerEtcdCooldown 0) 0 0 []) 0.

Lemma worker_feeds_itself_witness :
  n_runs (sv_node ex_serving) = [] /\
  wp (rounds (H0 := ex_empty_env) ex_text 5) (fun _ s' =>
    length (n_runs (sv_node s')) = (length (n_runs (sv_node ex_serving)) + 5)%nat) ex_serving.
Proof.
  split; [reflexivity|]. assert (Hopen : @OpenContext ex_empty_env) by done.
  apply (worker_feeds_itself (H1 := ex_empty_env) ex_text ex_task ex_payload ex_key ex_serving 5);
    [done|reflexivity|reflexivity| | | |reflexivity|reflexivity|reflexivity|done|reflexivity|reflexivity].
  - intros p Hp. unfold ex_text. rewrite Hp. reflexivity.
  - intros i pc tc out [= <-]. split; reflexivity.
  - by split.
Defined.

(** The outcome of a task taken by compare-and-set, when the key changed
    during its execution: the key is left alone if it ended meanwhile, and
    otherwise the outcome is written over it without condition, so that a key
    deleted meanwhile comes back and a task put back to PENDING is lost. *)
Theorem write_back_overwrites {C : Type} `{EtcdLaws C, !EtcdReliable C} `{OpenContext}
    (k : string) (p : TaskPayload) (n : Node C) :
  state (n_breaker n) = StateClosed -> Serialize p = Some p ->
  wp (run handle (write_back k p)) (fun _ n' =>
    if negb (EtcdModRevision p =? 0) && negb (mod_revision k (n_etcd n) =? EtcdModRevision p) &&
       ended (c_kvs (n_etcd n) !! k)
    then unchanged (n_etcd n) (n_etcd n')
    else written k p (n_etcd n) (n_etcd n')) n.
Proof.
  intros Hq Hs. unfold write_back. apply wp_run_bind.
  eapply wp_mono; [by apply updateStatus_spec|]. intros ok n1 (Hq1 & _ & Hok).
  case_decide as Hd.
  - destruct Hok as [-> Hw]. apply wp_ret. destruct Hd as [_ Hm].
    rewrite (proj2 (Z.eqb_eq _ _) Hm). by rewrite andb_false_r.
  - destruct Hok as [Hu ->]. apply not_and_l in Hd.
    destruct (Z.eqb_spec (EtcdModRevision p) 0) as [Hz|Hz]; cbn [negb andb].
    + apply wp_run_bind. eapply wp_mono; [by apply Report_writes|].
      intros ok n2 (_ & _ & Hw & _). apply wp_ret. by eapply unchanged_written.
    + destruct (Z.eqb_spec (mod_revision k (n_etcd n)) (EtcdModRevision p)) as [Hm|Hm]; [tauto|].
      cbn [negb andb]. destruct (ended _).
      * by apply wp_ret.
      * apply wp_run_bind. eapply wp_mono; [by apply Report_writes|].
        intros ok n2 (_ & _ & Hw & _). apply wp_ret. by eapply unchanged_written.
Qed.

(** A key deleted while its task ran. *)
Lemma write_back_overwrites_witness :
  let n := MkNode (MkKv ∅ 9 []) (NewBreaker "etcd" 5 1000 0) 0 0 [] in
  let p := ex_payload <| pl_Status := StatusCompleted |> <| EtcdModRevision := 4 |> in
  wp (run (handle (H := ex_client) (H0 := ex_empty_env)) (write_back ex_key p)) (fun _ n' =>
    written (H := ex_client) ex_key p (n_etcd n) (n_etcd n')) n.
Proof.
  intros n p. assert (Hopen : @OpenContext ex_empty_env) by done.
  exact (write_back_overwrites (H1 := ex_empty_env) ex_key p n eq_refl eq_refl).
Defined.

(** C40: the wait of a task that finds no free place doubles from thirty seconds
    to five minutes for its first twenty-nine attempts; the product then leaves
    the range of a duration: the thirtieth wait is negative and from the
    fifty-fifth on there is none. *)
Theorem reenqueue_backoff_range (attempt : Z) :
  (1 <= attempt <= 29 -> reenqueue_backoff attempt =
     Z.min (taskAcquireTimeout * 2 ^ attempt) maxReenqueueBackoff) /\
  (attempt = 30 -> reenqueue_backoff attempt < 0) /\
  (55 <= attempt -> reenqueue_backoff attempt = 0) /\
  reenqueue_backoff attempt <= maxReenqueueBackoff.
Proof.
  split_and!.
  - intros [H1 H2]. assert (Hx : In attempt (map Z.of_nat (seq 1 29))).
    { apply in_map_iff. exists (Z.to_nat attempt). split; [lia|]. apply in_seq. lia. }
    assert (Hall : forallb (fun a => reenqueue_backoff a =?
      Z.min (taskAcquireTimeout * 2 ^ a) maxReenqueueBackoff) (map Z.of_nat (seq 1 29)) = true)
      by reflexivity.
    apply Z.eqb_eq. by apply (proj1 (forallb_forall _ _) Hall).
  - by intros ->.
  - intros Ha. unfold reenqueue_backoff, shl64, taskAcquireTimeout.
    change (15000 * Millisecond) with 15000000000.
    assert (Hz : wrap64 (15000000000 * (if 64 <=? attempt then 0 else wrap64 (Z.shiftl 1 attempt))) = 0).
    { destruct (Z.leb_spec 64 attempt); [done|].
      assert (Hx : In attempt (map Z.of_nat (seq 55 9))).
      { apply in_map_iff. exists (Z.to_nat attempt). split; [lia|]. apply in_seq. lia. }
      assert (Hall : forallb (fun a => wrap64 (15000000000 * wrap64 (Z.shiftl 1 a)) =? 0)
        (map Z.of_nat (seq 55 9)) = true) by reflexivity.
      apply Z.eqb_eq. exact (proj1 (forallb_forall _ _) Hall _ Hx). }
    by rewrite Hz.
  - unfold reenqueue_backoff. case_match; lia.
Qed.

Lemma reenqueue_backoff_range_witness : reenqueue_backoff 3 = 120000 * Millisecond.
Proof. rewrite (proj1 (reenqueue_backoff_range 3)) by lia. reflexivity. Defined.
