(* ===== verification/Host.v ===== *)
(** * A worker and the code it runs (infra/engine/runtime/executor.go)

    The code of a task changes a host of its own: the disk, the services it
    calls.  Here the calls of a worker run on the pair of its node and that
    host, and one execution by compare-and-set is followed from the PENDING
    key to the outcome under it. *)
From Stdlib Require Import ZArith Lia String.
From stdpp Require Import base gmap strings list.
From S2P Require Import Prelude GoVal Model Circuit Payload Effects Etcd Runtime Redelivery.
Set Warnings "-register-all,-clear-no-such-hyp,-level-tolerance".
Local Open Scope Z_scope.
Local Open Scope list_scope.

(** ** The code of the tasks, on a host *)

Class TaskCode (H : Type) := {
  task_code : Task -> bool -> Context.Context -> Context.Context -> M H run_result }.

Section host.
Context {C H : Type} `{EtcdClient C} `{WorkerEnv} `{TaskCode H}.

Definition on_node {A : Type} (m : M (Node C) A) : M (Node C * H) A := fun x =>
  match m x.1 with
  | Ret (a, n) => Ret (a, (n, x.2))
  | Panic => Panic
  | Blocked => Blocked
  end.

Definition host_handle : handler eff (Node C * H) := fun X e =>
  match e in eff X return M (Node C * H) X with
  | ERun task rollback _ paramCtx taskCtx => fun x =>
      match task_code task rollback paramCtx taskCtx x.2 with
      | Ret (r, h) => Ret (r, (x.1 <| n_runs ::= fun l => l ++ [(task, taskCtx)] |>, h))
      | Panic => Panic
      | Blocked => Blocked
      end
  | e => on_node (handle _ e)
  end.

(** ** Programs that run no task do not see the host *)

Definition runs_task {X : Type} (e : eff X) : bool :=
  match e with ERun _ _ _ _ _ => true | _ => false end.

Fixpoint taskless {A : Type} (p : prog A) : Prop :=
  match p with
  | Pure _ => True
  | Vis e k => runs_task e = false /\ forall x, taskless (k x)
  end.

Lemma taskless_bind {A B : Type} (p : prog A) (f : A -> prog B) :
  taskless p -> (forall a, taskless (f a)) -> taskless (p ≫= f).
Proof. induction p as [a|X e k IH]; cbn; [auto|]. intros [He Hk] Hf. split; [done|]. auto. Qed.

Lemma handle_taskless X (e : eff X) : runs_task e = false -> host_handle X e = on_node (handle X e).
Proof. by destruct e. Qed.

Lemma wp_on_node {A : Type} (m : M (Node C) A) Q n h :
  wp m (fun a n' => Q a (n', h)) n -> wp (on_node m) Q (n, h).
Proof. unfold wp, on_node. cbn. by destruct (m n) as [[a n']| |]. Qed.

Lemma wp_taskless {A : Type} (p : prog A) (Q : A -> Node C * H -> Prop) n h :
  taskless p -> wp (run handle p) (fun a n' => Q a (n', h)) n -> wp (run host_handle p) Q (n, h).
Proof.
  revert n. induction p as [a|X e k IH]; intros n; cbn [taskless]; [done|]. intros [He Hk].
  unfold wp. cbn [run]. rewrite handle_taskless by done. unfold mbind, M_bind, on_node. cbn [fst snd].
  destruct (handle X e n) as [[x n']| |]; [|done..]. intros Hp. exact (IH x n' (Hk x) Hp).
Qed.

End host.

Lemma taskless_call {A X : Type} (e : eff X) (f : X -> prog A) :
  runs_task e = false -> (forall x, taskless (f x)) -> taskless (call e ≫= f).
Proof. by split. Qed.

Lemma rand_taskless n : taskless (cryptoRandInt63n n).
Proof. unfold cryptoRandInt63n. case_match; [done|]. split; [done|]. by intros []. Qed.

Lemma report_attempts_taskless left : forall attempt k p, taskless (report_attempts left attempt k p).
Proof.
  induction left as [|left IH]; intros attempt k p; cbn [report_attempts]; [done|].
  apply taskless_call; [done|]. intros []; [done|]. apply taskless_call; [done|]. intros [u|er]; [by apply taskless_call|].
  case_decide; [apply taskless_call; [done|]; intros ?; apply IH|].
  apply taskless_bind; [apply rand_taskless|]. intros j. apply taskless_call; [done|]. intros []; [done|apply IH].
Qed.

Lemma Report_taskless k p : taskless (Report k p).
Proof.
  unfold Report. destruct (Serialize p); [|done]. split; [done|].
  intros []; [apply report_attempts_taskless|done].
Qed.

Lemma updateStatus_taskless k p : taskless (updateStatus k p).
Proof.
  unfold updateStatus. destruct (Serialize p); [|done]. case_match; [done|].
  apply taskless_call; [done|]. intros [[[] rev]|er]; [done| |done]. split; [done|]. by intros [[[v|] rev']|er].
Qed.

Lemma write_back_taskless k p : taskless (write_back k p).
Proof.
  apply taskless_bind; [apply updateStatus_taskless|]. intros []; [done|].
  apply taskless_bind; [apply Report_taskless|done].
Qed.

Lemma acquire_taskless k left : forall attempt, taskless (acquire_attempts left attempt k).
Proof.
  induction left as [|left IH]; intros attempt; cbn [acquire_attempts]; [done|].
  apply taskless_call; [done|]. intros [[[v|] rev]|er]; [|done..]. cbn zeta. case_decide; [|done].
  destruct (Serialize _); [|done]. apply taskless_call; [done|]. intros [[[] rev']|er]; [done| |done].
  case_decide; [done|]. apply taskless_call; [done|]. intros []; [done|apply IH].
Qed.

(** ** One execution by compare-and-set *)

(** What [run] returns of what the code answered. *)
Definition answered (name : string) (r : run_result) : res (string * bool) Context.Context :=
  match r with
  | RunOk out => Ok out
  | RunErr msg noRetry => Err (msg, noRetry)
  | RunPanic msg => Err ("任务 " +:+ name +:+ " 发生 panic: " +:+ msg, false)
  end.

(** The payload of a PENDING key, as its owner writes and runs it. *)
Definition taken (v : TaskPayload) : TaskPayload := Deserialize v <| pl_Status := StatusRunning |>.

Lemma outcome_serializes v rev name r :
  Serialize (taken v) = Some (taken v) ->
  (forall out, r = RunOk out -> encodable_map (Context.GetAll out) = true) ->
  let p := outcome (taken v <| EtcdModRevision := rev |>) (answered name r) in Serialize p = Some p.
Proof.
  intros Hs Hout. cbn zeta. unfold Serialize in *.
  assert (Hpi : encodable_map (pl_Params (taken v)) && encodable_map (Input (taken v)) = true /\
    encodable_map (default ∅ (Output (taken v))) = true).
  { destruct (_ && encodable_map (Input (taken v))), (encodable_map (default ∅ (Output (taken v)))); done. }
  destruct Hpi as [Hpi Ho]. set (p := outcome _ _).
  replace (encodable_map (pl_Params p) && encodable_map (Input p))%bool with true
    by (rewrite <- Hpi; unfold p; by destruct r).
  replace (encodable_map (default ∅ (Output p))) with true; [done|]. unfold p. destruct r as [out| |]; [|by rewrite <- Ho..].
  symmetry. by apply Hout.
Qed.

Lemma task_context_eq p : task_context p = Context.MkContext (Input p).
Proof.
  unfold task_context. rewrite <- (Context.copy_map_eq (Input p)) at 2.
  unfold Context.NewContext. generalize (∅ : vmap) at 1 2 as m0.
  intros m0. rewrite !map_fold_foldr. induction (map_to_list (Input p)) as [|[k v] l IH]; [done|].
  cbn. by rewrite IH.
Qed.

Section alone.
Context {C H : Type} `{EtcdLaws C, !EtcdReliable C} `{OpenContext} `{TaskCode H}.

Lemma written_revision k v (c c' : C) : written k v c c' -> mod_revision k c' = c_rev c'.
Proof. intros (_ & Hk & _). unfold mod_revision. by rewrite Hk, lookup_insert_eq. Qed.

Lemma GetWithRevision_found k v r c : c_kvs c !! k = Some (v, r) ->
  wp (GetWithRevision k) (fun x c' => unchanged c c' /\ x = Ok (Some v, r)) c.
Proof.
  intros Hk. unfold GetWithRevision. apply wp_bind. eapply wp_mono; [apply get_read|].
  intros x c' [Hu ->]. apply wp_ret. split; [done|]. by rewrite Hk.
Qed.

Lemma CASPut_wins k p rev c : mod_revision k c = rev ->
  wp (CASPut k p rev) (fun x c' => x = Ok (true, c_rev c') /\ written k p c c') c.
Proof.
  intros Hm. unfold CASPut. apply wp_bind. eapply wp_mono; [apply cas_swap|]. intros r c'.
  destruct (decide _); [|done]. intros [-> Hw]. by apply wp_ret.
Qed.

(** The key is there and PENDING, and nobody else is about. *)
Lemma tryAcquire_pending k v r0 (n : Node C) :
  quiet n -> c_kvs (n_etcd n) !! k = Some (v, r0) -> pl_Status v = StatusPending ->
  Serialize (taken v) = Some (taken v) ->
  wp (run handle (tryAcquire k)) (fun r n' =>
    quiet n' /\ n_runs n' = n_runs n /\ written k (taken v) (n_etcd n) (n_etcd n') /\
    r = Some (taken v <| EtcdModRevision := c_rev (n_etcd n') |>)) n.
Proof.
  intros Hq Hk Hp Hs. unfold tryAcquire, casMaxRetries. cbn [acquire_attempts].
  unfold call at 1. cbn [mbind io_bind]. apply wp_run_call. cbn [handle].
  eapply wp_mono; [apply quiet_step; [done|by apply GetWithRevision_found]|].
  intros x n1 (Hq1 & Hr1 & Hu & ->). cbn zeta. rewrite decide_True by done.
  change (Deserialize v <| pl_Status := StatusRunning |>) with (taken v). rewrite Hs.
  unfold call at 1. cbn [mbind io_bind]. apply wp_run_call. cbn [handle].
  eapply wp_mono; [apply quiet_step; [done|apply CASPut_wins]|].
  { unfold mod_revision. destruct Hu as [-> _]. by rewrite Hk. }
  intros x n2 (Hq2 & Hr2 & -> & Hw). apply wp_ret. split_and!; [done|congruence| |done].
  by eapply unchanged_written.
Qed.

(** The node between executions. *)
Record idle (n : Node C) : Prop := { idle_quiet : quiet n; idle_revisions : revisions_ok (n_etcd n) }.

(** From the PENDING key to the outcome under it: the code runs once, on the
    inputs and parameters that crossed etcd, and what it answers is written
    under the key and nowhere else. *)
Lemma executeWithCAS_alone e k v r0 task (Q : run_result -> H -> Prop) (n : Node C) (h : H) :
  idle n -> c_kvs (n_etcd n) !! k = Some (v, r0) -> pl_Status v = StatusPending ->
  ex_registry e !! TaskName v = Some task -> Rollback v && negb (rollbackable task) = false ->
  Serialize (taken v) = Some (taken v) ->
  wp (task_code task (Rollback v) (Context.MkContext (json_map (pl_Params v)))
       (Context.MkContext (json_map (Input v))))
     (fun r h' => Q r h' /\ forall out, r = RunOk out -> encodable_map (Context.GetAll out) = true) h ->
  wp (run host_handle (executeWithCAS e k)) (fun _ x => exists r rev p,
    Q r x.2 /\ p = outcome (taken v <| EtcdModRevision := rev |>) (answered (TaskName v) r) /\
    c_kvs (n_etcd x.1) = <[k := (p, c_rev (n_etcd x.1))]> (c_kvs (n_etcd n)) /\
    n_runs x.1 = n_runs n ++ [(task, Context.MkContext (json_map (Input v)))] /\ idle x.1) (n, h).
Proof.
  intros [Hq Hrevs] Hk Hp Htask Hroll Hs Hcode. unfold executeWithCAS. apply wp_run_bind.
  apply wp_taskless; [apply acquire_taskless|].
  eapply wp_mono; [by eapply tryAcquire_pending|].
  intros x n1 (Hq1 & Hr1 & Hw1 & ->). set (rev := c_rev (n_etcd n1)).
  set (p1 := taken v <| EtcdModRevision := rev |>).
  apply wp_run_bind. unfold run_task, Get_task. change (TaskName p1) with (TaskName v).
  rewrite Htask. change (Rollback p1) with (Rollback v). rewrite Hroll. cbn zeta.
  unfold call. cbn [mbind io_bind]. apply wp_run_call. unfold wp at 1. cbn [host_handle].
  rewrite task_context_eq, Context.NewContextWith_eq. cbn [fst snd]. unfold wp in Hcode.
  change (Input p1) with (json_map (Input v)). change (pl_Params p1) with (json_map (pl_Params v)).
  destruct (task_code _ _ _ _ h) as [[r h']| |]; [|done..]. destruct Hcode as [HQ Hout].
  apply wp_ret. set (n2 := n1 <| n_runs ::= _ |>).
  change (match r with RunOk out => _ | RunErr msg noRetry => _ | RunPanic msg => _ end)
    with (answered (TaskName v) r).
  set (p2 := outcome p1 (answered (TaskName v) r)).
  assert (Hs2 : Serialize p2 = Some p2) by (by apply outcome_serializes).
  assert (Hrev : EtcdModRevision p2 = rev) by (unfold p2; by destruct r).
  assert (Hpos : 0 < rev) by (destruct Hw1 as [Hx _], Hrevs as [? _]; unfold rev; lia).
  apply wp_taskless; [apply write_back_taskless|]. unfold write_back. apply wp_run_bind.
  eapply wp_mono; [apply (updateStatus_spec k p2 n2); [exact Hq1|done]|].
  intros ok n3 (Hq3 & Hr3 & Hx). rewrite Hrev, decide_True in Hx.
  2:{ split; [lia|]. change (n_etcd n2) with (n_etcd n1). by eapply written_revision. }
  destruct Hx as [-> Hw3]. apply wp_ret. exists r, rev, p2. cbn [fst snd]. split_and!; [done..| | |].
  - destruct Hw3 as (_ & -> & _). change (n_etcd n2) with (n_etcd n1).
    destruct Hw1 as (_ & -> & _). by rewrite insert_insert_eq.
  - rewrite Hr3. unfold n2. upd_simpl. by rewrite Hr1.
  - split; [done|]. eapply written_ok; [exact Hw3|]. by eapply written_ok.
Qed.

End alone.
