(* ===== verification/Workers.v ===== *)
(** * The master's view of its workers (infra/engine/scheduler/worker_manager.go,
      backlog_metrics.go, domain/model/worker.go)

    Heartbeats and their disappearance drive a table of workers, two counters
    kept beside it, and the registry of task types. *)
From Stdlib Require Import ZArith Lia String.
From stdpp Require Import base gmap strings list.
From S2P Require Import Prelude GoVal Model Payload Dispatcher.
Set Warnings "-register-all,-clear-no-such-hyp,-level-tolerance".
Local Open Scope Z_scope.
Local Open Scope list_scope.

Inductive WorkerStatus : Type := WorkerStatusAlive | WorkerStatusDead.

#[export] Instance WorkerStatus_eq_dec : EqDecision WorkerStatus.
Proof. solve_decision. Defined.

Record WorkerState := MkWorkerState {
  wks_WorkerID : string;
  wks_Tasks : list string;
  wks_Status : WorkerStatus;
  wks_StartedAt : Z;
  wks_AliveAt : Z }.

#[export] Instance eta_WorkerState : Eta WorkerState := fun s =>
  MkWorkerState (wks_WorkerID s) (wks_Tasks s) (wks_Status s) (wks_StartedAt s) (wks_AliveAt s).

(** [wkm_held]: the mutex is held for writing. *)
Record WorkerManager := MkWorkerManager {
  wkm_held : bool;
  workers : gmap string WorkerState;
  taskRegistry : gmap string TaskType;
  workerTypeHash : gmap string string;
  aliveCount : Z;
  deadCount : Z }.

#[export] Instance eta_WorkerManager : Eta WorkerManager := fun m =>
  MkWorkerManager (wkm_held m) (workers m) (taskRegistry m) (workerTypeHash m)
    (aliveCount m) (deadCount m).

Definition NewWorkerManager : WorkerManager := MkWorkerManager false ∅ ∅ ∅ 0 0.

Abbreviation W := WorkerManager.

(** [mu.Lock()] by a goroutine that may hold it already: it is not reentrant. *)
Definition wkm_lock : M W unit := fun m =>
  if wkm_held m then Blocked else Ret (tt, m <| wkm_held := true |>).
Definition wkm_unlock : M W unit := modify (fun m => m <| wkm_held := false |>).

(** [mu.RLock()], a look, and its release. *)
Definition wkm_read {A : Type} (f : W -> A) : M W A := fun m =>
  if wkm_held m then Blocked else Ret (f m, m).

Definition add_alive (n : Z) (m : W) : W := m <| aliveCount ::= fun c => wrap64 (c + n) |>.
Definition add_dead (n : Z) (m : W) : W := m <| deadCount ::= fun c => wrap64 (c + n) |>.

(** ** Task types *)

(** A definition equal to the registered one is not stored again. *)
Definition RegisterTaskType (tt : TaskType) : M W unit :=
  wkm_lock;;
  modify (fun m => m <| taskRegistry ::= <[tt_Name tt := tt]> |>);;
  wkm_unlock.

Definition ListTaskTypes : M W (list TaskType) := wkm_read (fun m => (map_to_list (taskRegistry m)).*2).

(** ** Heartbeats *)

(** What follows the prefix of a heartbeat key. *)
Definition extractWorkerID (key prefix : string) : string :=
  if (String.length key <=? String.length prefix)%nat then ""
  else str_drop (String.length prefix) key.

Definition worker_of (hb : HeartbeatPayload) : WorkerState :=
  MkWorkerState (WorkerID hb) (hb_Tasks hb) WorkerStatusAlive (hb_StartedAt hb) (hb_AliveAt hb).

(** A heartbeat that was written: the worker's entry, under the lock. *)
Definition beat (hb : HeartbeatPayload) (m : W) : W :=
  match workers m !! WorkerID hb with
  | Some existing =>
      let m := if decide (wks_Status existing = WorkerStatusDead) then add_dead (-1) m else m in
      m <| workers ::= <[WorkerID hb :=
             existing <| wks_Status := WorkerStatusAlive |> <| wks_AliveAt := hb_AliveAt hb |>
                      <| wks_Tasks := hb_Tasks hb |>]> |>
  | None => add_alive 1 (m <| workers ::= <[WorkerID hb := worker_of hb]> |>)
  end.

Definition on_put (hb : HeartbeatPayload) : M W unit :=
  wkm_lock;; modify (beat hb);; wkm_unlock;;
  prevHash ← gets (fun m => default "" (workerTypeHash m !! WorkerID hb));
  if negb (bool_decide (TaskTypesHash hb = "")) && bool_decide (TaskTypesHash hb = prevHash) &&
     negb (bool_decide (prevHash = ""))
  then mret tt
  else
    modify (fun m => m <| workerTypeHash ::= <[WorkerID hb := TaskTypesHash hb]> |>);;
    for_each RegisterTaskType (TaskTypes hb).

(** A heartbeat key that went. *)
Definition forget_worker (workerID : string) (m : W) : W :=
  match workers m !! workerID with
  | Some w =>
      let m := if decide (wks_Status w = WorkerStatusAlive) then add_alive (-1) m
               else add_dead (-1) m in
      m <| workers ::= delete workerID |>
  | None => m
  end.

Definition on_delete (prefix key : string) : M W unit :=
  let workerID := extractWorkerID key prefix in
  if decide (workerID = "") then mret tt
  else wkm_lock;; modify (forget_worker workerID);; wkm_unlock.

(** ** Stale workers *)

Definition defaultHeartbeatStaleSec : Z := 15.

Definition stale_threshold (staleThresholdSec : Z) : Z :=
  wrap64 ((if staleThresholdSec <=? 0 then defaultHeartbeatStaleSec else staleThresholdSec) * Second).

Definition is_stale (now staleThreshold : Z) (w : WorkerState) : bool :=
  negb (bool_decide (wks_Status w = WorkerStatusDead)) && (staleThreshold <? now - wks_AliveAt w).

Definition bury (id : string) (m : W) : W :=
  match workers m !! id with
  | Some w =>
      if decide (wks_Status w = WorkerStatusDead) then m
      else add_dead 1 (add_alive (-1)
             (m <| workers ::= <[id := w <| wks_Status := WorkerStatusDead |>]> |>))
  | None => m
  end.

(** A pass over the table under the read lock, then the marking. *)
Definition markStaleWorkers (now staleThresholdSec : Z) : M W unit :=
  staleIDs ← wkm_read (fun m =>
    (filter (fun kv => is_stale now (stale_threshold staleThresholdSec) kv.2 = true)
       (map_to_list (workers m))).*1);
  match staleIDs with
  | [] => mret tt
  | _ => wkm_lock;; modify (fun m => foldl (fun m id => bury id m) m staleIDs);; wkm_unlock
  end.

(** ** The loop of [processHeartbeatEvents], one turn *)

Inductive hb_event : Type :=
| HbPut (hb : option HeartbeatPayload)      (* None: the text does not parse *)
| HbDelete (key : string)
| HbTick (now : Z).

Definition on_hb_event (prefix : string) (staleSec : Z) (e : hb_event) : M W unit :=
  match e with
  | HbPut None => mret tt
  | HbPut (Some hb) => on_put hb
  | HbDelete key => on_delete prefix key
  | HbTick now => markStaleWorkers now staleSec
  end.

Definition processHeartbeatEvents (prefix : string) (staleSec : Z) (es : list hb_event) : M W unit :=
  for_each (on_hb_event prefix staleSec) es.

(** The delay before the [n]-th attempt to watch again. *)
Definition heartbeatWatchReconnectDelay : Z := 3 * Second.
Definition heartbeatWatchMaxReconnectDelay : Z := 30 * Second.

Fixpoint reconnect_delay (n : nat) : Z :=
  match n with
  | O => heartbeatWatchReconnectDelay
  | S n' => Z.min (wrap64 (reconnect_delay n' * 2)) heartbeatWatchMaxReconnectDelay
  end.

(** ** The scan at the start *)

Definition scan_entry (prefix : string) (kv : string * option HeartbeatPayload) : M W unit :=
  match kv.2 with
  | None => mret tt
  | Some hb =>
      let workerID := extractWorkerID kv.1 prefix in
      if decide (workerID = "") then mret tt
      else
        modify (fun m => m <| workers ::= <[workerID := worker_of hb]> |>
                           <| workerTypeHash ::= <[workerID := TaskTypesHash hb]> |>);;
        for_each RegisterTaskType (TaskTypes hb)
  end.

(** [kvs]: the heartbeat keys in etcd, or an error. *)
Definition scanExistingWorkers (prefix : string)
    (kvs : res string (list (string * option HeartbeatPayload))) : M W unit :=
  match kvs with
  | Err _ => mret tt
  | Ok kvs =>
      wkm_lock;;
      for_each (scan_entry prefix) kvs;;
      modify (fun m => m <| aliveCount := Z.of_nat (size (workers m)) |>);;
      wkm_unlock
  end.

(** ** Queries and metrics *)

Definition ListWorkers : M W (list WorkerState) := wkm_read (fun m => (map_to_list (workers m)).*2).
Definition AliveCount (m : W) : Z := aliveCount m.
Definition DeadCount (m : W) : Z := deadCount m.
Definition TotalCount (m : W) : Z := wrap64 (aliveCount m + deadCount m).

Record BacklogMetrics := MkBacklog {
  PendingTasks : Z; ActiveTasks : Z; TotalWorkers : Z; AliveWorkers : Z; DeadWorkers : Z;
  QueueDepthPerWorker : Z }.

(** [Refresh], from the dispatcher's two counts, then [Snapshot]. *)
Definition Refresh (pendingTaskCount globalActiveCount : Z) (m : W) : BacklogMetrics :=
  let alive := AliveCount m in
  let dead := DeadCount m in
  MkBacklog pendingTaskCount globalActiveCount (wrap64 (alive + dead)) alive dead
    (if 0 <? alive then Z.quot pendingTaskCount alive else pendingTaskCount).

(** ** Lemmas: counting workers *)

Definition count (st : WorkerStatus) (ws : gmap string WorkerState) : Z :=
  Z.of_nat (size (filter (fun kv => wks_Status kv.2 = st) ws)).

Definition is_status (st : WorkerStatus) (w : WorkerState) : Z :=
  if decide (wks_Status w = st) then 1 else 0.

Lemma count_empty st : count st ∅ = 0.
Proof. unfold count. by rewrite map_filter_empty, map_size_empty. Qed.

Lemma workers_insert st k w ws : count st (<[k := w]> ws) = count st (delete k ws) + is_status st w.
Proof.
  unfold count, is_status. rewrite <- insert_delete_eq, map_filter_insert. cbn. case_decide.
  - rewrite map_size_insert_None; [lia|]. rewrite map_filter_delete. apply lookup_delete_eq.
  - rewrite delete_delete_eq. lia.
Qed.

Lemma count_delete st k ws :
  count st ws = count st (delete k ws) + match ws !! k with Some w => is_status st w | None => 0 end.
Proof.
  destruct (ws !! k) as [w|] eqn:Hk.
  - rewrite <- (workers_insert st k w). by rewrite insert_id.
  - rewrite delete_id by done. lia.
Qed.

Lemma count_all ws : count WorkerStatusAlive ws + count WorkerStatusDead ws = Z.of_nat (size ws).
Proof.
  induction ws as [|k w ws Hk IH] using map_ind; [by rewrite !count_empty, map_size_empty|].
  rewrite !workers_insert, !delete_id, map_size_insert_None by done.
  unfold is_status. destruct (wks_Status w); cbn; repeat case_decide; try done; lia.
Qed.

(** The counters of a manager in which [r] dead workers came back. *)
Definition tallied (r : Z) (m : W) : Prop :=
  aliveCount m = wrap64 (count WorkerStatusAlive (workers m) - r) /\
  deadCount m = wrap64 (count WorkerStatusDead (workers m)).

Definition counted (r : Z) (m : W) : Prop := wkm_held m = false /\ tallied r m.

(** A change of the table under the lock. *)
Lemma locked_change f m (Q : unit -> W -> Prop) :
  wkm_held m = false -> Q tt (f (m <| wkm_held := true |>) <| wkm_held := false |>) ->
  wp (wkm_lock;; modify f;; wkm_unlock) Q m.
Proof. intros Hh HQ. unfold wp, mbind, M_bind, wkm_lock. by rewrite Hh. Qed.

Lemma locked_then {A : Type} f (k : M W A) m (Q : A -> W -> Prop) :
  wkm_held m = false -> wp k Q (f (m <| wkm_held := true |>) <| wkm_held := false |>) ->
  wp (wkm_lock;; modify f;; wkm_unlock;; k) Q m.
Proof. intros Hh HQ. unfold wp, mbind, M_bind, wkm_lock. by rewrite Hh. Qed.

Lemma RegisterTaskTypes_counted r tts m :
  counted r m -> wp (for_each RegisterTaskType tts) (fun _ => counted r) m.
Proof.
  intros Hc. apply wp_for_each; [|done]. intros tt m' _ [Hf Ht]. unfold RegisterTaskType.
  by apply locked_change.
Qed.

(** A dead worker that sends a heartbeat. *)
Definition revives (e : hb_event) (m : W) : Z :=
  match e with
  | HbPut (Some hb) =>
      match workers m !! WorkerID hb with Some w => is_status WorkerStatusDead w | None => 0 end
  | _ => 0
  end.

(** Both counts around the key [k] that a change touches. *)
Ltac recount k :=
  match goal with
  | H : tallied _ ?m |- _ =>
      let Ha := fresh "Ha" in let Hd := fresh "Hd" in
      destruct H as [Ha Hd]; rewrite (count_delete _ k) in Ha; rewrite (count_delete _ k) in Hd
  end.

(** Settle the counters of a table whose statuses are known. *)
Ltac settle :=
  unfold tallied, add_alive, add_dead, is_status in *; repeat case_decide; try congruence;
  upd_simpl; rewrite ?workers_insert; unfold is_status; cbn; split;
  match goal with
  | H : ?c = wrap64 _ |- wrap64 (?c + _) = _ => rewrite H, wrap64_add_l
  | H : ?c = wrap64 _ |- ?c = _ => rewrite H
  end; f_equal; repeat case_decide; congruence || lia.

Lemma beat_tallied r hb m :
  tallied r m -> tallied (r + revives (HbPut (Some hb)) m) (beat hb m).
Proof.
  intros Ht. unfold beat, revives. recount (WorkerID hb).
  destruct (workers m !! WorkerID hb) as [w|] eqn:Hw; [destruct (wks_Status w) eqn:Hs|]; settle.
Qed.

Lemma bury_tallied r id m : tallied r m -> tallied r (bury id m).
Proof.
  intros Ht. unfold bury. destruct (workers m !! id) as [w|] eqn:Hw; [|done].
  case_decide as Hs; [done|]. recount id. rewrite Hw in *.
  destruct (wks_Status w) eqn:Hst; [|done]. settle.
Qed.

Lemma forget_tallied r id m : tallied r m -> tallied r (forget_worker id m).
Proof.
  intros Ht. unfold forget_worker. destruct (workers m !! id) as [w|] eqn:Hw; [|done].
  recount id. rewrite Hw in *. destruct (wks_Status w) eqn:Hst; settle.
Qed.

Lemma on_hb_event_counted prefix staleSec r e m :
  counted r m -> wp (on_hb_event prefix staleSec e) (fun _ => counted (r + revives e m)) m.
Proof.
  intros [Hf Ht]. assert (Ht' : tallied r (m <| wkm_held := true |>)) by exact Ht.
  destruct e as [[hb|]|key|now]; cbn [revives on_hb_event]; rewrite ?Z.add_0_r.
  - assert (Hc : counted (r + revives (HbPut (Some hb)) m)
      (beat hb (m <| wkm_held := true |>) <| wkm_held := false |>)).
    { split; [done|]. exact (beat_tallied r hb _ Ht'). }
    unfold on_put. apply locked_then; [done|]. apply wp_bind, wp_gets.
    case_match; [by apply wp_ret|]. apply wp_bind, wp_modify. by apply RegisterTaskTypes_counted.
  - by apply wp_ret.
  - unfold on_delete. case_decide; [by apply wp_ret|]. apply locked_change; [done|].
    split; [done|]. exact (forget_tallied r _ _ Ht').
  - unfold markStaleWorkers. apply wp_bind. unfold wp at 1, wkm_read. rewrite Hf.
    set (ids := fst <$> _). clearbody ids. destruct ids as [|id ids]; [by apply wp_ret|].
    apply locked_change; [done|]. split; [done|]. generalize (id :: ids). clear id ids. intros ids.
    assert (Hb : forall ids m1, tallied r m1 -> tallied r (foldl (fun m id => bury id m) m1 ids)).
    { clear. induction ids as [|id ids IH]; intros m1 H; [done|]. by apply IH, bury_tallied. }
    exact (Hb ids _ Ht').
Qed.

(** How many dead workers come back in a run. *)
Fixpoint revivals (prefix : string) (staleSec : Z) (es : list hb_event) (m : W) : Z :=
  match es with
  | [] => 0
  | e :: es' => revives e m + match on_hb_event prefix staleSec e m with
                              | Ret (_, m') => revivals prefix staleSec es' m'
                              | _ => 0
                              end
  end.

Lemma run_counted prefix staleSec es : forall r m,
  counted r m ->
  wp (processHeartbeatEvents prefix staleSec es)
     (fun _ => counted (r + revivals prefix staleSec es m)) m.
Proof.
  induction es as [|e es IH]; intros r m Hc; [cbn; by rewrite Z.add_0_r|].
  pose proof (on_hb_event_counted prefix staleSec r e m Hc) as Hs.
  unfold processHeartbeatEvents. cbn [for_each revivals]. apply wp_bind.
  unfold wp in Hs |- * at 1. destruct (on_hb_event prefix staleSec e m) as [[[] m']| |]; [|done..].
  rewrite Z.add_assoc. by apply IH.
Qed.

(** ** Properties *)

(** Over any sequence of heartbeats, disappearances and checks, the counter
    of dead workers is exact and the counter of living ones is short by one for
    every dead worker that came back: a heartbeat of a dead worker takes it off
    the dead and does not add it to the living. *)
Theorem alive_counter_drifts (prefix : string) (staleSec : Z) (es : list hb_event) :
  wp (processHeartbeatEvents prefix staleSec es) (fun _ m =>
    deadCount m = wrap64 (count WorkerStatusDead (workers m)) /\
    aliveCount m = wrap64 (count WorkerStatusAlive (workers m)
                           - revivals prefix staleSec es NewWorkerManager)) NewWorkerManager.
Proof.
  eapply wp_mono; [apply (run_counted prefix staleSec es 0)|].
  - split; [done|]. unfold tallied. cbn. by rewrite !count_empty.
  - intros [] m [_ [Ha Hd]]. done.
Qed.

(** One worker that was away for a while: it is alive, none is counted, and the
    queue depth is that of a cluster without workers. *)
Example ex_revived :
  let hb t := MkHeartbeatPayload "w1" ["a"] [] "" 0 t in
  match processHeartbeatEvents "/heartbeats/" 15
          [HbPut (Some (hb 0)); HbTick (20 * Second); HbPut (Some (hb (21 * Second)))]
          NewWorkerManager with
  | Ret (_, m) => (count WorkerStatusAlive (workers m), AliveCount m,
                   QueueDepthPerWorker (Refresh 10 3 m)) = (1, 0, 10)
  | _ => False
  end.
Proof. vm_compute. reflexivity. Qed.

(** Whether the scan meets a heartbeat with task types. *)
Definition carries_types (prefix : string) (kv : string * option HeartbeatPayload) : bool :=
  match kv.2 with
  | None => false
  | Some hb => negb (bool_decide (extractWorkerID kv.1 prefix = "")) &&
               negb (bool_decide (TaskTypes hb = []))
  end.

Definition scanned (prefix : string) (kvs : list (string * option HeartbeatPayload))
    (m : gmap string WorkerState) : gmap string WorkerState :=
  foldl (fun m kv => match kv.2 with
                     | Some hb => if decide (extractWorkerID kv.1 prefix = "") then m
                                  else <[extractWorkerID kv.1 prefix := worker_of hb]> m
                     | None => m
                     end) m kvs.

Lemma TaskTypes_cons_blocked tt tts m :
  wkm_held m = true -> for_each RegisterTaskType (tt :: tts) m = Blocked.
Proof. intros Hh. cbn. unfold mbind, M_bind, RegisterTaskType, wkm_lock. unfold mbind, M_bind. by rewrite Hh. Qed.

Lemma scan_entry_spec prefix kv m :
  wkm_held m = true ->
  if carries_types prefix kv then scan_entry prefix kv m = Blocked
  else exists m', scan_entry prefix kv m = Ret (tt, m') /\ wkm_held m' = true /\
    workers m' = scanned prefix [kv] (workers m).
Proof.
  intros Hh. destruct kv as [key [hb|]]; [|by exists m].
  unfold carries_types, scan_entry, scanned. cbn [fst snd foldl]. case_decide as Hid.
  { rewrite bool_decide_eq_true_2 by done. by exists m. }
  rewrite bool_decide_eq_false_2 by done. destruct (TaskTypes hb) as [|tt tts].
  - by eexists.
  - cbn [negb andb bool_decide]. unfold mbind, M_bind, modify. by rewrite TaskTypes_cons_blocked.
Qed.

Lemma scan_entries prefix kvs : forall m,
  wkm_held m = true ->
  if existsb (carries_types prefix) kvs then for_each (scan_entry prefix) kvs m = Blocked
  else exists m', for_each (scan_entry prefix) kvs m = Ret (tt, m') /\
    workers m' = scanned prefix kvs (workers m).
Proof.
  induction kvs as [|kv kvs IH]; intros m Hh; [by exists m|].
  pose proof (scan_entry_spec prefix kv m Hh) as Hs. cbn [existsb for_each]. unfold mbind, M_bind.
  destruct (carries_types prefix kv); cbn [orb]; [by rewrite Hs|].
  destruct Hs as (m' & -> & Hh' & Hw). specialize (IH m' Hh').
  destruct (existsb _ kvs); [done|]. destruct IH as (m2 & Hr & Hw2). exists m2.
  split; [done|]. by rewrite Hw2, Hw.
Qed.

(** C30: the scan at the start of a master blocks for ever as soon as one
    heartbeat in etcd carries task types: it holds the lock that the
    registration of a task type takes.  Otherwise it takes over the workers,
    all of them as living. *)
Theorem scan_outcome (prefix : string) (kvs : list (string * option HeartbeatPayload)) (m : W) :
  wkm_held m = false ->
  if existsb (carries_types prefix) kvs then scanExistingWorkers prefix (Ok kvs) m = Blocked
  else wp (scanExistingWorkers prefix (Ok kvs)) (fun _ m' =>
    workers m' = scanned prefix kvs (workers m) /\
    aliveCount m' = Z.of_nat (size (workers m')) /\ wkm_held m' = false) m.
Proof.
  intros Hh. pose proof (scan_entries prefix kvs (m <| wkm_held := true |>) eq_refl) as Hs.
  assert (Hl : wkm_lock m = Ret (tt, m <| wkm_held := true |>)) by (unfold wkm_lock; by rewrite Hh).
  unfold wp, scanExistingWorkers, mbind, M_bind. rewrite Hl. cbv beta iota.
  destruct (existsb _ kvs); [by rewrite Hs|]. by destruct Hs as (m' & -> & Hw).
Qed.

Lemma scan_outcome_witness :
  let hb := MkHeartbeatPayload "w1" ["a"] [MkTaskType "a" "" []] "h" 0 0 in
  scanExistingWorkers "/h/" (Ok [("/h/w1", Some hb)]) NewWorkerManager = Blocked.
Proof. intros hb. exact (scan_outcome "/h/" [("/h/w1", Some hb)] NewWorkerManager eq_refl). Defined.
