(* ===== verification/Health.v ===== *)
(** * Health probe (transport/http/handlers/health.go)

    The probe asks etcd and MySQL for a ping and reads the scheduler's queue.
    The pings and the pool statistics are answers of the stores. *)
From Stdlib Require Import ZArith Lia.
From stdpp Require Import base strings list.
From S2P Require Import Prelude GoVal Dispatcher World Watch Workers.
Set Warnings "-register-all,-clear-no-such-hyp,-level-tolerance".
Local Open Scope Z_scope.

(** The time a ping took, and its error. *)
Definition ping : Type := Z * option string.

Record DBStats := MkStats { OpenConnections : Z; InUse : Z; Idle : Z; MaxOpenConnections : Z }.

Record EtcdHealth := MkEtcdHealth { eh_OK : bool; eh_Latency : string; eh_Error : string }.

Record MySQLHealth := MkMySQLHealth {
  mh_OK : bool; mh_Latency : string; mh_OpenConns : Z; mh_InUse : Z; mh_Idle : Z; mh_MaxOpen : Z;
  mh_Error : string }.

Record QueueHealth := MkQueueHealth {
  qh_OK : bool; qh_PendingTasks : Z; qh_ActiveTasks : Z; qh_QueueDepthPerWorker : Z }.

Record HealthDetails := MkDetails { hd_Etcd : EtcdHealth; hd_MySQL : MySQLHealth; hd_Queue : QueueHealth }.
Record HealthStatus := MkHealth { h_Status : string; h_Details : HealthDetails }.

Definition checkEtcd (answer : ping) : EtcdHealth :=
  let '(latency, err) := answer in
  match err with
  | Some e => MkEtcdHealth false (duration_string latency) e
  | None => MkEtcdHealth true (duration_string latency) ""
  end.

(** [None]: MySQL is not configured. *)
Definition checkMySQL (hs : option (ping * DBStats)) : MySQLHealth :=
  match hs with
  | None => MkMySQLHealth true "" 0 0 0 0 "mysql not configured"
  | Some ((latency, Some e), _) => MkMySQLHealth false (duration_string latency) 0 0 0 0 e
  | Some ((latency, None), stats) =>
      MkMySQLHealth true (duration_string latency) (OpenConnections stats) (InUse stats) (Idle stats)
        (MaxOpenConnections stats) ""
  end.

Definition checkQueue (m : BacklogMetrics) : QueueHealth :=
  MkQueueHealth true (PendingTasks m) (ActiveTasks m) (QueueDepthPerWorker m).

Definition Health (etcd : ping) (mysql : option (ping * DBStats)) (m : BacklogMetrics) : Z * HealthStatus :=
  let details := MkDetails (checkEtcd etcd) (checkMySQL mysql) (checkQueue m) in
  let overallOK := eh_OK (hd_Etcd details) && mh_OK (hd_MySQL details) in
  if overallOK then (200, MkHealth "ok" details) else (503, MkHealth "unhealthy" details).

(** The probe answers 200 exactly when etcd's ping succeeds and MySQL is either
    not configured or answers; the figures of the queue are the dispatcher's,
    and have no part in it: a scheduler whose slots are all lost is healthy. *)
Theorem Health_status etcd mysql waiting active m :
  let '(code, st) := Health etcd mysql (Refresh waiting active m) in
  (code = 200 \/ code = 503) /\
  (code = 200 <-> h_Status st = "ok") /\
  (code = 200 <-> etcd.2 = None /\ forall p s, mysql = Some (p, s) -> p.2 = None) /\
  hd_Queue (h_Details st) = MkQueueHealth true waiting active
    (if 0 <? AliveCount m then Z.quot waiting (AliveCount m) else waiting).
Proof.
  unfold Health, checkEtcd, checkMySQL.
  destruct etcd as [l [e|]], mysql as [[[l' [e'|]] s']|]; cbn; split_and!; try done; try (by left); try (by right);
    try (split; intros; try done; naive_solver).
Qed.
