(* ===== verification/Database.v ===== *)
(** * The MySQL database (infra/store/mysql/history.go, the row types)

    The five tables of the store, and in [Database] the library it reaches
    them through (GORM on MySQL): statements that may fail, on the tables as
    the connection sees them, and transactions.  [DatabaseLaws] says what the
    documentation of MySQL and GORM says of them. *)
From Stdlib Require Import ZArith Lia String.
From stdpp Require Import base gmap strings list.
From S2P Require Import Prelude GoVal Model.
Set Warnings "-register-all,-clear-no-such-hyp,-level-tolerance".
Local Open Scope Z_scope.
Local Open Scope list_scope.

(** ** Rows: the columns the store reads or writes

    A JSON column holds the value its text encodes. *)

Record VibeflowWorkflow := MkVibeflowWorkflow {
  vw_ID : Z; vw_UUID : string; vw_Name : string; vw_Status : string; vw_Trigger : string;
  vw_CronExpr : string; vw_TimeoutSec : Z; vw_TaskTimeoutSec : Z; vw_MaxRetries : Z;
  vw_BaseBackoff : Z }.

Record VibeflowWorkflowTask := MkVibeflowWorkflowTask {
  vt_ID : Z; vt_WorkflowID : Z; vt_Name : string; vt_Params : vmap; vt_SortOrder : Z }.

Record VibeflowExecution := MkVibeflowExecution {
  ve_ID : Z; ve_WorkflowID : Z; ve_Data : option WorkflowState; ve_Status : string;
  ve_Error : string; ve_StartedAt : Z }.

Record VibeflowExecutionTask := MkVibeflowExecutionTask {
  vet_ID : Z; vet_ExecutionID : Z; vet_WorkflowID : Z; vet_WorkflowTaskID : Z;
  vet_TaskName : string; vet_Status : string; vet_Params : option vmap; vet_Output : option vmap;
  vet_Error : string; vet_RetryCount : Z; vet_MaxRetries : Z }.

Record VibeflowTaskDelta := MkVibeflowTaskDelta {
  vd_ID : Z; vd_ExecutionID : Z; vd_Data : val }.

#[export] Instance eta_VibeflowWorkflow : Eta VibeflowWorkflow := fun r =>
  MkVibeflowWorkflow (vw_ID r) (vw_UUID r) (vw_Name r) (vw_Status r) (vw_Trigger r)
    (vw_CronExpr r) (vw_TimeoutSec r) (vw_TaskTimeoutSec r) (vw_MaxRetries r) (vw_BaseBackoff r).
#[export] Instance eta_VibeflowWorkflowTask : Eta VibeflowWorkflowTask := fun r =>
  MkVibeflowWorkflowTask (vt_ID r) (vt_WorkflowID r) (vt_Name r) (vt_Params r) (vt_SortOrder r).
#[export] Instance eta_VibeflowExecution : Eta VibeflowExecution := fun r =>
  MkVibeflowExecution (ve_ID r) (ve_WorkflowID r) (ve_Data r) (ve_Status r) (ve_Error r)
    (ve_StartedAt r).
#[export] Instance eta_VibeflowExecutionTask : Eta VibeflowExecutionTask := fun r =>
  MkVibeflowExecutionTask (vet_ID r) (vet_ExecutionID r) (vet_WorkflowID r) (vet_WorkflowTaskID r)
    (vet_TaskName r) (vet_Status r) (vet_Params r) (vet_Output r) (vet_Error r)
    (vet_RetryCount r) (vet_MaxRetries r).
#[export] Instance eta_VibeflowTaskDelta : Eta VibeflowTaskDelta := fun r =>
  MkVibeflowTaskDelta (vd_ID r) (vd_ExecutionID r) (vd_Data r).

(** Each table, in the order of its keys. *)
Record Tables := MkTables {
  t_workflows : list VibeflowWorkflow;
  t_tasks : list VibeflowWorkflowTask;
  t_executions : list VibeflowExecution;
  t_exec_tasks : list VibeflowExecutionTask;
  t_deltas : list VibeflowTaskDelta }.

#[export] Instance eta_Tables : Eta Tables := fun t =>
  MkTables (t_workflows t) (t_tasks t) (t_executions t) (t_exec_tasks t) (t_deltas t).

Definition no_tables : Tables := MkTables [] [] [] [] [].

(** A row type, with its key, its table, and what its unique indexes accept. *)
Class Table (R : Type) := {
  rid : R -> Z;
  set_id : Z -> R -> R;
  rows : Tables -> list R;
  set_rows : list R -> Tables -> Tables;
  accepts : list R -> R -> bool }.

#[export] Instance workflows_table : Table VibeflowWorkflow := {|
  rid := vw_ID; set_id := fun i r => r <| vw_ID := i |>;
  rows := t_workflows; set_rows := fun l t => t <| t_workflows := l |>;
  accepts := fun l r => forallb (fun x => negb (bool_decide (vw_UUID x = vw_UUID r))) l |}.

#[export] Instance tasks_table : Table VibeflowWorkflowTask := {|
  rid := vt_ID; set_id := fun i r => r <| vt_ID := i |>;
  rows := t_tasks; set_rows := fun l t => t <| t_tasks := l |>;
  accepts := fun l r => forallb (fun x => negb (bool_decide
    (vt_WorkflowID x = vt_WorkflowID r /\ vt_Name x = vt_Name r))) l |}.

#[export] Instance executions_table : Table VibeflowExecution := {|
  rid := ve_ID; set_id := fun i r => r <| ve_ID := i |>;
  rows := t_executions; set_rows := fun l t => t <| t_executions := l |>;
  accepts := fun _ _ => true |}.

#[export] Instance exec_tasks_table : Table VibeflowExecutionTask := {|
  rid := vet_ID; set_id := fun i r => r <| vet_ID := i |>;
  rows := t_exec_tasks; set_rows := fun l t => t <| t_exec_tasks := l |>;
  accepts := fun _ _ => true |}.

#[export] Instance deltas_table : Table VibeflowTaskDelta := {|
  rid := vd_ID; set_id := fun i r => r <| vd_ID := i |>;
  rows := t_deltas; set_rows := fun l t => t <| t_deltas := l |>;
  accepts := fun _ _ => true |}.

(** ** The library *)

Class Database (D : Type) := {
  current : D -> Tables;            (* what statements see *)
  saved : D -> option Tables;       (* the tables at the start of the transaction *)
  db_create : forall R, Table R -> R -> M D (res string Z);
  db_find : forall R, Table R -> (R -> bool) -> M D (res string (list R));
  db_left_join : forall R S, Table R -> Table S -> (R -> S -> bool) ->
    M D (res string (list (R * option S)));
  db_update : forall R, Table R -> (R -> bool) -> (R -> R) -> M D (res string unit);
  db_remove : forall R, Table R -> (R -> bool) -> M D (res string unit);
  db_begin : M D unit;
  db_rollback : M D unit;
  db_commit : M D (res string unit) }.
Arguments db_create {D _ R _} r.
Arguments db_find {D _ R _} p.
Arguments db_left_join {D _} R S {_ _} on.
Arguments db_update {D _ R _} p f.
Arguments db_remove {D _ R} _ p.

(** A left join, of which at most one row of the right table matches. *)
Definition left_join {R S : Type} (on : R -> S -> bool) (l : list R) (k : list S) : list (R * option S) :=
  (fun r => (r, head (filter (fun s => on r s = true) k))) <$> l.

(** The rows of a statement that was executed; the keys of new rows grow. *)
Class DatabaseLaws (D : Type) `{Database D} : Prop := {
  create_law {R} {T : Table R} (r : R) d : wp (db_create r) (fun x d' => saved d' = saved d /\
    match x with
    | Ok id => accepts (rows (current d)) r = true /\ 0 < id /\
        Forall (fun r' => rid r' < id) (rows (current d)) /\
        current d' = set_rows (rows (current d) ++ [set_id id r]) (current d)
    | Err _ => current d' = current d
    end) d;
  find_law {R} {T : Table R} (p : R -> bool) d : wp (db_find p) (fun x d' =>
    saved d' = saved d /\ current d' = current d /\
    match x with Ok l => l = filter (fun r => p r = true) (rows (current d)) | Err _ => True end) d;
  join_law {R S} {T : Table R} {U : Table S} (on : R -> S -> bool) d :
    wp (db_left_join R S on) (fun x d' => saved d' = saved d /\ current d' = current d /\
      match x with Ok l => l = left_join on (rows (current d)) (rows (current d)) | Err _ => True end) d;
  update_law {R} {T : Table R} (p : R -> bool) f d : wp (db_update p f) (fun x d' =>
    saved d' = saved d /\
    current d' = match x with
      | Ok _ => set_rows ((fun r => if p r then f r else r) <$> rows (current d)) (current d)
      | Err _ => current d
      end) d;
  remove_law {R} (T : Table R) (p : R -> bool) d : wp (db_remove T p) (fun x d' =>
    saved d' = saved d /\
    current d' = match x with
      | Ok _ => set_rows (filter (fun r => p r = false) (rows (current d))) (current d)
      | Err _ => current d
      end) d;
  begin_law d : wp db_begin (fun _ d' => current d' = current d /\ saved d' = Some (current d)) d;
  rollback_law d t : saved d = Some t ->
    wp db_rollback (fun _ d' => current d' = t /\ saved d' = None) d;
  (* a commit that reports an error may have taken place *)
  commit_law d t : saved d = Some t -> wp db_commit (fun x d' => saved d' = None /\
    match x with
    | Ok _ => current d' = current d
    | Err _ => current d' = current d \/ current d' = t
    end) d }.

(** ** A database in memory, for concrete runs

    [m_faults] are the answers of the coming statements; then they succeed.
    [m_next] is at most the next key: keys are not used twice. *)
Record Memory := MkMemory {
  m_now : Tables; m_saved : option Tables; m_next : Z; m_faults : list bool }.

#[export] Instance eta_Memory : Eta Memory := fun d =>
  MkMemory (m_now d) (m_saved d) (m_next d) (m_faults d).

Definition fresh_memory (t : Tables) (faults : list bool) : Memory := MkMemory t None 1 faults.

Definition answer : M Memory bool := fun d =>
  match m_faults d with
  | [] => Ret (true, d)
  | ok :: l => Ret (ok, d <| m_faults := l |>)
  end.

Definition next_id {R : Type} `{Table R} (next : Z) (l : list R) : Z :=
  Z.max next (1 + foldr (fun r n => Z.max (rid r) n) 0 l).

Definition statement {A : Type} (f : Memory -> option (A * Memory)) : M Memory (res string A) :=
  ok ← answer;
  if negb ok then mret (Err "lost connection")
  else fun d =>
    match f d with
    | Some (a, d) => Ret (Ok a, d)
    | None => Ret (Err "duplicate entry", d)
    end.

Definition on_tables {A : Type} (f : Tables -> A * Tables) : M Memory (res string A) :=
  statement (fun d => let '(a, t) := f (m_now d) in Some (a, d <| m_now := t |>)).

Definition memory : Database Memory := {|
  current := m_now; saved := m_saved;
  db_create := fun R T r => statement (fun d =>
    let l := rows (m_now d) in
    if accepts l r
    then let id := next_id (m_next d) l in
         Some (id, d <| m_now ::= set_rows (l ++ [set_id id r]) |> <| m_next := id + 1 |>)
    else None);
  db_find := fun R T p => on_tables (fun t => (filter (fun r => p r = true) (rows t), t));
  db_left_join := fun R S T U on => on_tables (fun t => (left_join on (rows t) (rows t), t));
  db_update := fun R T p f => on_tables (fun t =>
    (tt, set_rows ((fun r => if p r then f r else r) <$> rows t) t));
  db_remove := fun R T p => on_tables (fun t =>
    (tt, set_rows (filter (fun r => p r = false) (rows t)) t));
  db_begin := modify (fun d => d <| m_saved := Some (m_now d) |>);
  db_rollback := modify (fun d => d <| m_now := default (m_now d) (m_saved d) |> <| m_saved := None |>);
  db_commit :=
    ok ← answer;
    if ok : bool then modify (fun d => d <| m_saved := None |>);; mret (Ok tt)
    else modify (fun d => d <| m_now := default (m_now d) (m_saved d) |> <| m_saved := None |>);;
         mret (Err "lost connection") |}.

Lemma next_id_fresh {R : Type} `{Table R} next (l : list R) :
  0 < next_id next l /\ Forall (fun r => rid r < next_id next l) l.
Proof.
  unfold next_id. set (bound := 1 + foldr _ _ _).
  assert (Hb : 0 < bound /\ Forall (fun r => rid r < bound) l).
  { subst bound. induction l as [|r l [H0 Hl]]; cbn; [by split; [lia|]|].
    split; [lia|]. constructor; [lia|]. eapply Forall_impl; [exact Hl|]. cbn. lia. }
  destruct Hb as [H0 Hl]. split; [lia|]. eapply Forall_impl; [exact Hl|]. cbn. lia.
Qed.

(** What a statement does: it is answered and executed, or nothing happens. *)
Lemma statement_spec {A : Type} (f : Memory -> option (A * Memory)) (Q : res string A -> Memory -> Prop) d :
  (forall e d', m_now d' = m_now d -> m_saved d' = m_saved d -> Q (Err e) d') ->
  (forall a d' d0, m_now d0 = m_now d -> m_saved d0 = m_saved d -> f d0 = Some (a, d') -> Q (Ok a) d') ->
  wp (statement f) Q d.
Proof.
  intros He Hok. unfold wp, statement, mbind, M_bind, answer.
  destruct (m_faults d) as [|[] l] eqn:Hf; cbn; [| |by apply He];
    match goal with |- context [f ?d0] => destruct (f d0) as [[a t]|] eqn:Hd end;
    [by eapply Hok; [..|exact Hd]|by apply He|by eapply Hok; [..|exact Hd]|by apply He].
Qed.

Lemma on_tables_spec {A : Type} (f : Tables -> A * Tables) (Q : res string A -> Memory -> Prop) d :
  (forall e d', m_now d' = m_now d -> m_saved d' = m_saved d -> Q (Err e) d') ->
  (forall d', m_now d' = (f (m_now d)).2 -> m_saved d' = m_saved d -> Q (Ok (f (m_now d)).1) d') ->
  wp (on_tables f) Q d.
Proof.
  intros He Hok. apply statement_spec; [done|]. intros a d' d0 Hn Hs Hf. rewrite Hn in Hf.
  destruct (f (m_now d)) as [a' t]. injection Hf as <- <-. by apply Hok.
Qed.

Lemma memory_laws : @DatabaseLaws Memory memory.
Proof.
  split.
  - intros R T r d. apply statement_spec; cbn [current saved memory]; [by intros e d' -> ->|].
    intros a d' d0 Hn Hs Hf. rewrite Hn in Hf. destruct (accepts (rows (m_now d)) r); [|done].
    injection Hf as <- <-. upd_simpl. rewrite Hn. split; [done|].
    by destruct (next_id_fresh (m_next d0) (rows (m_now d))).
  - intros R T p d. by apply on_tables_spec; cbn [current saved memory]; [intros e d' -> ->|intros d' -> ->].
  - intros R S T U on d. by apply on_tables_spec; cbn [current saved memory]; [intros e d' -> ->|intros d' -> ->].
  - intros R T p f d. by apply on_tables_spec; cbn [current saved memory]; [intros e d' -> ->|intros d' -> ->].
  - intros R T p d. by apply on_tables_spec; cbn [current saved memory]; [intros e d' -> ->|intros d' -> ->].
  - done.
  - intros d t Hs. unfold wp. cbn. cbn in Hs. by rewrite Hs.
  - intros d t Hs. cbn in Hs. unfold wp, db_commit, memory, mbind, M_bind, answer.
    destruct (m_faults d) as [|[] l]; cbn; [done|done|]. rewrite Hs. split; [done|]. by right.
Qed.

#[export] Instance ex_memory : Database Memory := memory.
#[export] Instance ex_memory_laws : @DatabaseLaws Memory ex_memory := memory_laws.
