(* ===== verification/Mysql.v ===== *)
(** * The MySQL history store (infra/store/mysql/history.go)

    Workflow definitions and their tasks in transactions, with a cache of task
    ids beside the tables; executions; the increments of running executions. *)
From Stdlib Require Import ZArith Lia String.
From stdpp Require Import base gmap strings list pretty.
From S2P Require Import Prelude GoVal Model Payload Database.
Set Warnings "-register-all,-clear-no-such-hyp,-level-tolerance".
Local Open Scope Z_scope.
Local Open Scope list_scope.

Definition WorkflowStatusPending : string := "PENDING".
Definition WorkflowStatusRunning : string := "RUNNING".

Record TaskDef := MkTaskDef { td_Name : string; td_Params : vmap }.

(** The arguments of [SaveWorkflowDef] and [UpsertWorkflowDef]. *)
Record WorkflowDef := MkWorkflowDef {
  wd_UUID : string; wd_Name : string; wd_Tasks : list TaskDef; wd_TimeoutSec : Z;
  wd_TaskTimeoutSec : Z; wd_MaxRetries : Z; wd_BaseBackoff : Z; wd_Trigger : string;
  wd_CronExpr : string }.

Record WorkflowDefRecord := MkWorkflowDefRecord {
  wr_ID : Z; wr_Name : string; wr_Tasks : list TaskDef; wr_TimeoutSec : Z; wr_TaskTimeoutSec : Z;
  wr_MaxRetries : Z; wr_BaseBackoff : Z; wr_Trigger : string; wr_CronExpr : string }.

Record ExecutionRecord := MkExecutionRecord {
  er_ExecutionID : Z; er_UUID : string; er_Name : string; er_Data : option WorkflowState }.

(** [ORDER BY f], the rows that compare equal staying in the order they had. *)
Fixpoint insert_by {R : Type} (f : R -> Z) (r : R) (l : list R) : list R :=
  match l with
  | [] => [r]
  | x :: l' => if f r <=? f x then r :: l else x :: insert_by f r l'
  end.

Definition order_by {R : Type} (f : R -> Z) (l : list R) : list R := foldr (insert_by f) [] l.

Record Store (D : Type) := MkStore { hs_db : D; taskIDCache : gmap string Z }.
Arguments MkStore {D} _ _.
Arguments hs_db {D} _.
Arguments taskIDCache {D} _.

#[export] Instance eta_Store (D : Type) : Eta (Store D) := fun s =>
  MkStore (hs_db s) (taskIDCache s).

Definition taskIDCacheKey (workflowID : Z) (taskName : string) : string :=
  pretty workflowID +:+ ":" +:+ taskName.

Section store.
Context {D : Type} `{Database D}.

Definition on_db {A : Type} (m : M D A) : M (Store D) A := fun s =>
  match m (hs_db s) with
  | Ret (a, d) => Ret (a, s <| hs_db := d |>)
  | Panic => Panic
  | Blocked => Blocked
  end.

(** A call that fails ends the method with its error. *)
Definition try {A B : Type} (m : M (Store D) (res string A)) (f : A -> M (Store D) (res string B))
  : M (Store D) (res string B) :=
  r ← m; match r with Ok a => f a | Err e => mret (Err e) end.

(** ** The cache of task ids *)

Definition buildTaskIDCache : M (Store D) (res string unit) :=
  try (on_db (db_find (fun _ : VibeflowWorkflowTask => true))) (fun tasks =>
    modify (fun s => s <| taskIDCache := foldl (fun cache t =>
      <[taskIDCacheKey (vt_WorkflowID t) (vt_Name t) := vt_ID t]> cache) ∅ tasks |>);;
    mret (Ok tt)).

Definition putTaskIDCache (workflowID : Z) (taskName : string) (taskID : Z) : M (Store D) unit :=
  modify (fun s => s <| taskIDCache ::= <[taskIDCacheKey workflowID taskName := taskID]> |>).

(** ** Definitions *)

(** The loop over the tasks of a definition. *)
Fixpoint create_tasks (workflowID i : Z) (tasks : list TaskDef) : M (Store D) (res string unit) :=
  match tasks with
  | [] => mret (Ok tt)
  | t :: tasks' =>
      if encodable_map (td_Params t) then
        try (on_db (db_create (MkVibeflowWorkflowTask 0 workflowID (td_Name t)
                                 (json_map (td_Params t)) i))) (fun id =>
          putTaskIDCache workflowID (td_Name t) id;;
          create_tasks workflowID (i + 1) tasks')
      else mret (Err ("序列化任务参数失败 task=" +:+ td_Name t))
  end.

(** The tasks, then the commit; an error in the loop rolls back. *)
Definition tasks_and_commit (workflowID : Z) (tasks : list TaskDef) : M (Store D) (res string Z) :=
  r ← create_tasks workflowID 0 tasks;
  match r with
  | Err e => on_db db_rollback;; mret (Err e)
  | Ok _ => try (on_db db_commit) (fun _ => mret (Ok workflowID))
  end.

Definition SaveWorkflowDef (def : WorkflowDef) : M (Store D) (res string Z) :=
  on_db db_begin;;
  r ← on_db (db_create (MkVibeflowWorkflow 0 (wd_UUID def) (wd_Name def) WorkflowStatusPending
    (wd_Trigger def) (wd_CronExpr def) (wd_TimeoutSec def) (wd_TaskTimeoutSec def)
    (wd_MaxRetries def) (wd_BaseBackoff def)));
  match r with
  | Err e => on_db db_rollback;; mret (Err e)
  | Ok id => tasks_and_commit id (wd_Tasks def)
  end.

Definition redefine (def : WorkflowDef) (r : VibeflowWorkflow) : VibeflowWorkflow :=
  r <| vw_Name := wd_Name def |> <| vw_TimeoutSec := wd_TimeoutSec def |>
    <| vw_TaskTimeoutSec := wd_TaskTimeoutSec def |> <| vw_MaxRetries := wd_MaxRetries def |>
    <| vw_BaseBackoff := wd_BaseBackoff def |> <| vw_Trigger := wd_Trigger def |>
    <| vw_CronExpr := wd_CronExpr def |>.

Definition UpsertWorkflowDef (def : WorkflowDef) : M (Store D) (res string Z) :=
  try (on_db (db_find (fun r : VibeflowWorkflow => bool_decide (vw_UUID r = wd_UUID def)))) (fun found =>
    match found with
    | [] => SaveWorkflowDef def
    | existing :: _ =>
        on_db db_begin;;
        r ← on_db (db_update (fun r => vw_ID r =? vw_ID existing) (redefine def));
        match r with
        | Err e => on_db db_rollback;; mret (Err e)
        | Ok _ =>
            r ← on_db (db_remove tasks_table (fun t => vt_WorkflowID t =? vw_ID existing));
            match r with
            | Err e => on_db db_rollback;; mret (Err e)
            | Ok _ => tasks_and_commit (vw_ID existing) (wd_Tasks def)
            end
        end
    end).

Definition LoadWorkflowDefs : M (Store D) (res string (list WorkflowDefRecord)) :=
  try (on_db (db_find (fun r : VibeflowWorkflow => bool_decide (vw_Status r = WorkflowStatusPending))))
    (fun wfs =>
      match wfs with
      | [] => mret (Ok [])
      | _ =>
          try (on_db (db_find (fun t : VibeflowWorkflowTask =>
                 bool_decide (vt_WorkflowID t ∈ vw_ID <$> wfs)))) (fun found =>
            let allTasks := order_by vt_WorkflowID (order_by vt_SortOrder found) in
            mret (Ok ((fun wf => MkWorkflowDefRecord (vw_ID wf) (vw_Name wf)
              ((fun t => MkTaskDef (vt_Name t) (vt_Params t)) <$>
                 filter (fun t => vt_WorkflowID t = vw_ID wf) allTasks)
              (vw_TimeoutSec wf) (vw_TaskTimeoutSec wf) (vw_MaxRetries wf) (vw_BaseBackoff wf)
              (vw_Trigger wf) (vw_CronExpr wf)) <$> wfs)))
      end).

Definition UpdateWorkflowStatus (workflowID : Z) (status : string) : M (Store D) (res string unit) :=
  on_db (db_update (fun r => vw_ID r =? workflowID) (fun r => r <| vw_Status := status |>)).

(** ** Executions *)

Definition CreateExecution (workflowID : Z) (data : WorkflowState) (status : string) (startedAt : Z)
    (errMsg : string) : M (Store D) (res string Z) :=
  on_db (db_create (MkVibeflowExecution 0 workflowID (Some data) status errMsg startedAt)).

Definition UpdateExecution (executionID : Z) (data : WorkflowState) (status errMsg : string)
  : M (Store D) (res string unit) :=
  on_db (db_update (fun r => ve_ID r =? executionID)
    (fun r => r <| ve_Data := Some data |> <| ve_Status := status |> <| ve_Error := errMsg |>)).

(** A map that does not encode is left out. *)
Definition column (m : option vmap) : option vmap :=
  match m with Some m => if encodable_map m then Some (json_map m) else None | None => None end.

Definition SaveTask (executionID workflowID : Z) (taskName status : string)
    (params output : option vmap) (errMsg : string) (retryCount maxRetries : Z)
  : M (Store D) (res string unit) :=
  let key := taskIDCacheKey workflowID taskName in
  cached ← gets (fun s => taskIDCache s !! key);
  try (match cached with
       | Some id => mret (Ok id)
       | None =>
           r ← on_db (db_find (fun t : VibeflowWorkflowTask =>
                 bool_decide (vt_WorkflowID t = workflowID /\ vt_Name t = taskName)));
           match r with
           | Err e => mret (Err ("查询任务定义 ID 失败: " +:+ e))
           | Ok [] => mret (Err ("任务定义不存在: workflow_id=" +:+ pretty workflowID
                                 +:+ ", task=" +:+ taskName))
           | Ok (t :: _) => putTaskIDCache workflowID taskName (vt_ID t);; mret (Ok (vt_ID t))
           end
       end) (fun workflowTaskID =>
    try (on_db (db_create (MkVibeflowExecutionTask 0 executionID workflowID workflowTaskID taskName
                status (column params) (column output) errMsg retryCount maxRetries)))
      (fun _ => mret (Ok tt))).

(** An execution with the name and the UUID of its workflow, both empty when
    there is none. *)
Definition execution_record (r : VibeflowExecution * option VibeflowWorkflow) : ExecutionRecord :=
  MkExecutionRecord (ve_ID r.1)
    (match r.2 with Some wf => vw_UUID wf | None => "" end)
    (match r.2 with Some wf => vw_Name wf | None => "" end) (ve_Data r.1).

Definition executions_with_names : M (Store D) (res string (list (VibeflowExecution * option VibeflowWorkflow))) :=
  on_db (db_left_join VibeflowExecution VibeflowWorkflow (fun e wf => ve_WorkflowID e =? vw_ID wf)).

(** [OFFSET] and [LIMIT]; a negative limit is none. *)
Definition page_of {A : Type} (offset limit : Z) (l : list A) : list A :=
  let l := drop (Z.to_nat offset) l in
  if limit <? 0 then l else take (Z.to_nat limit) l.

Definition LoadExecutions (offset limit : Z) : M (Store D) (res string (list ExecutionRecord * Z)) :=
  try (on_db (db_find (fun _ : VibeflowExecution => true))) (fun counted =>
    try executions_with_names (fun records =>
      mret (Ok (execution_record <$> page_of offset limit (reverse records),
                Z.of_nat (length counted))))).

Definition GetExecutionByUUID (uuid : string) : M (Store D) (res string (option ExecutionRecord)) :=
  try executions_with_names (fun records =>
    mret (Ok (execution_record <$> head (reverse
      (filter (fun r => (vw_UUID <$> r.2) = Some uuid) records))))).

Definition LoadRunningExecutions : M (Store D) (res string (list ExecutionRecord)) :=
  try executions_with_names (fun records =>
    mret (Ok (execution_record <$> filter (fun r => ve_Status r.1 = WorkflowStatusRunning) records))).

(** ** Increments

    A record's text is a JSON value: an array, or anything else, which counts
    as one element.  A nil slice is written as null. *)

Definition SaveTaskDeltas (executionID : Z) (deltas : val) : M (Store D) (res string unit) :=
  try (on_db (db_create (MkVibeflowTaskDelta 0 executionID deltas))) (fun _ => mret (Ok tt)).

(** [json.Unmarshal] into a slice of raw values. *)
Definition raw_array (v : val) : option (list val) :=
  match v with VNil => Some [] | VList l => Some l | _ => None end.

Definition raw_slice (l : list val) : val := match l with [] => VNil | _ => VList l end.

Definition elements_of (v : val) : list val := default [v] (raw_array v).

Definition LoadTaskDeltas (executionID : Z) : M (Store D) (res string (option val)) :=
  try (on_db (db_find (fun r : VibeflowTaskDelta => vd_ExecutionID r =? executionID))) (fun records =>
    match records with
    | [] => mret (Ok None)
    | _ => mret (Ok (Some (raw_slice (foldl (fun allDeltas r =>
             match raw_array (vd_Data r) with
             | None => allDeltas ++ [vd_Data r]
             | Some batch => allDeltas ++ batch
             end) [] records))))
    end).

(** One record of the batch, onto the result. *)
Definition merge_batch (result : gmap Z val) (r : VibeflowTaskDelta) : gmap Z val :=
  match result !! vd_ExecutionID r, raw_array (vd_Data r) with
  | Some existing, None =>
      match raw_array existing with
      | None => result
      | Some l => <[vd_ExecutionID r := VList (l ++ [vd_Data r])]> result
      end
  | None, None => <[vd_ExecutionID r := VList [vd_Data r]]> result
  | Some existing, Some batch =>
      match existing with
      | VNil => <[vd_ExecutionID r := raw_slice batch]> result
      | VList l => <[vd_ExecutionID r := VList (l ++ batch)]> result
      | _ => result
      end
  | None, Some _ => <[vd_ExecutionID r := vd_Data r]> result
  end.

Definition BatchLoadTaskDeltas (executionIDs : list Z) : M (Store D) (res string (gmap Z val)) :=
  match executionIDs with
  | [] => mret (Ok ∅)
  | _ =>
      try (on_db (db_find (fun r : VibeflowTaskDelta => bool_decide (vd_ExecutionID r ∈ executionIDs))))
        (fun records => mret (Ok (foldl merge_batch ∅ (order_by vd_ExecutionID records))))
  end.

End store.

(** ** The JSON of a snapshot, and of a list of increments

    encoding/json matches the names of an object's fields to those of the
    struct, and leaves out fields the struct does not have; no two names here
    differ in case only.  [time_text] is the text of a time. *)

Definition delta_json (d : TaskDelta) : val :=
  VMap (<["task_name" := VString (d_TaskName d)]> (<["action" := VString (d_Action d)]>
    ((if decide (d_Output d = ∅) then id else <["output" := VMap (json_map (d_Output d))]>)
    ((if decide (d_Result d = "") then id else <["result" := VString (d_Result d)]>) ∅)))).

Definition snapshot_json (time_text : Z -> string) (sn : WorkflowSnapshot) : val :=
  VMap (<["workflow_uuid" := VString (sn_WorkflowUUID sn)]>
    (<["execution_id" := json_value (VInt (sn_ExecutionID sn))]>
    (<["status" := VString (sn_Status sn)]>
    (<["updated_at" := VString (time_text (sn_UpdatedAt sn))]>
    ((match sn_ChangedTasks sn with
      | [] => id
      | ds => <["changed_tasks" := VList (delta_json <$> ds)]>
      end)
    ((if decide (sn_Error sn = "") then id else <["error" := VString (sn_Error sn)]>) ∅)))))).

Definition string_field (m : vmap) (name : string) : option string :=
  match m !! name with
  | None | Some VNil => Some ""
  | Some (VString s) => Some s
  | Some _ => None
  end.

Definition map_field (m : vmap) (name : string) : option vmap :=
  match m !! name with
  | None | Some VNil => Some ∅
  | Some (VMap m') => Some m'
  | Some _ => None
  end.

(** [json.Unmarshal] into a [TaskDelta], and into a [[]TaskDelta]. *)
Definition decode_delta (v : val) : option TaskDelta :=
  match v with
  | VNil => Some (MkTaskDelta "" "" ∅ "")
  | VMap m =>
      taskName ← string_field m "task_name";
      action ← string_field m "action";
      output ← map_field m "output";
      result ← string_field m "result";
      Some (MkTaskDelta taskName action output result)
  | _ => None
  end.

Definition decode_deltas (v : val) : option (list TaskDelta) :=
  match raw_array v with Some l => mapM decode_delta l | None => None end.

(** ** Lemmas: order *)

Section ordering.
Context {R : Type} (f : R -> Z).

(** Sorting by [f] keeps the rows of one value of [f], and their order. *)
Lemma filter_insert_by k r l :
  filter (fun x => f x = k) (insert_by f r l) = filter (fun x => f x = k) (r :: l).
Proof.
  induction l as [|x l IH]; [done|]. cbn [insert_by]. destruct (Z.leb_spec (f r) (f x)); [done|].
  rewrite !filter_cons, IH, filter_cons. repeat case_decide; done || lia.
Qed.

Lemma filter_order_by k l : filter (fun x => f x = k) (order_by f l) = filter (fun x => f x = k) l.
Proof.
  induction l as [|r l IH]; [done|]. cbn [order_by foldr]. fold (order_by f l).
  rewrite filter_insert_by, !filter_cons. by rewrite IH.
Qed.

End ordering.

(** ** Lemmas: the increments of one execution *)

Definition deltas_of (executionID : Z) (t : Tables) : list VibeflowTaskDelta :=
  filter (fun r => vd_ExecutionID r = executionID) (t_deltas t).

(** All elements of some records, in order. *)
Definition all_elements (l : list VibeflowTaskDelta) : list val := l ≫= (elements_of ∘ vd_Data).

Definition merge_one (existing : option val) (r : VibeflowTaskDelta) : option val :=
  match existing, raw_array (vd_Data r) with
  | Some existing, None =>
      match raw_array existing with None => Some existing | Some l => Some (VList (l ++ [vd_Data r])) end
  | None, None => Some (VList [vd_Data r])
  | Some VNil, Some batch => Some (raw_slice batch)
  | Some (VList l), Some batch => Some (VList (l ++ batch))
  | Some existing, Some _ => Some existing
  | None, Some _ => Some (vd_Data r)
  end.

Lemma merge_batch_lookup m r id :
  merge_batch m r !! id = if decide (vd_ExecutionID r = id) then merge_one (m !! id) r else m !! id.
Proof.
  unfold merge_batch, merge_one. case_decide as Hid; [subst id|];
    repeat case_match; simplify_eq; rewrite ?lookup_insert_eq, ?lookup_insert_ne by done; done.
Qed.

Lemma merge_batches_lookup l : forall m id,
  foldl merge_batch m l !! id = foldl merge_one (m !! id) (filter (fun r => vd_ExecutionID r = id) l).
Proof.
  induction l as [|r l IH]; intros m id; [done|]. cbn [foldl]. rewrite IH, merge_batch_lookup, filter_cons.
  by case_decide.
Qed.

Lemma raw_array_slice l : raw_array (raw_slice l) = Some l.
Proof. by destruct l. Qed.

Lemma elements_array v l : raw_array v = Some l -> elements_of v = l.
Proof. unfold elements_of. by intros ->. Qed.

(** What is merged is always an array of the elements so far. *)
Lemma merge_one_array v l r :
  raw_array v = Some l -> exists v', merge_one (Some v) r = Some v' /\
    raw_array v' = Some (l ++ elements_of (vd_Data r)).
Proof.
  intros Hv. unfold merge_one, elements_of. destruct (raw_array (vd_Data r)) as [b|] eqn:Hb; cbn.
  - destruct v; simplify_eq/=; eexists; (split; [done|]); [by rewrite raw_array_slice|done].
  - rewrite Hv. destruct v; eexists; by split.
Qed.

Lemma merge_all_arrays recs : forall v l,
  raw_array v = Some l -> exists v', foldl merge_one (Some v) recs = Some v' /\
    raw_array v' = Some (l ++ all_elements recs).
Proof.
  induction recs as [|r recs IH]; intros v l Hv; [exists v; by rewrite app_nil_r|]. cbn [foldl].
  destruct (merge_one_array v l r Hv) as (v1 & -> & H1). destruct (IH v1 _ H1) as (v' & -> & H').
  exists v'. split; [done|]. rewrite H'. unfold all_elements. cbn. by rewrite app_assoc.
Qed.

Lemma merge_records recs :
  recs <> [] -> exists v, foldl merge_one None recs = Some v /\ raw_array v = Some (all_elements recs).
Proof.
  destruct recs as [|r recs]; [done|]. intros _. cbn [foldl].
  assert (exists v, merge_one None r = Some v /\ raw_array v = Some (elements_of (vd_Data r)))
    as (v & -> & Hv).
  { unfold merge_one, elements_of. destruct (raw_array (vd_Data r)) eqn:Hr; by eexists. }
  apply (merge_all_arrays recs v _ Hv).
Qed.

Lemma fold_batches recs : forall l,
  foldl (fun allDeltas r => match raw_array (vd_Data r) with
                            | None => allDeltas ++ [vd_Data r]
                            | Some batch => allDeltas ++ batch
                            end) l recs = l ++ all_elements recs.
Proof.
  induction recs as [|r recs IH]; intros l; [by rewrite app_nil_r|]. cbn [foldl]. rewrite IH.
  unfold all_elements, elements_of. cbn. destruct (raw_array (vd_Data r)); cbn;
    by rewrite <- app_assoc.
Qed.

(** ** Lemmas: calls on the database *)

Section calls.
Context {D : Type} `{DatabaseLaws D}.

Lemma wp_on_db {A : Type} (m : M D A) (Q : A -> Store D -> Prop) s :
  wp m (fun a d => Q a (s <| hs_db := d |>)) (hs_db s) -> wp (on_db m) Q s.
Proof. unfold wp, on_db. by destruct (m (hs_db s)) as [[a d]| |]. Qed.

Lemma wp_try {A B : Type} (m : M (Store D) (res string A)) (f : A -> M (Store D) (res string B))
    (Q : res string B -> Store D -> Prop) s :
  wp m (fun r s' => match r with Ok a => wp (f a) Q s' | Err e => Q (Err e) s' end) s ->
  wp (try m f) Q s.
Proof. intros Hm. apply wp_bind. eapply wp_mono; [exact Hm|]. by intros [a|e] s' HQ. Qed.

Lemma LoadTaskDeltas_spec id s :
  wp (LoadTaskDeltas id) (fun r s' => current (hs_db s') = current (hs_db s) /\
    match r with
    | Err _ => True
    | Ok None => deltas_of id (current (hs_db s)) = []
    | Ok (Some v) => deltas_of id (current (hs_db s)) <> [] /\
        raw_array v = Some (all_elements (deltas_of id (current (hs_db s))))
    end) s.
Proof.
  apply wp_try, wp_on_db. eapply wp_mono; [apply find_law|].
  intros [l|e] d (_ & Hc & Hl); [|by split].
  assert (Hd : l = deltas_of id (current (hs_db s))).
  { rewrite Hl. apply list_filter_iff. intros r. cbn. apply Z.eqb_eq. }
  clear Hl. rewrite <- Hd. destruct l as [|r l]; apply wp_ret; (split; [exact Hc|]); [done|].
  split; [done|]. rewrite fold_batches. apply raw_array_slice.
Qed.

Lemma BatchLoadTaskDeltas_spec ids id s :
  id ∈ ids ->
  wp (BatchLoadTaskDeltas ids) (fun r s' => match r with
    | Err _ => True
    | Ok m => m !! id = foldl merge_one None (deltas_of id (current (hs_db s)))
    end) s.
Proof.
  intros Hid. destruct ids as [|i ids]; [by apply not_elem_of_nil in Hid|]. unfold BatchLoadTaskDeltas.
  apply wp_try, wp_on_db. eapply wp_mono; [apply find_law|].
  intros [l|e] d (_ & _ & Hl); [|done]. apply wp_ret.
  rewrite merge_batches_lookup, lookup_empty, filter_order_by, Hl, list_filter_filter. f_equal.
  apply list_filter_iff. intros r. rewrite bool_decide_eq_true. naive_solver.
Qed.

End calls.

(** ** Properties *)

(** The increments of an execution are the same whether they are loaded
    alone or in the batch of a recovery: both give every element of every
    record of that execution in order, and neither has any when it has no
    record. *)
Theorem batch_load_agrees {D : Type} `{DatabaseLaws D} (ids : list Z) (id : Z) (s : Store D) :
  id ∈ ids ->
  wp (LoadTaskDeltas id) (fun one _ => wp (BatchLoadTaskDeltas ids) (fun all _ =>
    forall v m, one = Ok v -> all = Ok m ->
      decode_deltas <$> m !! id = decode_deltas <$> v /\ (raw_array <$> m !! id = raw_array <$> v)) s) s.
Proof.
  intros Hid. eapply wp_mono; [apply LoadTaskDeltas_spec|]. intros one _ [_ Hone].
  eapply wp_mono; [by apply BatchLoadTaskDeltas_spec|]. intros all _ Hall v m -> ->. cbn in Hone, Hall.
  rewrite Hall. destruct v as [v|]; [|by rewrite Hone].
  destruct Hone as [Hne Hv]. destruct (merge_records _ Hne) as (v' & -> & Hv'). cbn.
  unfold decode_deltas. by rewrite Hv, Hv'.
Qed.

Definition ex_deltas : Tables :=
  no_tables <| t_deltas := [MkVibeflowTaskDelta 1 7 (VList [VBool true]); MkVibeflowTaskDelta 2 8 VNil;
                            MkVibeflowTaskDelta 3 7 (VString "x")] |>.

Lemma batch_load_agrees_witness :
  let s := MkStore (fresh_memory ex_deltas []) ∅ in
  7 ∈ [8; 7] /\
  wp (LoadTaskDeltas 7) (fun one _ => wp (BatchLoadTaskDeltas [8; 7]) (fun all _ =>
    forall v m, one = Ok v -> all = Ok m ->
      decode_deltas <$> m !! 7 = decode_deltas <$> v /\ (raw_array <$> m !! 7 = raw_array <$> v)) s) s.
Proof.
  intros s. assert (Hin : 7 ∈ [8; 7]) by (right; left). split; [exact Hin|].
  apply (batch_load_agrees [8; 7] 7 s Hin).
Defined.

(** ** Lemmas: snapshots *)

Definition no_delta : TaskDelta := MkTaskDelta "" "" ∅ "".

Lemma decode_snapshot time_text sn : decode_delta (snapshot_json time_text sn) = Some no_delta.
Proof.
  unfold snapshot_json, decode_delta. set (m := <["workflow_uuid" := _]> _).
  assert (Hm : forall name, name ∈ ["task_name"; "action"; "output"; "result"] -> m !! name = None).
  { intros name Hn. subst m. assert (Hne : forall k, k ∈ ["workflow_uuid"; "execution_id"; "status";
      "updated_at"; "changed_tasks"; "error"] -> k <> name).
    { intros k Hk ->. set_solver. }
    rewrite !lookup_insert_ne by (apply Hne; set_solver).
    destruct (sn_ChangedTasks sn) as [|d ds]; unfold id at 1;
      rewrite ?lookup_insert_ne by (apply Hne; set_solver);
      case_decide; unfold id; rewrite ?lookup_insert_ne by (apply Hne; set_solver);
      apply lookup_empty. }
  unfold string_field, map_field. by rewrite !Hm by set_solver.
Qed.

Lemma decode_snapshots (l : list val) :
  Forall (fun v => exists time_text sn, v = snapshot_json time_text sn) l ->
  mapM decode_delta l = Some (replicate (length l) no_delta).
Proof.
  induction 1 as [|v l (tt & sn & ->) _ IH]; [done|]. cbn [mapM length replicate].
  rewrite decode_snapshot. cbn. by rewrite IH.
Qed.

Lemma apply_no_deltas n st : ApplyDeltas st (replicate n no_delta) = st.
Proof. induction n as [|n IH]; [done|]. exact IH. Qed.

(** Every record of the execution is a snapshot. *)
Definition only_snapshots (executionID : Z) (t : Tables) : Prop :=
  Forall (fun r => exists time_text sn, vd_Data r = snapshot_json time_text sn) (deltas_of executionID t).

Section saving.
Context {D : Type} `{DatabaseLaws D} (time_text : Z -> string).

(** The snapshots of an execution, whatever the database answers. *)
Definition save_snapshots (executionID : Z) (sns : list WorkflowSnapshot) : M (Store D) unit :=
  for_each (fun sn => SaveTaskDeltas executionID (snapshot_json time_text sn);; mret tt) sns.

Lemma save_snapshots_only id sns s :
  only_snapshots id (current (hs_db s)) ->
  wp (save_snapshots id sns) (fun _ s' => only_snapshots id (current (hs_db s'))) s.
Proof.
  intros Hs. apply (wp_for_each (fun s => only_snapshots id (current (hs_db s)))); [|done].
  intros sn s1 _ Hs1. apply wp_bind. unfold SaveTaskDeltas. apply wp_try, wp_on_db.
  eapply wp_mono; [apply create_law|]. intros [i|e] d [_ Hd]; repeat apply wp_ret; cbn.
  - destruct Hd as (_ & _ & _ & ->). unfold only_snapshots, deltas_of. cbn.
    rewrite filter_app. apply Forall_app. split; [exact Hs1|].
    rewrite filter_cons_True by done. constructor; [by eexists _, _|constructor].
  - by rewrite Hd.
Qed.

Lemma only_snapshots_lost id raw st t :
  only_snapshots id t -> raw_array raw = Some (all_elements (deltas_of id t)) ->
  exists ds, decode_deltas raw = Some ds /\ ApplyDeltas st ds = st.
Proof.
  intros Hs Hraw. unfold decode_deltas. rewrite Hraw.
  assert (Hall : Forall (fun v => exists time_text sn, v = snapshot_json time_text sn)
    (all_elements (deltas_of id t))).
  { clear Hraw. unfold only_snapshots in Hs. unfold all_elements. induction Hs as [|r l (tt & sn & Hr) _ IH]; [constructor|].
    cbn. rewrite Hr. constructor; [by eexists _, _|exact IH]. }
  rewrite (decode_snapshots _ Hall). eexists. split; [done|]. apply apply_no_deltas.
Qed.

End saving.

(** C21: the snapshots of a running execution are lost: each is stored as one
    object, and recovery reads every stored object as the increment of one
    task.  Whatever snapshots were saved, the increments that are loaded back
    decode without error and change nothing of the state they are applied
    to. *)
Theorem snapshots_are_lost {D : Type} `{DatabaseLaws D} (time_text : Z -> string) (executionID : Z)
    (sns : list WorkflowSnapshot) (s : Store D) (st : WorkflowState) :
  deltas_of executionID (current (hs_db s)) = [] ->
  wp (save_snapshots time_text executionID sns;; LoadTaskDeltas executionID) (fun r _ =>
    forall raw, r = Ok (Some raw) -> exists ds, decode_deltas raw = Some ds /\ ApplyDeltas st ds = st) s.
Proof.
  intros Hnone. apply wp_bind. eapply wp_mono.
  { apply save_snapshots_only. unfold only_snapshots. rewrite Hnone. constructor. }
  intros [] s1 Hs1. eapply wp_mono; [apply LoadTaskDeltas_spec|].
  intros r s2 [_ Hr] raw ->. destruct Hr as [_ Hr]. by eapply only_snapshots_lost.
Qed.

Definition ex_running_state : WorkflowState :=
  MkWorkflowState None Model.WorkflowStatusRunning 0 ∅ ∅ ∅ "" "" ∅ 0 ∅ ∅ "w" 1 7 0 ∅.

Lemma snapshots_are_lost_witness :
  let st := ex_running_state in
  let sn := MkWorkflowSnapshot "w" 7 "RUNNING" [MkTaskDelta "a" "completed" ∅ ""] "" 0 in
  let s := MkStore (fresh_memory no_tables []) ∅ in
  returned (save_snapshots (fun _ => "now") 7 [sn; sn];; LoadTaskDeltas 7) s =
    Some (Ok (Some (VList [snapshot_json (fun _ => "now") sn; snapshot_json (fun _ => "now") sn]))) /\
  wp (save_snapshots (fun _ => "now") 7 [sn; sn];; LoadTaskDeltas 7) (fun r _ =>
    forall raw, r = Ok (Some raw) -> exists ds, decode_deltas raw = Some ds /\ ApplyDeltas st ds = st) s.
Proof.
  intros st sn s. split; [vm_compute; reflexivity|].
  exact (snapshots_are_lost (fun _ => "now") 7 [sn; sn] s st eq_refl).
Defined.

(** ** Lemmas: definitions *)

Fixpoint task_rows (workflowID i : Z) (tasks : list TaskDef) : list VibeflowWorkflowTask :=
  match tasks with
  | [] => []
  | t :: tasks' =>
      MkVibeflowWorkflowTask 0 workflowID (td_Name t) (json_map (td_Params t)) i
      :: task_rows workflowID (i + 1) tasks'
  end.

(** New rows for the tasks, whatever their keys. *)
Definition rows_for (workflowID : Z) (tasks : list TaskDef) (new : list VibeflowWorkflowTask) : Prop :=
  set_id 0 <$> new = task_rows workflowID 0 tasks.

Definition with_tasks (new : list VibeflowWorkflowTask) (t : Tables) : Tables :=
  t <| t_tasks ::= fun l => l ++ new |>.

(** The tables with a definition and its tasks added. *)
Definition added (def : WorkflowDef) (id : Z) (t t' : Tables) : Prop :=
  exists new, rows_for id (wd_Tasks def) new /\
    t' = with_tasks new (t <| t_workflows ::= fun l => l ++ [
      MkVibeflowWorkflow id (wd_UUID def) (wd_Name def) WorkflowStatusPending (wd_Trigger def)
        (wd_CronExpr def) (wd_TimeoutSec def) (wd_TaskTimeoutSec def) (wd_MaxRetries def)
        (wd_BaseBackoff def)] |>).

(** The tables with a definition updated and its tasks replaced. *)
Definition replaced (def : WorkflowDef) (id : Z) (t t' : Tables) : Prop :=
  exists new, rows_for id (wd_Tasks def) new /\
    t' = with_tasks new (t
      <| t_workflows ::= fmap (fun r => if vw_ID r =? id then redefine def r else r) |>
      <| t_tasks ::= filter (fun x => (vt_WorkflowID x =? id) = false) |>).

(** What an upsert that succeeds does to the tables. *)
Definition upserted (def : WorkflowDef) (id : Z) (t t' : Tables) : Prop :=
  match filter (fun r => vw_UUID r = wd_UUID def) (t_workflows t) with
  | [] => added def id t t'
  | existing :: _ => id = vw_ID existing /\ replaced def id t t'
  end.

Section definitions.
Context {D : Type} `{DatabaseLaws D}.

Abbreviation tables s := (current (hs_db s)).

Lemma create_tasks_spec workflowID tasks : forall i (s : Store D),
  wp (create_tasks workflowID i tasks) (fun r s' =>
    saved (hs_db s') = saved (hs_db s) /\ exists new,
      tables s' = with_tasks new (tables s) /\
      match r with Ok _ => set_id 0 <$> new = task_rows workflowID i tasks | Err _ => True end) s.
Proof.
  assert (Hnil : forall t, with_tasks [] t = t)
    by (intros []; unfold with_tasks, upd; cbn; by rewrite app_nil_r).
  induction tasks as [|t tasks IH]; intros i s; cbn [create_tasks task_rows].
  { apply wp_ret. split; [done|]. by exists []. }
  destruct (encodable_map (td_Params t)).
  2:{ apply wp_ret. split; [done|]. by exists []. }
  apply wp_try, wp_on_db. eapply wp_mono; [apply create_law|].
  intros [id|e] d [Hs Hd].
  - destruct Hd as (_ & _ & _ & Hd). apply wp_bind, wp_modify. eapply wp_mono; [apply IH|].
    intros r s' (Hs' & new & Ht & Hnew). cbn in Hs', Ht. split; [by rewrite Hs', Hs|].
    eexists (_ :: new). split.
    + rewrite Ht, Hd. unfold with_tasks, upd. cbn. by rewrite <- app_assoc.
    + destruct r; [|done]. cbn in *. by rewrite Hnew.
  - split; [exact Hs|]. exists []. split; [cbn; by rewrite Hd, Hnil|done].
Qed.

Lemma tasks_and_commit_spec workflowID tasks t0 (s : Store D) :
  saved (hs_db s) = Some t0 ->
  wp (tasks_and_commit workflowID tasks) (fun r s' =>
    let done := exists new, rows_for workflowID tasks new /\ tables s' = with_tasks new (tables s) in
    match r with Ok id => id = workflowID /\ done | Err _ => tables s' = t0 \/ done end) s.
Proof.
  intros Hs. apply wp_bind. eapply wp_mono; [apply create_tasks_spec|].
  intros [u|e] s1 (Hs1 & new & Ht & Hnew); rewrite Hs in Hs1.
  - apply wp_try, wp_on_db. eapply wp_mono; [by apply commit_law|].
    intros [v|e] d [_ Hd]; [apply wp_ret|]; cbn in *.
    + split; [done|]. exists new. by rewrite Hd.
    + destruct Hd as [Hd|Hd]; [right; exists new; by rewrite Hd|left; by rewrite Hd].
  - apply wp_bind, wp_on_db. eapply wp_mono; [by apply rollback_law|].
    intros v d [Hd _]. apply wp_ret. left. exact Hd.
Qed.

Lemma rolled_back {A : Type} t0 (e : string) (Q : res string A -> Store D -> Prop) s :
  saved (hs_db s) = Some t0 -> (forall s', tables s' = t0 -> Q (Err e) s') ->
  wp (on_db db_rollback;; mret (Err e)) Q s.
Proof.
  intros Hs HQ. apply wp_bind, wp_on_db. eapply wp_mono; [by apply rollback_law|].
  intros v d [Hd _]. apply wp_ret, HQ. exact Hd.
Qed.

Lemma SaveWorkflowDef_spec def (s : Store D) :
  wp (SaveWorkflowDef def) (fun r s' => match r with
    | Ok id => added def id (tables s) (tables s') /\
        forall x, x ∈ t_workflows (tables s) -> vw_UUID x <> wd_UUID def
    | Err _ => tables s' = tables s \/
        (exists id, added def id (tables s) (tables s') /\
           forall x, x ∈ t_workflows (tables s) -> vw_UUID x <> wd_UUID def)
    end) s.
Proof.
  unfold SaveWorkflowDef. apply wp_bind, wp_on_db. eapply wp_mono; [apply begin_law|].
  intros u d (Hc & Hs). apply wp_bind, wp_on_db. eapply wp_mono; [apply create_law|]. cbn.
  intros [id|e] d1 [Hs1 Hd1]; rewrite Hs in Hs1.
  2:{ eapply rolled_back; [exact Hs1|]. intros s' Hs'. left. exact Hs'. }
  destruct Hd1 as (Hacc & _ & _ & Hd1).
  assert (Hfree : forall x, x ∈ t_workflows (tables s) -> vw_UUID x <> wd_UUID def).
  { intros x Hx He. rewrite Hc in Hacc.
    pose proof (proj1 (forallb_forall _ _) Hacc x (proj1 (list_elem_of_In _ _) Hx)) as Hn.
    rewrite negb_true_iff, bool_decide_eq_false in Hn. by apply Hn. }
  eapply wp_mono; [by apply (tasks_and_commit_spec _ _ (tables s))|].
  intros r s' Hr. cbn in Hr. rewrite Hd1, Hc in Hr.
  assert (Hadd : forall id', (exists new, rows_for id' (wd_Tasks def) new /\ tables s' =
    with_tasks new (tables s <| t_workflows ::= fun l => l ++ [MkVibeflowWorkflow id' (wd_UUID def)
      (wd_Name def) WorkflowStatusPending (wd_Trigger def) (wd_CronExpr def) (wd_TimeoutSec def)
      (wd_TaskTimeoutSec def) (wd_MaxRetries def) (wd_BaseBackoff def)] |>)) ->
    added def id' (tables s) (tables s')) by (intros id' Hx; exact Hx).
  destruct r as [id'|e].
  - destruct Hr as [-> Hr]. split; [by apply Hadd|done].
  - destruct Hr as [Hr|Hr]; [by left|]. right. exists id. split; [by apply Hadd|done].
Qed.

End definitions.

(** C22: an upsert of a definition is one change: on success the definition is
    added, or updated in place with its tasks replaced, under the id that is
    returned; on an error nothing changed, unless the answer to the commit was
    lost. *)
Theorem UpsertWorkflowDef_atomic {D : Type} `{DatabaseLaws D} (def : WorkflowDef) (s : Store D) :
  wp (UpsertWorkflowDef def) (fun r s' => match r with
    | Ok id => upserted def id (current (hs_db s)) (current (hs_db s'))
    | Err _ => current (hs_db s') = current (hs_db s) \/
        exists id, upserted def id (current (hs_db s)) (current (hs_db s'))
    end) s.
Proof.
  unfold UpsertWorkflowDef, upserted. apply wp_try, wp_on_db. eapply wp_mono; [apply find_law|].
  intros [found|e] d (_ & Hc & Hf); [|left; exact Hc].
  rewrite (list_filter_iff _ (fun r => vw_UUID r = wd_UUID def)) in Hf
    by (intros r; apply bool_decide_eq_true).
  cbn in Hf. rewrite <- Hf. destruct found as [|existing found].
  { eapply wp_mono; [apply SaveWorkflowDef_spec|]. cbn. rewrite Hc.
    intros [id|e] s' Hr; [apply Hr|]. destruct Hr as [Hr|(id & Hr & _)]; [by left|right; by exists id]. }
  apply wp_bind, wp_on_db. eapply wp_mono; [apply begin_law|]. cbn. intros u d1 (Hc1 & Hs1).
  rewrite Hc in Hc1, Hs1.
  apply wp_bind, wp_on_db. eapply wp_mono; [apply update_law|]. cbn. intros [v|e] d2 [Hs2 Hc2];
    rewrite Hs1 in Hs2; [|eapply rolled_back; [exact Hs2|]; intros s' Hs'; left; exact Hs'].
  apply wp_bind, wp_on_db. eapply wp_mono; [apply remove_law|]. cbn. intros [w|e] d3 [Hs3 Hc3];
    rewrite Hs2 in Hs3; [|eapply rolled_back; [exact Hs3|]; intros s' Hs'; left; exact Hs'].
  eapply wp_mono; [by apply (tasks_and_commit_spec _ _ (current (hs_db s)))|]. cbn.
  rewrite Hc3, Hc2, Hc1. intros [id|e] s' Hr.
  - destruct Hr as [-> Hr]. split; [done|exact Hr].
  - destruct Hr as [Hr|Hr]; [by left|]. right. exists (vw_ID existing). split; [done|exact Hr].
Qed.

Definition ex_def : WorkflowDef :=
  MkWorkflowDef "u1" "demo" [MkTaskDef "a" ∅; MkTaskDef "b" ∅] 0 0 0 0 "manual" "".

Lemma UpsertWorkflowDef_atomic_witness :
  let s := MkStore (fresh_memory no_tables [true; true; true; false]) ∅ in
  returned (UpsertWorkflowDef ex_def) s = Some (Err "lost connection") /\
  wp (UpsertWorkflowDef ex_def) (fun r s' => match r with
    | Ok id => upserted ex_def id (current (hs_db s)) (current (hs_db s'))
    | Err _ => current (hs_db s') = current (hs_db s) \/
        exists id, upserted ex_def id (current (hs_db s)) (current (hs_db s'))
    end) s.
Proof.
  intros s. split; [vm_compute; reflexivity|]. exact (UpsertWorkflowDef_atomic ex_def s).
Defined.

(** A definition cannot be saved twice: with a definition of its UUID in
    the table, the insertion that every run of a workflow makes is refused and
    nothing changes. *)
Theorem SaveWorkflowDef_refused {D : Type} `{DatabaseLaws D} (def : WorkflowDef)
    (existing : VibeflowWorkflow) (s : Store D) :
  existing ∈ t_workflows (current (hs_db s)) -> vw_UUID existing = wd_UUID def ->
  wp (SaveWorkflowDef def) (fun r s' =>
    (exists e, r = Err e) /\ current (hs_db s') = current (hs_db s)) s.
Proof.
  intros Hin Hu. eapply wp_mono; [apply SaveWorkflowDef_spec|]. intros [id|e] s' Hr.
  - destruct Hr as [_ Hfree]. by apply Hfree in Hin.
  - destruct Hr as [Hr|(id & _ & Hfree)]; [split; [by eexists|done]|]. by apply Hfree in Hin.
Qed.

(** Registered, then run. *)
Lemma SaveWorkflowDef_refused_witness :
  match UpsertWorkflowDef ex_def (MkStore (fresh_memory no_tables []) ∅) with
  | Ret (_, s) => wp (SaveWorkflowDef ex_def) (fun r s' =>
      (exists e, r = Err e) /\ current (hs_db s') = current (hs_db s)) s
  | _ => False
  end.
Proof.
  set (r := UpsertWorkflowDef _ _). vm_compute in r. subst r. cbv iota beta.
  eapply (SaveWorkflowDef_refused (D := Memory) ex_def); [left|reflexivity].
Defined.

(** A failed upsert leaves the ids of rows that were rolled back in the cache,
    and the ids of tasks that a definition no longer has stay there too. *)
Definition dangling (s : Store Memory) : list string :=
  (filter (fun kv => Forall (fun t => vt_ID t <> kv.2) (t_tasks (current (hs_db s))))
     (map_to_list (taskIDCache s))).*1.

Example ex_rolled_back_ids :
  match UpsertWorkflowDef ex_def (MkStore (fresh_memory no_tables [true; true; true; false]) ∅) with
  | Ret (_, s) => dangling s = ["1:a"]
  | _ => False
  end.
Proof. vm_compute. reflexivity. Qed.

Example ex_stale_ids :
  match (UpsertWorkflowDef ex_def;;
         UpsertWorkflowDef (MkWorkflowDef "u1" "demo" [MkTaskDef "b" ∅] 0 0 0 0 "manual" ""))
        (MkStore (fresh_memory no_tables []) ∅) with
  | Ret (_, s) => dangling s = ["1:a"]
  | _ => False
  end.
Proof. vm_compute. reflexivity. Qed.
