(* ===== verification/Bus.v ===== *)
(** * The WebSocket event bus (infra/ws/bus.go)

    Clients with a bounded queue each, an index of clients by workflow, and
    two broadcast channels.  A message is sent to a copy of the client list
    made under the lock; each send is a step of its own, and a send on a
    closed channel is a panic. *)
From Stdlib Require Import ZArith Lia String.
From stdpp Require Import base gmap sets strings list.
From S2P Require Import Prelude.
Set Warnings "-register-all,-clear-no-such-hyp,-level-tolerance".
Local Open Scope Z_scope.
Local Open Scope list_scope.

Definition defaultBroadcastBuffer : Z := 256.
Definition defaultClientBuffer : Z := 64.

(** A client: the queue of its [send] channel, whether that is closed, and the
    workflow it subscribed to, empty for none. *)
Record WSClient := MkClient {
  cl_send : list string; cl_cap : nat; cl_closed : bool; cl_workflow : string }.

#[export] Instance eta_WSClient : Eta WSClient := fun c =>
  MkClient (cl_send c) (cl_cap c) (cl_closed c) (cl_workflow c).

Record routedMessage := MkRouted { rm_data : string; rm_workflow : string }.

(** [conns]: every client there has been, under its number. *)
Record WSEvent := MkBus {
  clients : gset nat;
  workflowClients : gmap string (gset nat);
  globalBroadcast : list routedMessage;
  workflowBroadcast : list routedMessage;
  broadcast_cap : nat;
  client_cap : nat;
  conns : gmap nat WSClient }.

#[export] Instance eta_WSEvent : Eta WSEvent := fun e =>
  MkBus (clients e) (workflowClients e) (globalBroadcast e) (workflowBroadcast e)
    (broadcast_cap e) (client_cap e) (conns e).

Definition buffer_or (configured default : Z) : nat :=
  Z.to_nat (if configured <=? 0 then default else configured).

Definition NewWSEvent (broadcastBuffer clientBuffer : Z) : WSEvent :=
  MkBus ∅ ∅ [] [] (buffer_or broadcastBuffer defaultBroadcastBuffer)
    (buffer_or clientBuffer defaultClientBuffer) ∅.

(** ** Registration, under the lock *)

(** [closeSend] closes at most once. *)
Definition closeSend (c : nat) (e : WSEvent) : WSEvent :=
  e <| conns ::= alter (fun cl => cl <| cl_closed := true |>) c |>.

Definition register_client (c : nat) (e : WSEvent) : WSEvent :=
  match conns e !! c with
  | None => e
  | Some cl =>
      let e := e <| clients ::= fun s => {[c]} ∪ s |> in
      if decide (cl_workflow cl = "") then e
      else e <| workflowClients ::= fun m =>
             <[cl_workflow cl := {[c]} ∪ default ∅ (m !! cl_workflow cl)]> m |>
  end.

(** Out of the index; a workflow without clients goes too. *)
Definition unsubscribe (workflow : string) (c : nat) (m : gmap string (gset nat)) : gmap string (gset nat) :=
  let rest := default ∅ (m !! workflow) ∖ {[c]} in
  if decide (rest = ∅) then delete workflow m else <[workflow := rest]> m.

(** What [Run] does with an unregistration, and [sendToClient] with a client
    whose queue is full. *)
Definition drop_client (c : nat) (e : WSEvent) : WSEvent :=
  if decide (c ∈ clients e) then
    match conns e !! c with
    | None => e
    | Some cl =>
        let e := closeSend c (e <| clients ::= fun s => s ∖ {[c]} |>) in
        if decide (cl_workflow cl = "") then e
        else e <| workflowClients ::= unsubscribe (cl_workflow cl) c |>
    end
  else e.

Definition unregister (c : nat) : M WSEvent unit := modify (drop_client c).

(** [ServeWS]: a new client, registered. *)
Definition ServeWS (workflow : string) : M WSEvent nat := fun e =>
  let c := fresh (dom (conns e)) in
  Ret (c, register_client c
            (e <| conns ::= <[c := MkClient [] (client_cap e) false workflow]> |>)).

(** ** Sending *)

(** The [select] of [sendToClient]: whether the message went. *)
Definition try_send (c : nat) (data : string) : M WSEvent bool := fun e =>
  match conns e !! c with
  | None => Ret (true, e)
  | Some cl =>
      if cl_closed cl then Panic
      else if decide (length (cl_send cl) < cl_cap cl)%nat then
        Ret (true, e <| conns ::= <[c := cl <| cl_send ::= fun q => q ++ [data] |>]> |>)
      else Ret (false, e)
  end.

Definition sendToClient (data : string) (c : nat) : M WSEvent unit :=
  sent ← try_send c data;
  if sent : bool then mret tt else modify (drop_client c).

(** The clients a message goes to, copied under the lock. *)
Definition all_clients (e : WSEvent) : list nat := elements (clients e).
Definition workflow_clients (workflow : string) (e : WSEvent) : list nat :=
  elements (default ∅ (workflowClients e !! workflow)).

Definition sendToAllLocked (data : string) : M WSEvent unit :=
  cs ← gets all_clients; for_each (sendToClient data) cs.

Definition sendToWorkflowLocked (workflow data : string) : M WSEvent unit :=
  cs ← gets (workflow_clients workflow); for_each (sendToClient data) cs.

(** One turn of the two consumers. *)
Definition consumeGlobalBroadcast : M WSEvent unit := fun e =>
  match globalBroadcast e with
  | [] => Ret (tt, e)
  | msg :: l => sendToAllLocked (rm_data msg) (e <| globalBroadcast := l |>)
  end.

Definition consumeWorkflowBroadcast : M WSEvent unit := fun e =>
  match workflowBroadcast e with
  | [] => Ret (tt, e)
  | msg :: l => sendToWorkflowLocked (rm_workflow msg) (rm_data msg) (e <| workflowBroadcast := l |>)
  end.

(** ** Broadcasting: [data] is the message's JSON, [None] when it has none;
    [waits] whether a full channel gets room, by a turn of its consumer,
    before the deadline *)

Definition to_global (workflow : string) : bool := bool_decide (workflow = "").

Definition has_room (global : bool) (e : WSEvent) : bool :=
  bool_decide (length (if global then globalBroadcast e else workflowBroadcast e) < broadcast_cap e)%nat.

Definition push_broadcast (global : bool) (m : routedMessage) (e : WSEvent) : WSEvent :=
  if global then e <| globalBroadcast ::= fun l => l ++ [m] |>
  else e <| workflowBroadcast ::= fun l => l ++ [m] |>.

Definition broadcastToChannel (global : bool) (data : option string) (workflow : string)
  : M WSEvent unit :=
  match data with
  | None => mret tt
  | Some data => modify (fun e =>
      if has_room global e then push_broadcast global (MkRouted data workflow) e else e)
  end.

Definition broadcastToChannelCtx (waits global : bool) (data : option string) (workflow : string)
  : M WSEvent unit :=
  match data with
  | None => mret tt
  | Some data =>
      room ← gets (has_room global);
      if room : bool then modify (push_broadcast global (MkRouted data workflow))
      else if waits then
        (if global then consumeGlobalBroadcast else consumeWorkflowBroadcast);;
        modify (push_broadcast global (MkRouted data workflow))
      else mret tt
  end.

Definition Broadcast (data : option string) : M WSEvent unit := broadcastToChannel true data "".
Definition BroadcastToWorkflow (workflow : string) (data : option string) : M WSEvent unit :=
  broadcastToChannel false data workflow.
Definition BroadcastCtxToWorkflow (waits : bool) (workflow : string) (data : option string) : M WSEvent unit :=
  broadcastToChannelCtx waits (to_global workflow) data workflow.
Definition broadcastNonBlock (data : option string) (workflow : string) : M WSEvent unit :=
  broadcastToChannel (to_global workflow) data workflow.

(** [writePump], one turn: the next message, or the end of a closed queue. *)
Inductive pumped : Type := Wrote (data : string) | PumpEnds | PumpWaits.

Definition writePump (c : nat) : M WSEvent pumped := fun e =>
  match conns e !! c with
  | None => Ret (PumpEnds, e)
  | Some cl =>
      match cl_send cl with
      | data :: q => Ret (Wrote data, e <| conns ::= <[c := cl <| cl_send := q |>]> |>)
      | [] => Ret (if cl_closed cl then PumpEnds else PumpWaits, e)
      end
  end.

(** ** The index of clients *)

Definition subscribed (workflow : string) (e : WSEvent) : gset nat :=
  default ∅ (workflowClients e !! workflow).

(** Every registered client is open, and the index has exactly the registered
    clients of each workflow, and no workflow without clients. *)
Record bus_ok (e : WSEvent) : Prop := {
  bus_open c : c ∈ clients e -> exists cl, conns e !! c = Some cl /\ cl_closed cl = false;
  bus_index c wf cl : conns e !! c = Some cl ->
    (c ∈ subscribed wf e <-> c ∈ clients e /\ wf = cl_workflow cl /\ wf <> "");
  bus_known c wf : c ∈ subscribed wf e -> is_Some (conns e !! c);
  bus_live wf s : workflowClients e !! wf = Some s -> s <> ∅ }.

Lemma subscribed_insert wf wf' s m e :
  workflowClients e = <[wf := s]> m ->
  subscribed wf' e = if decide (wf' = wf) then s else default ∅ (m !! wf').
Proof.
  intros He. unfold subscribed. rewrite He. case_decide as Hwf; [subst|].
  - by rewrite lookup_insert_eq.
  - by rewrite lookup_insert_ne.
Qed.

Lemma unsubscribe_lookup wf wf' c m :
  default ∅ (unsubscribe wf c m !! wf') =
  if decide (wf' = wf) then default ∅ (m !! wf) ∖ {[c]} else default ∅ (m !! wf').
Proof.
  unfold unsubscribe. case_decide as Hr; case_decide as Hwf; subst;
    rewrite ?lookup_delete_eq, ?lookup_insert_eq, ?lookup_delete_ne, ?lookup_insert_ne by done; done.
Qed.

Lemma unsubscribe_live wf wf' c m s :
  (forall wf s, m !! wf = Some s -> s <> ∅) -> unsubscribe wf c m !! wf' = Some s -> s <> ∅.
Proof.
  intros Hm. unfold unsubscribe. case_decide as Hr.
  - intros [_ Hs]%lookup_delete_Some. by eapply Hm.
  - intros [[<- <-]|[_ Hs]]%lookup_insert_Some; [done|by eapply Hm].
Qed.

(** A registered client, as it is dropped. *)
Lemma drop_client_lookup c c' e :
  conns (drop_client c e) !! c' =
  if decide (c' = c /\ c ∈ clients e) then (fun cl => cl <| cl_closed := true |>) <$> conns e !! c'
  else conns e !! c'.
Proof.
  unfold drop_client. case_decide as Hc; [|rewrite decide_False by tauto; done].
  destruct (conns e !! c) as [cl|] eqn:Hcl.
  2:{ case_decide as Hd; [|done]. destruct Hd as [-> _]. by rewrite Hcl. }
  assert (Hl : alter (fun cl => cl <| cl_closed := true |>) c (conns e) !! c' =
    if decide (c' = c /\ c ∈ clients e) then (fun cl => cl <| cl_closed := true |>) <$> conns e !! c'
    else conns e !! c').
  { case_decide as Hd.
    - destruct Hd as [-> _]. by rewrite lookup_alter_eq.
    - rewrite lookup_alter_ne; [done|]. intros ->. tauto. }
  destruct (decide (cl_workflow cl = "")); exact Hl.
Qed.

Lemma drop_client_clients c e :
  bus_ok e -> clients (drop_client c e) = clients e ∖ {[c]}.
Proof.
  intros Hok. unfold drop_client. case_decide as Hc.
  - destruct (bus_open _ Hok c Hc) as (cl & -> & _). by case_decide.
  - set_solver.
Qed.

Lemma drop_client_subscribed c e wf :
  bus_ok e -> subscribed wf (drop_client c e) = subscribed wf e ∖ {[c]}.
Proof.
  intros Hok. unfold drop_client. case_decide as Hc.
  - destruct (bus_open _ Hok c Hc) as (cl & Hcl & _). rewrite Hcl.
    pose proof (bus_index _ Hok c wf cl Hcl) as Hi. case_decide as Hw.
    + change (subscribed wf _) with (subscribed wf e) at 1. set_solver.
    + unfold subscribed at 1. cbn [upd workflowClients]. rewrite unsubscribe_lookup.
      change (workflowClients (closeSend _ _)) with (workflowClients e).
      case_decide as Hwf; [by subst|]. unfold subscribed in *. set_solver.
  - destruct (decide (c ∈ subscribed wf e)) as [Hs|Hs]; [|set_solver].
    destruct (bus_known _ Hok c wf Hs) as [cl Hcl]. destruct (proj1 (bus_index _ Hok c wf cl Hcl) Hs). tauto.
Qed.

Lemma drop_client_ok c e : bus_ok e -> bus_ok (drop_client c e).
Proof.
  intros Hok. split.
  - intros c' Hc'. rewrite drop_client_clients in Hc' by done.
    destruct (bus_open _ Hok c') as (cl & Hcl & Ho); [set_solver|].
    exists cl. rewrite drop_client_lookup, decide_False by set_solver. done.
  - intros c' wf cl Hcl. rewrite drop_client_clients, drop_client_subscribed by done.
    rewrite drop_client_lookup in Hcl. case_decide as Hd; [set_solver|].
    pose proof (bus_index _ Hok c' wf cl Hcl). set_solver.
  - intros c' wf Hs. rewrite drop_client_subscribed in Hs by done. rewrite drop_client_lookup.
    destruct (bus_known _ Hok c' wf) as [cl Hcl]; [set_solver|]. rewrite Hcl. by case_decide.
  - intros wf s. unfold drop_client. case_decide; [|by apply bus_live].
    destruct (conns e !! c); [|by apply bus_live]. case_decide; [by apply (bus_live _ Hok)|].
    cbn [upd workflowClients]. apply unsubscribe_live. apply (bus_live _ Hok).
Qed.

(** A message appended to an open queue. *)
Lemma update_conn_ok c cl cl' e :
  conns e !! c = Some cl -> cl_closed cl' = cl_closed cl -> cl_workflow cl' = cl_workflow cl ->
  bus_ok e -> bus_ok (e <| conns ::= <[c := cl']> |>).
Proof.
  intros Hcl Hc Hw Hok. split; cbn [upd conns clients workflowClients].
  - intros c' Hc'. destruct (bus_open _ Hok c' Hc') as (cl0 & H0 & Ho).
    destruct (decide (c' = c)) as [->|Hne].
    + exists cl'. rewrite lookup_insert_eq. split; [done|congruence].
    + exists cl0. by rewrite lookup_insert_ne.
  - intros c' wf cl0. destruct (decide (c' = c)) as [->|Hne].
    + rewrite lookup_insert_eq. intros [= <-]. rewrite Hw. apply (bus_index _ Hok c wf cl Hcl).
    + rewrite lookup_insert_ne by done. apply (bus_index _ Hok).
  - intros c' wf Hs. destruct (decide (c' = c)) as [->|Hne]; [by rewrite lookup_insert_eq|].
    rewrite lookup_insert_ne by done. by apply (bus_known _ Hok c' wf).
  - apply (bus_live _ Hok).
Qed.

Definition roomy (cl : WSClient) : Prop := (length (cl_send cl) < cl_cap cl)%nat.

#[export] Instance roomy_dec cl : Decision (roomy cl).
Proof. unfold roomy. apply _. Defined.

(** A client that a message was sent to. *)
Definition given (data : string) (cl : WSClient) : WSClient :=
  if decide (roomy cl) then cl <| cl_send ::= fun q => q ++ [data] |> else cl <| cl_closed := true |>.

(** The message went to the clients of [l], and those without room are gone. *)
Record sent_to (data : string) (l : list nat) (e e' : WSEvent) : Prop := {
  sent_ok : bus_ok e';
  sent_conns c : conns e' !! c = (if decide (c ∈ l) then given data else id) <$> conns e !! c;
  sent_clients c : c ∈ clients e' <->
    c ∈ clients e /\ (c ∈ l -> exists cl, conns e !! c = Some cl /\ roomy cl) }.

Lemma sendToClient_sent data c e :
  bus_ok e -> c ∈ clients e -> wp (sendToClient data c) (fun _ e' => sent_to data [c] e e') e.
Proof.
  intros Hok Hc. destruct (bus_open _ Hok c Hc) as (cl & Hcl & Ho).
  unfold sendToClient. apply wp_bind. unfold wp at 1, try_send. rewrite Hcl, Ho.
  case_decide as Hroom; [apply wp_ret|apply wp_modify]; split.
  - eapply update_conn_ok; [exact Hcl|done..].
  - intros c'. cbn [upd conns]. destruct (decide (c' = c)) as [->|Hne].
    + rewrite lookup_insert_eq, decide_True, Hcl by set_solver. cbn. f_equal. unfold given.
      by rewrite decide_True.
    + rewrite lookup_insert_ne, decide_False by set_solver. by destruct (conns e !! c').
  - intros c'. cbn [upd clients]. set_solver.
  - by apply drop_client_ok.
  - intros c'. rewrite drop_client_lookup. destruct (decide (c' = c)) as [->|Hne].
    + rewrite !decide_True, Hcl by set_solver. cbn. f_equal. unfold given. by rewrite decide_False.
    + rewrite !decide_False by set_solver. by destruct (conns e !! c').
  - intros c'. rewrite drop_client_clients by done. rewrite elem_of_difference, elem_of_singleton.
    split; [intros [? ?]; set_solver|]. intros [Hc' Hr]. split; [done|]. intros ->.
    destruct (Hr ltac:(set_solver)) as (cl' & Hcl' & Hr'). by simplify_eq.
Qed.

Lemma sendToClients_sent data l : forall e,
  bus_ok e -> NoDup l -> (forall c, c ∈ l -> c ∈ clients e) ->
  wp (for_each (sendToClient data) l) (fun _ e' => sent_to data l e e') e.
Proof.
  induction l as [|c l IH]; intros e Hok Hnd Hin.
  - apply wp_ret. split; [done| |set_solver]. intros c. by destruct (conns e !! c).
  - apply NoDup_cons in Hnd as [Hc Hnd]. cbn [for_each]. apply wp_bind.
    eapply wp_mono; [apply sendToClient_sent; set_solver|]. intros [] e1 [Hok1 Hcs1 Hcl1].
    eapply wp_mono; [apply IH; [done|done|]|].
    { intros c' Hc'. apply Hcl1. set_solver. }
    intros [] e2 [Hok2 Hcs2 Hcl2]. split; [done| |].
    + intros c'. rewrite Hcs2, Hcs1. destruct (conns e !! c') as [cl|]; [|done]. cbn. f_equal.
      repeat case_decide; set_solver.
    + intros c'. rewrite Hcl2, Hcl1, Hcs1. destruct (decide (c' ∈ l)) as [Hl|Hl].
      * rewrite (decide_False (P := c' ∈ [c])) by set_solver. destruct (conns e !! c'); set_solver.
      * set_solver.
Qed.

Lemma ServeWS_ok workflow e : bus_ok e -> wp (ServeWS workflow) (fun _ e' => bus_ok e') e.
Proof.
  intros Hok. unfold wp, ServeWS. set (c := fresh _).
  assert (Hc : conns e !! c = None) by (apply not_elem_of_dom; apply is_fresh).
  assert (Hnc : c ∉ clients e).
  { intros Hin. destruct (bus_open _ Hok c Hin) as (cl & Hcl & _). congruence. }
  assert (Hns : forall wf, c ∉ subscribed wf e).
  { intros wf Hin. destruct (bus_known _ Hok c wf Hin). congruence. }
  unfold register_client. cbn [upd conns]. rewrite lookup_insert_eq. cbn [cl_workflow].
  match goal with |- bus_ok ?x => set (e2 := x) end.
  assert (He2 : clients e2 = {[c]} ∪ clients e) by (subst e2; by case_decide).
  assert (Hcn : conns e2 = <[c := MkClient [] (client_cap e) false workflow]> (conns e))
    by (subst e2; by case_decide).
  assert (Hs2 : forall wf, subscribed wf e2 =
    if decide (wf = workflow /\ workflow <> "") then {[c]} ∪ subscribed wf e else subscribed wf e).
  { intros wf. subst e2. case_decide as Hw.
    - rewrite decide_False by tauto. done.
    - unfold subscribed at 1. cbn [upd workflowClients]. case_decide as Hd.
      + destruct Hd as [-> _]. by rewrite lookup_insert_eq.
      + rewrite lookup_insert_ne; [done|]. intros ->. tauto. }
  assert (Hl2 : forall wf s, workflowClients e2 !! wf = Some s -> s <> ∅).
  { intros wf s. subst e2. case_decide as Hw; [apply (bus_live _ Hok)|].
    cbn [upd workflowClients]. intros [[<- <-]|[_ Hs]]%lookup_insert_Some; [set_solver|].
    by apply (bus_live _ Hok wf s). }
  clearbody e2. split; [| | |exact Hl2].
  - intros c'. rewrite He2, Hcn. intros Hin. destruct (decide (c' = c)) as [->|Hne].
    + eexists. by rewrite lookup_insert_eq.
    + rewrite lookup_insert_ne by done. apply (bus_open _ Hok). set_solver.
  - intros c' wf cl. rewrite Hcn, He2, Hs2. destruct (decide (c' = c)) as [->|Hne].
    + rewrite lookup_insert_eq. intros [= <-]. cbn [cl_workflow].
      destruct (decide (wf = workflow /\ workflow <> "")) as [[-> Hd]|Hd].
      * rewrite !elem_of_union, !elem_of_singleton. tauto.
      * split; [intros []%Hns|]. intros (_ & -> & ?). tauto.
    + rewrite lookup_insert_ne by done. intros Hcl. rewrite elem_of_union, elem_of_singleton.
      pose proof (bus_index _ Hok c' wf cl Hcl).
      destruct (decide (wf = workflow /\ workflow <> "")); rewrite ?elem_of_union, ?elem_of_singleton; tauto.
  - intros c' wf. rewrite Hs2, Hcn. intros Hin. destruct (decide (c' = c)) as [->|Hne].
    + by rewrite lookup_insert_eq.
    + rewrite lookup_insert_ne by done. apply (bus_known _ Hok c' wf). case_decide; set_solver.
Qed.

Lemma workflow_clients_ok workflow e :
  bus_ok e -> NoDup (workflow_clients workflow e) /\
    forall c, c ∈ workflow_clients workflow e -> c ∈ clients e.
Proof.
  unfold workflow_clients. intros Hok. split; [apply NoDup_elements|]. intros c Hc%elem_of_elements.
  destruct (bus_known _ Hok c workflow Hc) as [cl Hcl].
  destruct (proj1 (bus_index _ Hok c workflow cl Hcl) Hc). done.
Qed.

Lemma all_clients_ok e :
  NoDup (all_clients e) /\ forall c, c ∈ all_clients e -> c ∈ clients e.
Proof. unfold all_clients. split; [apply NoDup_elements|]. by intros c Hc%elem_of_elements. Qed.

Lemma new_bus_ok broadcastBuffer clientBuffer : bus_ok (NewWSEvent broadcastBuffer clientBuffer).
Proof. split; cbn; [set_solver|by intros c wf cl [= ]|set_solver|done]. Qed.

(** ** The bus as a sequence of whole operations *)

Inductive bus_op : Type :=
| OpServe (workflow : string)
| OpUnregister (c : nat)
| OpBroadcast (data : option string) (workflow : string)
| OpBroadcastCtx (waits : bool) (data : option string) (workflow : string)
| OpConsumeGlobal
| OpConsumeWorkflow
| OpPump (c : nat).

Definition run_op (op : bus_op) : M WSEvent unit :=
  match op with
  | OpServe workflow => ServeWS workflow;; mret tt
  | OpUnregister c => unregister c
  | OpBroadcast data workflow => broadcastNonBlock data workflow
  | OpBroadcastCtx waits data workflow => BroadcastCtxToWorkflow waits workflow data
  | OpConsumeGlobal => consumeGlobalBroadcast
  | OpConsumeWorkflow => consumeWorkflowBroadcast
  | OpPump c => writePump c;; mret tt
  end.

Lemma consumers_ok e :
  bus_ok e -> wp consumeGlobalBroadcast (fun _ => bus_ok) e /\
              wp consumeWorkflowBroadcast (fun _ => bus_ok) e.
Proof.
  intros Hok. unfold consumeGlobalBroadcast, consumeWorkflowBroadcast. split; unfold wp at 1.
  - destruct (globalBroadcast e) as [|msg l]; [done|]. set (e1 := e <| globalBroadcast := l |>).
    assert (Hok1 : bus_ok e1) by (destruct Hok; by split).
    destruct (all_clients_ok e1) as [Hnd Hin].
    assert (Hs : wp (sendToAllLocked (rm_data msg)) (fun _ => bus_ok) e1).
    { apply wp_bind, wp_gets. eapply wp_mono; [by apply sendToClients_sent|]. by intros ?? []. }
    exact Hs.
  - destruct (workflowBroadcast e) as [|msg l]; [done|]. set (e1 := e <| workflowBroadcast := l |>).
    assert (Hok1 : bus_ok e1) by (destruct Hok; by split).
    destruct (workflow_clients_ok (rm_workflow msg) e1 Hok1) as [Hnd Hin].
    assert (Hs : wp (sendToWorkflowLocked (rm_workflow msg) (rm_data msg)) (fun _ => bus_ok) e1).
    { apply wp_bind, wp_gets. eapply wp_mono; [by apply sendToClients_sent|]. by intros ?? []. }
    exact Hs.
Qed.

Lemma push_broadcast_ok global m e : bus_ok e -> bus_ok (push_broadcast global m e).
Proof. intros [? ? ? ?]. destruct global; by split. Qed.

Lemma run_op_ok op e : bus_ok e -> wp (run_op op) (fun _ => bus_ok) e.
Proof.
  intros Hok. destruct (consumers_ok e Hok) as [Hg Hw]. destruct op as [wf|c|data wf|waits data wf| | |c]; cbn [run_op].
  - apply wp_bind. eapply wp_mono; [by apply ServeWS_ok|]. intros c e' He'. by apply wp_ret.
  - apply wp_modify. by apply drop_client_ok.
  - destruct data as [data|]; [|by apply wp_ret]. apply wp_modify. case_match; [|done].
    by apply push_broadcast_ok.
  - unfold BroadcastCtxToWorkflow, broadcastToChannelCtx. destruct data as [data|]; [|by apply wp_ret].
    apply wp_bind, wp_gets. case_match; [by apply wp_modify, push_broadcast_ok|].
    destruct waits; [|by apply wp_ret]. apply wp_bind.
    destruct (to_global wf); (eapply wp_mono; [eassumption|]); intros [] e' He';
      by apply wp_modify, push_broadcast_ok.
  - exact Hg.
  - exact Hw.
  - apply wp_bind. unfold wp at 1, writePump. destruct (conns e !! c) as [cl|] eqn:Hcl; [|by apply wp_ret].
    destruct (cl_send cl); apply wp_ret; [done|]. by eapply update_conn_ok.
Qed.

(** ** Properties *)

(** C39: over any sequence of connections, disconnections, broadcasts and
    deliveries, each taken as a whole, the bus never sends on a closed
    channel, every registered client is open, and the index of workflows holds
    exactly the registered clients of each and no workflow without clients. *)
Theorem bus_stays_indexed (broadcastBuffer clientBuffer : Z) (ops : list bus_op) :
  wp (for_each run_op ops) (fun _ => bus_ok) (NewWSEvent broadcastBuffer clientBuffer).
Proof.
  apply wp_for_each; [intros op e _; apply run_op_ok|apply new_bus_ok].
Qed.

(** C23: a message for a workflow reaches every client subscribed to it whose
    queue has room, once and after what was there, closes and forgets those
    whose queue is full, and touches nobody else. *)
Theorem sendToWorkflow_exact (workflow data : string) (e : WSEvent) :
  bus_ok e -> workflow <> "" ->
  wp (sendToWorkflowLocked workflow data) (fun _ e' => forall c cl, conns e !! c = Some cl ->
    let subscriber := c ∈ clients e /\ cl_workflow cl = workflow in
    (subscriber -> roomy cl -> conns e' !! c = Some (cl <| cl_send ::= fun q => q ++ [data] |>) /\
       c ∈ clients e') /\
    (subscriber -> ~ roomy cl -> conns e' !! c = Some (cl <| cl_closed := true |>) /\
       c ∉ clients e') /\
    (~ subscriber -> conns e' !! c = Some cl /\ (c ∈ clients e' <-> c ∈ clients e))) e.
Proof.
  intros Hok Hwf. destruct (workflow_clients_ok workflow e Hok) as [Hnd Hin].
  apply wp_bind, wp_gets. eapply wp_mono; [by apply sendToClients_sent|].
  intros [] e' [_ Hcs Hcl] c cl Hc subscriber.
  assert (Hsub : c ∈ workflow_clients workflow e <-> subscriber).
  { unfold workflow_clients. rewrite elem_of_elements.
    pose proof (bus_index _ Hok c workflow cl Hc) as Hi. unfold subscribed in Hi. rewrite Hi.
    subst subscriber. naive_solver. }
  rewrite Hcs, Hcl, Hc. unfold given. split_and!; intros Hs.
  - intros Hr. rewrite decide_True by (by apply Hsub). cbn. rewrite decide_True by done.
    split; [done|]. split; [apply Hs|]. by exists cl.
  - intros Hr. rewrite decide_True by (by apply Hsub). cbn. rewrite decide_False by done.
    split; [done|]. intros [_ Hx]. destruct (Hx (proj2 Hsub Hs)) as (cl' & Hcl' & Hr'). congruence.
  - rewrite decide_False by (by rewrite Hsub). cbn. split; [done|]. split; [by intros []|].
    intros Hcc. split; [done|]. intros Hx%Hsub. done.
Qed.

Lemma sendToWorkflow_exact_witness :
  wp (ServeWS "w";; ServeWS "v") (fun _ e => bus_ok e /\
    wp (sendToWorkflowLocked "w" "hello") (fun _ e' => forall c cl, conns e !! c = Some cl ->
      ~ (c ∈ clients e /\ cl_workflow cl = "w") -> conns e' !! c = Some cl) e) (NewWSEvent 0 1).
Proof.
  apply wp_bind. eapply wp_mono; [apply ServeWS_ok, new_bus_ok|]. intros c1 e1 H1.
  eapply wp_mono; [by apply ServeWS_ok|]. intros c2 e2 H2. split; [done|].
  eapply wp_mono; [by apply (sendToWorkflow_exact "w" "hello" e2)|].
  intros u e' H c cl Hc Hn. by apply (H c cl Hc).
Defined.

(** The copy of the client list and the sends are not one step: when a
    client of the copy disconnects after the sends to the clients before it and
    before its own, the send is on a closed channel and the process panics. *)
Theorem send_races_unregister (data : string) (e : WSEvent) (before : list nat) (c : nat) (after : list nat) :
  bus_ok e -> all_clients e = before ++ c :: after ->
  (for_each (sendToClient data) before;; unregister c;; sendToClient data c) e = Panic.
Proof.
  intros Hok Hcs. destruct (all_clients_ok e) as [Hnd Hin]. rewrite Hcs in Hnd, Hin.
  apply NoDup_app in Hnd as (Hnb & Hd & _).
  assert (Hb : forall x, x ∈ before -> x ∈ clients e) by (intros x Hx; apply Hin; set_solver).
  pose proof (sendToClients_sent data before e Hok Hnb Hb) as Hs. unfold wp in Hs.
  unfold mbind, M_bind. destruct (for_each (sendToClient data) before e) as [[[] e1]| |]; [|done..].
  destruct Hs as [Hok1 _ Hcl].
  assert (Hc : c ∈ clients e1) by (apply Hcl; split; [apply Hin; set_solver|intros Hx; set_solver]).
  destruct (bus_open _ Hok1 c Hc) as (cl & Hlk & _).
  unfold unregister, modify, sendToClient, mbind, M_bind, try_send.
  rewrite drop_client_lookup, decide_True by done. by rewrite Hlk.
Qed.

Lemma send_races_unregister_witness :
  wp (ServeWS "") (fun _ e => all_clients e = [0%nat] /\
    (for_each (sendToClient "x") [];; unregister 0;; sendToClient "x" 0) e = Panic) (NewWSEvent 0 0).
Proof.
  assert (Hok : wp (ServeWS "") (fun _ => bus_ok) (NewWSEvent 0 0)) by apply ServeWS_ok, new_bus_ok.
  unfold wp in *. destruct (ServeWS "" (NewWSEvent 0 0)) as [[c e]| |] eqn:He; [|done..].
  assert (Hcs : all_clients e = [0%nat]) by (vm_compute in He; injection He as _ <-; reflexivity).
  split; [exact Hcs|]. exact (send_races_unregister "x" e [] 0 [] Hok Hcs).
Defined.
