(* ===== verification/Api.v ===== *)
(** * The scheduler's facade, the plugin registry and the HTTP API
    (infra/engine/scheduler/scheduler.go, infra/plugin/registry.go,
    transport/http/handlers)

    What a request does: the definitions a request or a JSON document makes,
    the calls on the scheduler, the answer.  Binding and decoding requests is
    gin's part, decoding JSON documents encoding/json's: a handler takes what
    came out of it, [None] when that failed.  A panic of a handler is turned
    into a 500 by gin, and is [Panic] here. *)
From Stdlib Require Import ZArith Lia.
From stdpp Require Import base gmap sets strings list.
From S2P Require Import Prelude GoVal Model Validate Payload Dispatcher Listeners.
From S2P Require Import EventTriggers Circuit World Copy Manager Workers.
Set Warnings "-register-all,-clear-no-such-hyp,-level-tolerance".
Local Open Scope Z_scope.
Local Open Scope list_scope.

(** ** The facade *)

(** A definition is registered with the workflow manager, which may refuse it,
    and with the event triggers, which do not. *)
Definition Scheduler_RegisterWorkflow (wf : Workflow) : M World unit :=
  RegisterWorkflow wf;;
  modify (fun w => w <| World.eventTriggerMgr ::= RegisterEventTrigger wf |>).

Inductive api_error : Type :=
| InvalidJSON | MissingFields | InvalidUUID | InvalidQuery
| NoWebhook | DoesNotExist | Refused (e : wm_error).

Definition refused {A : Type} (r : res wm_error A) : res api_error A :=
  match r with Ok a => Ok a | Err e => Err (Refused e) end.

(** [TaskGroups[0][0].Params = payload]: an empty first group is a panic. *)
Definition inject_params (payload : vmap) (groups : list (list TaskNode)) : M World (list (list TaskNode)) :=
  match groups with
  | (node :: nodes) :: gs => mret (((node <| Params := Some payload |>) :: nodes) :: gs)
  | _ => panic
  end.

(** [payload] is empty when the request has none. *)
Definition TriggerWebhook (workflowUUID : string) (payload : vmap) : M World (res api_error unit) :=
  etm ← gets World.eventTriggerMgr;
  match FireWebhook etm workflowUUID with
  | None => mret (Err NoWebhook)
  | Some _ =>
      wf ← GetRegisteredWorkflow workflowUUID;
      match wf with
      | None => mret (Err (Refused NotRegistered))
      | Some wf =>
          match DeepCopy wf with
          | None => mret (Err (Refused CopyFailed))
          | Some wfCopy =>
              wfCopy ← (if decide (payload <> ∅ /\ TaskGroups wfCopy <> []) then
                          gs ← inject_params payload (TaskGroups wfCopy);
                          mret (wfCopy <| TaskGroups := gs |>)
                        else mret wfCopy);
              r ← SubmitWorkflow wfCopy;
              mret (refused r)
          end
      end
  end.

Definition NewWorkflowUUID `{Naming} : M World string := n ← fresh_id; mret (uuid_v4 n).

(** ** The plugin registry: workflows from JSON documents *)

Inductive plugin_error : Type := BadDocument | NoName | NoTaskGroups | NoFile.

Definition WorkflowFromJSON (document : option Workflow) : M World (res plugin_error unit) :=
  match document with
  | None => mret (Err BadDocument)
  | Some wf =>
      if decide (wf_Name wf = "") then mret (Err NoName)
      else if decide (TaskGroups wf = []) then mret (Err NoTaskGroups)
      else Scheduler_RegisterWorkflow wf;; mret (Ok tt)
  end.

(** [file]: the document of a file, [None] when it cannot be read. *)
Definition WorkflowFromJSONFile (file : option (option Workflow)) : M World (res plugin_error unit) :=
  match file with
  | None => mret (Err NoFile)
  | Some document => WorkflowFromJSON document
  end.

(** What a document of the documented form decodes to: it has no UUID. *)
Definition document (name trigger cronExpr : string) (groups : list (list TaskNode))
    (timeoutSec taskTimeoutSec maxRetries baseBackoff : Z) : Workflow :=
  MkWorkflow "" name groups trigger cronExpr None timeoutSec taskTimeoutSec maxRetries baseBackoff 0 None.

(** ** Answers *)

Definition StatusOK : Z := 200.
Definition StatusCreated : Z := 201.
Definition StatusBadRequest : Z := 400.
Definition StatusNotFound : Z := 404.

Record Response (A : Type) := MkResponse { http_status : Z; answer : res api_error A }.
Arguments MkResponse {A}.
Arguments http_status {A}.
Arguments answer {A}.

Definition good {A : Type} (status : Z) (a : A) : Response A := MkResponse status (Ok a).
Definition bad {A : Type} (e : api_error) : Response A := MkResponse StatusBadRequest (Err e).

(** The common end of the handlers: an error is a bad request. *)
Definition respond {A B : Type} (status : Z) (a : A) (r : res api_error B) : Response A :=
  match r with Ok _ => good status a | Err e => bad e end.

(** The path's UUID, [None] when it is missing. *)
Definition with_uuid {A : Type} (uuid : option string) (k : string -> M World (Response A))
  : M World (Response A) :=
  match uuid with None => mret (bad InvalidUUID) | Some u => k u end.

(** ** Workflows *)

(** The body of a request: no event trigger and no priority. *)
Record CreateWorkflowRequest := MkRequest {
  rq_Name : string; rq_TaskGroups : list (list TaskNode); rq_Trigger : string; rq_CronExpr : string;
  rq_TimeoutSec : option Z; rq_TaskTimeoutSec : option Z; rq_MaxRetries : option Z;
  rq_BaseBackoff : option Z; rq_ErrorPolicy : option ErrorPolicy }.

Definition requested (req : CreateWorkflowRequest) (uuid : string) : Workflow :=
  let cron := bool_decide (rq_Trigger req = TriggerCron) in
  MkWorkflow uuid (rq_Name req) (rq_TaskGroups req)
    (if cron then TriggerCron else TriggerManual) (if cron then rq_CronExpr req else "") None
    (default 0 (rq_TimeoutSec req)) (default 0 (rq_TaskTimeoutSec req))
    (default 0 (rq_MaxRetries req)) (default 0 (rq_BaseBackoff req)) 0 (rq_ErrorPolicy req).

Definition CreateWorkflow `{Naming} `{CronLib} (req : option CreateWorkflowRequest)
  : M World (Response (string * string)) :=
  match req with
  | None => mret (bad InvalidJSON)
  | Some req =>
      if decide (rq_Name req = "" \/ rq_TaskGroups req = []) then mret (bad MissingFields)
      else
        uuid ← NewWorkflowUUID;
        let wf := requested req uuid in
        r ← (if decide (Trigger wf = TriggerCron) then
               saved ← SaveWorkflow wf;
               match saved with
               | Err e => mret (Err e)
               | Ok _ => ScheduleCronWorkflow wf
               end
             else SubmitWorkflow wf);
        mret (respond StatusCreated (UUID wf, wf_Name wf) (refused r))
  end.

(** [s.Workflow.UUID]: a state without a workflow is a panic. *)
Definition state_uuid (st : WorkflowState) : M World string :=
  match ws_Workflow st with Some wf => mret (UUID wf) | None => panic end.

Fixpoint seen_uuids (l : list WorkflowState) : M World (gset string) :=
  match l with
  | [] => mret ∅
  | st :: l' => u ← state_uuid st; s ← seen_uuids l'; mret ({[u]} ∪ s)
  end.

Fixpoint unseen (seen : gset string) (l : list WorkflowState) : M World (list WorkflowState) :=
  match l with
  | [] => mret []
  | st :: l' =>
      u ← state_uuid st; rest ← unseen seen l';
      mret (if decide (u ∈ seen) then rest else st :: rest)
  end.

Definition ListWorkflows : M World (Response (list WorkflowState)) :=
  running ← ListWorkflowStates;
  pending ← ListWorkflowDefs;
  seen ← seen_uuids running;
  rest ← unseen seen pending;
  mret (good StatusOK (running ++ rest)).

(** A registered definition as a state, with its UUID. *)
Definition pending_state (wf : Workflow) : WorkflowState :=
  registered_state wf <| WorkflowUUID := UUID wf |>.

Definition GetWorkflow (uuid : option string) : M World (Response WorkflowState) :=
  with_uuid uuid (fun uuid =>
    state ← wm_GetWorkflowState uuid;
    state ← match state with
            | Some st => mret (Some st)
            | None => wf ← GetRegisteredWorkflow uuid; mret (pending_state <$> wf)
            end;
    state ← match state with
            | Some st => mret (Some st)
            | None => GetHistory uuid
            end;
    mret match state with
         | Some st => good StatusOK st
         | None => MkResponse StatusNotFound (Err DoesNotExist)
         end).

Section handlers.
Context `{Naming} `{Coordinator}.

Definition Api_CancelWorkflow (uuid : option string) : M World (Response string) :=
  with_uuid uuid (fun uuid =>
    r ← CancelWorkflow uuid; mret (respond StatusOK "已取消" (refused r))).

Definition Api_ApproveWorkflow (uuid : option string) : M World (Response string) :=
  with_uuid uuid (fun uuid =>
    r ← ApproveWorkflow uuid; mret (respond StatusOK "已审批通过" (refused r))).

(** The reason is empty when the body does not decode. *)
Definition Api_RejectWorkflow (uuid : option string) (reason : string) : M World (Response string) :=
  with_uuid uuid (fun uuid =>
    r ← RejectWorkflow uuid reason; mret (respond StatusOK "已驳回" (refused r))).

End handlers.

Definition Api_RetryWorkflow (uuid : option string) : M World (Response string) :=
  with_uuid uuid (fun uuid =>
    r ← RetryWorkflow uuid; mret (respond StatusCreated uuid (refused r))).

Definition Api_RunWorkflow (uuid : option string) : M World (Response string) :=
  with_uuid uuid (fun uuid =>
    r ← RunWorkflow uuid; mret (respond StatusCreated uuid (refused r))).

(** ** Webhooks *)

Definition Api_TriggerWebhook (uuid : option string) (payload : vmap) : M World (Response string) :=
  with_uuid uuid (fun uuid =>
    r ← TriggerWebhook uuid payload; mret (respond StatusCreated uuid r)).

Definition Api_ListWebhookWorkflows : M World (Response (list EventListener)) :=
  l ← gets (fun w => ListWebhookWorkflows (World.eventTriggerMgr w)); mret (good StatusOK l).

(** ** The history *)

Definition Api_ListHistory : M World (Response (list WorkflowState)) :=
  l ← ListHistory; mret (good StatusOK l).

Definition Api_GetHistory (uuid : option string) : M World (Response WorkflowState) :=
  with_uuid uuid (fun uuid =>
    st ← GetHistory uuid;
    mret match st with
         | Some st => good StatusOK st
         | None => MkResponse StatusNotFound (Err DoesNotExist)
         end).

Definition maxPageSize : Z := 100.

Record history_page := MkPage {
  hp_List : list WorkflowState; hp_Total : Z; hp_Page : Z; hp_PageSize : Z }.

(** The query's page and page size, 0 for those it does not give; the binding
    refuses negative ones, and sizes over 100. *)
Definition Api_ListHistoryPaged (query : option (Z * Z)) : M World (Response history_page) :=
  match query with
  | None => mret (bad InvalidQuery)
  | Some (page, pageSize) =>
      let page := if page =? 0 then 1 else page in
      let pageSize := if pageSize =? 0 then 10 else pageSize in
      let pageSize := if maxPageSize <? pageSize then maxPageSize else pageSize in
      r ← ListHistoryPaged page pageSize;
      mret (good StatusOK (MkPage r.1 r.2 page pageSize))
  end.

(** ** The dashboard *)

Record DashboardStats := MkStats {
  RunningCount : Z; PausedCount : Z; ds_CompletedCount : Z; ds_FailedCount : Z;
  ds_AliveWorkers : Z; ds_TotalWorkers : Z;
  ds_Running : list WorkflowState; ds_Workers : list WorkerState }.

Definition count_status (status : WorkflowStatus) (l : list WorkflowState) : Z :=
  Z.of_nat (length (filter (fun st => Status st = status) l)).

(** [workers]: what [ListWorkers] of the worker manager returns. *)
Definition DashboardAPI (workers : list WorkerState) : M World (Response DashboardStats) :=
  workflows ← ListWorkflowStates;
  completed ← gets completedCount;
  failed ← gets failedCount;
  mret (good StatusOK (MkStats
    (count_status WorkflowStatusRunning workflows) (count_status WorkflowStatusPaused workflows)
    completed failed
    (Z.of_nat (length (filter (fun w => wks_Status w = WorkerStatusAlive) workers)))
    (Z.of_nat (length workers)) workflows workers)).

(** ** Lemmas *)

(** Where the handlers find their workflows: a running entry has the
    definition it runs, under its UUID. *)
Definition entries_ok (w : World) : Prop :=
  forall u e, runningEntries w !! u = Some e ->
    exists wf, ws_Workflow (we_state e) = Some wf /\ UUID wf = u.

Definition uuid_of (st : WorkflowState) : string :=
  match ws_Workflow st with Some wf => UUID wf | None => "" end.

Lemma uuid_of_Some st wf : ws_Workflow st = Some wf -> uuid_of st = UUID wf.
Proof. unfold uuid_of. by intros ->. Qed.

Lemma entries_ok_submitted wf w : entries_ok w -> entries_ok (submitted wf w).
Proof.
  intros Hok u e. unfold submitted. cbn. intros [[<- <-]|[_ He]]%lookup_insert_Some; [|by apply Hok].
  by exists wf.
Qed.

Lemma wp_fresh_uuid `{Naming} (Q : string -> World -> Prop) w :
  Q (uuid_v4 (counter w)) (w <| counter ::= S |>) -> wp NewWorkflowUUID Q w.
Proof. done. Qed.

(** Parameters are not validated. *)
Lemma inject_accepted payload wf node nodes gs :
  TaskGroups wf = (node :: nodes) :: gs -> accepted wf ->
  accepted (wf <| TaskGroups := ((node <| Params := Some payload |>) :: nodes) :: gs |>).
Proof.
  intros Eg (Hn & _ & Ht). split_and!; [exact Hn|done|]. rewrite <- Ht. destruct wf as [? ? groups].
  cbn in Eg. subst groups. reflexivity.
Qed.

Lemma wp_state_uuid st wf (Q : string -> World -> Prop) w :
  ws_Workflow st = Some wf -> Q (UUID wf) w -> wp (state_uuid st) Q w.
Proof. intros Hst HQ. unfold state_uuid. by rewrite Hst. Qed.

(** The values of a map from UUIDs, as states of the workflows they have. *)
Lemma uuids_of_map {A : Type} (f : A -> WorkflowState) (m : gmap string A) :
  (forall u a, m !! u = Some a -> exists wf, ws_Workflow (f a) = Some wf /\ UUID wf = u) ->
  (uuid_of <$> (f <$> (map_to_list m).*2) = (map_to_list m).*1) /\
  Forall (fun st => is_Some (ws_Workflow st)) (f <$> (map_to_list m).*2).
Proof.
  intros Hm. assert (Hl : forall u a, (u, a) ∈ map_to_list m -> m !! u = Some a)
    by (intros u a; apply elem_of_map_to_list). revert Hl. generalize (map_to_list m) as l.
  induction l as [|[u a] l IH]; intros Hl; [by split; [|constructor]|]. cbn.
  destruct IH as [IH1 IH2]; [intros; apply Hl; by right|].
  destruct (Hm u a) as (wf & Hwf & Hu); [apply Hl; by left|].
  split; [|constructor; [by rewrite Hwf|exact IH2]].
  f_equal; [by rewrite (uuid_of_Some _ _ Hwf)|exact IH1].
Qed.

Lemma wp_seen_uuids l (Q : gset string -> World -> Prop) w :
  Forall (fun st => is_Some (ws_Workflow st)) l ->
  Q (list_to_set (uuid_of <$> l)) w -> wp (seen_uuids l) Q w.
Proof.
  intros Hl. revert Q. induction Hl as [|st l [wf Hst] _ IH]; intros Q HQ; [done|].
  cbn [seen_uuids]. apply wp_bind, (wp_state_uuid _ wf); [done|]. apply wp_bind, IH, wp_ret.
  cbn in HQ. by rewrite (uuid_of_Some _ _ Hst) in HQ.
Qed.

Lemma wp_unseen seen l (Q : list WorkflowState -> World -> Prop) w :
  Forall (fun st => is_Some (ws_Workflow st)) l ->
  Q (filter (fun st => uuid_of st ∉ seen) l) w -> wp (unseen seen l) Q w.
Proof.
  intros Hl. revert Q. induction Hl as [|st l [wf Hst] _ IH]; intros Q HQ; [done|].
  cbn [unseen]. apply wp_bind, (wp_state_uuid _ wf); [done|]. apply wp_bind, IH, wp_ret.
  rewrite filter_cons in HQ. rewrite <- (uuid_of_Some _ _ Hst). repeat case_decide; done.
Qed.

Lemma filter_uuids (s : gset string) (l : list WorkflowState) :
  uuid_of <$> filter (fun st => uuid_of st ∉ s) l = filter (.∉ s) (uuid_of <$> l).
Proof.
  induction l as [|st l IH]; [done|]. rewrite fmap_cons, !filter_cons.
  case_decide; [by rewrite fmap_cons, IH|done].
Qed.

Lemma elem_of_map_values {A B : Type} (f : A -> B) (m : gmap string A) y :
  y ∈ f <$> (map_to_list m).*2 <-> exists u a, m !! u = Some a /\ y = f a.
Proof.
  rewrite <- list_fmap_compose, list_elem_of_fmap. split.
  - intros ([u a] & -> & Hu%elem_of_map_to_list). by exists u, a.
  - intros (u & a & Hu & ->). exists (u, a). split; [done|]. by apply elem_of_map_to_list.
Qed.

Lemma GetWorkflow_unknown uuid w :
  wm_locked w = false -> historyStore w = None -> runningEntries w !! uuid = None ->
  registeredWorkflows w !! uuid = None -> workflowHistoryByUUID w !! uuid = None ->
  wp (GetWorkflow (Some uuid)) (fun found _ => http_status found = StatusNotFound) w.
Proof.
  intros Hl Hs He Hr Hh. unfold GetWorkflow, with_uuid, wm_GetWorkflowState, GetRegisteredWorkflow, GetHistory,
    latest_id, loadHistoryFromMySQL.
  apply wp_bind, wp_bind, wp_LockEntry; [done|]. rewrite He. apply wp_ret, wp_bind, wp_bind, wp_bind, wp_lock_wm; [done|].
  apply wp_gets. rewrite Hr. apply wp_ret, wp_bind, wp_bind, wp_lock_wm; [done|]. apply wp_bind, wp_gets.
  rewrite Hh. apply wp_bind, wp_gets. rewrite Hs. by apply wp_ret, wp_ret.
Qed.

(** ** Properties *)

(** The list of workflows has every UUID once: a running workflow with its
    state, any other registered definition as pending, and nothing else. *)
Theorem ListWorkflows_exact (w : World) :
  wm_locked w = false -> entries_ok w -> registry_ok w ->
  wp ListWorkflows (fun resp w' => w' = w /\ http_status resp = StatusOK /\
    exists l, answer resp = Ok l /\ NoDup (uuid_of <$> l) /\
      forall st, st ∈ l <->
        running_state (uuid_of st) w = Some st \/
        (runningEntries w !! uuid_of st = None /\
         exists wf, registeredWorkflows w !! uuid_of st = Some wf /\ st = registered_state wf)) w.
Proof.
  intros Hl He Hr. unfold ListWorkflows. apply wp_bind, wp_bind, wp_lock_wm, wp_gets; [done|].
  apply wp_bind, wp_bind, wp_lock_wm, wp_gets; [done|].
  destruct (uuids_of_map we_state (runningEntries w)) as [Eu Hu]; [exact He|].
  destruct (uuids_of_map registered_state (registeredWorkflows w)) as [Ep Hp].
  { intros u wf Hwf. exists wf. split; [done|]. apply (Hr _ _ Hwf). }
  apply wp_bind, wp_seen_uuids, wp_bind, wp_unseen, wp_ret; [done..|]. split; [done|]. split; [done|].
  eexists. split; [reflexivity|]. split.
  - rewrite fmap_app, filter_uuids, Eu, Ep. apply NoDup_app. split_and!.
    + apply NoDup_fst_map_to_list.
    + intros u Hin [Hn _]%list_elem_of_filter. by rewrite elem_of_list_to_set in Hn.
    + apply NoDup_filter, NoDup_fst_map_to_list.
  - intros st. rewrite elem_of_app, list_elem_of_filter, elem_of_list_to_set, Eu, !elem_of_map_values.
    assert (Hin : uuid_of st ∉ (map_to_list (runningEntries w)).*1 <-> runningEntries w !! uuid_of st = None).
    { rewrite list_elem_of_fmap, eq_None_not_Some. apply not_iff_compat. split.
      - intros ([u e] & -> & Hin%elem_of_map_to_list). by exists e.
      - intros [e Hin]. exists (uuid_of st, e). split; [done|]. by apply elem_of_map_to_list. }
    rewrite Hin. unfold running_state. split.
    + intros [(u & e & Hue & ->)|[Hn (u & wf & Huw & ->)]].
      * left. destruct (He _ _ Hue) as (wf & Hwf & <-). by rewrite (uuid_of_Some _ _ Hwf), Hue.
      * right. split; [done|]. exists wf. split; [|done]. change (uuid_of _) with (UUID wf).
        by destruct (Hr _ _ Huw) as (-> & _).
    + intros [Hst|(Hn & wf & Huw & ->)].
      * apply fmap_Some in Hst as (e & Hue & ->). left. by exists (uuid_of (we_state e)), e.
      * right. split; [done|]. by exists (uuid_of (registered_state wf)), wf.
Qed.

(** A request for an event-triggered workflow, which the documentation has wait
    for its webhook: the workflow runs at once, as one that is started by hand,
    it is not registered, and its webhook does not exist. *)
Theorem event_request_runs_at_once `{Naming} `{CronLib} (req : CreateWorkflowRequest)
    (payload : vmap) (w : World) :
  wm_locked w = false -> rq_Trigger req = TriggerEvent ->
  accepted (requested req (uuid_v4 (counter w))) ->
  FireWebhook (World.eventTriggerMgr w) (uuid_v4 (counter w)) = None ->
  wp (resp ← CreateWorkflow (Some req);
      hook ← Api_TriggerWebhook (Some (uuid_v4 (counter w))) payload; mret (resp, hook))
    (fun '(resp, hook) w' =>
      let uuid := uuid_v4 (counter w) in
      resp = good StatusCreated (uuid, rq_Name req) /\
      (exists st wf, running_state uuid w' = Some st /\ Status st = WorkflowStatusRunning /\
         ws_Workflow st = Some wf /\ Trigger wf = TriggerManual) /\
      GExecuteWorkflow RootContext uuid [] 0 ∈ spawned w' /\
      registeredWorkflows w' = registeredWorkflows w /\
      hook = bad NoWebhook) w.
Proof.
  intros Hl Ht Hacc Hno. destruct Hacc as (Hn & Hg & Hv) eqn:Eacc. clear Eacc.
  assert (Hname : rq_Name req <> "").
  { intros E. unfold requested in Hn. cbn in Hn. by rewrite E in Hn. }
  assert (Htr : Trigger (requested req (uuid_v4 (counter w))) = TriggerManual)
    by (unfold requested; cbn; by rewrite Ht).
  apply wp_bind. unfold CreateWorkflow. rewrite decide_False by tauto.
  apply wp_bind, wp_fresh_uuid, wp_bind. set (w1 := w <| counter ::= S |>).
  rewrite decide_False by (by rewrite Htr). unfold wp at 1. rewrite submit_accepted by done.
  apply wp_ret, wp_bind. unfold Api_TriggerWebhook, with_uuid. apply wp_bind. unfold TriggerWebhook.
  apply wp_bind, wp_gets. change (World.eventTriggerMgr _) with (World.eventTriggerMgr w). rewrite Hno.
  apply wp_ret, wp_ret, wp_ret. split; [done|]. split_and!; [|..|done|done].
  - exists (new_state (requested req (uuid_v4 (counter w))) (now w)), (requested req (uuid_v4 (counter w))).
    split_and!; [|done|done|exact Htr].
    unfold running_state, submitted. cbn. by rewrite lookup_insert_eq.
  - unfold submitted, started. cbn. rewrite elem_of_app. right. rewrite !elem_of_app. right. right. set_solver.
Qed.

(** A webhook starts a run of a copy of the registered definition with the
    request's payload as the parameters of its first task, and leaves the
    definition alone.  A run of the workflow that is going on is replaced among
    the running entries: it goes to no history and is not cancelled. *)
Theorem TriggerWebhook_starts (uuid : string) (payload : vmap) (wf c : Workflow) (node : TaskNode)
    (nodes : list TaskNode) (gs : list (list TaskNode)) (w : World) :
  wm_locked w = false -> registry_ok w ->
  is_Some (FireWebhook (World.eventTriggerMgr w) uuid) -> registeredWorkflows w !! uuid = Some wf ->
  DeepCopy wf = Some c -> TaskGroups c = (node :: nodes) :: gs -> payload <> ∅ ->
  wp (TriggerWebhook uuid payload) (fun r w' => r = Ok tt /\
    let run := c <| TaskGroups := ((node <| Params := Some payload |>) :: nodes) :: gs |> in
    runningEntries w' = <[uuid := MkEntry (new_state run (now w)) (nextCtx w) false]> (runningEntries w) /\
    spawned w' = spawned w ++ started (nextCtx w) run w /\
    registeredWorkflows w' = registeredWorkflows w /\
    workflowHistory w' = workflowHistory w /\ cancelled w' = cancelled w) w.
Proof.
  intros Hl Hr [l Hf] Hwf Hc Hgs Hp. destruct (Hr _ _ Hwf) as (Hu & Hn & Ht).
  assert (Hacc : accepted c).
  { apply (copy_accepted wf); [done|]. split_and!; [done| |done]. intros E.
    apply (copy_fields _ _ Hc) in E. by rewrite Hgs in E. }
  apply (inject_accepted payload) with (1 := Hgs) in Hacc.
  set (run := c <| TaskGroups := ((node <| Params := Some payload |>) :: nodes) :: gs |>) in *.
  unfold TriggerWebhook. apply wp_bind, wp_gets. rewrite Hf.
  apply wp_bind. unfold GetRegisteredWorkflow. apply wp_bind, wp_lock_wm, wp_gets; [done|].
  rewrite Hwf, Hc. apply wp_bind. rewrite decide_True by (by rewrite Hgs). rewrite Hgs.
  apply wp_bind, wp_ret, wp_ret. fold run. apply wp_bind. unfold wp at 1.
  rewrite submit_accepted by done. apply wp_ret. split; [done|].
  assert (Eu : UUID run = uuid) by (unfold run; cbn; rewrite (proj1 (copy_fields _ _ Hc)); exact Hu).
  clearbody run. rewrite <- Eu. unfold submitted. cbn. done.
Qed.

(** A definition whose first group is empty, which registration accepts, makes
    its webhook panic on any payload. *)
Theorem webhook_of_empty_group_panics (uuid : string) (payload : vmap) (wf c : Workflow)
    (gs : list (list TaskNode)) (w : World) :
  wm_locked w = false -> is_Some (FireWebhook (World.eventTriggerMgr w) uuid) ->
  registeredWorkflows w !! uuid = Some wf -> DeepCopy wf = Some c -> TaskGroups c = [] :: gs ->
  payload <> ∅ -> TriggerWebhook uuid payload w = Panic.
Proof.
  intros Hl [l Hf] Hwf Hc Hgs Hp. unfold TriggerWebhook, GetRegisteredWorkflow, lock_wm, gets, mbind, M_bind.
  cbn beta iota. rewrite Hf, Hl, Hwf, Hc, decide_True, Hgs by (by rewrite Hgs). done.
Qed.

(** A cron workflow asked for through the API is saved and scheduled without
    validation: under a name the engine refuses the request still succeeds, no
    firing ever starts a run, and the workflow is not found by its UUID. *)
Theorem cron_request_never_runs `{Naming} `{CronLib} (req : CreateWorkflowRequest)
    (e : validation_error) (w : World) :
  let uuid := uuid_v4 (counter w) in
  wm_locked w = false -> historyStore w = None ->
  rq_Trigger req = TriggerCron -> rq_Name req <> "" -> rq_TaskGroups req <> [] ->
  rq_CronExpr req <> "" -> cron_accepts (rq_CronExpr req) = true ->
  validateWorkflowName (rq_Name req) = Err e ->
  runningEntries w !! uuid = None -> registeredWorkflows w !! uuid = None ->
  workflowHistoryByUUID w !! uuid = None ->
  wp (CreateWorkflow (Some req)) (fun resp w' =>
    resp = good StatusCreated (uuid, rq_Name req) /\
    cronJobs w' = cronJobs w ++ [(rq_CronExpr req, requested req uuid)] /\
    (forall w'', cron_fire (requested req uuid) w'' = Ret (tt, w'')) /\
    wp (GetWorkflow (Some uuid)) (fun found _ => http_status found = StatusNotFound) w') w.
Proof.
  intros uuid Hl Hs Ht Hn Hg Hx Hc Hv He Hr Hh.
  assert (Etr : Trigger (requested req uuid) = TriggerCron) by (unfold requested; cbn; by rewrite Ht).
  assert (Eex : CronExpr (requested req uuid) = rq_CronExpr req) by (unfold requested; cbn; by rewrite Ht).
  unfold CreateWorkflow. rewrite decide_False by tauto.
  apply wp_bind, wp_fresh_uuid, wp_bind. fold uuid. rewrite decide_True by exact Etr.
  match goal with |- wp _ _ ?x => assert (H1 : wm_locked x = false /\ historyStore x = None /\
    runningEntries x !! uuid = None /\ registeredWorkflows x !! uuid = None /\
    workflowHistoryByUUID x !! uuid = None /\ cronJobs x = cronJobs w) by done;
    revert H1; generalize x end.
  clear Hl Hs He Hr Hh. intros w1 (Hl & Hs & He & Hr & Hh & <-).
  apply wp_bind. unfold SaveWorkflow. apply wp_bind, wp_gets. rewrite Hs. apply wp_ret.
  unfold ScheduleCronWorkflow. rewrite Etr, Eex, Hc, bool_decide_eq_false_2, bool_decide_eq_false_2 by tauto.
  apply wp_bind, wp_modify, wp_ret, wp_ret. split; [done|]. split; [done|]. split.
  - intros w''. unfold cron_fire. destruct (DeepCopy (requested req uuid)) as [c|] eqn:Ec; [|done].
    destruct (submit_refused c w'') as [e' He'].
    { intros (Hn' & _). destruct (copy_fields _ _ Ec) as (_ & En & _). rewrite En in Hn'.
      change (wf_Name (requested req uuid)) with (rq_Name req) in Hn'. by rewrite Hv in Hn'. }
    unfold mbind, M_bind. by rewrite He'.
  - by apply GetWorkflow_unknown.
Qed.

(** Workflows from JSON documents of the documented form have no UUID: each is
    registered in the place of the one before, and no request can name it. *)
Theorem json_documents_collide (name1 trigger1 expr1 name2 trigger2 expr2 : string)
    (groups1 groups2 : list (list TaskNode)) (t1 tt1 mr1 bb1 t2 tt2 mr2 bb2 : Z) (w : World) :
  let d1 := document name1 trigger1 expr1 groups1 t1 tt1 mr1 bb1 in
  let d2 := document name2 trigger2 expr2 groups2 t2 tt2 mr2 bb2 in
  wm_locked w = false -> historyStore w = None -> accepted d1 -> accepted d2 ->
  is_Some (DeepCopy d1) -> is_Some (DeepCopy d2) ->
  wp (r1 ← WorkflowFromJSON (Some d1); r2 ← WorkflowFromJSON (Some d2); mret (r1, r2)) (fun '(r1, r2) w' =>
    r1 = Ok tt /\ r2 = Ok tt /\
    registeredWorkflows w' = partial_alter (fun _ => DeepCopy d2) "" (registeredWorkflows w) /\
    (name1 <> name2 -> forall u wf, registeredWorkflows w' !! u = Some wf -> wf_Name wf = name1 ->
       registeredWorkflows w !! u = Some wf)) w.
Proof.
  intros d1 d2 Hl Hs H1 H2 [c1 Hc1] [c2 Hc2].
  assert (Hreg : forall d c w, UUID d = "" -> accepted d -> DeepCopy d = Some c ->
    wm_locked w = false -> historyStore w = None ->
    wp (WorkflowFromJSON (Some d)) (fun r w' => r = Ok tt /\ wm_locked w' = false /\
      historyStore w' = None /\ registeredWorkflows w' = <["" := c]> (registeredWorkflows w)) w).
  { clear. intros d c w Hu (Hn & Hg & Ht) Hc Hl Hs. unfold WorkflowFromJSON.
    rewrite decide_False by (intros E; by rewrite E in Hn). rewrite decide_False by done.
    apply wp_bind. unfold Scheduler_RegisterWorkflow. apply wp_bind. unfold RegisterWorkflow.
    rewrite Hn, Ht. apply wp_bind, wp_lock_wm; [done|]. rewrite Hc, Hu.
    apply wp_bind, wp_modify, wp_bind, wp_gets. unfold upd at 1. cbn [historyStore]. rewrite Hs.
    by apply wp_ret, wp_modify, wp_ret. }
  apply wp_bind. eapply wp_mono; [by apply (Hreg d1 c1)|]. intros r1 w1 (-> & Hl1 & Hs1 & E1).
  apply wp_bind. eapply wp_mono; [by apply (Hreg d2 c2)|]. intros r2 w2 (-> & _ & _ & E2).
  apply wp_ret. split; [done|]. split; [done|]. rewrite E2, E1, insert_insert_eq. split.
  - by rewrite Hc2.
  - intros Hne u wf [[<- <-]|[_ Hwf]]%lookup_insert_Some; [|done].
    destruct (copy_fields _ _ Hc2) as (_ & En & _). rewrite En. intros E. by destruct Hne.
Qed.

(** ** Witnesses *)

Definition ex_lib : CronLib := {| cron_accepts := fun _ => true |}.
Definition ex_uuids : Naming := {|
  uuid_v4 := fun n => "uuid"; rand_hex := fun n => ""; rand_u64 := fun n => None; trace_carrier := fun n => ∅ |}.

(** A workflow that runs, another that is registered. *)
Definition ex_two : World :=
  ex_world <| runningEntries := {["run" := MkEntry (new_state (ex_wf <| UUID := "run" |>) 0) 1 false]} |>
           <| registeredWorkflows := {["demo" := ex_wf]} |>.

Lemma ex_two_ok : entries_ok ex_two /\ registry_ok ex_two.
Proof.
  split.
  - intros u e. change (runningEntries ex_two) with
      ({["run" := MkEntry (new_state (ex_wf <| UUID := "run" |>) 0) 1 false]} : gmap string workflowEntry).
    intros [<- <-]%lookup_singleton_Some. by eexists.
  - intros u wf. change (registeredWorkflows ex_two) with ({["demo" := ex_wf]} : gmap string Workflow).
    intros [<- <-]%lookup_singleton_Some. done.
Qed.

Lemma ListWorkflows_exact_witness :
  wp ListWorkflows (fun resp _ => exists l, answer resp = Ok l /\ registered_state ex_wf ∈ l) ex_two.
Proof.
  destruct ex_two_ok as [He Hr].
  eapply wp_mono; [exact (ListWorkflows_exact ex_two eq_refl He Hr)|].
  intros resp w' (_ & _ & l & Hl & _ & Hin). exists l. split; [exact Hl|]. apply Hin. right.
  split; [reflexivity|]. exists ex_wf. split; reflexivity.
Defined.

Definition ex_event_request : CreateWorkflowRequest :=
  MkRequest "hook" [[named_node "fetch_url"]] TriggerEvent "" None None None None None.

Lemma event_request_runs_at_once_witness :
  wp (resp ← CreateWorkflow (H := ex_uuids) (H0 := ex_lib) (Some ex_event_request);
      hook ← Api_TriggerWebhook (Some "uuid") ∅; mret (resp, hook))
    (fun '(resp, hook) w' => http_status resp = 201 /\ hook = bad NoWebhook) ex_world.
Proof.
  eapply wp_mono.
  - apply (event_request_runs_at_once (H := ex_uuids) (H0 := ex_lib) ex_event_request ∅ ex_world);
      [reflexivity|reflexivity| |reflexivity].
    split; [reflexivity|]. split; [discriminate|reflexivity].
  - intros [resp hook] w' (-> & _ & _ & _ & ->). split; reflexivity.
Defined.

(** A registered webhook. *)
Definition ex_hook : Workflow :=
  ex_wf <| Trigger := TriggerEvent |> <| wf_EventTrigger := Some (MkEventTrigger EventTriggerWebhook "" "") |>.

Definition ex_hooked : World :=
  ex_two <| registeredWorkflows := {["demo" := ex_hook]} |>
         <| World.eventTriggerMgr := RegisterEventTrigger ex_hook newEventTriggerManager |>.

Lemma TriggerWebhook_starts_witness :
  wp (TriggerWebhook "demo" {["url" := VString "x"]}) (fun r w' => r = Ok tt /\
    exists st wf, running_state "demo" w' = Some st /\ ws_Workflow st = Some wf /\
      (Params <$> head (concat (TaskGroups wf))) = Some (Some {["url" := VString "x"]})) ex_hooked.
Proof.
  eapply wp_mono.
  - eapply (TriggerWebhook_starts "demo" {["url" := VString "x"]} ex_hook _ (named_node "a") [] [[named_node "b"]] ex_hooked).
    + reflexivity.
    + intros u wf. change (registeredWorkflows ex_hooked) with ({["demo" := ex_hook]} : gmap string Workflow).
      intros [<- <-]%lookup_singleton_Some. split; [reflexivity|]. split; reflexivity.
    + eexists. reflexivity.
    + reflexivity.
    + reflexivity.
    + reflexivity.
    + discriminate.
  - intros r w' [-> [He _]]. split; [reflexivity|]. eexists _, _. unfold running_state. rewrite He.
    split; [reflexivity|]. split; reflexivity.
Defined.

Lemma webhook_of_empty_group_panics_witness :
  let wf := ex_hook <| TaskGroups := [[]; [named_node "a"]] |> in
  validateWorkflowTasks wf = Ok tt /\
  TriggerWebhook "demo" {["url" := VString "x"]} (ex_hooked <| registeredWorkflows := {["demo" := wf]} |>) = Panic.
Proof.
  split; [reflexivity|].
  eapply (webhook_of_empty_group_panics "demo" {["url" := VString "x"]}
            (ex_hook <| TaskGroups := [[]; [named_node "a"]] |>) _ [[named_node "a"]]
            (ex_hooked <| registeredWorkflows := {["demo" := ex_hook <| TaskGroups := [[]; [named_node "a"]] |>]} |>));
    [reflexivity|by eexists|reflexivity|reflexivity|reflexivity|discriminate].
Defined.

(** The request of docs/usage-examples.md, scenario nine, with six fields in
    the cron expression. *)
Definition ex_cron_request : CreateWorkflowRequest :=
  MkRequest "每日双源聚合"
    [[named_node "fetch_url"; named_node "fetch_url"]; [named_node "write_file" <| DelaySec := 5 |>]]
    TriggerCron "0 0 8 * * *" None None (Some 2) (Some 1) None.

Lemma cron_request_never_runs_witness :
  wp (CreateWorkflow (H := ex_uuids) (H0 := ex_lib) (Some ex_cron_request))
    (fun resp w' => http_status resp = 201 /\ length (cronJobs w') = 1%nat) ex_world.
Proof.
  eapply wp_mono.
  - apply (cron_request_never_runs (H := ex_uuids) (H0 := ex_lib) ex_cron_request NameBadChar ex_world);
      [reflexivity|reflexivity|reflexivity|discriminate|discriminate|discriminate|reflexivity..].
  - intros resp w' (-> & -> & _). split; reflexivity.
Defined.

Lemma json_documents_collide_witness :
  wp (r1 ← WorkflowFromJSON (Some (document "a" TriggerManual "" [[named_node "x"]] 0 0 0 0));
      r2 ← WorkflowFromJSON (Some (document "b" TriggerManual "" [[named_node "y"]] 0 0 0 0));
      mret (r1, r2))
    (fun _ w' => forall u wf, registeredWorkflows w' !! u = Some wf -> wf_Name wf <> "a") ex_world.
Proof.
  eapply wp_mono.
  - apply (json_documents_collide "a" TriggerManual "" "b" TriggerManual "" [[named_node "x"]]
             [[named_node "y"]] 0 0 0 0 0 0 0 0 ex_world); [reflexivity|reflexivity| | |by eexists|by eexists].
    + split; [reflexivity|]. split; [discriminate|reflexivity].
    + split; [reflexivity|]. split; [discriminate|reflexivity].
  - intros [r1 r2] w' (_ & _ & _ & H) u wf Hwf Hn. specialize (H ltac:(discriminate) u wf Hwf Hn).
    change (registeredWorkflows ex_world) with (∅ : gmap string Workflow) in H. by rewrite lookup_empty in H.
Defined.

(** The same scenario has one task twice in a group, which is refused. *)
Example ex_documented_group :
  validateWorkflowTasks (ex_wf <| TaskGroups := [[named_node "fetch_url"; named_node "fetch_url"]; [named_node "write_file"]] |>)
  = Err (DuplicateInGroup 1 "fetch_url").
Proof. reflexivity. Qed.
