(* ===== verification/Config.v ===== *)
(** * Configuration and start-up (infra/config/config.go, the adapters of
    infra/engine/scheduler/interfaces.go, infra/plugin/registry.go, infra/app)

    The file's values over the defaults, their validation, the settings the
    master's and the worker's parts get out of them, and the plugins that are
    applied to both.  Reading the YAML
    document is the library's part: it is a function that overwrites a
    configuration. *)
From Stdlib Require Import ZArith Lia SpecFloat.
From stdpp Require Import base gmap strings list.
From S2P Require Import Prelude GoVal Model Dispatcher World Manager Repository Runtime Worker Watch Bus Api.
Set Warnings "-register-all,-clear-no-such-hyp,-level-tolerance".
Local Open Scope Z_scope.
Local Open Scope list_scope.

(** Durations are nanoseconds. *)
Record MySQLConfig := MkMySQLConfig {
  my_Host : string; my_Port : Z; my_User : string; my_Password : string; my_Database : string;
  my_Charset : string; my_MaxIdle : Z; my_MaxOpen : Z; my_MaxConnLifetime : string }.

Record LoggerConfig := MkLoggerConfig { lg_Dir : string; lg_Level : string }.

Record TracingConfig := MkTracingConfig {
  tr_Enabled : bool; tr_Endpoint : string; tr_ServiceName : string; tr_SampleRate : spec_float }.

Record EtcdTLSConfig := MkEtcdTLSConfig {
  tls_Enabled : bool; tls_CertFile : string; tls_KeyFile : string; tls_CAFile : string }.

Record EtcdConfig := MkEtcdConfig {
  et_Endpoints : list string; et_DialTimeout : Z; et_LockTTL : Z; et_TLS : EtcdTLSConfig }.

Record PrefixesConfig := MkPrefixesConfig {
  pf_Tasks : string; pf_Heartbeats : string; pf_Workflows : string }.

Record WSConfig := MkWSConfig {
  ws_ReadTimeout : Z; ws_PingInterval : Z; ws_WriteTimeout : Z; ws_MaxMessageSize : Z;
  ws_BroadcastBuffer : Z; ws_ClientBuffer : Z }.

Record MasterConfig := MkMasterConfig {
  ms_HTTPAddr : string; ms_MaxConcurrentTasks : Z; ms_PerWorkflowMaxConcurrency : Z;
  ms_PendingTaskTimeout : Z; ms_ShutdownTimeout : Z; ms_ShutdownDelay : Z;
  ms_DefaultTaskTimeout : Z; ms_DefaultBaseBackoff : Z; ms_StaleCheckInterval : Z;
  ms_HeartbeatStale : Z; ms_StoreTimeout : Z; ms_MaxHistoryCache : Z; ms_CORSMaxAge : Z;
  ms_WS : WSConfig }.

Record WorkerConfig := MkWorkerConfig {
  wc_ID : string; wc_HeartbeatInterval : Z; wc_ShutdownDelay : Z; wc_MaxTaskConcurrency : Z }.

Record Config := MkConfig {
  cf_Etcd : EtcdConfig; cf_MySQL : MySQLConfig; cf_Prefixes : PrefixesConfig;
  cf_Master : MasterConfig; cf_Worker : WorkerConfig; cf_Logger : LoggerConfig;
  cf_Tracing : TracingConfig }.

Definition DefaultConfig : Config :=
  MkConfig
    (MkEtcdConfig ["localhost:2379"] (5 * Second) 10 (MkEtcdTLSConfig false "" "" ""))
    (MkMySQLConfig "localhost" 3306 "root" "root" "vibeflow" "utf8mb4" 10 100 "1h")
    (MkPrefixesConfig "/vibeflow/tasks/" "/vibeflow/heartbeats/" "/vibeflow/workflows/")
    (MkMasterConfig ":8080" 250 100 (300 * Second) (5 * Second) (200 * Millisecond) (30 * Second)
       Second (15 * Second) (15 * Second) (5 * Second) 1000 (12 * 3600 * Second)
       (MkWSConfig (60 * Second) (30 * Second) (10 * Second) 4096 256 64))
    (MkWorkerConfig "" (5 * Second) (200 * Millisecond) 100)
    (MkLoggerConfig "runtime/log" "info")
    (MkTracingConfig false "" "" (S754_zero false)).

Inductive config_error : Type :=
| NoEndpoints | NoTasksPrefix | NoHeartbeatsPrefix | NoHTTPAddr | Unreadable | Unparsable.

Definition Config_Validate (c : Config) : res config_error unit :=
  if decide (et_Endpoints (cf_Etcd c) = []) then Err NoEndpoints
  else if decide (pf_Tasks (cf_Prefixes c) = "") then Err NoTasksPrefix
  else if decide (pf_Heartbeats (cf_Prefixes c) = "") then Err NoHeartbeatsPrefix
  else if decide (ms_HTTPAddr (cf_Master c) = "") then Err NoHTTPAddr
  else Ok tt.

(** [file]: what the document of the file does to a configuration, [None] when
    it cannot be read; the inner [None] when it does not parse. *)
Definition Load (file : option (Config -> option Config)) : res config_error Config :=
  match file with
  | None => Err Unreadable
  | Some unmarshal =>
      match unmarshal DefaultConfig with
      | None => Err Unparsable
      | Some cfg =>
          match Config_Validate cfg with Err e => Err e | Ok _ => Ok cfg end
      end
  end.

(** ** What the scheduler's parts read *)

Definition defaultStoreTimeoutSec : Z := 5.

Definition StoreTimeoutSec (c : MasterConfig) : Z :=
  let t := whole_seconds (ms_StoreTimeout c) in if t <=? 0 then defaultStoreTimeoutSec else t.

Definition StaleCheckIntervalSec (c : MasterConfig) : Z := whole_seconds (ms_StaleCheckInterval c).
Definition HeartbeatStaleSec (c : MasterConfig) : Z := whole_seconds (ms_HeartbeatStale c).

Definition dispatcher_config (c : MasterConfig) : DispConfig :=
  MkDispConfig (ms_MaxConcurrentTasks c) (ms_PerWorkflowMaxConcurrency c)
    (whole_seconds (ms_PendingTaskTimeout c)) (whole_seconds (ms_DefaultTaskTimeout c))
    (whole_seconds (ms_DefaultBaseBackoff c)).

Definition scheduler_config (c : Config) : SchedConf :=
  MkSchedConf (dispatcher_config (cf_Master c)) (ms_MaxHistoryCache (cf_Master c))
    (pf_Tasks (cf_Prefixes c)).

(** The parts that [NewMaster] and [NewWorker] of infra/app set up: the bus, the
    scheduler, the worker. *)
Definition master_bus (c : Config) : WSEvent :=
  NewWSEvent (ws_BroadcastBuffer (ms_WS (cf_Master c))) (ws_ClientBuffer (ms_WS (cf_Master c))).

Definition master_scheduler (c : Config) (hs : option HistoryStore) (now : Z) : World :=
  NewScheduler (if decide (my_Host (cf_MySQL c) = "") then None else hs) (scheduler_config c) now.

Definition app_worker (c : Config) : Worker :=
  NewWorker (pf_Tasks (cf_Prefixes c)) (wc_MaxTaskConcurrency (cf_Worker c)).

(** ** Plugins *)

(** A plugin may have a side for the master, one for the worker, or both. *)
Record Plugin := MkPlugin {
  RegisterToMaster : option (M World unit); RegisterToWorker : option (M Worker unit) }.

Record Plugins := MkPlugins {
  masterPlugins : list (M World unit); workerPlugins : list (M Worker unit) }.

Definition Register_plugin (r : Plugins) (p : Plugin) : Plugins :=
  MkPlugins (masterPlugins r ++ option_list (RegisterToMaster p))
    (workerPlugins r ++ option_list (RegisterToWorker p)).

Definition Register_plugins (ps : list Plugin) (r : Plugins) : Plugins := foldl Register_plugin r ps.

Definition ApplyToMaster (r : Plugins) : M World unit := for_each (fun p => p) (masterPlugins r).
Definition ApplyToWorker (r : Plugins) : M Worker unit := for_each (fun p => p) (workerPlugins r).

(** The workflow of the built-in plugin. *)
Definition builtin_workflow : Workflow :=
  AddTaskGroup (AddTaskGroup (NewWorkflow "builtin-fetch-and-save") ["fetch_url"]) ["write_file"].

(** Its task types go to the worker manager, which is not part of this state. *)
Definition builtin_master : Plugin := MkPlugin (Some (Scheduler_RegisterWorkflow builtin_workflow)) None.

Definition builtin_worker (fetch_url write_file : Task) : Plugin :=
  MkPlugin None (Some (for_each RegisterTask [fetch_url; write_file])).

(** [NewMaster] and [NewWorker].  The history is loaded and the runs are
    recovered in parallel, one after the other here. *)
Definition NewMaster (c : Config) (hs : option HistoryStore) (r : Plugins) (now : Z) : out (unit * World) :=
  (loadHistory;; recoverRunningWorkflows;; ApplyToMaster r) (master_scheduler c hs now).

Definition NewWorker_app (c : Config) (r : Plugins) : out (unit * Worker) :=
  ApplyToWorker r (app_worker c).

(** ** Properties *)

(** A configuration that loads has an etcd endpoint, prefixes for tasks and
    heartbeats and an address; a document that says nothing loads as the
    defaults. *)
Theorem Load_valid (file : option (Config -> option Config)) :
  Load (Some Some) = Ok DefaultConfig /\
  forall cfg, Load file = Ok cfg ->
    et_Endpoints (cf_Etcd cfg) <> [] /\ pf_Tasks (cf_Prefixes cfg) <> "" /\
    pf_Heartbeats (cf_Prefixes cfg) <> "" /\ ms_HTTPAddr (cf_Master cfg) <> "" /\
    exists unmarshal, file = Some unmarshal /\ unmarshal DefaultConfig = Some cfg.
Proof.
  split; [reflexivity|]. intros cfg. unfold Load. destruct file as [unmarshal|]; [|done].
  destruct (unmarshal DefaultConfig) as [c|] eqn:Hc; [|done].
  unfold Config_Validate. repeat case_decide; try done. intros [= <-]. eauto 10.
Qed.

(** The settings of the defaults. *)
Example default_settings :
  scheduler_config DefaultConfig = MkSchedConf (MkDispConfig 250 100 300 30 1) 1000 "/vibeflow/tasks/".
Proof. vm_compute. reflexivity. Qed.

(** Durations are cut to whole seconds: a base backoff of half a second is 0. *)
Example half_a_second :
  whole_seconds (500 * Millisecond) = 0 /\ whole_seconds (2500 * Millisecond) = 2.
Proof. vm_compute. split; reflexivity. Qed.

(** A worker without a limit gets a limit of 100. *)
Example no_limit_is_a_limit : taskSem (NewWorker "/t/" 0) = 100.
Proof. reflexivity. Qed.

(** The sides of a list of plugins are kept in its order. *)
Lemma Register_plugins_sides ps r :
  masterPlugins (Register_plugins ps r) = masterPlugins r ++ omap RegisterToMaster ps /\
  workerPlugins (Register_plugins ps r) = workerPlugins r ++ omap RegisterToWorker ps.
Proof.
  revert r. induction ps as [|p ps IH]; intros r; [by rewrite !app_nil_r|]. cbn [Register_plugins foldl].
  fold (Register_plugins ps (Register_plugin r p)). destruct (IH (Register_plugin r p)) as [-> ->].
  cbn. destruct (RegisterToMaster p), (RegisterToWorker p); cbn; by rewrite <- ?(assoc_L app), ?app_nil_r.
Qed.

(** A master without a store, with the built-in plugin: its workflow can be
    run by its name. *)
Example builtin_runs :
  match NewMaster DefaultConfig None (Register_plugins [builtin_master] (MkPlugins [] [])) 0 with
  | Ret (_, w) =>
      match RunWorkflow "builtin-fetch-and-save" w with
      | Ret (r, w') => r = Ok tt /\ length (spawned w') = 2%nat
      | _ => False
      end
  | _ => False
  end.
Proof. vm_compute. split; reflexivity. Qed.
