(* ===== verification/Shutdown.v ===== *)
(** * Stopping the master (infra/engine/scheduler/scheduler.go: Shutdown;
    infra/app/master.go: Run)

    A signal cancels the root context, from which every run's context derives,
    and waits for the goroutines.  What becomes of a run that is then in the
    middle of a group: its tasks fail, the run ends FAILED, and its last state
    goes to a pool that writes nothing any more. *)
From Stdlib Require Import ZArith Lia.
From stdpp Require Import base gmap sets strings list relations pretty.
From S2P Require Import Prelude GoVal Model Payload Dispatcher Listeners World Manager Parallel Executor.
From S2P Require Import Effects Repository PersistPool Config.
Set Warnings "-register-all,-clear-no-such-hyp,-level-tolerance".
Local Open Scope Z_scope.
Local Open Scope list_scope.

Definition defaultShutdownTimeout : Z := 10 * Second.

(** The master: the scheduler's state, whether its cron scheduler and its HTTP
    server run, and how long it has slept. *)
Record Master := MkMaster {
  Sch : World; cron_running : bool; http_running : bool; slept : list Z }.

#[export] Instance eta_Master : Eta Master := fun m =>
  MkMaster (Sch m) (cron_running m) (http_running m) (slept m).

Definition on_sch {A : Type} (f : M World A) : M Master A := fun m =>
  match f (Sch m) with
  | Ret (a, w) => Ret (a, m <| Sch := w |>)
  | Panic => Panic
  | Blocked => Blocked
  end.

Lemma wp_on_sch {A : Type} (f : M World A) (Q : A -> Master -> Prop) m :
  wp f (fun a w => Q a (m <| Sch := w |>)) (Sch m) -> wp (on_sch f) Q m.
Proof. unfold wp, on_sch. by destruct (f (Sch m)) as [[a w]| |]. Qed.

(** [until_signal]: all that happens before the signal.  [quiesce d]: all that
    happens until the goroutines that the wait group counts have ended, [true],
    or [d] has passed. *)
Class Outside := {
  until_signal : M World unit;
  quiesce : Z -> M World bool }.

Section shutdown.
Context `{Outside}.

(** [s.cancel()]: the root context and those derived from it so far. *)
Definition cancel_root : M World unit :=
  modify (fun w => w <| cancelled ::= union (list_to_set (seq 0 (nextCtx w))) |>).

Definition shutdown_timeout (conf : MasterConfig) : Z :=
  if ms_ShutdownTimeout conf <=? 0 then defaultShutdownTimeout else ms_ShutdownTimeout conf.

Definition Shutdown (conf : MasterConfig) : M Master bool :=
  modify (fun m => m <| cron_running := false |>);;
  on_sch cancel_root;;
  on_sch (quiesce (shutdown_timeout conf)).

(** The HTTP server shuts down when its context ends, by itself. *)
Definition Run (conf : MasterConfig) : M Master unit :=
  modify (fun m => m <| http_running := true |>);;
  on_sch until_signal;;
  modify (fun m => m <| http_running := false |>);;
  Shutdown conf;;
  modify (fun m => m <| slept ::= fun l => l ++ [ms_ShutdownDelay conf] |>).

End shutdown.

(** ** A run in the middle of a group *)

(** What the executor does with the results of a plain group. *)
Definition group_tail (uuid : string) (idx : Z) (rest : list vmap -> M World unit) (n : nat)
    (rs : list (nat * task_result)) : M World unit :=
  match group_outcome 0 (Z.of_nat n) rs.*2 with
  | Err e => fail_group uuid "任务组" idx e
  | Ok outs => rest outs
  end.

Section interrupted.
Context `{Naming} `{EnvironmentLaws} (ctx : nat) (uuid : string) (entry : workflowEntry).

(** The run is under way, its context is done, and nothing has been recorded
    of it in the history. *)
Record interrupted (w : World) : Prop := Interrupted {
  in_sane : sane w;
  in_dead : ctx ∈ cancelled w;
  in_entry : runningEntries w !! uuid = Some entry;
  in_hist : hist_ok w;
  in_new : ExecutionID (we_state entry) ∉ historyOrder w }.

(** No worker answers any more: a [select] finds its context done, and what
    happens elsewhere leaves the run and its place in the history alone. *)
Class Unanswered : Prop := {
  pick_interrupted n w : interrupted w -> wp (pick n) (fun _ => interrupted) w;
  others_interrupted w : interrupted w -> wp others (fun x w' => x = WishDone /\ interrupted w') w }.

Context {HQ : Unanswered}.

Lemma interrupted_pushed w w' : interrupted w -> pushed_only w w' -> interrupted w'.
Proof.
  intros [Hs Hd He Hh Hn] Hp. pose proof (sane_pushed _ _ Hs Hp) as Hs'.
  destruct Hp as (td & e & fl & c & ->). split; [done..| |done]. by apply (hist_ok_ext w).
Qed.

Lemma interrupted_listeners w tl : interrupted w -> listeners_ok tl -> interrupted (w <| taskListeners := tl |>).
Proof. intros [Hs Hd He Hh Hn] Htl. split; [by apply sane_set_listeners|done..| |done].
  by apply (hist_ok_ext w). Qed.

Lemma await_interrupted stopped sec ch w : interrupted w ->
  wp (await ctx stopped sec ch) (fun r w' => r = Err WorkflowContextCancelled /\ interrupted w') w.
Proof.
  intros Hw. unfold await. apply wp_bind. eapply wp_mono; [by apply others_interrupted|].
  intros x w' [-> Hw']. apply wp_bind, wp_gets, wp_bind, wp_gets.
  unfold is_cancelled. rewrite bool_decide_true by apply Hw'. rewrite orb_true_r. by apply wp_ret.
Qed.

(** A step of a task brings it closer to its end, which is a failure. *)
Lemma step_interrupted stopped j w : interrupted w -> j_phase j <> Finished ->
  wp (task_step ctx uuid stopped j) (fun r w' => interrupted w' /\
    (phase_weight r.1 < phase_weight (j_phase j))%nat /\ (r.1 = Finished <-> is_Some r.2) /\
    (r.1 = Finished -> exists e, r.2 = Some (Err e))) w.
Proof.
  intros Hw Hp. unfold task_step. pose proof (in_sane _ Hw) as Hs. destruct (j_phase j) as [| |ch|]; [..|done].
  - apply wp_bind. eapply wp_mono; [by apply PushTask_pushed|]. intros r w' Hw'. apply wp_ret.
    pose proof (interrupted_pushed _ _ Hw Hw') as Hi.
    destruct r as [u|e]; cbn.
    + split_and!; [done|lia|by split; [|intros []]|done].
    + split_and!; [done|lia|by split|by eexists].
  - apply wp_bind, wp_on_listeners. eapply wp_mono; [apply (listen_ok _ _ 0), Hs|].
    intros ch tl (Hok & _). apply wp_ret. cbn.
    split_and!; [by apply interrupted_listeners|lia|by split; [|intros []]|done].
  - apply wp_bind. eapply wp_mono; [by apply await_interrupted|]. intros r w' [-> Hi].
    apply wp_bind, wp_on_listeners. eapply wp_mono; [apply (tl_unregister_ok _ _ 0), (in_sane _ Hi)|].
    intros _ tl (Hok & _). apply wp_ret. cbn.
    split_and!; [by apply interrupted_listeners|lia|by split|by eexists].
Qed.

Definition unfinished (jobs : list job) : Prop := exists (i : nat) j, jobs !! i = Some j /\ j_phase j <> Finished.
Definition failed (rs : list (nat * task_result)) : Prop := exists i e, (i, Err e) ∈ rs.

Lemma run_interrupted strategy cap : (forall s, 1 <= cap s) ->
  forall fuel jobs rs w, interrupted w -> (steps_left jobs <= fuel)%nat -> unfinished jobs \/ failed rs ->
  wp (run_tasks fuel ctx uuid strategy cap jobs rs) (fun rs' w' => interrupted w' /\ failed rs') w.
Proof.
  intros Hcap. induction fuel as [|fuel IH]; intros jobs rs w Hw Hf Hu; cbn [run_tasks].
  - apply wp_ret. split; [done|]. destruct Hu as [(i & j & Hj & Hp)|?]; [|done].
    pose proof (steps_left_at jobs i j Hj). destruct (j_phase j); cbn in *; lia || done.
  - destruct (runnable cap jobs) as [|i0 live] eqn:Hlive.
    { apply wp_ret. split; [done|]. destruct Hu as [(i & j & Hj & Hp)|?]; [|done].
      destruct Hp. by eapply (runnable_nil cap jobs Hcap). }
    apply wp_bind. eapply wp_mono; [by apply pick_interrupted|]. intros k w1 Hw1. cbn beta.
    set (i := default i0 _).
    assert (Hi : i ∈ runnable cap jobs).
    { rewrite Hlive. unfold i. destruct ((i0 :: live) !! _) as [x|] eqn:Hx; cbn; [|by left].
      by eapply list_elem_of_lookup_2. }
    apply elem_of_runnable in Hi as (j & Hj & Hgo). rewrite Hj.
    assert (Hnf : j_phase j <> Finished) by (intros He; unfold can_go in Hgo; by rewrite He in Hgo).
    apply wp_bind. eapply wp_mono; [by apply step_interrupted|].
    intros [p x] w2 (Hw2 & Hlt & Hx & He). cbn [fst snd] in *.
    pose proof (steps_left_insert _ _ _ _ Hj Hlt). apply IH; [done|lia|].
    assert (Hd : p = Finished \/ p <> Finished) by (destruct p; auto). destruct Hd as [Hp|Hp].
    + right. destruct (He Hp) as [e ->]. exists i, e. apply elem_of_app. right. by apply list_elem_of_singleton.
    + left. exists i, (j <| j_phase := p |>). split; [|done].
      rewrite list_lookup_insert_eq; [done|]. by eapply lookup_lt_Some.
Qed.

Lemma succeeded_lt (rs : list (nat * task_result)) : failed rs -> (length (succeeded rs.*2) < length rs)%nat.
Proof.
  intros (i & e & Hin). induction rs as [|[k r] rs IH]; [by apply elem_of_nil in Hin|].
  pose proof (succeeded_le rs.*2) as Hle. rewrite length_fmap in Hle. unfold succeeded in *.
  apply elem_of_cons in Hin as [[= <- <-]|Hin]; [cbn; lia|]. specialize (IH Hin). destruct r; cbn; lia.
Qed.

Lemma tail_fails rs n : failed rs -> length rs = n ->
  exists e, group_outcome 0 (Z.of_nat n) rs.*2 = Err e.
Proof.
  intros Hf Hn. pose proof (succeeded_lt rs Hf). unfold group_outcome. cbn.
  rewrite (proj2 (Z.leb_gt _ _)) by lia. by eexists.
Qed.

(** The run is gone from the running ones, FAILED in the history, announced as
    failed, and its state handed to the persistence pool. *)
Record given_up (st : WorkflowState) (w : World) : Prop := GivenUp {
  gu_status : Status st = WorkflowStatusFailed;
  gu_gone : runningEntries w !! uuid = None;
  gu_history : workflowHistory w !! ExecutionID (we_state entry) = Some st;
  gu_latest : latest_id uuid w = Some (ExecutionID (we_state entry));
  gu_job : exists l, jobs w = persist_jobs uuid st l;
  gu_event : exists l, events w = l ++ [MkEvent uuid "workflow_failed" (DataUUID uuid)] }.

Lemma persist_interrupted st w : WorkflowUUID st = uuid -> ExecutionID st = ExecutionID (we_state entry) ->
  Status st = WorkflowStatusFailed -> interrupted w ->
  wp (PersistWorkflowLocked uuid st entry) (fun _ w' =>
    wp (emit uuid "workflow_failed" (DataUUID uuid)) (fun _ w'' => exists st, given_up st w'') w') w.
Proof.
  intros Hu Hid Hf [Hs Hd He Hh Hn]. rewrite <- Hid in Hn.
  destruct (persisted_history uuid st entry w Hh Hu Hn) as (_ & _ & Hst & Hlat).
  destruct (persisted_outside uuid st entry w) as (_ & Hr & _ & Hj & _).
  apply wp_persist; [apply Hs|]. apply wp_emit. exists st. set (w1 := persisted uuid st entry w) in *. clearbody w1.
  rewrite Hid in *. split; [done| |exact Hst|exact Hlat|by eexists|by eexists].
  cbn. rewrite Hr. apply lookup_delete_eq.
Qed.

Lemma fail_interrupted what idx e w : WorkflowUUID (we_state entry) = uuid -> interrupted w ->
  wp (fail_group uuid what idx e) (fun _ w' => exists st, given_up st w') w.
Proof.
  intros Hu Hw. unfold fail_group. apply wp_bind, wp_LockEntry; [apply Hw|]. rewrite (in_entry _ Hw).
  apply wp_bind, persist_interrupted; [exact Hu|reflexivity|reflexivity|exact Hw].
Qed.

(** The rest of the group, whatever its tasks are doing. *)
Definition group_rest (idx : Z) (rest : list vmap -> M World unit) (cap : nat -> Z) (jobs : list job)
    (rs : list (nat * task_result)) : M World unit :=
  rs ← run_tasks (steps_left jobs) ctx uuid ParallelStrategyAll cap jobs rs;
  group_tail uuid idx rest (length jobs) rs.

(** It is what the serial executor does with a plain group. *)
Lemma executeGroups_rest `{GoPlatform} stuck fuel groups ups idx group w :
  group_at groups idx = Some group -> group <> [] -> idx < Z.of_nat (length groups) ->
  detectAdvancedNodes group = PlainGroup ->
  executeGroups stuck (S fuel) ctx uuid groups ups idx w =
  (st ← wm_GetWorkflowState uuid;
   let opts := all_tasks (master_timeout st) in
   let jobs := start_task 0 (watchdog_of opts) ups <$> group in
   group_rest idx (group_done (executeGroups stuck fuel ctx uuid) ctx uuid groups idx ups) (unlimited jobs) jobs []) w.
Proof.
  intros Hg Hne Hlt Hk. cbn [executeGroups]. rewrite (proj2 (Z.leb_gt _ _)) by done. unfold mbind, M_bind.
  destruct (wm_GetWorkflowState uuid w) as [[st w1]| |]; [|done..]. rewrite Hg, Hk.
  unfold ExecuteWithOptions, group_rest, group_tail, mbind, M_bind, mret, M_ret. rewrite decide_False by done. cbn zeta.
  rewrite length_fmap. cbn [Strategy MinSuccess all_tasks].
  by destruct (run_tasks _ _ _ _ _ _ _ w1) as [[rs w2]| |].
Qed.

Lemma rest_interrupted idx rest cap jobs rs w :
  WorkflowUUID (we_state entry) = uuid -> (forall s, 1 <= cap s) -> interrupted w -> tracked jobs rs ->
  unfinished jobs \/ failed rs ->
  wp (group_rest idx rest cap jobs rs) (fun _ w' => exists st, given_up st w') w.
Proof.
  intros Hu Hcap Hw Ht Hf. apply wp_bind. eapply wp_mono.
  { apply wp_and; [by apply run_interrupted|].
    apply (run_tasks_spec ctx uuid ParallelStrategyAll cap Hcap); [apply Hw|exact Ht|done]. }
  intros rs' w' [[Hw' Hf'] [_ Hp]]. destruct (tail_fails rs' (length jobs) Hf') as [e He].
  { apply Permutation_length in Hp. by rewrite length_fmap, length_seq in Hp. }
  unfold group_tail. rewrite He. by apply fail_interrupted.
Qed.

(** Before the signal. *)
Record under_way (w : World) : Prop := UnderWay {
  uw_sane : sane w;
  uw_ctx : (ctx < nextCtx w)%nat;
  uw_entry : runningEntries w !! uuid = Some entry;
  uw_hist : hist_ok w;
  uw_new : ExecutionID (we_state entry) ∉ historyOrder w }.

Lemma cancel_interrupts w : under_way w -> wp cancel_root (fun _ => interrupted) w.
Proof.
  intros [[Hl Hk Hs] Hc He Hh Hn]. unfold cancel_root. apply wp_modify. split; [by split| |done| |done].
  - cbn. apply elem_of_union. left. apply elem_of_list_to_set, elem_of_seq. lia.
  - by apply (hist_ok_ext w).
Qed.

(** C18: Stopping the master does not wait for its workflows: it cancels the
    context they all derive from.  A run that is then in the middle of a plain
    group, whatever its tasks are doing, ends FAILED as soon as its goroutines go
    on, unless all tasks of the group have completed; it is taken out of the
    running workflows, announced as failed, and its last state goes to the
    persistence pool.  And no pool whose context is done writes that or
    anything else, in any interleaving: MySQL keeps the run as RUNNING. *)
Theorem shutdown_fails_runs conf idx rest cap jobs rs (m : Master) (until : M World unit) :
  WorkflowUUID (we_state entry) = uuid -> (forall s, 1 <= cap s) -> under_way (Sch m) -> tracked jobs rs ->
  unfinished jobs \/ failed rs ->
  wp (Shutdown (H := Build_Outside until (fun _ => group_rest idx rest cap jobs rs;; mret true)) conf)
    (fun ended m' => ended = true /\ cron_running m' = false /\ exists st, given_up st (Sch m')) m /\
  (forall (DB : Type) (store : bool -> db_write -> DB -> bool * DB) zero s s' (pool pool' : list (jprog unit)),
     (forall wr db, (store true wr db).1 = false) -> q_done s = true ->
     rtc (pool_step (pool_handle store zero) pool_others) (s, pool) (s', pool') -> q_written s' = q_written s).
Proof.
  intros Hu Hcap Hw Ht Hf. split.
  - unfold Shutdown. apply wp_bind, wp_modify, wp_bind, wp_on_sch.
    eapply wp_mono; [by apply cancel_interrupts|]. intros u w Hi. apply wp_on_sch. cbn. apply wp_bind.
    eapply wp_mono; [by apply rest_interrupted|]. intros v w' Hst. by apply wp_ret.
  - intros DB store zero s s' pool pool' Hst Hd Hrun. by destruct (done_writes_nothing store zero s pool s' pool' Hst Hrun Hd).
Qed.

End interrupted.

(** ** Witness *)

(** Nobody answers. *)
Definition silent : Environment :=
  {| pick := fun _ => mret 0%nat; others := mret WishDone; early_result := fun _ => mret None |}.

#[local] Existing Instance silent | 0.

Lemma silent_laws : EnvironmentLaws (H := silent).
Proof. split; intros; by apply wp_ret. Qed.

Lemma silent_unanswered ctx uuid entry : Unanswered (H0 := silent) ctx uuid entry.
Proof. split; intros; by apply wp_ret. Qed.

Definition ex_running : World :=
  ex_world <| runningEntries := {["demo" := ex_entry]} |> <| nextCtx := 3%nat |>.

Lemma ex_running_under_way : under_way 0 "demo" ex_entry ex_running.
Proof.
  split; [split| | | |].
  - reflexivity.
  - apply noListeners_ok.
  - intros u e Hu. cbn in Hu. apply lookup_singleton_Some in Hu as [_ <-]. by eexists.
  - cbn. lia.
  - reflexivity.
  - apply (hist_ok_ext ex_world); [reflexivity..|apply ex_world_ok].
  - cbn. apply not_elem_of_nil.
Qed.

(** One task waits for its answer, the other is about to be pushed. *)
Definition ex_jobs : list job :=
  [MkTask 0 (named_node "a") [] 90 (Waiting 0); MkTask 0 (named_node "b") [] 90 Fresh].

Lemma shutdown_fails_runs_witness :
  wp (Shutdown (H := Build_Outside (mret tt)
      (fun _ => group_rest (H0 := silent) 0 "demo" 0 (fun _ => mret tt) (unlimited ex_jobs) ex_jobs [];; mret true))
      (cf_Master DefaultConfig))
    (fun ended m' => ended = true /\ exists st, Status st = WorkflowStatusFailed /\
       runningEntries (Sch m') !! "demo" = None) (MkMaster ex_running true true []).
Proof.
  eapply wp_mono.
  - refine (proj1 (shutdown_fails_runs (H0 := silent) (H1 := silent_laws) 0 "demo" ex_entry
      (HQ := silent_unanswered 0 "demo" ex_entry) (cf_Master DefaultConfig) 0 (fun _ => mret tt)
      (unlimited ex_jobs) ex_jobs [] (MkMaster ex_running true true []) (mret tt) _ _ _ _ _)).
    + reflexivity.
    + intros s. unfold unlimited. cbn. lia.
    + exact ex_running_under_way.
    + split; [apply NoDup_nil_2|]. intros i. split; [intros Hi; by apply elem_of_nil in Hi|].
      intros (j & Hj & Hp). destruct i as [|[|i]]; cbn in Hj; [injection Hj as <-|injection Hj as <-|]; discriminate.
    + left. exists 0%nat. eexists. split; [reflexivity|]. discriminate.
  - intros ended m' (He & _ & st & Hst). split; [exact He|]. exists st.
    split; [exact (gu_status _ _ _ _ Hst)|exact (gu_gone _ _ _ _ Hst)].
Defined.
