(* ===== verification/Tracing.v ===== *)
(** * Tracing (infra/tracing)

    OpenTelemetry behind a switch: when it is off every call does nothing.  A
    task carries the trace of the run that pushed it: the master puts it into
    the payload, the worker takes it out again. *)
From Stdlib Require Import ZArith Lia SpecFloat.
From stdpp Require Import base gmap strings list.
From S2P Require Import Prelude GoVal Model Payload Dispatcher Config.
Set Warnings "-register-all,-clear-no-such-hyp,-level-tolerance".
Local Open Scope Z_scope.
Local Open Scope list_scope.

Inductive KeyValue : Type :=
| StringAttr (k v : string) | IntAttr (k : string) (v : Z) | Int64Attr (k : string) (v : Z)
| BoolAttr (k : string) (v : bool).

(** OpenTelemetry: contexts, each with the span it carries, exporters,
    resources, providers and tracers.  [inject] lists the [Set] calls of the
    global propagator on a carrier, [extract] gets the carrier's [Get].
    [trace_of] is the trace identifier of the context's span, when it has one. *)
Class OTel := {
  Ctx : Type; Exporter : Type; Resource : Type; Provider : Type; TracerT : Type;
  otlp_new : string -> option Exporter;
  resource_new : string -> option Resource;
  NewTracerProvider : Exporter -> Resource -> spec_float -> Provider;
  provider_Tracer : Provider -> string -> TracerT;
  otel_Tracer : string -> TracerT;
  Start : TracerT -> Ctx -> string -> list KeyValue -> Ctx;
  inject : Ctx -> list (string * string);
  extract : Ctx -> (string -> string) -> Ctx;
  trace_of : Ctx -> option string;
  IsRecording : Ctx -> bool }.

Section tracing.
Context `{OTel}.

(** The package's variables; [t_shut]: the provider has been shut down.  The
    global provider and propagator are set exactly when [enabled] is. *)
Record Tracing := MkTracing {
  tracer : option TracerT; tp : option Provider; enabled : bool; t_shut : bool }.

#[global] Instance eta_Tracing : Eta Tracing := fun t =>
  MkTracing (tracer t) (tp t) (enabled t) (t_shut t).

Definition no_tracing : Tracing := MkTracing None None false false.

(** ** Set-up *)

Inductive tracing_error : Type := NoExporter | NoResource.

Definition service_name (cfg : TracingConfig) : string :=
  if decide (tr_ServiceName cfg = "") then "vibeflow" else tr_ServiceName cfg.

Definition sample_rate (cfg : TracingConfig) : spec_float :=
  if SFleb (tr_SampleRate cfg) (S754_zero false) then float_of_int 1 else tr_SampleRate cfg.

Definition Init (cfg : TracingConfig) : M Tracing (res tracing_error unit) :=
  if negb (tr_Enabled cfg) then mret (Ok tt)
  else if decide (tr_Endpoint cfg = "") then mret (Ok tt)
  else
    match otlp_new (tr_Endpoint cfg) with
    | None => mret (Err NoExporter)
    | Some exporter =>
        match resource_new (service_name cfg) with
        | None => mret (Err NoResource)
        | Some res =>
            let p := NewTracerProvider exporter res (sample_rate cfg) in
            modify (fun t => t <| tp := Some p |> <| tracer := Some (provider_Tracer p (service_name cfg)) |>
                               <| enabled := true |>);;
            mret (Ok tt)
        end
    end.

Definition Shutdown_tracing : M Tracing unit :=
  modify (fun t => match tp t with Some _ => t <| t_shut := true |> | None => t end).

Definition IsEnabled (t : Tracing) : bool := enabled t.

Definition Tracer (t : Tracing) : TracerT := default (otel_Tracer "vibeflow-noop") (tracer t).

(** ** Spans *)

Definition StartSpan (t : Tracing) (ctx : Ctx) (name : string) (attrs : list KeyValue) : Ctx :=
  if negb (enabled t) then ctx else Start (Tracer t) ctx name attrs.

Definition TaskSpanAttributes (workflowUUID taskName traceID : string) (attempt : Z) : list KeyValue :=
  [StringAttr "workflow.uuid" workflowUUID; StringAttr "task.name" taskName;
   StringAttr "task.trace_id" traceID; IntAttr "task.attempt" attempt].

Definition LogWorkflowLifecycle (workflowUUID workflowName event : string) : list KeyValue :=
  [StringAttr "workflow.uuid" workflowUUID; StringAttr "workflow.name" workflowName;
   StringAttr "workflow.event" event].

(** What is recorded on the span of a context; nothing when it does not record. *)
Inductive span_call : Type :=
| AddEvent (name : string) (attrs : list KeyValue) | RecordErr (err : string)
| SetStatus (code : Z) (description : string).

Definition on_span (ctx : Ctx) (c : span_call) : list span_call := if IsRecording ctx then [c] else [].
Definition AddSpanEvent (ctx : Ctx) (name : string) (attrs : list KeyValue) := on_span ctx (AddEvent name attrs).
Definition RecordError (ctx : Ctx) (err : string) := on_span ctx (RecordErr err).
Definition SetSpanStatus (ctx : Ctx) (code : Z) (description : string) := on_span ctx (SetStatus code description).

(** ** The carrier *)

Abbreviation TraceContextCarrier := (gmap string string).

Definition carrier_Get (c : TraceContextCarrier) (key : string) : string := default "" (c !! key).
Definition carrier_Set (c : TraceContextCarrier) (key value : string) : TraceContextCarrier := <[key := value]> c.

(** In some order. *)
Definition carrier_Keys (c : TraceContextCarrier) : list string := (map_to_list c).*1.

(** A nil map is [None]. *)
Definition InjectTraceContext (t : Tracing) (ctx : Ctx) : option TraceContextCarrier :=
  if negb (enabled t) then None
  else Some (foldl (fun c kv => carrier_Set c kv.1 kv.2) ∅ (inject ctx)).

Definition ExtractTraceContext (t : Tracing) (ctx : Ctx) (carrier : option TraceContextCarrier) : Ctx :=
  if negb (enabled t) then ctx
  else match carrier with None => ctx | Some c => extract ctx (carrier_Get c) end.

(** ** HTTP *)

(** The handlers in front of the routes: one that only passes on; or the one
    of OpenTelemetry, which starts a span and gives it to what follows, and the one that
    answers with the trace identifier. *)
Inductive middleware : Type :=
| PassOn
| OtelGin (service : string) (span_name : string -> string -> string)
| TraceIDHeader.

Definition GinMiddlewares (t : Tracing) : list middleware :=
  if negb (enabled t) then [PassOn]
  else [OtelGin "vibeflow" (fun method path => method +:+ " " +:+ path); TraceIDHeader].

Definition traceIDMw (ctx : Ctx) (headers : gmap string string) : gmap string string :=
  match trace_of ctx with Some id => <["X-Trace-Id" := id]> headers | None => headers end.

Definition StartWorkflowSpan (t : Tracing) (ctx : Ctx) (name workflowUUID workflowName : string) : Ctx :=
  StartSpan t ctx name [StringAttr "workflow.uuid" workflowUUID; StringAttr "workflow.name" workflowName].

(** ** Along a task *)

(** The carrier of a pushed task: the dispatcher starts a span for it, which
    ends up in the payload.  An empty map is left out of the JSON text, and
    read as nil. *)
Definition push_carrier (t : Tracing) (ctx : Ctx) (attrs : list KeyValue) : TraceContextCarrier :=
  default ∅ (InjectTraceContext t (StartSpan t ctx "scheduler.dispatch_task" attrs)).

Definition read_carrier (p : TaskPayload) : option TraceContextCarrier :=
  if decide (TraceContext p = ∅) then None else Some (TraceContext p).

(** The context in which a worker executes a task. *)
Definition execute_ctx (t : Tracing) (ctx : Ctx) (p : TaskPayload) : Ctx :=
  StartSpan t (ExtractTraceContext t ctx (read_carrier p)) "worker.execute_task"
    [StringAttr "workflow.uuid" (WorkflowID p); StringAttr "task.name" (TaskName p);
     StringAttr "task.trace_id" (TraceID p); IntAttr "task.attempt" (RetryCount p + 1);
     BoolAttr "task.rollback" (Rollback p); Int64Attr "task.timeout_sec" (pl_TimeoutSec p);
     IntAttr "task.priority" (pl_Priority p)].

(** ** Laws

    Of the W3C propagators: a span has the trace of the context it starts in; what is
    injected from a context with a trace is not empty, and read through the same
    values gives that trace, in any context. *)
Class OTelLaws : Prop := {
  start_trace tr c n a t : trace_of c = Some t -> trace_of (Start tr c n a) = Some t;
  inject_trace c t : trace_of c = Some t -> inject c <> [];
  extract_trace c c' t get : trace_of c = Some t ->
    (forall k, get k = carrier_Get (foldl (fun c kv => carrier_Set c kv.1 kv.2) ∅ (inject c)) k) ->
    trace_of (extract c' get) = Some t }.

Lemma span_trace `{!OTelLaws} t ctx name attrs id :
  trace_of ctx = Some id -> trace_of (StartSpan t ctx name attrs) = Some id.
Proof. intros Hc. unfold StartSpan. destruct (enabled t); [|done]. by apply start_trace. Qed.

Lemma carrier_get_set c k v k' : carrier_Get (carrier_Set c k v) k' = if decide (k = k') then v else carrier_Get c k'.
Proof.
  unfold carrier_Get, carrier_Set. case_decide as Hk; [subst; by rewrite lookup_insert_eq|].
  by rewrite lookup_insert_ne.
Qed.

Lemma carrier_keys c k : k ∈ carrier_Keys c <-> is_Some (c !! k).
Proof.
  unfold carrier_Keys. rewrite list_elem_of_fmap. split.
  - intros ([k' v] & -> & Hkv). apply elem_of_map_to_list in Hkv. by eexists.
  - intros [v Hv]. exists (k, v). by rewrite elem_of_map_to_list.
Qed.

Lemma injected_not_empty (l : list (string * string)) : l <> [] ->
  foldl (fun c kv => carrier_Set c kv.1 kv.2) (∅ : TraceContextCarrier) l <> ∅.
Proof.
  intros Hl. destruct l as [|kv l _] using rev_ind; [done|]. rewrite foldl_app. cbn.
  apply insert_non_empty.
Qed.

(** ** Properties *)

(** The set-up either fails, and tracing stays off; or it is off, or
    configured without an endpoint, and nothing changes; or it is on, with the provider
    and the tracer of the configuration. *)
Theorem Init_outcome cfg t :
  wp (Init cfg) (fun r t' =>
    match r with
    | Err _ => t' = t /\ tr_Enabled cfg = true
    | Ok _ =>
        (t' = t /\ (tr_Enabled cfg = false \/ tr_Endpoint cfg = "")) \/
        exists exporter res, otlp_new (tr_Endpoint cfg) = Some exporter /\
          resource_new (service_name cfg) = Some res /\ enabled t' = true /\
          tp t' = Some (NewTracerProvider exporter res (sample_rate cfg)) /\
          Tracer t' = provider_Tracer (NewTracerProvider exporter res (sample_rate cfg)) (service_name cfg)
    end) t.
Proof.
  unfold Init. destruct (tr_Enabled cfg) eqn:He; cbn [negb]; [|apply wp_ret; left; auto].
  case_decide as Hd; [apply wp_ret; left; auto|].
  destruct (otlp_new _) as [exporter|] eqn:Hx; [|by apply wp_ret].
  destruct (resource_new _) as [res|] eqn:Hr; [|by apply wp_ret].
  apply wp_bind, wp_modify, wp_ret. right. by exists exporter, res.
Qed.

(** C33: A task carries its trace: when both sides trace, the worker executes
    a task that was pushed in a trace under that trace, whatever its own context,
    after the payload has been encoded and decoded.  When the master does not
    trace, or the task had to queue (the dispatcher then writes no trace into it), the
    worker goes by its own context; when the worker does not trace, its context is left
    alone. *)
Theorem trace_survives `{!OTelLaws} (master worker : Tracing) (mctx wctx : Ctx) (attrs : list KeyValue)
    (cfg : DispConfig) (wf : Workflow) (uuid : string) (n : TaskNode) (ups : list vmap) (traceID : string)
    (tctx : TraceContextCarrier) (v : TaskPayload) :
  Serialize (task_payload cfg wf uuid n ups traceID tctx) = Some v ->
  let p := Deserialize v in
  (tctx = push_carrier master mctx attrs -> forall id,
     enabled master = true -> enabled worker = true -> trace_of mctx = Some id ->
     trace_of (execute_ctx worker wctx p) = Some id) /\
  (tctx = ∅ \/ tctx = push_carrier master mctx attrs /\ enabled master = false -> forall id,
     trace_of wctx = Some id -> trace_of (execute_ctx worker wctx p) = Some id) /\
  (enabled worker = false -> execute_ctx worker wctx p = wctx).
Proof.
  intros Hs p. assert (Hp : TraceContext p = tctx).
  { unfold Serialize in Hs. destruct (_ && _); [|done]. by injection Hs as <-. }
  clearbody p. split_and!.
  - unfold execute_ctx, read_carrier. rewrite Hp. unfold push_carrier, InjectTraceContext. intros -> id -> Hw Hm.
    cbn [negb default]. set (c := StartSpan master mctx _ attrs).
    assert (Hc : trace_of c = Some id) by (by apply span_trace).
    rewrite decide_False by (by apply injected_not_empty, inject_trace with id).
    apply span_trace. unfold ExtractTraceContext. rewrite Hw. cbn [negb]. by eapply extract_trace.
  - intros He id Hw. assert (Hc : TraceContext p = ∅).
    { rewrite Hp. destruct He as [He|[-> He]]; [done|]. unfold push_carrier, InjectTraceContext. by rewrite He. }
    unfold execute_ctx, read_carrier. rewrite decide_True by done. apply span_trace.
    unfold ExtractTraceContext. by destruct (enabled worker).
  - intros Hw. unfold execute_ctx, StartSpan, ExtractTraceContext. by rewrite Hw.
Qed.

(** A rate of zero does not switch sampling off: it counts as unset. *)
Theorem zero_rate_samples_all cfg sgn :
  tr_SampleRate cfg = S754_zero sgn -> sample_rate cfg = float_of_int 1.
Proof. intros Hr. unfold sample_rate. rewrite Hr. by destruct sgn. Qed.

End tracing.

(** ** Witnesses *)

(** Contexts that are their trace identifier. *)
Definition ex_otel : OTel := {|
  Ctx := string; Exporter := unit; Resource := unit; Provider := unit; TracerT := unit;
  otlp_new := fun _ => Some tt; resource_new := fun _ => Some tt;
  NewTracerProvider := fun _ _ _ => tt; provider_Tracer := fun _ _ => tt; otel_Tracer := fun _ => tt;
  Start := fun _ c _ _ => c;
  inject := fun c => if decide (c = "") then [] else [("traceparent", c)];
  extract := fun c get => if decide (get "traceparent" = "") then c else get "traceparent";
  trace_of := fun c => if decide (c = "") then None else Some c;
  IsRecording := fun _ => true |}.

Lemma ex_otel_laws : OTelLaws (H := ex_otel).
Proof.
  split; cbn.
  - done.
  - intros c t. by case_decide.
  - intros c c' t get. case_decide as Hc; [done|]. intros [= <-] Hg. assert (Hv : get "traceparent" = c).
    { rewrite (Hg "traceparent"). cbn [foldl fst snd]. unfold carrier_Get, carrier_Set.
      by rewrite lookup_insert_eq. }
    rewrite Hv. destruct (decide (c = "")) as [?|Hne]; [done|]. by rewrite decide_False.
Qed.

Definition ex_traced : Tracing (H := ex_otel) := MkTracing (H := ex_otel) (Some tt) (Some tt) true false.

Lemma trace_survives_witness :
  let carrier := push_carrier (H := ex_otel) ex_traced "4bf92f" [] in
  let payload := task_payload (MkDispConfig 1 1 1 1 1) (NewWorkflow "demo") "u" (named_node "a") [] "id" carrier in
  TraceContext payload = {["traceparent" := "4bf92f"]} /\
  trace_of (OTel := ex_otel) (execute_ctx (H := ex_otel) ex_traced "other" (Deserialize payload)) = Some "4bf92f".
Proof.
  intros carrier payload. split; [vm_compute; reflexivity|].
  assert (Hs : Serialize payload = Some payload) by (vm_compute; reflexivity).
  destruct (trace_survives (H := ex_otel) (H0 := ex_otel_laws) ex_traced ex_traced "4bf92f" "other" []
    (MkDispConfig 1 1 1 1 1) (NewWorkflow "demo") "u" (named_node "a") [] "id" carrier payload Hs) as [Ht _].
  exact (Ht eq_refl "4bf92f" eq_refl eq_refl eq_refl).
Defined.

Lemma zero_rate_samples_all_witness :
  sample_rate (MkTracingConfig true "localhost:4317" "" (S754_zero false)) = float_of_int 1.
Proof. apply (zero_rate_samples_all _ false). reflexivity. Defined.
