(* ===== verification/Startup.v ===== *)
(** * Starting a process (cmd/master, cmd/worker, infra/app, infra/logger,
    infra/store/mysql/db.go)

    The two programs from their first line: the configuration, the logger, the
    connections, the scheduler or the worker.  The logger is a global variable
    that is nil until it has been set up. *)
From Stdlib Require Import ZArith Lia SpecFloat.
From stdpp Require Import base gmap strings list pretty.
From S2P Require Import Prelude GoVal Model World Runtime Worker Config Shutdown Tracing.
Set Warnings "-register-all,-clear-no-such-hyp,-level-tolerance".
Local Open Scope Z_scope.
Local Open Scope list_scope.

(** ** The logger *)

Inductive Level : Type := DebugLevel | InfoLevel | WarnLevel | ErrorLevel | FatalLevel.

#[export] Instance Level_eq_dec : EqDecision Level.
Proof. solve_decision. Defined.

Definition level_rank (l : Level) : Z :=
  match l with DebugLevel => -1 | InfoLevel => 0 | WarnLevel => 1 | ErrorLevel => 2 | FatalLevel => 5 end.

Definition parseLevel (s : string) : Level :=
  if decide (s = "debug") then DebugLevel
  else if decide (s = "info") then InfoLevel
  else if decide (s = "warn") then WarnLevel
  else if decide (s = "error") then ErrorLevel
  else InfoLevel.

(** The console, and a file when there is a directory for it; one level for
    both. *)
Record Logger := MkLogger { log_level : Level; log_file : option (string * string) }.

Section startup.
Context `{OTel}.

(** What the system answers: whether a directory can be made; today's date;
    whether etcd and MySQL let themselves be opened; durations. *)
Context (MkdirAll : string -> bool) (today : string)
  (NewEtcdStore : EtcdConfig -> PrefixesConfig -> bool)
  (gorm_Open : string -> bool) (NewHistoryStore : bool) (ParseDuration : string -> option Z).

(** The process: the global logger and tracing, the lines logged, the settings
    of the database's connections, whether etcd is open. *)
Record DBSettings := MkDBSettings {
  db_dsn : string; db_idle : option Z; db_open : option Z; db_lifetime : option Z }.

Record Process := MkProcess {
  global : option Logger; tracing : Tracing; lines : list (Level * string);
  database : option DBSettings; etcd_open : bool }.

#[global] Instance eta_Process : Eta Process := fun p =>
  MkProcess (global p) (tracing p) (lines p) (database p) (etcd_open p).

Definition fresh_process : Process := MkProcess None no_tracing [] None false.

Definition Logger_New (cfg : LoggerConfig) : option Logger :=
  let lvl := parseLevel (lg_Level cfg) in
  if decide (lg_Dir cfg = "") then Some (MkLogger lvl None)
  else if MkdirAll (lg_Dir cfg)
  then Some (MkLogger lvl (Some (lg_Dir cfg, "vibeflow-" +:+ today +:+ ".log")))
  else None.

(** [true] when it has been set up. *)
Definition Logger_Init (cfg : LoggerConfig) : M Process bool :=
  match Logger_New cfg with
  | None => mret false
  | Some l => modify (fun p => p <| global := Some l |>);; mret true
  end.

(** A method of the global logger: a nil pointer has no [zap] field. *)
Definition log (lvl : Level) (msg : string) : M Process unit :=
  l ← gets global;
  match l with
  | None => panic
  | Some l =>
      if level_rank (log_level l) <=? level_rank lvl
      then modify (fun p => p <| lines ::= fun ls => ls ++ [(lvl, msg)] |>)
      else mret tt
  end.

(** [logger.Sync], which is careful. *)
Definition Sync : M Process unit := mret tt.

(** ** The connections *)

Definition on_tracing {A : Type} (f : M Tracing A) : M Process A := fun p =>
  match f (tracing p) with
  | Ret (a, t) => Ret (a, p <| tracing := t |>)
  | Panic => Panic
  | Blocked => Blocked
  end.

Definition dsn (cfg : MySQLConfig) : string :=
  my_User cfg +:+ ":" +:+ my_Password cfg +:+ "@tcp(" +:+ my_Host cfg +:+ ":" +:+ pretty (my_Port cfg) +:+ ")/"
    +:+ my_Database cfg +:+ "?charset=" +:+ my_Charset cfg +:+ "&parseTime=True&loc=Local".

Definition if_positive (n : Z) : option Z := if 0 <? n then Some n else None.

Definition OpenDB (cfg : MySQLConfig) : M Process bool :=
  if negb (gorm_Open (dsn cfg)) then mret false
  else
    lifetime ←
      (if decide (my_MaxConnLifetime cfg = "") then mret None
       else
         match ParseDuration (my_MaxConnLifetime cfg) with
         | Some d => mret (Some d)
         | None => log WarnLevel "解析 MaxConnLifetime 失败，使用默认值";; mret None
         end);
    modify (fun p => p <| database :=
      Some (MkDBSettings (dsn cfg) (if_positive (my_MaxIdle cfg)) (if_positive (my_MaxOpen cfg)) lifetime) |>);;
    log InfoLevel "MySQL 连接已建立";;
    mret true.

Inductive start_error : Type := NoLogger | NoEtcd | NoMySQL.

(** What both programs begin with. *)
Definition set_up (cfg : Config) : M Process (res start_error unit) :=
  ok ← Logger_Init (cf_Logger cfg);
  if negb ok then mret (Err NoLogger)
  else
    r ← on_tracing (Init (cf_Tracing cfg));
    match r with
    | Err _ => log WarnLevel "链路追踪初始化失败，将以无追踪模式运行"
    | Ok _ => mret tt
    end;;
    if NewEtcdStore (cf_Etcd cfg) (cf_Prefixes cfg)
    then modify (fun p => p <| etcd_open := true |>);; mret (Ok tt)
    else mret (Err NoEtcd).

Definition open_history (cfg : Config) : M Process (res start_error unit) :=
  if decide (my_Host (cf_MySQL cfg) = "") then mret (Ok tt)
  else
    ok ← OpenDB (cf_MySQL cfg);
    if ok && NewHistoryStore then log InfoLevel "MySQL 历史记录存储已初始化";; mret (Ok tt)
    else mret (Err NoMySQL).

Definition try_ {A : Type} (r : res start_error unit) (k : M Process (res start_error A))
  : M Process (res start_error A) :=
  match r with Err e => mret (Err e) | Ok _ => k end.

Definition lift_out {A S : Type} (o : out (A * S)) : M Process S :=
  match o with Ret (_, s) => mret s | Panic => panic | Blocked => blocked end.

(** [app.NewMaster] and [app.NewWorker]. *)
Definition App_NewMaster (cfg : Config) (hs : option HistoryStore) (r : Plugins) (now : Z)
  : M Process (res start_error Master) :=
  e ← set_up cfg;
  try_ e (e ← open_history cfg;
          try_ e (w ← lift_out (NewMaster cfg hs r now); mret (Ok (MkMaster w true false [])))).

Definition App_NewWorker (cfg : Config) (r : Plugins) : M Process (res start_error Worker) :=
  e ← set_up cfg;
  try_ e (w ← lift_out (NewWorker_app cfg r); mret (Ok w)).

(** ** The two programs *)

Inductive end_ : Type := Exit (code : Z) | Returned.

(** [defer master.Close()]: not run by [os.Exit]. *)
Definition Close : M Process unit :=
  modify (fun p => p <| etcd_open := false |>);;
  on_tracing Shutdown_tracing;;
  Sync.

Definition exit_with (msg : string) : M Process end_ := log ErrorLevel msg;; mret (Exit 1).

Definition main_master `{Outside} (file : option (Config -> option Config)) (hs : option HistoryStore)
    (r : Plugins) (now : Z) : M Process end_ :=
  match Load file with
  | Err _ => exit_with "加载配置文件失败"
  | Ok cfg =>
      m ← App_NewMaster cfg hs r now;
      match m with
      | Err _ => exit_with "初始化 Master 失败"
      | Ok m =>
          lift_out (Run (cf_Master cfg) m);;
          Close;;
          mret Returned
      end
  end.

(** [work]: [Worker.Start] until the signal has ended its context. *)
Definition main_worker (work : M Worker unit) (file : option (Config -> option Config)) (r : Plugins)
  : M Process end_ :=
  match Load file with
  | Err _ => exit_with "加载配置文件失败"
  | Ok cfg =>
      wk ← App_NewWorker cfg r;
      match wk with
      | Err _ => exit_with "初始化 Worker 失败"
      | Ok wk =>
          lift_out (work wk);;
          Close;;
          mret Returned
      end
  end.

(** ** Properties *)

Definition logger_fails (cfg : Config) : bool :=
  negb (bool_decide (lg_Dir (cf_Logger cfg) = "")) && negb (MkdirAll (lg_Dir (cf_Logger cfg))).

Definition mysql_fails (cfg : Config) : bool :=
  negb (bool_decide (my_Host (cf_MySQL cfg) = "")) &&
  negb (gorm_Open (dsn (cf_MySQL cfg)) && NewHistoryStore).

(** The logger is set, at a level that lets errors through. *)
Definition usable (p : Process) : Prop := exists l, global p = Some l /\ level_rank (log_level l) <= 2.

Lemma parseLevel_error s : level_rank (parseLevel s) <= 2.
Proof. unfold parseLevel. repeat case_decide; cbn; lia. Qed.

Lemma wp_log lvl msg (Q : unit -> Process -> Prop) p : usable p ->
  (forall ls, Q tt (p <| lines := ls |>)) -> wp (log lvl msg) Q p.
Proof.
  intros (l & Hl & Hr) HQ. unfold log. apply wp_bind, wp_gets. rewrite Hl.
  case_match; [apply wp_modify, HQ|apply wp_ret]. specialize (HQ (lines p)). by destruct p.
Qed.

Lemma exit_logged msg p : usable p ->
  wp (exit_with msg) (fun e p' => e = Exit 1 /\ list.last (lines p') = Some (ErrorLevel, msg) /\
    etcd_open p' = etcd_open p) p.
Proof.
  intros (l & Hl & Hr). unfold exit_with, log. apply wp_bind, wp_bind, wp_gets. rewrite Hl.
  rewrite (proj2 (Z.leb_le _ _)) by done. apply wp_modify, wp_ret. split_and!; [done| |done]. cbn. apply last_snoc.
Qed.

Lemma exit_nil msg p : global p = None -> exit_with msg p = Panic.
Proof. intros Hg. unfold exit_with, log, gets, mbind, M_bind. by rewrite Hg. Qed.

Lemma set_up_no_logger cfg p : logger_fails cfg = true -> set_up cfg p = Ret (Err NoLogger, p).
Proof.
  unfold logger_fails, set_up, Logger_Init, Logger_New. intros Hf. unfold mbind, M_bind.
  destruct (decide (lg_Dir (cf_Logger cfg) = "")) as [Hd|Hd].
  - rewrite Hd in Hf. done.
  - destruct (MkdirAll (lg_Dir (cf_Logger cfg))); [by rewrite andb_false_r in Hf|done].
Qed.

(** The provider of traces that a configuration asks for and the libraries can
    make; tracing with it, and without. *)
Definition provider_of (cfg : TracingConfig) : option Provider :=
  if tr_Enabled cfg && negb (bool_decide (tr_Endpoint cfg = "")) then
    exporter ← otlp_new (tr_Endpoint cfg);
    res ← resource_new (service_name cfg);
    Some (NewTracerProvider exporter res (sample_rate cfg))
  else None.

Definition tracing_of (cfg : TracingConfig) (shut : bool) : Tracing :=
  match provider_of cfg with
  | Some pr => MkTracing (Some (provider_Tracer pr (service_name cfg))) (Some pr) true shut
  | None => no_tracing
  end.

Lemma Init_tracing cfg : exists r, Init cfg no_tracing = Ret (r, tracing_of cfg false).
Proof.
  unfold Init, tracing_of, provider_of. destruct (tr_Enabled cfg); cbn [negb andb]; [|by eexists].
  destruct (decide _) as [Hd|Hd]; [rewrite bool_decide_true by done; by eexists|].
  rewrite bool_decide_false by done. cbn [negb]. destruct (otlp_new _) as [x|]; [|by eexists]. cbn.
  destruct (resource_new _) as [rs|]; by eexists.
Qed.

Lemma Shutdown_of cfg : Shutdown_tracing (tracing_of cfg false) = Ret (tt, tracing_of cfg true).
Proof. unfold tracing_of. by destruct (provider_of cfg). Qed.

(** A process whose logger is set up, with its connections. *)
Definition running (cfg : Config) (db : option DBSettings) (etcd : bool) (p : Process) : Prop :=
  usable p /\ tracing p = tracing_of (cf_Tracing cfg) false /\ database p = db /\ etcd_open p = etcd.

Lemma running_log cfg db etcd p ls : running cfg db etcd p -> running cfg db etcd (p <| lines := ls |>).
Proof. by intros ((l & ?) & ? & ? & ?); split_and!; [exists l|..]. Qed.

Lemma set_up_logger cfg (Q : res start_error unit -> Process -> Prop) : logger_fails cfg = false ->
  let etcd := NewEtcdStore (cf_Etcd cfg) (cf_Prefixes cfg) in
  (forall p, running cfg None etcd p -> Q (if etcd then Ok tt else Err NoEtcd) p) ->
  wp (set_up cfg) Q fresh_process.
Proof.
  intros Hf etcd HQ. unfold logger_fails in Hf. unfold set_up, Logger_Init.
  assert (Hl : exists l, Logger_New (cf_Logger cfg) = Some l /\ level_rank (log_level l) <= 2).
  { unfold Logger_New. destruct (decide _) as [Hd|Hd]; [eexists; split; [done|apply parseLevel_error]|].
    rewrite bool_decide_false in Hf by done. destruct (MkdirAll _); [|done].
    eexists. split; [done|apply parseLevel_error]. }
  destruct Hl as (l & -> & Hr). apply wp_bind, wp_bind, wp_modify, wp_ret. cbn [negb].
  apply wp_bind. unfold wp at 1, on_tracing. destruct (Init_tracing (cf_Tracing cfg)) as [r Hi].
  match goal with |- context [tracing ?p] => change (tracing p) with no_tracing end. rewrite Hi.
  set (p1 := upd tracing _ _). assert (Hp1 : running cfg None false p1) by (split_and!; [by exists l|done..]).
  clearbody p1. apply wp_bind. fold etcd.
  assert (Hend : forall p, running cfg None false p -> wp (if etcd
    then modify (fun p => p <| etcd_open := true |>);; mret (Ok tt) else mret (Err NoEtcd)) Q p).
  { intros p Hp. destruct etcd; [|by apply wp_ret, HQ]. apply wp_bind, wp_modify, wp_ret, HQ.
    destruct Hp as ((l' & ?) & ? & ? & ?). split_and!; [by exists l'|done..]. }
  destruct r as [u|e]; [by apply wp_ret, Hend|]. apply wp_log; [apply Hp1|]. intros ls. by apply Hend, running_log.
Qed.

(** The settings of the database's connections. *)
Definition pool_of (cfg : MySQLConfig) : DBSettings :=
  MkDBSettings (dsn cfg) (if_positive (my_MaxIdle cfg)) (if_positive (my_MaxOpen cfg))
    (if decide (my_MaxConnLifetime cfg = "") then None else ParseDuration (my_MaxConnLifetime cfg)).

Lemma OpenDB_spec cfg etcd db p (Q : bool -> Process -> Prop) : running cfg db etcd p ->
  (gorm_Open (dsn (cf_MySQL cfg)) = false -> Q false p) ->
  (gorm_Open (dsn (cf_MySQL cfg)) = true -> forall p', running cfg (Some (pool_of (cf_MySQL cfg))) etcd p' -> Q true p') ->
  wp (OpenDB (cf_MySQL cfg)) Q p.
Proof.
  intros Hp Hno Hyes. unfold OpenDB. destruct (gorm_Open _); cbn [negb]; [|by apply wp_ret, Hno].
  specialize (Hyes eq_refl). unfold pool_of in Hyes. apply wp_bind.
  assert (Hrest : forall d p, running cfg db etcd p ->
    (forall p', running cfg (Some (MkDBSettings (dsn (cf_MySQL cfg)) (if_positive (my_MaxIdle (cf_MySQL cfg)))
        (if_positive (my_MaxOpen (cf_MySQL cfg))) d)) etcd p' -> Q true p') ->
    wp (modify (fun p => p <| database :=
      Some (MkDBSettings (dsn (cf_MySQL cfg)) (if_positive (my_MaxIdle (cf_MySQL cfg)))
        (if_positive (my_MaxOpen (cf_MySQL cfg))) d) |>);; log InfoLevel "MySQL 连接已建立";; mret true) Q p).
  { intros d p1 ((l & Hl & Hr) & Ht & _ & He) HQ. apply wp_bind, wp_modify, wp_bind, wp_log; [by exists l|].
    intros ls. apply wp_ret, HQ, running_log. split_and!; [by exists l|done..]. }
  case_decide; [by apply wp_ret, Hrest|]. destruct (ParseDuration _); [by apply wp_ret, Hrest|].
  apply wp_bind, wp_log; [apply Hp|]. intros ls. apply wp_ret, Hrest; [by apply running_log|done].
Qed.

(** The handle of MySQL, once it is open. *)
Definition handle_of (cfg : Config) : option DBSettings :=
  if decide (my_Host (cf_MySQL cfg) = "") then None else Some (pool_of (cf_MySQL cfg)).

Lemma open_history_spec cfg etcd p (Q : res start_error unit -> Process -> Prop) : running cfg None etcd p ->
  (mysql_fails cfg = true -> forall db p', running cfg db etcd p' -> Q (Err NoMySQL) p') ->
  (mysql_fails cfg = false -> forall p', running cfg (handle_of cfg) etcd p' -> Q (Ok tt) p') ->
  wp (open_history cfg) Q p.
Proof.
  intros Hp Hno Hyes. unfold open_history, mysql_fails, handle_of in *. case_decide as Hh.
  { rewrite bool_decide_true in Hyes by done. by apply wp_ret, Hyes. }
  rewrite bool_decide_false in Hno, Hyes by done. cbn [negb andb] in *.
  apply wp_bind, (OpenDB_spec cfg etcd None); [done|..]; intros Ho; rewrite Ho in Hno, Hyes; cbn [negb andb] in *.
  - by eapply wp_ret, Hno.
  - intros p' Hp'. destruct NewHistoryStore; cbn [negb] in *; [|by eapply wp_ret, Hno].
    apply wp_bind, wp_log; [apply Hp'|]. intros ls. by apply wp_ret, Hyes, running_log.
Qed.

(** Once closed: etcd and tracing are; the handle of MySQL is as it was. *)
Lemma wp_Close cfg db etcd p (Q : unit -> Process -> Prop) : running cfg db etcd p ->
  (forall p', etcd_open p' = false -> tracing p' = tracing_of (cf_Tracing cfg) true -> database p' = db -> Q tt p') ->
  wp Close Q p.
Proof.
  intros (_ & Ht & Hdb & _) HQ. unfold Close. apply wp_bind, wp_modify, wp_bind. unfold wp at 1, on_tracing.
  change (tracing (p <| etcd_open := false |>)) with (tracing p). rewrite Ht, Shutdown_of. by apply HQ.
Qed.

(** C32: How a master starts and what it leaves.  A configuration that does not
    load, or a log directory that cannot be made, ends in a nil pointer: the error
    is logged with a logger that does not exist yet.  With a logger, a failing etcd
    or MySQL is logged and the process exits with 1, with etcd left open
    if it was opened.  Otherwise the master runs; once it has run, etcd is
    closed and the traces are shut down if they were set up, but the handle of
    MySQL is still open if a database is configured. *)
Theorem master_start `{Outside} (file : option (Config -> option Config)) (hs : option HistoryStore)
    (r : Plugins) (now : Z) :
  (forall e, Load file = Err e -> main_master file hs r now fresh_process = Panic) /\
  (forall cfg, Load file = Ok cfg ->
     let etcd := NewEtcdStore (cf_Etcd cfg) (cf_Prefixes cfg) in
     (logger_fails cfg = true -> main_master file hs r now fresh_process = Panic) /\
     (logger_fails cfg = false ->
        (etcd = false \/ mysql_fails cfg = true ->
           wp (main_master file hs r now) (fun e p => e = Exit 1 /\
             list.last (lines p) = Some (ErrorLevel, "初始化 Master 失败") /\ etcd_open p = etcd) fresh_process) /\
        (etcd = true -> mysql_fails cfg = false ->
           forall w m, NewMaster cfg hs r now = Ret (tt, w) ->
             Run (cf_Master cfg) (MkMaster w true false []) = Ret (tt, m) ->
             wp (main_master file hs r now) (fun e p => e = Returned /\ etcd_open p = false /\
               tracing p = tracing_of (cf_Tracing cfg) true /\
               database p = if decide (my_Host (cf_MySQL cfg) = "") then None else Some (pool_of (cf_MySQL cfg)))
             fresh_process))).
Proof.
  split; [intros e He; unfold main_master; rewrite He; by apply exit_nil|].
  intros cfg Hcfg etcd. unfold main_master. rewrite Hcfg. split.
  - intros Hf. assert (E : App_NewMaster cfg hs r now fresh_process = Ret (Err NoLogger, fresh_process))
      by (unfold App_NewMaster, mbind, M_bind; by rewrite set_up_no_logger).
    unfold mbind, M_bind. rewrite E. by apply exit_nil.
  - intros Hf. split.
    + intros Hbad. unfold App_NewMaster. apply wp_bind, wp_bind, set_up_logger; [done|]. fold etcd. intros p1 Hp1.
      assert (Hex : forall db p, running cfg db etcd p -> wp (exit_with "初始化 Master 失败") (fun e p => e = Exit 1 /\
        list.last (lines p) = Some (ErrorLevel, "初始化 Master 失败") /\ etcd_open p = etcd) p).
      { intros db p (Hu & _ & _ & <-). by apply exit_logged. }
      destruct etcd; cbn [try_]; [|by eapply wp_ret, Hex]. destruct Hbad as [|Hbad]; [done|].
      apply wp_bind, (open_history_spec cfg true); [done| |congruence]. intros _ db p2 Hp2. by eapply wp_ret, Hex.
    + intros He Hm w m Hw Hrun. unfold App_NewMaster. apply wp_bind, wp_bind, set_up_logger; [done|].
      intros p1 Hp1. fold etcd in Hp1 |- *. rewrite He in Hp1 |- *. cbn [try_].
      apply wp_bind, (open_history_spec cfg true); [done|congruence|]. intros _ p2 Hp2. cbn [try_]. rewrite Hw.
      apply wp_bind, wp_ret, wp_ret. rewrite Hrun. apply wp_bind, wp_ret, wp_bind.
      eapply wp_Close; [done|]. intros p3 He3 Ht3 Hdb3. by apply wp_ret.
Qed.

(** The same holds of a worker, which has no MySQL. *)
Theorem worker_start (work : M Worker unit) (file : option (Config -> option Config)) (r : Plugins) :
  (forall e, Load file = Err e -> main_worker work file r fresh_process = Panic) /\
  (forall cfg, Load file = Ok cfg ->
     (logger_fails cfg = true -> main_worker work file r fresh_process = Panic) /\
     (logger_fails cfg = false -> NewEtcdStore (cf_Etcd cfg) (cf_Prefixes cfg) = false ->
        wp (main_worker work file r) (fun e p => e = Exit 1 /\
          list.last (lines p) = Some (ErrorLevel, "初始化 Worker 失败") /\ etcd_open p = false) fresh_process)).
Proof.
  unfold main_worker. split; [intros e ->; by apply exit_nil|]. intros cfg ->. split.
  - intros Hf. assert (E : App_NewWorker cfg r fresh_process = Ret (Err NoLogger, fresh_process))
      by (unfold App_NewWorker, mbind, M_bind; by rewrite set_up_no_logger).
    unfold mbind, M_bind. rewrite E. by apply exit_nil.
  - intros Hf He. unfold App_NewWorker. apply wp_bind, wp_bind, set_up_logger; [done|]. intros p1 Hp1.
    rewrite He in Hp1 |- *. destruct Hp1 as (Hu & _ & _ & <-). by apply wp_ret, exit_logged.
Qed.

End startup.

(** ** Witness *)

(** A configuration file that is missing; a log directory that cannot be
    made, with the default configuration; and with that configuration, a run to the end, with
    tracing off: the handle of MySQL is left. *)
#[local] Instance ex_outside : Outside := {| until_signal := mret tt; quiesce := fun _ => mret true |}.

Definition ex_main (MkdirAll : string -> bool) (file : option (Config -> option Config)) : M (Process (H := ex_otel)) end_ :=
  main_master (H := ex_otel) MkdirAll "2024-01-01" (fun _ _ => true) (fun _ => true) true (fun _ => None)
    file None (MkPlugins [] []) 0.

Definition ending {S : Type} (s : S) (o : out (unit * S)) : S := match o with Ret (_, s') => s' | _ => s end.

Lemma master_start_witness :
  ex_main (fun _ => true) None (fresh_process (H := ex_otel)) = Panic /\
  ex_main (fun _ => false) (Some Some) (fresh_process (H := ex_otel)) = Panic /\
  wp (ex_main (fun _ => true) (Some Some)) (fun e p => e = Returned /\ etcd_open p = false /\
    tracing p = no_tracing (H := ex_otel) /\
    database p = Some (pool_of (fun _ => None) (cf_MySQL DefaultConfig))) (fresh_process (H := ex_otel)).
Proof.
  split_and!.
  - apply (proj1 (master_start (H := ex_otel) (fun _ => true) "2024-01-01" (fun _ _ => true) (fun _ => true) true
      (fun _ => None) None None (MkPlugins [] []) 0) Unreadable). reflexivity.
  - apply (proj2 (master_start (H := ex_otel) (fun _ => false) "2024-01-01" (fun _ _ => true) (fun _ => true) true
      (fun _ => None) (Some Some) None (MkPlugins [] []) 0) DefaultConfig); reflexivity.
  - set (w := ending (master_scheduler DefaultConfig None 0) (NewMaster DefaultConfig None (MkPlugins [] []) 0)).
    set (m := ending (MkMaster w true false []) (Run (cf_Master DefaultConfig) (MkMaster w true false []))).
    apply (proj2 (master_start (H := ex_otel) (fun _ => true) "2024-01-01" (fun _ _ => true) (fun _ => true) true
      (fun _ => None) (Some Some) None (MkPlugins [] []) 0) DefaultConfig) with (w := w) (m := m); vm_compute; reflexivity.
Defined.
