(* ===== verification/Restart.v ===== *)
(** * A master that starts again (infra/engine/scheduler/repository.go:
    recoverRunningWorkflows; infra/app/master.go: NewMaster)

    What the recovery looks at, and what a new process does not know any more. *)
From Stdlib Require Import ZArith Lia.
From stdpp Require Import base gmap strings list.
From S2P Require Import Prelude GoVal Model Validate Copy Payload Dispatcher EventTriggers Listeners World Manager Repository.
From S2P Require Import Parallel Executor Watch Config Shutdown.
Set Warnings "-register-all,-clear-no-such-hyp,-level-tolerance".
Local Open Scope Z_scope.
Local Open Scope list_scope.

(** ** Programs that do not look at the tasks in etcd *)

Definition with_tasks (e : gmap string TaskPayload) (w : World) : World := w <| etcd := e |>.

Definition after {A : Type} (f : World -> World) (o : out (A * World)) : out (A * World) :=
  match o with Ret (a, w) => Ret (a, f w) | Panic => Panic | Blocked => Blocked end.

Definition blind {A : Type} (m : M World A) : Prop :=
  forall e w, m (with_tasks e w) = after (with_tasks e) (m w).

Section blind.
Context {A B : Type}.

Lemma blind_ret (a : A) : blind (mret a).
Proof. done. Qed.

Lemma blind_panic : blind (panic : M World A).
Proof. done. Qed.

Lemma blind_bind (m : M World A) (f : A -> M World B) : blind m -> (forall a, blind (f a)) -> blind (m ≫= f).
Proof.
  intros Hm Hf e w. unfold mbind, M_bind. rewrite Hm. destruct (m w) as [[a w']| |]; [|done..]. apply Hf.
Qed.

Lemma blind_gets (f : World -> A) : (forall e w, f (with_tasks e w) = f w) -> blind (gets f).
Proof. intros Hf e w. unfold gets. cbn. by rewrite Hf. Qed.

Lemma blind_modify (f : World -> World) :
  (forall e w, f (with_tasks e w) = with_tasks e (f w)) -> blind (modify f).
Proof. intros Hf e w. unfold modify. cbn. by rewrite Hf. Qed.

Lemma blind_db_call (f : nat -> res string A) : blind (db_call f).
Proof. done. Qed.

(** A read whose answer makes no difference. *)
Lemma blind_unused (m : M World B) (k : B -> M World A) :
  (forall e w, exists a b w', m w = Ret (a, w') /\ m (with_tasks e w) = Ret (b, with_tasks e w')) ->
  (forall a b w, k a w = k b w) -> (forall a, blind (k a)) -> blind (m ≫= k).
Proof.
  intros Hm Hab Hk e w. unfold mbind, M_bind. destruct (Hm e w) as (a & b & w' & -> & ->).
  rewrite (Hab b a). apply Hk.
Qed.

End blind.

#[local] Hint Resolve blind_ret blind_panic blind_db_call : core.

Lemma scan_unused uuid e w : exists a b w', scanEtcdPendingTasks uuid w = Ret (a, w') /\
  scanEtcdPendingTasks uuid (with_tasks e w) = Ret (b, with_tasks e w').
Proof.
  destruct w as [? ? ? ? ? ? ? ? ? ? ? ? ? ? ? ? ? ? ? ? ? ? ? fl ? ? ? ? ?].
  unfold scanEtcdPendingTasks, store_answer, gets, mbind, M_bind, with_tasks. cbn.
  destruct fl as [|[] fl]; cbn; eexists _, _, _; split; reflexivity.
Qed.

Lemma blind_apply hs execID d st : blind (apply_recorded hs execID d st).
Proof.
  unfold apply_recorded, applyDeltasToState. destruct d as [m|]; [auto|]. apply blind_bind; auto.
Qed.

Lemma blind_recover_single rec d : blind (recoverSingleWorkflow rec d).
Proof.
  unfold recoverSingleWorkflow. destruct (er_Data rec) as [st|]; [|auto]. cbv zeta.
  set (uuid := if decide (WorkflowUUID st = "") then _ else _).
  destruct (decide (uuid = "")); [auto|]. apply blind_bind; [by apply blind_gets|]. intros [hs|]; [|auto].
  apply blind_unused; [apply scan_unused| |].
  { intros a b w. unfold mbind, M_bind. destruct (apply_recorded hs _ d st w) as [[st' w']| |]; [|done..].
    destruct (ws_Workflow st') as [wf|]; [|done]. by rewrite (recovery_point_pending a b). }
  intros pending. apply blind_bind; [apply blind_apply|]. intros st'.
  destruct (ws_Workflow st') as [wf|]; [|auto]. destruct (recovery_point _ _ _ _ _) as [i up].
  apply blind_bind; [by apply blind_gets|]. intros ctx. apply blind_bind; [by apply blind_modify|]. intros _.
  apply blind_bind; [intros e w; unfold lock_wm; cbn; by destruct (wm_locked w)|]. intros _.
  apply blind_bind; [by apply blind_gets|]. intros [x|]; [by apply blind_modify|].
  apply blind_bind; [by apply blind_modify|]. intros _. apply blind_bind; [by apply blind_modify|]. intros _.
  apply blind_bind; [by apply blind_gets|]. intros t. apply blind_bind.
  - destruct (0 <? TimeoutSec wf); [by apply blind_modify|auto].
  - intros _. destruct (i <? _); [by apply blind_modify|auto].
Qed.

(** The first group with a task that is not completed. *)
Definition first_open (completed : gmap string vmap) (groups : list (list TaskNode)) (n : nat) (g : list TaskNode)
  : Prop :=
  groups !! n = Some g /\ (exists node, node ∈ g /\ completed !! Name node = None) /\
  forall node, node ∈ concat (take n groups) -> is_Some (completed !! Name node).

Lemma first_open_unique completed groups n g n' g' :
  first_open completed groups n g -> first_open completed groups n' g' -> n = n'.
Proof.
  assert (Hlt : forall n g n' g', first_open completed groups n g -> first_open completed groups n' g' -> (n' <= n)%nat).
  { intros k h k' h' (Hk & (node & Hin & Hopen) & _) (_ & _ & Hall). destruct (decide (k' <= k)%nat); [done|].
    exfalso. destruct (Hall node) as [o Ho]; [|congruence]. apply list_elem_of_In, in_concat. exists h.
    rewrite <- !list_elem_of_In. split; [|done]. apply (list_elem_of_lookup_2 _ k).
    by rewrite lookup_take_lt by lia. }
  intros Ha Hb. pose proof (Hlt _ _ _ _ Ha Hb). pose proof (Hlt _ _ _ _ Hb Ha). lia.
Qed.

(** C28: A recovered run goes over its first open group as a whole.  The
    recovery scans etcd for the run's pending tasks, so that they are not
    pushed twice, but does the same whatever tasks are there; and
    the execution that it starts begins, in any world in which the run is still there,
    with a goroutine for every task of the group (if none of
    them is of an advanced kind) that is yet to push its task: those
    completed before the restart and those still pending in etcd included. *)
Theorem recovery_pushes_again `{GoPlatform} `{Naming} `{Environment} (rec : ExecutionRecord) (hs : HistoryStore)
    (m : gmap Z (option (list TaskDelta))) (st : WorkflowState) (wf : Workflow) (n : nat) (g : list TaskNode)
    (w : World) :
  wm_locked w = false -> historyStore w = Some hs -> er_Data rec = Some st ->
  WorkflowUUID st <> "" -> ws_Workflow (with_deltas m (er_ExecutionID rec) st) = Some wf ->
  runningEntries w !! WorkflowUUID st = None ->
  first_open (CompletedTasks (with_deltas m (er_ExecutionID rec) st)) (TaskGroups wf) n g ->
  detectAdvancedNodes g = PlainGroup ->
  let uuid := WorkflowUUID st in
  let ctx := nextCtx w in
  (forall e, recoverSingleWorkflow rec (Some m) (with_tasks e w) =
             after (with_tasks e) (recoverSingleWorkflow rec (Some m) w)) /\
  wp (recoverSingleWorkflow rec (Some m)) (fun _ w' => exists ups,
    list.last (spawned w') = Some (GExecuteWorkflow ctx uuid ups (Z.of_nat n)) /\
    forall w2 st2, wm_locked w2 = false -> running_state uuid w2 = Some st2 -> ws_Workflow st2 = Some wf ->
      let jobs := start_task 0 (watchdog_of (all_tasks (master_timeout (Some st2)))) ups <$> g in
      Forall2 (fun node j => j_node j = node /\ j_phase j = Fresh) g jobs /\
      exists rest, Execute ctx uuid ups (Z.of_nat n) w2 =
        group_rest ctx uuid (Z.of_nat n) rest (unlimited jobs) jobs [] w2) w.
Proof.
  intros Hl Hs Hd Hu Hwf Hnone Hopen Hk uuid ctx. split; [intros e; apply blind_recover_single|].
  eapply wp_mono; [by apply (recovered_run rec hs m st wf w)|]. intros [] w' Hw'. cbn zeta in Hw'. fold uuid in Hw'.
  unfold uuid in Hw'. rewrite Hnone in Hw'. destruct Hw' as (_ & _ & _ & k & ups & _ & Hall & Hsp & Hnext).
  assert (k = n) as ->.
  { destruct (decide (k < length (TaskGroups wf))%nat) as [Hlt|Hge].
    - destruct (Hnext Hlt) as (h & node & Hh & Hin & Hno). eapply (first_open_unique _ _ k h n g); [|done].
      split_and!; [done|by exists node|done].
    - exfalso. destruct Hopen as (Hg & (node & Hin & Hno) & _). destruct (Hall node) as [o Ho]; [|congruence].
      rewrite take_ge by lia. apply list_elem_of_In, in_concat. exists g. rewrite <- !list_elem_of_In.
      split; [by eapply list_elem_of_lookup_2|done]. }
  destruct Hopen as (Hg & (node & Hin & _) & _). pose proof (lookup_lt_Some _ _ _ Hg) as Hlt.
  exists ups. split.
  { rewrite Hsp, decide_True by done. by rewrite app_comm_cons, (assoc_L app), list.last_snoc. }
  intros w2 st2 Hl2 Hst2 Hwf2 jobs. split.
  { unfold jobs. apply Forall2_fmap_r. apply Forall_Forall2_diag. by apply Forall_true. }
  assert (Hget : wm_GetWorkflowState uuid w2 = Ret (Some st2, w2)).
  { unfold wm_GetWorkflowState, LockEntry, lock_wm, gets, mbind, M_bind. rewrite Hl2.
    unfold running_state in Hst2. cbn. by rewrite Hst2. }
  eexists. unfold Execute. unfold mbind at 1, M_bind at 1. rewrite Hget, Hwf2. unfold fuel_for.
  rewrite (executeGroups_rest ctx uuid _ _ _ _ _ g); [| |by intros ->; apply elem_of_nil in Hin|lia|done].
  - unfold mbind at 1, M_bind at 1. rewrite Hget. reflexivity.
  - unfold group_at. rewrite (proj2 (Z.ltb_ge _ 0)) by lia. by rewrite Nat2Z.id.
Qed.

(** ** What is forgotten *)

Section keeps.
Context {B : Type} (f : World -> B).

(** Computations that leave a part of the world as it is. *)
Definition keeps {A : Type} (m : M World A) : Prop := forall w, wlp m (fun _ w' => f w' = f w) w.

Lemma keep_bind {A A' : Type} (m : M World A) (k : A -> M World A') :
  keeps m -> (forall a, keeps (k a)) -> keeps (m ≫= k).
Proof.
  intros Hm Hf w. apply wlp_bind. eapply wlp_mono; [apply Hm|]. intros a w' Hw.
  eapply wlp_mono; [apply Hf|]. intros b w'' Hw'. congruence.
Qed.

Lemma keep_ret {A : Type} (a : A) : keeps (mret a).
Proof. done. Qed.
Lemma keep_panic {A : Type} : keeps (panic : M World A).
Proof. done. Qed.
Lemma keep_gets {A : Type} (g : World -> A) : keeps (gets g).
Proof. done. Qed.
Lemma keep_modify (g : World -> World) : (forall w, f (g w) = f w) -> keeps (modify g).
Proof. intros Hg w. apply Hg. Qed.
Lemma keep_lock : keeps lock_wm.
Proof. intros w. unfold wlp, lock_wm. by destruct (wm_locked w). Qed.
Lemma keep_for_each {A : Type} (g : A -> M World unit) l :
  (forall a, a ∈ l -> keeps (g a)) -> keeps (for_each g l).
Proof.
  intros Hg w. apply wlp_for_each with (I := fun w' => f w' = f w); [|done].
  intros a w' Ha Hw. eapply wlp_mono; [by apply Hg|]. intros u w'' Hw'. cbn in *. congruence.
Qed.

End keeps.

(** The scheduled workflows, the dispatcher's slots and waiting tasks; and the
    runs. *)
Definition memory (w : World) : list (string * Workflow) * TaskDispatcher := (cronJobs w, w_td w).
Definition runs (w : World) : gmap string workflowEntry := runningEntries w.
Definition both (w : World) := (memory w, runs w).

Lemma both_eq w w' : both w' = both w -> memory w' = memory w /\ runs w' = runs w.
Proof. intros H. split; [exact (f_equal fst H)|exact (f_equal snd H)]. Qed.

Lemma keep_db_call {A : Type} (f : nat -> res string A) : keeps both (db_call f).
Proof. done. Qed.
Lemma keep_db_write {A : Type} wr (f : nat -> res string A) : keeps both (db_write_call wr f).
Proof. done. Qed.

#[local] Hint Resolve keep_ret keep_panic keep_gets keep_lock keep_db_call keep_db_write : core.

Lemma keep_load : keeps both loadHistory.
Proof.
  apply keep_bind; [auto|]. intros [hs|]; [|auto]. apply keep_bind; [auto|]. intros conf.
  apply keep_bind; [auto|]. intros [[records n]|e]; [|auto]. apply keep_for_each. intros rec _.
  apply keep_bind; [auto|]. intros _. apply keep_modify. intros w. unfold load_record. by destruct (er_Data rec).
Qed.

Lemma keep_scan uuid : keeps both (scanEtcdPendingTasks uuid).
Proof.
  apply keep_bind; [auto|]. intros prefix. apply keep_bind; [|intros []; auto].
  intros w. unfold wlp, store_answer. by destruct (faults w).
Qed.

Lemma keep_apply hs execID d st : keeps both (apply_recorded hs execID d st).
Proof. unfold apply_recorded, applyDeltasToState. destruct d; [auto|]. apply keep_bind; auto. Qed.

Lemma keep_RegisterWorkflow wf : keeps both (RegisterWorkflow wf).
Proof.
  unfold RegisterWorkflow. destruct (validateWorkflowName _); [|auto]. destruct (validateWorkflowTasks _); [|auto].
  apply keep_bind; [auto|]. intros _. destruct (DeepCopy wf); [|by apply keep_modify].
  apply keep_bind; [by apply keep_modify|]. intros _. apply keep_bind; [auto|]. intros [hs|]; [|auto].
  apply keep_bind; auto.
Qed.

(** ** Which runs are there *)

(** The workflow a record is of; none when its state cannot be read or has no
    UUID. *)
Definition record_uuid (rec : ExecutionRecord) : option string :=
  st ← er_Data rec;
  let uuid := if decide (WorkflowUUID st = "") then
                match ws_Workflow st with Some wf => UUID wf | None => "" end
              else WorkflowUUID st in
  if decide (uuid = "") then None else Some uuid.

Definition recovered_entry (e : workflowEntry) : Prop :=
  Status (we_state e) = WorkflowStatusRunning /\ recovered e = true.

(** The runs after some records have been gone through. *)
Definition recovered_from (records : list ExecutionRecord) (w w' : World) : Prop :=
  memory w' = memory w /\
  (forall u, is_Some (runs w' !! u) <-> is_Some (runs w !! u) \/ exists rec, rec ∈ records /\ record_uuid rec = Some u) /\
  (forall u e, runs w' !! u = Some e -> runs w !! u = Some e \/ recovered_entry e).

Lemma recovered_refl w : recovered_from [] w w.
Proof.
  split; [done|]. split; [|by left]. intros u. split; [by left|]. intros [?|(rec & Hrec & _)]; [done|].
  by apply elem_of_nil in Hrec.
Qed.

Lemma recovered_trans l k w w1 w2 :
  recovered_from l w w1 -> recovered_from k w1 w2 -> recovered_from (l ++ k) w w2.
Proof.
  intros (Hm & Hd & He) (Hm' & Hd' & He'). split; [congruence|]. split.
  - intros u. rewrite Hd', Hd. setoid_rewrite elem_of_app. naive_solver.
  - intros u e Hu. destruct (He' u e Hu) as [Hu'|Hu']; [by apply He|by right].
Qed.

(** A record that changes nothing, and one whose run is put in. *)
Lemma recovered_same rec w w' : both w' = both w ->
  match record_uuid rec with Some u => is_Some (runs w !! u) | None => True end -> recovered_from [rec] w w'.
Proof.
  intros [Hm Hr]%both_eq Hu. split; [done|]. rewrite Hr. split; [|by left]. intros u. split; [by left|].
  intros [?|(rec' & ->%list_elem_of_singleton & Heq)]; [done|]. by rewrite Heq in Hu.
Qed.

Lemma recovered_insert rec u e w w' : memory w' = memory w -> runs w' = <[u := e]> (runs w) ->
  record_uuid rec = Some u -> recovered_entry e -> recovered_from [rec] w w'.
Proof.
  intros Hm Hr Hu He. split; [done|]. rewrite Hr. split.
  - intros v. rewrite lookup_insert_is_Some'. split.
    + intros [<-|?]; [right; exists rec; by split; [left|]|by left].
    + intros [?|(rec' & ->%list_elem_of_singleton & Heq)]; [by right|left; congruence].
  - intros v e' [[_ <-]|[_ Hv]]%lookup_insert_Some; [by right|by left].
Qed.

Lemma keep_then {A A' : Type} (m : M World A) (k : A -> M World A') Q w0 w :
  keeps both m -> both w = both w0 -> (forall a w', both w' = both w0 -> wlp (k a) Q w') -> wlp (m ≫= k) Q w.
Proof.
  intros Hm Hw Hk. apply wlp_bind. eapply wlp_mono; [apply Hm|]. intros a w' Hw'. apply Hk. congruence.
Qed.

Lemma recover_single_exact rec d w : wlp (recoverSingleWorkflow rec d) (fun _ => recovered_from [rec] w) w.
Proof.
  unfold recoverSingleWorkflow. pose proof (recovered_same rec w) as Hsame.
  pose proof (fun u => recovered_insert rec u) as Hins. unfold record_uuid in *.
  destruct (er_Data rec) as [st|]; [|by apply wlp_ret, Hsame]. cbn [mbind option_bind] in Hsame, Hins. cbv zeta in *.
  set (uuid := if decide (WorkflowUUID st = "") then _ else _) in *.
  destruct (decide (uuid = "")); [by apply wlp_ret, Hsame|].
  apply wlp_bind, wlp_gets. destruct (historyStore w) as [hs|]; [|done].
  apply (keep_then _ _ _ w); [apply keep_scan|done|]. intros pending w1 Hw1.
  apply (keep_then _ _ _ w); [apply keep_apply|done|]. intros st' w2 Hw2.
  destruct (ws_Workflow st') as [wf|]; [|done]. destruct (recovery_point _ _ _ _ _) as [i up].
  apply wlp_bind, wlp_gets, wlp_bind, wlp_modify.
  apply (keep_then _ _ _ w); [apply keep_lock|exact Hw2|]. intros _ w3 Hw3. apply wlp_bind, wlp_gets.
  destruct (both_eq _ _ Hw3) as [Hm3 Hr3]. change (runningEntries w3) with (runs w3). rewrite Hr3. destruct (runs w !! uuid) as [e|] eqn:He; [apply wlp_modify, Hsame; [done|by exists e]|].
  apply wlp_bind, wlp_modify, wlp_bind, wlp_modify, wlp_bind, wlp_gets, wlp_bind.
  assert (Hend : forall w', memory w' = memory w -> runs w' = <[uuid := MkEntry (revived wf st') (nextCtx w2) true]> (runs w) ->
    recovered_from [rec] w w') by (intros w' Hm Hr; by eapply Hins).
  set (w4 := upd spawned _ _). assert (H4 : memory w4 = memory w /\
    runs w4 = <[uuid := MkEntry (revived wf st') (nextCtx w2) true]> (runs w)) by (split; [done|unfold runs in *; cbn; congruence]).
  clearbody w4. destruct H4 as [Hm4 Hr4].
  assert (Hlast : forall w', memory w' = memory w4 -> runs w' = runs w4 ->
    wlp (if i <? Z.of_nat (length (TaskGroups wf)) then spawn (GExecuteWorkflow (nextCtx w2) uuid up i) else mret tt)
      (fun _ => recovered_from [rec] w) w').
  { intros w' Hm' Hr'. destruct (i <? _); [apply wlp_modify|apply wlp_ret]; apply Hend; [by rewrite <- Hm4, <- Hm'|by rewrite <- Hr4, <- Hr'|by rewrite <- Hm4, <- Hm'|by rewrite <- Hr4, <- Hr']. }
  destruct (0 <? TimeoutSec wf); [apply wlp_modify|apply wlp_ret]; by apply Hlast.
Qed.

Lemma recover_all_exact d records : forall w,
  wlp (for_each (fun rec => recoverSingleWorkflow rec d) records) (fun _ => recovered_from records w) w.
Proof.
  induction records as [|rec l IH]; intros w; [apply recovered_refl|]. cbn. apply wlp_bind.
  eapply wlp_mono; [apply recover_single_exact|]. intros [] w1 H1. eapply wlp_mono; [apply IH|].
  intros [] w2 H2. by apply (recovered_trans [rec] l w w1 w2).
Qed.

(** What MySQL says is running, when it is asked as the [n]th. *)
Definition running_records (hs : option HistoryStore) (n : nat) : list ExecutionRecord :=
  match hs with
  | Some hs => match LoadRunningExecutions hs n with Ok l => l | Err _ => [] end
  | None => []
  end.

Lemma recover_exact w : wlp recoverRunningWorkflows
  (fun _ => recovered_from (running_records (historyStore w) (dbCalls w)) w) w.
Proof.
  unfold recoverRunningWorkflows, running_records. apply wlp_bind, wlp_gets.
  destruct (historyStore w) as [hs|]; [|apply recovered_refl]. apply wlp_bind. unfold wlp at 1, db_call at 1.
  assert (Hcall : forall w1 w2 l, both w1 = both w -> recovered_from l w1 w2 -> recovered_from l w w2).
  { intros w1 w2 l [Hm Hr]%both_eq. unfold recovered_from. by rewrite Hm, Hr. }
  destruct (LoadRunningExecutions hs (dbCalls w)) as [[|rec l]|]; [by apply wlp_ret; eapply Hcall; [|apply recovered_refl]|
    |by apply wlp_ret; eapply Hcall; [|apply recovered_refl]].
  apply wlp_bind. unfold wlp at 1, db_call. eapply wlp_mono; [apply recover_all_exact|]. intros [] w'. by apply Hcall.
Qed.

(** [loadHistory] asks MySQL once. *)
Lemma load_calls w : wlp loadHistory (fun _ w' => historyStore w' = historyStore w /\
  dbCalls w' = match historyStore w with Some _ => S (dbCalls w) | None => dbCalls w end) w.
Proof.
  unfold loadHistory. apply wlp_bind, wlp_gets. destruct (historyStore w) as [hs|] eqn:Hh; [|by apply wlp_ret].
  apply wlp_bind, wlp_gets, wlp_bind. unfold wlp at 1, db_call. destruct (LoadExecutions _ _ _ _) as [[records n]|e]; [|by apply wlp_ret].
  apply wlp_for_each; [|done]. intros rec w' _ [Hh' Hc']. apply wlp_bind. unfold wlp at 1, lock_wm.
  destruct (wm_locked w'); [done|]. apply wlp_modify. unfold load_record. by destruct (er_Data rec).
Qed.


(** ** Witnesses *)

(** The built-in plugin registers a workflow and schedules none. *)
Lemma builtin_keeps p : p ∈ masterPlugins (Register_plugins [builtin_master] (MkPlugins [] [])) -> keeps both p.
Proof.
  intros ->%list_elem_of_singleton. apply keep_bind; [apply keep_RegisterWorkflow|]. intros _. by apply keep_modify.
Qed.

(** A run of one group, whose task a is completed and whose task b waits in
    etcd for a worker. *)
Definition ex_unfinished : WorkflowState :=
  new_state (AddTaskGroup (NewWorkflow "demo") ["a"; "b"]) 0 <| CompletedTasks := {["a" := ∅]} |>.

Definition ex_recorded : HistoryStore :=
  MkHistoryStore (fun _ _ => Ok 1) (fun _ _ => Ok 1) (fun _ _ _ _ _ => Ok 7) (fun _ _ _ => Ok tt)
    (fun _ _ _ _ _ => Ok tt) (fun _ _ _ _ => Ok tt) (fun _ _ _ => Ok tt) (fun _ _ => Ok None)
    (fun _ _ => Ok ∅) (fun _ _ _ => Ok ([], 0)) (fun _ _ => Ok None)
    (fun _ => Ok [MkExecutionRecord 7 "demo" "demo" (Some ex_unfinished)]).

Definition ex_waiting_b : gmap string TaskPayload :=
  {["/vibeflow/tasks/PENDING/demo/b/1-0" := zero_payload <| WorkflowID := "demo" |> <| TaskName := "b" |>]}.


(** The recovery of that run; then the execution it starts: a is there again, and b
    twice. *)
Lemma recovery_pushes_again_witness :
  let w := NewScheduler (Some ex_recorded) (scheduler_config DefaultConfig) 0 in
  let rec := MkExecutionRecord 7 "demo" "demo" (Some ex_unfinished) in
  wp (recoverSingleWorkflow rec (Some ∅)) (fun _ w' => exists ups,
    list.last (spawned w') = Some (GExecuteWorkflow (nextCtx w) "demo" ups 0)) w /\
  match (recoverRunningWorkflows;; Execute (H := amd64) 1 "demo" [] 0) (with_tasks ex_waiting_b w) with
  | Ret (_, w') => (TaskName <$> (map_to_list (etcd w')).*2) ≡ₚ ["a"; "b"; "b"]
  | _ => False
  end.
Proof.
  intros w rec. split; [|vm_compute; reflexivity]. eapply wp_mono.
  - apply (recovery_pushes_again (H := amd64) (H1 := silent) rec ex_recorded ∅ ex_unfinished
      (AddTaskGroup (NewWorkflow "demo") ["a"; "b"]) 0 [named_node "a"; named_node "b"] w);
      try reflexivity; [discriminate|]. split_and!; [reflexivity| |].
    + exists (named_node "b"). split; [right; left|reflexivity].
    + intros node Hn. by apply elem_of_nil in Hn.
  - intros u w' (ups & Hl & _). exists ups. exact Hl.
Defined.
