(* ===== verification/Server.v ===== *)
(** * The HTTP server (transport/http/server/server.go)

    The table of routes and what a request reaches, the handlers in front of
    it, and how the server starts and stops.  Routing is Gin's: a parameter
    with its documented laws. *)
From Stdlib Require Import ZArith Lia.
From stdpp Require Import base gmap strings list.
From S2P Require Import Prelude GoVal Model World Effects Workers Config Tracing.
Set Warnings "-register-all,-clear-no-such-hyp,-level-tolerance".
Local Open Scope Z_scope.
Local Open Scope list_scope.

Inductive Method : Type := GET | POST | DELETE.

(** The functions of transport/http/handlers. *)
Inductive handler_name : Type :=
| DashboardPage | TasksPage | HistoryPage | WorkflowsPage | WorkflowDetail
| Health | Metrics | DashboardAPI | ListTaskTypes | ListWorkers
| CreateWorkflow | ListWorkflows | GetWorkflow | CancelWorkflow | RetryWorkflow | RunWorkflow
| ApproveWorkflow | RejectWorkflow | ListHistory | ListHistoryPaged | GetHistory
| TriggerWebhook | ListWebhookWorkflows | HandleWebSocket.

(** A path is its segments; [:name] is a parameter. *)
Inductive segment : Type := Static (s : string) | Param (name : string).

Record route := MkRoute { r_method : Method; r_path : list segment; r_handler : handler_name }.

#[export] Instance Method_eq_dec : EqDecision Method.
Proof. solve_decision. Defined.
#[export] Instance handler_name_eq_dec : EqDecision handler_name.
Proof. solve_decision. Defined.
#[export] Instance segment_eq_dec : EqDecision segment.
Proof. solve_decision. Defined.
#[export] Instance route_eq_dec : EqDecision route.
Proof. solve_decision. Defined.

Definition Group (prefix : list segment) (rs : list route) : list route :=
  (fun r => MkRoute (r_method r) (prefix ++ r_path r) (r_handler r)) <$> rs.

Definition api_routes : list route :=
  [MkRoute GET [Static "health"] Health;
   MkRoute GET [Static "metrics"] Metrics;
   MkRoute GET [Static "dashboard"] DashboardAPI;
   MkRoute GET [Static "tasks"] ListTaskTypes;
   MkRoute GET [Static "workers"] ListWorkers;
   MkRoute POST [Static "workflows"] CreateWorkflow;
   MkRoute GET [Static "workflows"] ListWorkflows;
   MkRoute GET [Static "workflows"; Param "uuid"] GetWorkflow;
   MkRoute DELETE [Static "workflows"; Param "uuid"] CancelWorkflow;
   MkRoute POST [Static "workflows"; Param "uuid"; Static "retry"] RetryWorkflow;
   MkRoute POST [Static "workflows"; Param "uuid"; Static "run"] RunWorkflow;
   MkRoute POST [Static "workflows"; Param "uuid"; Static "approve"] ApproveWorkflow;
   MkRoute POST [Static "workflows"; Param "uuid"; Static "reject"] RejectWorkflow;
   MkRoute GET [Static "history"] ListHistory;
   MkRoute GET [Static "history"; Static "paged"] ListHistoryPaged;
   MkRoute GET [Static "history"; Param "uuid"] GetHistory;
   MkRoute POST [Static "webhooks"; Param "uuid"] TriggerWebhook;
   MkRoute GET [Static "webhooks"] ListWebhookWorkflows].

Definition NewServer_routes : list route :=
  [MkRoute GET [] DashboardPage; MkRoute GET [Static "tasks"] TasksPage; MkRoute GET [Static "history"] HistoryPage] ++
  Group [Static "workflows"] [MkRoute GET [] WorkflowsPage; MkRoute GET [Param "uuid"] WorkflowDetail] ++
  Group [Static "api"; Static "v1"] api_routes ++
  [MkRoute GET [Static "ws"] HandleWebSocket].

(** ** Gin *)

(** A parameter takes one segment, which is not empty. *)
Fixpoint matches (path : list segment) (req : list string) : option (list (string * string)) :=
  match path, req with
  | [], [] => Some []
  | Static s :: path', x :: req' => if decide (s = x) then matches path' req' else None
  | Param n :: path', x :: req' => if decide (x = "") then None else (fun ps => (n, x) :: ps) <$> matches path' req'
  | _, _ => None
  end.

Definition static (path : list segment) : bool :=
  forallb (fun s => match s with Static _ => true | Param _ => false end) path.

(** [serve rs m req]: the handler that a router with the routes [rs] gives a
    request to, and its parameters. *)
Class Gin := { serve : list route -> Method -> list string -> option (handler_name * list (string * string)) }.

(** No method and path is registered twice, which Gin refuses. *)
Definition distinct (rs : list route) : Prop := NoDup ((fun r => (r_method r, r_path r)) <$> rs).

(** A request reaches a route that it matches, when there is one; an exact
    route goes before those with parameters. *)
Class GinLaws `{Gin} : Prop := {
  serve_sound rs m req h ps : serve rs m req = Some (h, ps) ->
    exists r, r ∈ rs /\ r_method r = m /\ r_handler r = h /\ matches (r_path r) req = Some ps;
  serve_complete rs r req ps : r ∈ rs -> matches (r_path r) req = Some ps -> is_Some (serve rs (r_method r) req);
  serve_exact rs r req : distinct rs -> r ∈ rs -> static (r_path r) = true -> matches (r_path r) req = Some [] ->
    serve rs (r_method r) req = Some (r_handler r, []) }.

(** ** In front of the routes *)

Inductive in_front : Type := Recovery | Traced (m : middleware) | CORS (maxAge : Z).

Definition NewServer_middlewares `{OTel} (t : Tracing) (cfg : MasterConfig) : list in_front :=
  Recovery :: (Traced <$> GinMiddlewares t) ++ [CORS (ms_CORSMaxAge cfg)].

Definition http_shutdown_timeout (cfg : MasterConfig) : Z :=
  if ms_ShutdownTimeout cfg <=? 0 then 10 * 1000000000 else ms_ShutdownTimeout cfg.

(** ** Start *)

(** [ESelect]: the error that [ListenAndServe] ended with, when its case is
    taken, or [None] when the context has ended.  [EShutdown]: the error of the graceful
    shutdown.  [EJoin] waits for the goroutine that listens. *)
Inductive serv_eff : Type -> Type :=
| EListen : serv_eff unit
| ESelect : serv_eff (option string)
| EShutdown (timeout : Z) : serv_eff (option string)
| EJoin : serv_eff unit.

Definition Server_Start (timeout : Z) : io serv_eff (option string) :=
  call EListen;;
  err ← call ESelect;
  match err with
  | Some err => mret (Some err)
  | None => err ← call (EShutdown timeout); call EJoin;; mret err
  end.

(** ** Properties *)

(** docs/api-reference.md: methods and paths, with the handler that does what
    the table says. *)
Definition api_reference : list route :=
  [MkRoute GET [Static "api"; Static "v1"; Static "health"] Health;
   MkRoute GET [Static "api"; Static "v1"; Static "metrics"] Metrics;
   MkRoute GET [Static "api"; Static "v1"; Static "dashboard"] DashboardAPI;
   MkRoute GET [Static "api"; Static "v1"; Static "tasks"] ListTaskTypes;
   MkRoute GET [Static "api"; Static "v1"; Static "workers"] ListWorkers;
   MkRoute POST [Static "api"; Static "v1"; Static "workflows"] CreateWorkflow;
   MkRoute GET [Static "api"; Static "v1"; Static "workflows"] ListWorkflows;
   MkRoute GET [Static "api"; Static "v1"; Static "workflows"; Param "uuid"] GetWorkflow;
   MkRoute DELETE [Static "api"; Static "v1"; Static "workflows"; Param "uuid"] CancelWorkflow;
   MkRoute POST [Static "api"; Static "v1"; Static "workflows"; Param "uuid"; Static "retry"] RetryWorkflow;
   MkRoute POST [Static "api"; Static "v1"; Static "workflows"; Param "uuid"; Static "run"] RunWorkflow;
   MkRoute POST [Static "api"; Static "v1"; Static "workflows"; Param "uuid"; Static "approve"] ApproveWorkflow;
   MkRoute POST [Static "api"; Static "v1"; Static "workflows"; Param "uuid"; Static "reject"] RejectWorkflow;
   MkRoute POST [Static "api"; Static "v1"; Static "webhooks"; Param "uuid"] TriggerWebhook;
   MkRoute GET [Static "api"; Static "v1"; Static "webhooks"] ListWebhookWorkflows;
   MkRoute GET [Static "api"; Static "v1"; Static "history"] ListHistory;
   MkRoute GET [Static "api"; Static "v1"; Static "history"; Static "paged"] ListHistoryPaged;
   MkRoute GET [Static "api"; Static "v1"; Static "history"; Param "uuid"] GetHistory;
   MkRoute GET [Static "ws"] HandleWebSocket].

(** The request for a path with [u] as its parameters. *)
Definition request (u : string) (path : list segment) : list string :=
  (fun s => match s with Static s => s | Param _ => u end) <$> path.

Definition parameters (u : string) (path : list segment) : list (string * string) :=
  omap (fun s => match s with Static _ => None | Param n => Some (n, u) end) path.

Lemma request_matches u path : u <> "" -> matches path (request u path) = Some (parameters u path).
Proof.
  intros Hu. induction path as [|[s|n] path IH]; [done| |]; cbn; [by rewrite decide_True|].
  rewrite decide_False by done. unfold request in IH. by rewrite IH.
Qed.

Lemma static_parameters u path : static path = true -> parameters u path = [].
Proof. induction path as [|[s|n] path IH]; [done| |done]. cbn. intros Hs. by apply IH. Qed.

Lemma routes_distinct : distinct NewServer_routes.
Proof. apply (bool_decide_unpack _). vm_compute. exact I. Qed.

Lemma reference_registered : Forall (fun r => r ∈ NewServer_routes) api_reference.
Proof. apply (bool_decide_unpack _). vm_compute. exact I. Qed.

Section routing.
Context `{GinLaws}.

Lemma serve_unique rs r req ps : r ∈ rs -> matches (r_path r) req = Some ps ->
  (forall r', r' ∈ rs -> r_method r' = r_method r -> is_Some (matches (r_path r') req) -> r' = r) ->
  serve rs (r_method r) req = Some (r_handler r, ps).
Proof.
  intros Hr Hm Hu. destruct (serve_complete rs r req ps Hr Hm) as [[h ps'] Hs]. rewrite Hs.
  destruct (serve_sound _ _ _ _ _ Hs) as (r' & Hr' & Hmeth & <- & Hm').
  assert (r' = r) as -> by (apply Hu; [done|done|by eexists]). congruence.
Qed.

Ltac other_routes :=
  repeat match goal with
  | Hin : _ ∈ _ :: _ |- _ => apply elem_of_cons in Hin as [->|Hin]
  | Hin : _ ∈ [] |- _ => by apply elem_of_nil in Hin
  end.

(** C31: Every row of the documented API is a route: a request with its method
    and path, and any identifier in place of the parameter, reaches the handler of the
    row with that identifier.  The one exception is the identifier paged: the
    history of a workflow of that name is not found, the request gets a page of
    the whole history. *)
Theorem documented_routes (u : string) : u <> "" ->
  (u <> "paged" -> forall r, r ∈ api_reference ->
     serve NewServer_routes (r_method r) (request u (r_path r)) = Some (r_handler r, parameters u (r_path r))) /\
  serve NewServer_routes GET ["api"; "v1"; "history"; "paged"] = Some (ListHistoryPaged, []).
Proof.
  intros Hu. pose proof routes_distinct as Hd. split.
  2: { refine (serve_exact _ (MkRoute GET [Static "api"; Static "v1"; Static "history"; Static "paged"]
    ListHistoryPaged) ["api"; "v1"; "history"; "paged"] Hd _ eq_refl eq_refl). apply (bool_decide_unpack _). vm_compute. exact I. }
  intros Hp r Hr. pose proof (request_matches u (r_path r) Hu) as Hm.
  pose proof (proj1 (list.Forall_forall _ _) reference_registered r Hr) as Hin.
  destruct (static (r_path r)) eqn:Hs.
  - rewrite (static_parameters u _ Hs) in *. by apply serve_exact.
  - apply serve_unique; [done..|]. intros r' Hr' Hmeth [ps Hps]. clear Hm Hin.
    unfold api_reference in Hr. other_routes; try discriminate Hs;
      cbn in Hr'; other_routes; try discriminate Hmeth; cbn in Hps; repeat case_decide; cbn in Hps; congruence.
Qed.

End routing.

(** ** Witness *)

(** The router that looks for an exact route first, then for any. *)
Definition ex_gin : Gin := {| serve := fun rs m req =>
  let fits (r : route) := bool_decide (r_method r = m) && bool_decide (is_Some (matches (r_path r) req)) in
  match filter (fun r => fits r = true /\ static (r_path r) = true) rs ++ filter (fun r => fits r = true) rs with
  | [] => None
  | r :: _ => Some (r_handler r, default [] (matches (r_path r) req))
  end |}.

Lemma static_matches path req : static path = true -> is_Some (matches path req) ->
  path = Static <$> req /\ matches path req = Some [].
Proof.
  revert req. induction path as [|[s|n] path IH]; intros [|x req] Hs Hm; try done;
    try (by destruct Hm as [? [=]]). cbn in *. destruct (decide (s = x)) as [->|]; [|by destruct Hm as [? [=]]].
  destruct (IH req Hs Hm) as [-> ->]. done.
Qed.

Lemma ex_gin_laws : GinLaws (H := ex_gin).
Proof.
  assert (Hfits : forall (r : route) m req, bool_decide (r_method r = m) && bool_decide (is_Some (matches (r_path r) req)) = true <->
    r_method r = m /\ is_Some (matches (r_path r) req)).
  { intros r m req. by rewrite andb_true_iff, !bool_decide_eq_true. }
  split; cbn.
  - intros rs m req h ps Hs. set (l := filter _ rs ++ filter _ rs) in Hs. destruct l as [|r l'] eqn:El; [done|].
    assert (Hr : r ∈ l) by (rewrite El; left). injection Hs as <- <-. exists r.
    assert (Hf : r ∈ rs /\ r_method r = m /\ is_Some (matches (r_path r) req)).
    { unfold l in Hr. apply elem_of_app in Hr as [Hr|Hr]; apply list_elem_of_filter in Hr as [Hf Hr];
        [destruct Hf as [Hf _]|]; apply Hfits in Hf; tauto. }
    destruct Hf as (Hin & Hm & ps & Hps). rewrite Hps. by split_and!.
  - intros rs r req ps Hr Hps. set (l := filter _ rs ++ filter _ rs).
    assert (Hl : r ∈ l).
    { apply elem_of_app. right. apply list_elem_of_filter. split; [|done]. apply Hfits. split; [done|by eexists]. }
    destruct l as [|r' l']; [by apply elem_of_nil in Hl|by eexists].
  - intros rs r req Hd Hr Hst Hps. set (l1 := filter _ rs). set (l2 := filter _ rs).
    assert (Hl : r ∈ l1).
    { apply list_elem_of_filter. split; [|done]. split; [|done]. apply Hfits. split; [done|by eexists]. }
    assert (Hall : forall r', r' ∈ l1 -> r' = r).
    { intros r' [[Hf Hst'] Hr']%list_elem_of_filter. apply Hfits in Hf as [Hm Hps'].
      destruct (static_matches _ _ Hst (ex_intro _ _ Hps)) as [Ep _]. destruct (static_matches _ _ Hst' Hps') as [Ep' _].
      assert (He : r_path r' = r_path r) by congruence. clear -Hd Hr Hr' Hm He.
      apply list_elem_of_lookup in Hr as [i Hi]. apply list_elem_of_lookup in Hr' as [j Hj].
      assert (Hij : i = j).
      { eapply (NoDup_lookup _ _ _ (r_method r, r_path r) Hd); rewrite list_lookup_fmap.
        - by rewrite Hi.
        - by rewrite Hj, <- Hm, <- He. }
      subst. congruence. }
    destruct l1 as [|r' l1]; [by apply elem_of_nil in Hl|]. cbn. rewrite (Hall r') by left.
    by rewrite Hps.
Qed.

Lemma documented_routes_witness :
  serve (Gin := ex_gin) NewServer_routes POST ["api"; "v1"; "workflows"; "w1"; "run"] = Some (RunWorkflow, [("uuid", "w1")]).
Proof.
  destruct (documented_routes (H := ex_gin) (H0 := ex_gin_laws) "w1" ltac:(discriminate)) as [Hr _].
  refine (Hr ltac:(discriminate) (MkRoute POST [Static "api"; Static "v1"; Static "workflows"; Param "uuid"; Static "run"]
    RunWorkflow) _). apply (bool_decide_unpack _). vm_compute. exact I.
Defined.
