(* ===== verification/Builtin.v ===== *)
(** * The built-in tasks (plugin/builtin)

    [fetch_url] puts the content of an address into its output, [write_file]
    writes the content it finds among its inputs to a file; the built-in
    workflow runs one after the other.  Their code makes its calls on a machine
    with files and a network, which answer as the environment decides. *)
From Stdlib Require Import ZArith Lia Ascii String.
From stdpp Require Import base gmap strings list.
From S2P Require Import Prelude GoVal Model Copy Circuit Payload Dispatcher Effects Etcd Runtime.
From S2P Require Import Worker Redelivery Host Wire Api Config.
Set Warnings "-register-all,-clear-no-such-hyp,-level-tolerance".
Local Open Scope Z_scope.
Local Open Scope list_scope.

(** ** [filepath.Dir], on Unix *)

Definition slash : ascii := "/"%char.

Fixpoint has_slash (s : string) : bool :=
  match s with EmptyString => false | String c s' => (c =? slash)%char || has_slash s' end.

(** The path up to and with its last slash. *)
Fixpoint to_last_slash (s : string) : string :=
  match s with
  | EmptyString => ""
  | String c s' => if (c =? slash)%char || has_slash s' then String c (to_last_slash s') else ""
  end.

(** The elements between slashes. *)
Fixpoint elements (s : string) : list string :=
  match s with
  | EmptyString => [""]
  | String c s' =>
      if (c =? slash)%char then "" :: elements s'
      else match elements s' with
           | [] => [String c ""]
           | e :: l => String c e :: l
           end
  end.

(** [out]: the elements of the result so far, the last one first. *)
Definition clean_element (rooted : bool) (out : list string) (e : string) : list string :=
  if decide (e = "" \/ e = ".") then out
  else if decide (e = "..") then
    match out with
    | x :: out' => if decide (x = "..") then ".." :: out else out'
    | [] => if rooted then [] else [".."]
    end
  else e :: out.

Definition Clean (path : string) : string :=
  match path with
  | EmptyString => "."
  | String c _ =>
      let rooted := (c =? slash)%char in
      let out := String.concat "/" (rev (foldl (clean_element rooted) [] (elements path))) in
      if rooted then "/" +:+ out else if decide (out = "") then "." else out
  end.

Definition Dir (path : string) : string := Clean (to_last_slash path).

Example dirs :
  Dir <$> ["/tmp/output.html"; "output.html"; "/x"; "a/./b//c"; "../../f"; "/a/../../f"; "a/b/../f"; ""] =
    ["/tmp"; "."; "/"; "a/b"; "../.."; "/"; "a"; "."].
Proof. vm_compute. reflexivity. Qed.

(** ** The tasks *)

Definition text_param (key label dflt placeholder description : string) : Param :=
  MkParam key label "text" true (VString dflt) [] placeholder description.

Definition fetchURL : Task := MkUserTask "fetch_url"
  [text_param "url" "请求地址" "https://www.example.com" "https://www.example.com" "要获取内容的 URL"] false.

Definition writeFile : Task := MkUserTask "write_file"
  [text_param "file_path" "文件路径" "/tmp/output.html" "/tmp/output.html" "写入的目标文件路径"] false.

(** A response: what reading its body gives. *)
Abbreviation response := (res string string).

Inductive sys : Type -> Type :=
| SNewRequest (url : string) : sys (res string unit)
| SDo (url : string) : sys (res string response)
| SReadAll (resp : response) : sys (res string string)
| SClose : sys unit
| SMkdirAll (dir : string) : sys (res string unit)
| SWriteFile (path content : string) : sys (res string unit).

(** [model.WrapNoRetry]. *)
Definition WrapNoRetry (msg : string) : run_result := RunErr ("no retry: " +:+ msg) true.

Definition fetchURL_Execute (paramCtx taskCtx : Context.Context) : io sys run_result :=
  let url := default "" (Context.GetString paramCtx "url") in
  if decide (url = "") then mret (WrapNoRetry "参数 url 为空，请提供有效的 URL")
  else
    req ← call (SNewRequest url);
    match req with
    | Err e => mret (RunErr ("创建请求失败: " +:+ e) false)
    | Ok _ =>
        resp ← call (SDo url);
        match resp with
        | Err e => mret (RunErr ("请求失败: " +:+ e) false)
        | Ok resp =>
            body ← call (SReadAll resp);
            call SClose;;
            mret match body with
                 | Err e => RunErr ("读取响应失败: " +:+ e) false
                 | Ok body => RunOk (Context.Set_ taskCtx "content" (VString body))
                 end
        end
    end.

Definition writeFile_Execute (paramCtx taskCtx : Context.Context) : io sys run_result :=
  let filePath := default "" (Context.GetString paramCtx "file_path") in
  if decide (filePath = "") then mret (WrapNoRetry "参数 file_path 为空")
  else match Context.GetString taskCtx "content" with
  | None => mret (WrapNoRetry "未找到上游输出 content，请确保前置任务为 fetch_url")
  | Some content =>
      made ← call (SMkdirAll (Dir filePath));
      match made with
      | Err e => mret (RunErr ("创建目录失败: " +:+ e) false)
      | Ok _ =>
          written ← call (SWriteFile filePath content);
          mret match written with
               | Err e => RunErr ("写入文件失败: " +:+ e) false
               | Ok _ => RunOk taskCtx
               end
      end
  end.

(** ** The machine *)

(** [fetched] and [made]: the addresses that were requested and the
    directories that were made, in order; [turn] counts the answers. *)
Record Machine := MkMachine {
  files : gmap string string; made : list string; fetched : list string; turn : nat }.

#[export] Instance eta_Machine : Eta Machine := fun m =>
  MkMachine (files m) (made m) (fetched m) (turn m).

(** A write that fails may leave something in the file.  [other_task]: the
    code of tasks that are not built in. *)
Class Outside := {
  bad_url : string -> option string;
  web : nat -> string -> res string response;
  mkdir : nat -> string -> res string unit;
  write : nat -> string -> string -> res (string * option string) unit;
  other_task : Task -> bool -> Context.Context -> Context.Context -> M Machine run_result }.

Section machine.
Context `{Outside}.

Definition sys_handle : handler sys Machine := fun X e m =>
  match e in sys X return out (X * Machine) with
  | SNewRequest url => Ret (match bad_url url with Some e => Err e | None => Ok tt end, m)
  | SDo url => Ret (web (turn m) url, m <| fetched ::= fun l => l ++ [url] |> <| turn ::= S |>)
  | SReadAll resp => Ret (resp, m)
  | SClose => Ret (tt, m)
  | SMkdirAll dir => Ret (mkdir (turn m) dir, m <| made ::= fun l => l ++ [dir] |> <| turn ::= S |>)
  | SWriteFile path content =>
      let m' := m <| turn ::= S |> in
      Ret match write (turn m) path content with
          | Ok _ => (Ok tt, m' <| files ::= <[path := content]> |>)
          | Err (e, Some rest) => (Err e, m' <| files ::= <[path := rest]> |>)
          | Err (e, None) => (Err e, m')
          end
  end.

#[export] Instance builtin_code : TaskCode Machine := {|
  task_code := fun task rollback paramCtx taskCtx =>
    if decide (task_name task = "fetch_url") then run sys_handle (fetchURL_Execute paramCtx taskCtx)
    else if decide (task_name task = "write_file") then run sys_handle (writeFile_Execute paramCtx taskCtx)
    else other_task task rollback paramCtx taskCtx |}.

End machine.

(** ** Registration (plugin/builtin/master.go, worker.go) *)

Definition NewWorkerPlugin : Plugin := builtin_worker fetchURL writeFile.

Definition MasterPlugin_types : list TaskType :=
  (fun t => MkTaskType (task_name t) "" (task_params t)) <$> [fetchURL; writeFile].

Example builtin_registered :
  match NewWorker_app DefaultConfig (Register_plugins [NewWorkerPlugin] (MkPlugins [] [])) with
  | Ret (_, w) => Get_task "fetch_url" (ex_registry (wk_executor w)) = Some fetchURL /\
      Get_task "write_file" (ex_registry (wk_executor w)) = Some writeFile /\
      size (ex_registry (wk_executor w)) = 2%nat
  | _ => False
  end.
Proof. vm_compute. split_and!; reflexivity. Qed.

(** ** Lemmas *)

Lemma builtin_copied : DeepCopy builtin_workflow = Some builtin_workflow.
Proof. vm_compute. reflexivity. Qed.

Lemma encodable_map_forall m : encodable_map m = true <-> map_Forall (fun _ v => encodable v = true) m.
Proof. apply (map_fold_and (fun _ => encodable)). Qed.

Lemma encodable_strings k s : encodable_map {[k := VString s]} = true.
Proof. apply encodable_map_forall. by apply map_Forall_singleton. Qed.

Lemma json_map_string k s : utf8 k -> json_map {[k := VString s]} = {[k := VString (json_string s)]}.
Proof. intros Hk. rewrite json_map_id; [by rewrite map_fmap_singleton|by apply map_Forall_singleton]. Qed.

Lemma json_map_empty : json_map ∅ = ∅.
Proof. by rewrite json_map_id, fmap_empty by apply map_Forall_empty. Qed.

Lemma merge_into_empty m : merge_into ∅ m = m.
Proof. by rewrite merge_into_eq, map_union_empty. Qed.

Lemma merge_outputs_one m : merge_outputs [m] = m.
Proof. apply merge_into_empty. Qed.

Lemma serializes p :
  encodable_map (pl_Params p) = true -> encodable_map (Input p) = true -> encodable_map (default ∅ (Output p)) = true ->
  Serialize p = Some p.
Proof. unfold Serialize. by intros -> -> ->. Qed.

(** A node as the examples write it: a name and one parameter. *)
Definition node_with (name key value : string) : TaskNode :=
  named_node name <| Params := Some {[key := VString value]} |>.

Definition fetch_node (url : string) : TaskNode := node_with "fetch_url" "url" url.
Definition write_node (path : string) : TaskNode := node_with "write_file" "file_path" path.

(** The calls of a task, up to the next answer. *)
Ltac sys_steps := repeat (unfold mbind, M_bind; cbn -[Dir]).

Section built_in.
Context {C : Type} `{EtcdLaws C, !EtcdReliable C} `{OpenContext} `{Outside}.

Lemma fetch_succeeds rb taskCtx url body m :
  url <> "" -> bad_url url = None -> web (turn m) url = Ok (Ok body) ->
  task_code fetchURL rb (Context.MkContext {["url" := VString url]}) taskCtx m =
    Ret (RunOk (Context.Set_ taskCtx "content" (VString body)),
         m <| fetched ::= fun l => l ++ [url] |> <| turn ::= S |>).
Proof.
  intros Hne Hbad Hweb. cbn -[decide]. rewrite decide_True by done. unfold fetchURL_Execute.
  unfold Context.GetString, Context.Get. cbn [Context.vars default]. rewrite lookup_singleton_eq. cbn [default].
  rewrite decide_False by done. sys_steps. rewrite Hbad. sys_steps. by rewrite Hweb.
Qed.

Lemma write_succeeds rb inputs path content m :
  path <> "" -> inputs !! "content" = Some (VString content) ->
  mkdir (turn m) (Dir path) = Ok tt -> write (S (turn m)) path content = Ok tt ->
  task_code writeFile rb (Context.MkContext {["file_path" := VString path]}) (Context.MkContext inputs) m =
    Ret (RunOk (Context.MkContext inputs),
         m <| made ::= fun l => l ++ [Dir path] |> <| turn ::= fun t => S (S t) |>
           <| files ::= <[path := content]> |>).
Proof.
  intros Hne Hin Hdir Hw. cbn -[decide Dir].
  rewrite decide_False, decide_True by done. unfold writeFile_Execute.
  unfold Context.GetString, Context.Get. cbn [Context.vars default]. rewrite lookup_singleton_eq. cbn [default].
  rewrite decide_False, Hin by done. sys_steps. rewrite Hdir. sys_steps. by rewrite Hw.
Qed.


(** The payload under a key. *)
Definition stored (k : string) (x : Node C * Machine) : option TaskPayload :=
  fst <$> c_kvs (n_etcd x.1) !! k.

(** A payload as the dispatcher writes it. *)
Record is_push (name : string) (params inputs : vmap) (v : TaskPayload) : Prop := {
  push_params : pl_Params v = params;
  push_input : Input v = inputs;
  push_output : Output v = Some ∅;
  push_name : TaskName v = name;
  push_status : pl_Status v = StatusPending;
  push_rollback : Rollback v = false }.

Lemma push_serializes name params inputs v :
  is_push name params inputs v -> encodable_map (json_map params) = true ->
  encodable_map (json_map inputs) = true -> Serialize (taken v) = Some (taken v).
Proof. intros [Hp Hi Ho _ _ _] Hep Hei. by apply serializes; cbn; rewrite ?Hp, ?Hi, ?Ho. Qed.

Lemma node_payload cfg wf uuid name key value ups tid tctx :
  is_push name {[key := VString value]} (merge_outputs ups)
    (task_payload cfg wf uuid (node_with name key value) ups tid tctx).
Proof. split; [|done..]. cbn. by rewrite merge_into_empty. Qed.

(** A worker that knows the built-in tasks executes a PENDING key of one that
    answers well. *)
Lemma Execute_event_builtin e ev v r0 task name params inputs out n m m' :
  lockMode e = LockModeCAS -> is_Some (event_payload ev) -> ex_registry e !! name = Some task ->
  c_kvs (n_etcd n) !! ev_Key ev = Some (v, r0) -> is_push name params inputs v ->
  encodable_map (json_map params) = true -> encodable_map (json_map inputs) = true ->
  (forall ctx, out = RunOk ctx -> encodable_map (Context.GetAll ctx) = true) -> idle n ->
  task_code task false (Context.MkContext (json_map params)) (Context.MkContext (json_map inputs)) m =
    Ret (out, m') ->
  wp (run host_handle (Execute_event e ev)) (fun _ x => x.2 = m' /\ idle x.1 /\
    exists p rev rev', c_kvs (n_etcd x.1) = <[ev_Key ev := (p, rev)]> (c_kvs (n_etcd n)) /\
      p = outcome (taken v <| EtcdModRevision := rev' |>) (answered name out)) (n, m).
Proof.
  intros Hmode [p0 Hev] Htask Hk Hpush Hep Hei Hout Hidle Hcode. unfold Execute_event. rewrite Hev, Hmode.
  pose proof (push_serializes _ _ _ _ Hpush Hep Hei) as Hs. destruct Hpush as [Hp Hi Ho Hn Hpend Hr].
  eapply wp_mono.
  - eapply (executeWithCAS_alone e (ev_Key ev) v r0 task (fun r h => r = out /\ h = m') n m Hidle Hk Hpend).
    + by rewrite Hn.
    + by rewrite Hr.
    + done.
    + unfold wp. rewrite Hr, Hp, Hi, Hcode. split; [done|]. by intros ctx ->%Hout.
  - intros _ x (r & rev & p & [-> Hm] & Hpo & Hkv & _ & Hid). split_and!; [done..|].
    exists p, (c_rev (n_etcd x.1)), rev. split; [done|]. by rewrite Hpo, Hn.
Qed.

(** What is read back of the outputs under a key. *)
Definition outputs_under (k : string) : M (Node C * Machine) vmap :=
  gets (fun x => match stored k x with Some p => default ∅ (Output (Deserialize p)) | None => ∅ end).

Lemma Put_stores k v n (m : Machine) : idle n ->
  wp (on_node (on_etcd (Put k v))) (fun _ x => x.2 = m /\ idle x.1 /\
    exists rev, c_kvs (n_etcd x.1) = <[k := (v, rev)]> (c_kvs (n_etcd n))) (n, m).
Proof.
  intros [Hq Hr]. apply wp_on_node. eapply wp_mono; [apply quiet_step; [done|apply put_written]|].
  intros r n' (Hq' & _ & _ & Hw). split_and!; [done|split; [done|by eapply written_ok]|].
  exists (c_rev (n_etcd n')). by destruct Hw as (_ & ? & _).
Qed.

(** Without an address nothing is requested. *)
Lemma fetch_refuses rb taskCtx m :
  task_code fetchURL rb (Context.MkContext ∅) taskCtx m =
    Ret (RunErr "no retry: 参数 url 为空，请提供有效的 URL" true, m).
Proof. reflexivity. Qed.

(** The executions of the two nodes. *)
Lemma fetch_executed e ev v url body r0 n m :
  lockMode e = LockModeCAS -> ex_registry e !! "fetch_url" = Some fetchURL ->
  is_Some (event_payload ev) -> is_push "fetch_url" {["url" := VString url]} ∅ v ->
  json_string url <> "" -> bad_url (json_string url) = None -> web (turn m) (json_string url) = Ok (Ok body) ->
  idle n -> c_kvs (n_etcd n) !! ev_Key ev = Some (v, r0) ->
  wp (run host_handle (Execute_event e ev)) (fun _ x =>
    x.2 = m <| fetched ::= fun l => l ++ [json_string url] |> <| turn ::= S |> /\ idle x.1 /\
    exists p rev, c_kvs (n_etcd x.1) = <[ev_Key ev := (p, rev)]> (c_kvs (n_etcd n)) /\
      pl_Status p = StatusCompleted /\ Output p = Some {["content" := VString body]}) (n, m).
Proof.
  intros Hmode Hreg Hev Hpush Hurl Hbad Hweb Hidle Hk. eapply wp_mono.
  - eapply (Execute_event_builtin e ev v r0 fetchURL "fetch_url" {["url" := VString url]} ∅
      (RunOk (Context.MkContext {["content" := VString body]}))); try done.
    + intros ? [= <-]. rewrite Context.GetAll_eq. apply encodable_strings.
    + rewrite json_map_string by done. exact (fetch_succeeds _ _ (json_string url) body m Hurl Hbad Hweb).
  - intros _ x (Hm & Hid & p & rev & rev' & Hkv & ->). split_and!; [done..|].
    eexists _, rev. split; [done|]. split; [done|]. cbn. by rewrite Context.GetAll_eq.
Qed.

Lemma write_executed e ev v path content r0 n m :
  lockMode e = LockModeCAS -> ex_registry e !! "write_file" = Some writeFile ->
  is_Some (event_payload ev) ->
  is_push "write_file" {["file_path" := VString path]} {["content" := VString content]} v ->
  json_string path <> "" -> mkdir (turn m) (Dir (json_string path)) = Ok tt ->
  write (S (turn m)) (json_string path) (json_string content) = Ok tt ->
  idle n -> c_kvs (n_etcd n) !! ev_Key ev = Some (v, r0) ->
  wp (run host_handle (Execute_event e ev)) (fun _ x =>
    x.2 = m <| made ::= fun l => l ++ [Dir (json_string path)] |> <| turn ::= fun t => S (S t) |>
            <| files ::= <[json_string path := json_string content]> |> /\ idle x.1 /\
    exists p rev, c_kvs (n_etcd x.1) = <[ev_Key ev := (p, rev)]> (c_kvs (n_etcd n)) /\
      pl_Status p = StatusCompleted) (n, m).
Proof.
  intros Hmode Hreg Hev Hpush Hpath Hdir Hw Hidle Hk. eapply wp_mono.
  - eapply (Execute_event_builtin e ev v r0 writeFile "write_file" {["file_path" := VString path]}
      {["content" := VString content]}
      (RunOk (Context.MkContext {["content" := VString (json_string content)]}))); try done.
    + intros ? [= <-]. rewrite Context.GetAll_eq. apply encodable_strings.
    + rewrite !json_map_string by done. apply (write_succeeds _ _ (json_string path) (json_string content) m); [done| |done..].
      apply lookup_singleton_eq.
  - intros _ x (Hm & Hid & p & rev & rev' & Hkv & ->). split_and!; [done..|]. by eexists _, rev.
Qed.

End built_in.

Lemma refused_outcome v rev name msg :
  let p := outcome (taken v <| EtcdModRevision := rev |>) (answered name (RunErr msg true)) in
  pl_Status p = StatusFailed /\ NoRetry p = true /\ Result p = msg.
Proof. cbn. by rewrite orb_true_r. Qed.

(** What is pushed for the first group of the built-in workflow. *)
Lemma builtin_push wf g node cfg wf' uuid tid tctx :
  DeepCopy builtin_workflow = Some wf -> TaskGroups wf !! 0%nat = Some g -> node ∈ g ->
  is_push "fetch_url" ∅ ∅ (task_payload cfg wf' uuid node [] tid tctx).
Proof.
  intros Hwf Hg Hnode. rewrite builtin_copied in Hwf. injection Hwf as <-.
  assert (Hnode' : node = named_node "fetch_url").
  { apply list_elem_of_singleton. unfold builtin_workflow, AddTaskGroup in Hg. cbn in Hg. by injection Hg as <-. }
  rewrite Hnode'. by split.
Qed.

(** ** Properties *)

(** C5: The documented pipeline, between master and worker: a worker in the
    compare-and-set mode that finds the payload pushed for a [fetch_url] with an
    address that answers leaves its content among the outputs under the key;
    the payload pushed for a [write_file] on those outputs, executed in turn,
    makes the directory and writes exactly that content to the file, with the
    bytes that are not UTF-8 replaced on the way.  Address and path cross etcd
    too and are read with such bytes replaced.  Both
    keys end COMPLETED, and nothing else is requested, made or written. *)
Theorem fetch_then_write {C : Type} `{EtcdLaws C, !EtcdReliable C} `{OpenContext} `{Outside}
    (e : TaskExecutor) (ev1 ev2 : Event) (cfg : DispConfig) (wf : Workflow) (uuid tid1 tid2 : string)
    (tctx1 tctx2 : gmap string string) (url0 path0 body : string) (r0 : Z) (n : Node C) (m : Machine) :
  let pushed1 := task_payload cfg wf uuid (fetch_node url0) [] tid1 tctx1 in
  let pushed2 out := task_payload cfg wf uuid (write_node path0) [out] tid2 tctx2 in
  let url := json_string url0 in
  let path := json_string path0 in
  let content := json_string body in
  lockMode e = LockModeCAS -> ex_registry e !! "fetch_url" = Some fetchURL ->
  ex_registry e !! "write_file" = Some writeFile ->
  is_Some (event_payload ev1) -> is_Some (event_payload ev2) -> ev_Key ev1 <> ev_Key ev2 ->
  url <> "" -> bad_url url = None -> web (turn m) url = Ok (Ok body) ->
  path <> "" -> mkdir (S (turn m)) (Dir path) = Ok tt -> write (S (S (turn m))) path content = Ok tt ->
  idle n -> c_kvs (n_etcd n) !! ev_Key ev1 = Some (pushed1, r0) ->
  wp (run host_handle (Execute_event e ev1);;
      out ← outputs_under (ev_Key ev1);
      on_node (on_etcd (Put (ev_Key ev2) (pushed2 out)));;
      run host_handle (Execute_event e ev2))
    (fun _ x =>
      files x.2 = <[path := content]> (files m) /\ fetched x.2 = fetched m ++ [url] /\
      made x.2 = made m ++ [Dir path] /\
      (exists p, stored (ev_Key ev1) x = Some p /\ pl_Status p = StatusCompleted /\
         Output p = Some {["content" := VString body]}) /\
      (exists p, stored (ev_Key ev2) x = Some p /\ pl_Status p = StatusCompleted)) (n, m).
Proof.
  intros pushed1 pushed2 url path content Hmode Hf Hw Hev1 Hev2 Hne Hurl Hbad Hweb Hpath Hdir Hwrite Hidle Hk.
  apply wp_bind. eapply wp_mono.
  { eapply (fetch_executed e ev1 pushed1 url0 body); done. }
  intros _ [n1 m1]. cbn [fst snd]. intros (-> & Hid1 & p1 & rev1 & Hkv1 & Hs1 & Ho1). cbn [fst snd] in *.
  apply wp_bind, wp_gets. apply wp_bind. unfold stored. cbn [fst]. rewrite Hkv1, lookup_insert_eq. cbn [fmap option_fmap option_map fst].
  assert (Hout : default ∅ (Output (Deserialize p1)) = {["content" := VString content]})
    by (cbn; rewrite Ho1; by apply json_map_string).
  rewrite Hout. eapply wp_mono; [by apply Put_stores|].
  intros r [n2 m2]. cbn [fst snd]. intros (-> & Hid2 & rev2 & Hkv2). cbn [fst snd] in *.
  eapply wp_mono.
  { apply (write_executed e ev2 (pushed2 {["content" := VString content]}) path0 content rev2); [done..| |done| | |done|].
    - pose proof (node_payload cfg wf uuid "write_file" "file_path" path0
        [{["content" := VString content]}] tid2 tctx2) as Hp. by rewrite merge_outputs_one in Hp.
    - exact Hdir.
    - unfold content. rewrite (json_string_utf8 body). exact Hwrite.
    - rewrite Hkv2. apply lookup_insert_eq. }
  intros _ [n3 m3]. cbn [fst snd]. intros (-> & Hid3 & p3 & rev3 & Hkv3 & Hs3). cbn [fst snd] in *. unfold stored. cbn [fst].
  split_and!; [by unfold content; cbn; rewrite (json_string_utf8 body)|done..| |].
  - exists p1. rewrite Hkv3, lookup_insert_ne, Hkv2, lookup_insert_ne, Hkv1, lookup_insert_eq by done. done.
  - exists p3. by rewrite Hkv3, lookup_insert_eq.
Qed.

(** The built-in workflow fails whenever it is run: its nodes carry no
    parameters, and the default that [fetch_url] declares for its address, as
    the registration of a task demands, is not put in anywhere.  The payload
    pushed for its first group, executed by a worker, ends FAILED and not to be
    retried, whatever the network and the disk are; neither is touched. *)
Theorem builtin_workflow_fails {C : Type} `{EtcdLaws C, !EtcdReliable C} `{OpenContext} `{Outside}
    (e : TaskExecutor) (ev : Event) (cfg : DispConfig) (wf : Workflow) (g : list TaskNode) (node : TaskNode)
    (uuid tid : string) (tctx : gmap string string) (r0 : Z) (n : Node C) (m : Machine) :
  DeepCopy builtin_workflow = Some wf -> TaskGroups wf !! 0%nat = Some g -> node ∈ g ->
  let pushed := task_payload cfg wf uuid node [] tid tctx in
  lockMode e = LockModeCAS -> ex_registry e !! "fetch_url" = Some fetchURL ->
  is_Some (event_payload ev) -> idle n -> c_kvs (n_etcd n) !! ev_Key ev = Some (pushed, r0) ->
  wp (run host_handle (Execute_event e ev)) (fun _ x => x.2 = m /\
    exists p, stored (ev_Key ev) x = Some p /\ pl_Status p = StatusFailed /\ NoRetry p = true /\
      Result p = "no retry: 参数 url 为空，请提供有效的 URL") (n, m).
Proof.
  intros Hwf Hg Hnode pushed Hmode Hreg Hev Hidle Hk.
  assert (Hpush := builtin_push wf g node cfg wf uuid tid tctx Hwf Hg Hnode).
  fold pushed in Hpush. clearbody pushed.
  pose proof (Execute_event_builtin e ev pushed r0 fetchURL "fetch_url" ∅ ∅
    (RunErr "no retry: 参数 url 为空，请提供有效的 URL" true) n m m Hmode Hev Hreg Hk Hpush eq_refl eq_refl) as Hx.
  eapply wp_mono; [apply Hx|]; [by intros ? [=]|done|rewrite json_map_empty; apply fetch_refuses|].
  intros _ x (Hm & _ & p & rev & rev' & Hkv & Hp). split; [done|]. exists p. split.
  - unfold stored. by rewrite Hkv, lookup_insert_eq.
  - rewrite Hp. apply refused_outcome.
Qed.

(** ** A concrete worker *)

Definition ex_outside : Outside := {|
  bad_url := fun url => if has_slash url then None else Some "missing host";
  web := fun _ _ => Ok (Ok "hello");
  mkdir := fun _ _ => Ok tt;
  write := fun _ _ _ => Ok tt;
  other_task := fun _ _ _ _ => mret (RunErr "?" false) |}.

#[local] Existing Instances ex_empty_env ex_outside.

#[local] Instance ex_open : OpenContext.
Proof. done. Qed.

Definition ex_builtin_worker : TaskExecutor :=
  SetLockMode LockModeCAS (NewTaskExecutor "/tasks/" (<["write_file" := writeFile]> {["fetch_url" := fetchURL]})).

Definition ex_node_with (key : string) (v : TaskPayload) : Node Kv :=
  MkNode (kv_write key v (MkKv ∅ 0 [])) (NewBreaker "etcd" workerEtcdMaxFailures workerEtcdCooldown 0) 0 0 [].

Definition ex_machine : Machine := MkMachine ∅ [] [] 0.

Definition ex_event (key : string) : Event := MkEvent_ true key "" (Some zero_payload) None.

Lemma ex_idle key v : idle (ex_node_with key v).
Proof.
  split; [done|]. split; [done|]. intros k p r. cbn.
  intros [[_ [= _ <-]]|[_ Hn]]%lookup_insert_Some; [lia|]. by rewrite lookup_empty in Hn.
Qed.

Lemma fetch_then_write_witness :
  let cfg := MkDispConfig 250 100 300 30 1 in
  let pushed1 := task_payload cfg builtin_workflow "u" (fetch_node "http://a/") [] "t1" ∅ in
  let pushed2 out := task_payload cfg builtin_workflow "u" (write_node "/tmp/out.html") [out] "t2" ∅ in
  wp (run host_handle
        (Execute_event ex_builtin_worker (ex_event "k1"));;
      out ← outputs_under "k1";
      on_node (on_etcd (Put "k2" (pushed2 out)));;
      run host_handle
        (Execute_event ex_builtin_worker (ex_event "k2")))
    (fun _ x => files x.2 = {["/tmp/out.html" := "hello"]} /\ made x.2 = ["/tmp"])
    (ex_node_with "k1" pushed1, ex_machine).
Proof.
  intros cfg pushed1 pushed2. 
  eapply wp_mono.
  - apply (fetch_then_write ex_builtin_worker (ex_event "k1")
      (ex_event "k2") cfg builtin_workflow "u" "t1" "t2" ∅ ∅ "http://a/" "/tmp/out.html" "hello" 1
      (ex_node_with "k1" pushed1) ex_machine); try done; try (by eexists).
    apply ex_idle.
  - intros _ x (Hf & _ & Hm & _). split; [exact Hf|exact Hm].
Defined.

Lemma builtin_workflow_fails_witness :
  let pushed := task_payload (MkDispConfig 250 100 300 30 1) builtin_workflow "u"
    (named_node "fetch_url") [] "t" ∅ in
  wp (run host_handle
       (Execute_event ex_builtin_worker (ex_event "k")))
    (fun _ x => fetched x.2 = []) (ex_node_with "k" pushed, ex_machine).
Proof.
  intros pushed. eapply wp_mono.
  - apply (builtin_workflow_fails ex_builtin_worker (ex_event "k")
      (MkDispConfig 250 100 300 30 1) builtin_workflow [named_node "fetch_url"] (named_node "fetch_url")
      "u" "t" ∅ 1 (ex_node_with "k" pushed) ex_machine).
    + exact builtin_copied.
    + reflexivity.
    + by left.
    + reflexivity.
    + reflexivity.
    + by eexists.
    + apply ex_idle.
    + reflexivity.
  - intros _ x [-> _]. reflexivity.
Defined.
